(** * GSH_VulkanDraw: the draw orchestrator and the shader synthesizer

    A shallow embedding of [Source/gs/GSH_Vulkan/GSH_VulkanDraw.cpp].

    - The CPU side ([CDraw]'s setters, [AddVertices], [FlushVertices],
      [PrepareDescriptorSet], [CreateDrawPipeline]) is a state-and-error
      monad over a record of the class members; Vulkan calls are recorded
      as commands, [assert] is a fatal error.
    - The shader side ([CreateVertexShader], [CreateFragmentShader] and the
      static helpers) is a writer monad over the statements the Nuanceur
      builder receives; the programs it emits are given a semantics that is
      parametric in the arithmetic of the GPU and in [CMemoryUtils]. *)

From Stdlib Require Import ZArith NArith QArith List Bool Lia.
Import ListNotations.
Local Open Scope Z_scope.

(* ================================================================== *)
(** * Enumerations of the GS handler *)

(** Modelled from the spec: [GSHandler.h] and [GsPixelFormats.h] are not
    part of the source tree.  Each enumeration has the enumerators that
    [GSH_VulkanDraw.cpp] names, and one more constructor for every other
    value the bit-field of the capability descriptor can hold (the
    [default:] label of the switches). *)
Module CGSHandler.

Inductive PSM : Type :=
| PSMCT32 | PSMCT24 | PSMCT16 | PSMCT16S
| PSMT8 | PSMT4 | PSMT8H | PSMT4HL | PSMT4HH
| PSMZ32 | PSMZ24 | PSMZ16 | PSMZ16S
| PSM_OTHER (raw : N).

Inductive CLAMP_MODE : Type :=
| CLAMP_MODE_REPEAT
| CLAMP_MODE_CLAMP
| CLAMP_MODE_REGION_CLAMP
| CLAMP_MODE_REGION_REPEAT
| CLAMP_MODE_OTHER (raw : N).

Inductive TEX0_FUNCTION : Type :=
| TEX0_FUNCTION_MODULATE
| TEX0_FUNCTION_DECAL
| TEX0_FUNCTION_HIGHLIGHT2
| TEX0_FUNCTION_OTHER (raw : N).

Inductive ALPHA_TEST : Type :=
| ALPHA_TEST_ALWAYS
| ALPHA_TEST_EQUAL
| ALPHA_TEST_GEQUAL
| ALPHA_TEST_OTHER (raw : N).

Inductive DEPTH_TEST : Type :=
| DEPTH_TEST_ALWAYS
| DEPTH_TEST_NEVER
| DEPTH_TEST_GEQUAL
| DEPTH_TEST_GREATER
| DEPTH_TEST_OTHER (raw : N).

Inductive ALPHABLEND_ABD : Type :=
| ALPHABLEND_ABD_CS
| ALPHABLEND_ABD_CD
| ALPHABLEND_ABD_ZERO
| ALPHABLEND_ABD_OTHER (raw : N).

Inductive ALPHABLEND_C : Type :=
| ALPHABLEND_C_AS
| ALPHABLEND_C_AD
| ALPHABLEND_C_FIX
| ALPHABLEND_C_OTHER (raw : N).

Definition PSM_eq_dec (a b : PSM) : {a = b} + {a <> b}.
Proof. decide equality; apply N.eq_dec. Defined.
Definition CLAMP_MODE_eq_dec (a b : CLAMP_MODE) : {a = b} + {a <> b}.
Proof. decide equality; apply N.eq_dec. Defined.
Definition TEX0_FUNCTION_eq_dec (a b : TEX0_FUNCTION) : {a = b} + {a <> b}.
Proof. decide equality; apply N.eq_dec. Defined.
Definition ALPHA_TEST_eq_dec (a b : ALPHA_TEST) : {a = b} + {a <> b}.
Proof. decide equality; apply N.eq_dec. Defined.
Definition DEPTH_TEST_eq_dec (a b : DEPTH_TEST) : {a = b} + {a <> b}.
Proof. decide equality; apply N.eq_dec. Defined.
Definition ALPHABLEND_ABD_eq_dec (a b : ALPHABLEND_ABD) : {a = b} + {a <> b}.
Proof. decide equality; apply N.eq_dec. Defined.
Definition ALPHABLEND_C_eq_dec (a b : ALPHABLEND_C) : {a = b} + {a <> b}.
Proof. decide equality; apply N.eq_dec. Defined.

End CGSHandler.
Export CGSHandler.

(** Modelled from the spec: the pixel-format classification collaborator
    ([CGsPixelFormats], not in the source tree): the storage classes that
    select an addressing scheme, and the indexed-format predicates (the
    4-bit and 8-bit colour-lookup formats). *)
Module CGsPixelFormats.

Inductive STORAGE : Type :=
| STORAGEPSMCT32 | STORAGEPSMCT16 | STORAGEPSMT8 | STORAGEPSMZ32.

Definition IsPsmIDTEX4 (psm : PSM) : bool :=
  match psm with
  | PSMT4 | PSMT4HL | PSMT4HH => true
  | _ => false
  end.

Definition IsPsmIDTEX8 (psm : PSM) : bool :=
  match psm with
  | PSMT8 | PSMT8H => true
  | _ => false
  end.

Definition IsPsmIDTEX (psm : PSM) : bool :=
  IsPsmIDTEX4 psm || IsPsmIDTEX8 psm.

End CGsPixelFormats.
Export CGsPixelFormats.

(* ================================================================== *)
(** * The capability descriptors and the push constants *)

(** Modelled from the spec: [GSH_VulkanDraw.h] is not part of the source
    tree.  [PIPELINE_CAPS] has the fields that [GSH_VulkanDraw.cpp] reads;
    the conversion to [uint64] that [SetPipelineCaps] compares is
    injective on them, so two descriptors are bitwise equal exactly when
    the records are equal. *)
Record PIPELINE_CAPS : Type := {
  hasTexture : bool;
  textureHasAlpha : bool;
  textureBlackIsTransparent : bool;
  textureFunction : TEX0_FUNCTION;
  texClampU : CLAMP_MODE;
  texClampV : CLAMP_MODE;
  hasAlphaBlending : bool;
  alphaA : ALPHABLEND_ABD;
  alphaB : ALPHABLEND_ABD;
  alphaC : ALPHABLEND_C;
  alphaD : ALPHABLEND_ABD;
  depthTestFunction : DEPTH_TEST;
  alphaTestFunction : ALPHA_TEST;
  writeDepth : bool;
  maskColor : bool;
  textureFormat : PSM;
  clutFormat : PSM;
  framebufferFormat : PSM;
  depthbufferFormat : PSM
}.

Definition PIPELINE_CAPS_eq_dec (a b : PIPELINE_CAPS) : {a = b} + {a <> b}.
Proof.
  decide equality;
    first [ apply PSM_eq_dec | apply Bool.bool_dec
          | apply CLAMP_MODE_eq_dec | apply TEX0_FUNCTION_eq_dec
          | apply ALPHA_TEST_eq_dec | apply DEPTH_TEST_eq_dec
          | apply ALPHABLEND_ABD_eq_dec | apply ALPHABLEND_C_eq_dec ].
Defined.

(** The descriptor-set key: [make_convertible<DESCRIPTORSET_CAPS>(0)] with
    the four fields that [FlushVertices] copies. *)
Record DESCRIPTORSET_CAPS : Type := {
  ds_hasTexture : bool;
  ds_framebufferFormat : PSM;
  ds_depthbufferFormat : PSM;
  ds_textureFormat : PSM
}.

Definition DESCRIPTORSET_CAPS_eq_dec (a b : DESCRIPTORSET_CAPS) :
  {a = b} + {a <> b}.
Proof. decide equality; first [ apply PSM_eq_dec | apply Bool.bool_dec ]. Defined.

(** [DRAW_PIPELINE_PUSHCONSTANTS]: every field is a [uint32]. *)
Record DRAW_PIPELINE_PUSHCONSTANTS : Type := {
  fbBufAddr : Z;
  fbBufWidth : Z;
  fbWriteMask : Z;
  depthBufAddr : Z;
  depthBufWidth : Z;
  texBufAddr : Z;
  texBufWidth : Z;
  texWidth : Z;
  texHeight : Z;
  texCsa : Z;
  texA0 : Z;
  texA1 : Z;
  clampMin0 : Z;
  clampMin1 : Z;
  clampMax0 : Z;
  clampMax1 : Z;
  alphaFix : Z;
  alphaRef : Z
}.

(** The [#define]s of the file. *)
Definition VERTEX_ATTRIB_LOCATION_POSITION : Z := 0.
Definition VERTEX_ATTRIB_LOCATION_DEPTH : Z := 1.
Definition VERTEX_ATTRIB_LOCATION_COLOR : Z := 2.
Definition VERTEX_ATTRIB_LOCATION_TEXCOORD : Z := 3.

Definition DESCRIPTOR_LOCATION_BUFFER_MEMORY : Z := 0.
Definition DESCRIPTOR_LOCATION_IMAGE_CLUT : Z := 1.
Definition DESCRIPTOR_LOCATION_IMAGE_SWIZZLETABLE_TEX : Z := 2.
Definition DESCRIPTOR_LOCATION_IMAGE_SWIZZLETABLE_FB : Z := 3.
Definition DESCRIPTOR_LOCATION_IMAGE_SWIZZLETABLE_DEPTH : Z := 4.

Definition DRAW_AREA_SIZE : Z := 1024.
Definition MAX_VERTEX_COUNT : Z := 1024 * 128.

Definition DEPTH_MAX : Q := 4294967296 # 1.

(* ================================================================== *)
(** * The shader builder (Nuanceur) *)

(** Modelled from the spec: the Nuanceur builder is a library of the
    repository that is not in the source tree.  Its rvalues are kept as
    expression trees over the four scalar sorts (float, int, uint, bool);
    a vector is the tuple of its components and a vector operation is the
    operation on each component.  The functions of [CMemoryUtils] stay
    nodes of the tree.  What the builder records, in order, are the
    assignments to its variables and temporaries, the memory stores, and
    the [BeginIf]/[EndIf] and invocation-interlock markers. *)
Module Nuanceur.

Inductive Component : Type := cx | cy | cz | cw.

Inductive SEMANTIC : Type :=
| SEMANTIC_POSITION
| SEMANTIC_TEXCOORD
| SEMANTIC_SYSTEM_POSITION
| SEMANTIC_SYSTEM_COLOR.

(** The uniforms of unit [UNIFORM_UNIT_PUSHCONSTANT], by name. *)
Inductive Uniform : Type :=
| fbDepthParams | texParams0 | texParams1 | texParams2 | alphaFbParams.

(** Lvalues: the named variable, the temporaries of each sort (by the
    C++ variable that holds them), and the outputs. *)
Inductive Float4Sym : Type :=
| Var_textureColor
| Tmp_dstColor
| Output (sem : SEMANTIC) (index : Z).

Inductive IntSym : Type := Tmp_fbAddress | Tmp_depthAddress | Tmp_clutIndex.
Inductive UintSym : Type := Tmp_dstPixel | Tmp_dstDepth.
Inductive BoolSym : Type := Tmp_alphaTestResult | Tmp_depthTestResult.

Inductive fexp : Type :=
| NewFloat (c : Q)
| InputF (sem : SEMANTIC) (index : Z) (c : Component)
| VarF (v : Float4Sym) (c : Component)
| FAdd (a b : fexp)
| FSub (a b : fexp)
| FMul (a b : fexp)
| FDiv (a b : fexp)
| FClamp (x lo hi : fexp)
| FMix (a b t : fexp)
| IToFloat (a : iexp)
| UToFloat (a : uexp)
| PSM32ToVec4 (pixel : uexp) (c : Component)
| PSM16ToVec4 (pixel : uexp) (c : Component)
with iexp : Type :=
| NewInt (c : Z)
| UniformI (u : Uniform) (c : Component)
| VarI (v : IntSym)
| IAdd (a b : iexp)
| ISub (a b : iexp)
| IMul (a b : iexp)
| IAnd (a b : iexp)
| IOr (a b : iexp)
| IClamp (x lo hi : iexp)
| FToInt (a : fexp)
| UToInt (a : uexp)
| GetPixelAddress (storage : STORAGE) (swizzleTable : Z)
                  (bufAddress bufWidth px py : iexp)
| GetPixelAddress_PSMT4 (swizzleTable : Z)
                        (bufAddress bufWidth px py : iexp)
with uexp : Type :=
| NewUint (c : Z)
| InputU (sem : SEMANTIC) (index : Z) (c : Component)
| VarU (v : UintSym)
| UAnd (a b : uexp)
| UOr (a b : uexp)
| UShl (a b : uexp)
| UNot (a : uexp)
| FToUint (a : fexp)
| IToUint (a : iexp)
| LoadX (image : Z) (px py : iexp)
| Memory_Read32 (address : iexp)
| Memory_Read24 (address : iexp)
| Memory_Read16 (address : iexp)
| Memory_Read8 (address : iexp)
| Memory_Read4 (nibAddress : iexp)
| Vec4ToPSM32 (r g b a : fexp)
| Vec4ToPSM16 (r g b a : fexp).

Inductive bexp : Type :=
| NewBool (c : bool)
| VarB (v : BoolSym)
| UEq (a b : uexp)
| UGe (a b : uexp)
| UGt (a b : uexp)
| FEq (a b : fexp).

Record Float2 : Type := NewFloat2 { f2x : fexp; f2y : fexp }.
Record Float3 : Type := NewFloat3 { f3x : fexp; f3y : fexp; f3z : fexp }.
Record Float4 : Type :=
  NewFloat4 { f4x : fexp; f4y : fexp; f4z : fexp; f4w : fexp }.
Record Int2 : Type := NewInt2 { i2x : iexp; i2y : iexp }.

Inductive Stmt : Type :=
| AssignF4 (v : Float4Sym) (e : Float4)
| AssignI (v : IntSym) (e : iexp)
| AssignU (v : UintSym) (e : uexp)
| AssignB (v : BoolSym) (e : bexp)
| Memory_Write32 (address : iexp) (value : uexp)
| Memory_Write24 (address : iexp) (value : uexp)
| Memory_Write16 (address : iexp) (value : uexp)
| BeginIf (c : bexp)
| EndIf
| BeginInvocationInterlock
| EndInvocationInterlock.

(** ** Swizzles and component-wise operators *)

Definition xyzw (v : Float4Sym) : Float4 :=
  NewFloat4 (VarF v cx) (VarF v cy) (VarF v cz) (VarF v cw).
Definition input4 (sem : SEMANTIC) (index : Z) : Float4 :=
  NewFloat4 (InputF sem index cx) (InputF sem index cy)
            (InputF sem index cz) (InputF sem index cw).
Definition xyz (v : Float4) : Float3 := NewFloat3 (f4x v) (f4y v) (f4z v).
Definition www (v : Float4) : Float3 := NewFloat3 (f4w v) (f4w v) (f4w v).
Definition wwww (v : Float4) : Float4 :=
  NewFloat4 (f4w v) (f4w v) (f4w v) (f4w v).
Definition xxx (a : fexp) : Float3 := NewFloat3 a a a.
Definition NewFloat4_3 (v : Float3) (a : fexp) : Float4 :=
  NewFloat4 (f3x v) (f3y v) (f3z v) a.
Definition NewFloat4c (x y z w : Q) : Float4 :=
  NewFloat4 (NewFloat x) (NewFloat y) (NewFloat z) (NewFloat w).
Definition NewFloat3c (x y z : Q) : Float3 :=
  NewFloat3 (NewFloat x) (NewFloat y) (NewFloat z).

Definition map2_3 (op : fexp -> fexp -> fexp) (a b : Float3) : Float3 :=
  NewFloat3 (op (f3x a) (f3x b)) (op (f3y a) (f3y b)) (op (f3z a) (f3z b)).
Definition map2_4 (op : fexp -> fexp -> fexp) (a b : Float4) : Float4 :=
  NewFloat4 (op (f4x a) (f4x b)) (op (f4y a) (f4y b))
            (op (f4z a) (f4z b)) (op (f4w a) (f4w b)).
Definition Clamp4 (v lo hi : Float4) : Float4 :=
  NewFloat4 (FClamp (f4x v) (f4x lo) (f4x hi))
            (FClamp (f4y v) (f4y lo) (f4y hi))
            (FClamp (f4z v) (f4z lo) (f4z hi))
            (FClamp (f4w v) (f4w lo) (f4w hi)).

(** ** The builder: a writer of statements that an [assert] aborts *)

Definition Gen (A : Type) : Type := option (A * list Stmt).

Definition ret {A} (a : A) : Gen A := Some (a, []).
Definition emit (s : Stmt) : Gen unit := Some (tt, [s]).
Definition assert_false {A} : Gen A := None.
Definition bind {A B} (m : Gen A) (f : A -> Gen B) : Gen B :=
  match m with
  | None => None
  | Some (a, l1) =>
      match f a with
      | None => None
      | Some (b, l2) => Some (b, l1 ++ l2)
      end
  end.

(** The statements of a generated program. *)
Definition program {A} (m : Gen A) : option (list Stmt) :=
  match m with
  | None => None
  | Some (_, l) => Some l
  end.

End Nuanceur.
Export Nuanceur.

Declare Scope gen_scope.
Delimit Scope gen_scope with gen.
Notation "x <- m ;; k" := (bind m (fun x => k))
  (at level 61, m at next level, right associativity) : gen_scope.
Notation "m ;; k" := (bind m (fun _ => k))
  (at level 61, right associativity) : gen_scope.
Notation "v <~F4 e" := (emit (AssignF4 v e)) (at level 60) : gen_scope.
Notation "v <~I e" := (emit (AssignI v e)) (at level 60) : gen_scope.
Notation "v <~U e" := (emit (AssignU v e)) (at level 60) : gen_scope.
Notation "v <~B e" := (emit (AssignB v e)) (at level 60) : gen_scope.

(* ================================================================== *)
(** * The shader synthesizer *)

Local Open Scope gen_scope.

Definition assert_ (c : bool) : Gen unit :=
  if c then ret tt else assert_false.

Definition PSM_eqb (a b : PSM) : bool :=
  if PSM_eq_dec a b then true else false.

Definition PSM32ToVec4_v (pixel : uexp) : Float4 :=
  NewFloat4 (PSM32ToVec4 pixel cx) (PSM32ToVec4 pixel cy)
            (PSM32ToVec4 pixel cz) (PSM32ToVec4 pixel cw).
Definition PSM16ToVec4_v (pixel : uexp) : Float4 :=
  NewFloat4 (PSM16ToVec4 pixel cx) (PSM16ToVec4 pixel cy)
            (PSM16ToVec4 pixel cz) (PSM16ToVec4 pixel cw).
Definition Vec4ToPSM32_v (color : Float4) : uexp :=
  Vec4ToPSM32 (f4x color) (f4y color) (f4z color) (f4w color).
Definition Vec4ToPSM16_v (color : Float4) : uexp :=
  Vec4ToPSM16 (f4x color) (f4y color) (f4z color) (f4w color).

(** [CDraw::CreateVertexShader] (lines 612-643). *)
Definition CreateVertexShader : Gen unit :=
  let inputPosition := input4 SEMANTIC_POSITION 0 in
  let inputDepth (c : Component) :=
    InputU SEMANTIC_TEXCOORD (VERTEX_ATTRIB_LOCATION_DEPTH - 1) c in
  let inputColor :=
    input4 SEMANTIC_TEXCOORD (VERTEX_ATTRIB_LOCATION_COLOR - 1) in
  let inputTexCoord :=
    input4 SEMANTIC_TEXCOORD (VERTEX_ATTRIB_LOCATION_TEXCOORD - 1) in
  let outputPosition := Output SEMANTIC_SYSTEM_POSITION 0 in
  let outputDepth := Output SEMANTIC_TEXCOORD 1 in
  let outputColor := Output SEMANTIC_TEXCOORD 2 in
  let outputTexCoord := Output SEMANTIC_TEXCOORD 3 in
  let scale := NewFloat (2 / (DRAW_AREA_SIZE # 1)) in
  let position :=
    NewFloat2 (FAdd (FMul (f4x inputPosition) scale) (NewFloat (-1 # 1)))
              (FAdd (FMul (f4y inputPosition) scale) (NewFloat (-1 # 1))) in
  outputPosition <~F4
    NewFloat4 (f2x position) (f2y position) (NewFloat 0) (NewFloat 1) ;;
  outputDepth <~F4
    NewFloat4 (FDiv (UToFloat (inputDepth cx)) (NewFloat DEPTH_MAX))
              (FDiv (UToFloat (inputDepth cy)) (NewFloat DEPTH_MAX))
              (FDiv (UToFloat (inputDepth cz)) (NewFloat DEPTH_MAX))
              (FDiv (UToFloat (inputDepth cw)) (NewFloat DEPTH_MAX)) ;;
  outputColor <~F4 inputColor ;;
  outputTexCoord <~F4 inputTexCoord.

(** [GetDepth] (lines 645-660). *)
Definition GetDepth (depthFormat : PSM) (depthAddress : iexp) : Gen uexp :=
  match depthFormat with
  | PSMZ32 => ret (Memory_Read32 depthAddress)
  | PSMZ24 => ret (Memory_Read24 depthAddress)
  | PSMZ16 | PSMZ16S => ret (Memory_Read16 depthAddress)
  | _ => assert_false
  end.

(** [ClampTexCoord] (lines 662-681). *)
Definition ClampTexCoord (clampMode : CLAMP_MODE)
    (texCoord texSize clampMin clampMax : iexp) : Gen iexp :=
  match clampMode with
  | CLAMP_MODE_REPEAT =>
      ret (IAnd texCoord (ISub texSize (NewInt 1)))
  | CLAMP_MODE_CLAMP =>
      ret (IClamp texCoord (NewInt 0) (ISub texSize (NewInt 1)))
  | CLAMP_MODE_REGION_CLAMP =>
      ret (IClamp texCoord clampMin clampMax)
  | CLAMP_MODE_REGION_REPEAT =>
      ret (IOr (IAnd texCoord clampMin) clampMax)
  | CLAMP_MODE_OTHER _ => assert_false
  end.

(** [GetClutColor] (lines 683-718). *)
Definition GetClutColor (textureFormat clutFormat : PSM) (texPixel : uexp)
    (clutImage : Z) (texCsa : iexp) : Gen Float4 :=
  assert_ (IsPsmIDTEX textureFormat) ;;
  let idx8 := IsPsmIDTEX8 textureFormat in
  let clutIndex := Tmp_clutIndex in
  (if idx8
   then clutIndex <~I UToInt texPixel
   else clutIndex <~I IAdd (UToInt texPixel) texCsa) ;;
  match clutFormat with
  | PSMCT32 | PSMCT24 =>
      let clutIndexLo := NewInt2 (VarI clutIndex) (NewInt 0) in
      let clutIndexHi :=
        NewInt2 (IAdd (VarI clutIndex) (NewInt 256)) (NewInt 0) in
      let clutPixelLo := LoadX clutImage (i2x clutIndexLo) (i2y clutIndexLo) in
      let clutPixelHi := LoadX clutImage (i2x clutIndexHi) (i2y clutIndexHi) in
      let clutPixel := UOr clutPixelLo (UShl clutPixelHi (NewUint 16)) in
      ret (PSM32ToVec4_v clutPixel)
  | _ => assert_false
  end.

(** [GetTextureColor] (lines 720-790). *)
Definition GetTextureColor (textureFormat clutFormat : PSM) (texelPos : Int2)
    (clutImage texSwizzleTable : Z) (texBufAddress texBufWidth texCsa : iexp)
    : Gen Float4 :=
  let GetPixelAddress_ (storage : STORAGE) :=
    GetPixelAddress storage texSwizzleTable texBufAddress texBufWidth
                    (i2x texelPos) (i2y texelPos) in
  match textureFormat with
  | PSMCT32 =>
      let texAddress := GetPixelAddress_ STORAGEPSMCT32 in
      let texPixel := Memory_Read32 texAddress in
      ret (PSM32ToVec4_v texPixel)
  | PSMCT24 =>
      let texAddress := GetPixelAddress_ STORAGEPSMCT32 in
      let texPixel := Memory_Read24 texAddress in
      ret (PSM32ToVec4_v texPixel)
  | PSMCT16S =>
      let texAddress := GetPixelAddress_ STORAGEPSMCT16 in
      let texPixel := Memory_Read16 texAddress in
      ret (PSM16ToVec4_v texPixel)
  | PSMT8 =>
      let texAddress := GetPixelAddress_ STORAGEPSMT8 in
      let texPixel := Memory_Read8 texAddress in
      GetClutColor textureFormat clutFormat texPixel clutImage texCsa
  | PSMT4 =>
      let texAddress :=
        GetPixelAddress_PSMT4 texSwizzleTable texBufAddress texBufWidth
                              (i2x texelPos) (i2y texelPos) in
      let texPixel := Memory_Read4 texAddress in
      GetClutColor textureFormat clutFormat texPixel clutImage texCsa
  | PSMT8H =>
      let texAddress := GetPixelAddress_ STORAGEPSMCT32 in
      let texPixel := Memory_Read8 (IAdd texAddress (NewInt 3)) in
      GetClutColor textureFormat clutFormat texPixel clutImage texCsa
  | PSMT4HL =>
      let texAddress := GetPixelAddress_ STORAGEPSMCT32 in
      let texNibAddress := IMul (IAdd texAddress (NewInt 3)) (NewInt 2) in
      let texPixel := Memory_Read4 texNibAddress in
      GetClutColor textureFormat clutFormat texPixel clutImage texCsa
  | PSMT4HH =>
      let texAddress := GetPixelAddress_ STORAGEPSMCT32 in
      let texNibAddress :=
        IOr (IMul (IAdd texAddress (NewInt 3)) (NewInt 2)) (NewInt 1) in
      let texPixel := Memory_Read4 texNibAddress in
      GetClutColor textureFormat clutFormat texPixel clutImage texCsa
  | _ => assert_false
  end.

(** [ExpandAlpha] (lines 792-832). *)
Definition ExpandAlpha (textureFormat clutFormat : PSM)
    (texBlackIsTransparent : bool) (textureColor : Float4Sym)
    (textureA0 textureA1 : fexp) : Gen unit :=
  let requiresExpansion :=
    if IsPsmIDTEX textureFormat
    then PSM_eqb clutFormat PSMCT16 || PSM_eqb clutFormat PSMCT16S
    else PSM_eqb textureFormat PSMCT24 || PSM_eqb textureFormat PSMCT16
         || PSM_eqb textureFormat PSMCT16S in
  if negb requiresExpansion then ret tt
  else
    let alpha := FMix textureA0 textureA1 (VarF textureColor cw) in
    textureColor <~F4 NewFloat4_3 (xyz (xyzw textureColor)) alpha ;;
    if texBlackIsTransparent
    then
      let colorSum :=
        FAdd (FAdd (VarF textureColor cx) (VarF textureColor cy))
             (VarF textureColor cz) in
      emit (BeginIf (FEq colorSum (NewFloat 0))) ;;
      textureColor <~F4 NewFloat4_3 (xyz (xyzw textureColor)) (NewFloat 0) ;;
      emit EndIf
    else ret tt.

(** [GetAlphaABD] (lines 834-848). *)
Definition GetAlphaABD (alphaABD : ALPHABLEND_ABD)
    (srcColor dstColor : Float4) : Gen Float3 :=
  match alphaABD with
  | ALPHABLEND_ABD_CS => ret (xyz srcColor)
  | ALPHABLEND_ABD_CD => ret (xyz dstColor)
  | ALPHABLEND_ABD_ZERO => ret (NewFloat3c 0 0 0)
  | ALPHABLEND_ABD_OTHER _ => assert_false
  end.

(** [GetAlphaC] (lines 851-865). *)
Definition GetAlphaC (alphaC : ALPHABLEND_C)
    (srcColor dstColor : Float4) (alphaFix : fexp) : Gen Float3 :=
  match alphaC with
  | ALPHABLEND_C_AS => ret (www srcColor)
  | ALPHABLEND_C_AD => ret (www dstColor)
  | ALPHABLEND_C_FIX => ret (xxx alphaFix)
  | ALPHABLEND_C_OTHER _ => assert_false
  end.

(** [WriteToFramebuffer] (lines 867-895).  The parameter [dstPixel] is a
    by-value [CUintValue]: the assignment inside rebinds the C++ object
    and the store takes the merged rvalue. *)
Definition WriteToFramebuffer (framebufferFormat : PSM) (fbAddress : iexp)
    (fbWriteMask dstPixel : uexp) (dstColor : Float4) : Gen unit :=
  match framebufferFormat with
  | PSMCT32 =>
      let dstPixel :=
        UOr (UAnd (Vec4ToPSM32_v dstColor) fbWriteMask)
            (UAnd dstPixel (UNot fbWriteMask)) in
      emit (Memory_Write32 fbAddress dstPixel)
  | PSMCT24 =>
      let dstPixel :=
        UOr (UAnd (Vec4ToPSM32_v dstColor) fbWriteMask)
            (UAnd dstPixel (UNot fbWriteMask)) in
      emit (Memory_Write24 fbAddress dstPixel)
  | PSMCT16 | PSMCT16S =>
      let dstPixel :=
        UOr (UAnd (Vec4ToPSM16_v dstColor) fbWriteMask)
            (UAnd dstPixel (UNot fbWriteMask)) in
      emit (Memory_Write16 fbAddress dstPixel)
  | _ => assert_false
  end.

(** [WriteToDepthbuffer] (lines 897-924). *)
Definition WriteToDepthbuffer (depthbufferFormat : PSM)
    (depthAddress : iexp) (srcDepth : uexp) : Gen unit :=
  match depthbufferFormat with
  | PSMZ32 => emit (Memory_Write32 depthAddress srcDepth)
  | PSMZ24 =>
      let dstDepth := UAnd srcDepth (NewUint 16777215) in
      emit (Memory_Write24 depthAddress dstDepth)
  | PSMZ16 | PSMZ16S =>
      let dstDepth := UAnd srcDepth (NewUint 65535) in
      emit (Memory_Write16 depthAddress dstDepth)
  | _ => assert_false
  end.

(** ** [CDraw::CreateFragmentShader] (lines 926-1191)

    The locals of the function are the definitions of this module; its
    body is cut at its own comment lines into the parts below, which
    [CreateFragmentShader] runs in order. *)
Module FS.

(** Inputs and outputs (lines 934-940). *)
Definition inputPosition : Float4 := input4 SEMANTIC_SYSTEM_POSITION 0.
Definition inputDepth : Float4 := input4 SEMANTIC_TEXCOORD 1.
Definition inputColor : Float4 := input4 SEMANTIC_TEXCOORD 2.
Definition inputTexCoord : Float4 := input4 SEMANTIC_TEXCOORD 3.
Definition outputColor : Float4Sym := Output SEMANTIC_SYSTEM_COLOR 0.

(** Images (lines 943-946); the memory buffer is the only array. *)
Definition clutImage : Z := DESCRIPTOR_LOCATION_IMAGE_CLUT.
Definition texSwizzleTable : Z := DESCRIPTOR_LOCATION_IMAGE_SWIZZLETABLE_TEX.
Definition fbSwizzleTable : Z := DESCRIPTOR_LOCATION_IMAGE_SWIZZLETABLE_FB.
Definition depthSwizzleTable : Z :=
  DESCRIPTOR_LOCATION_IMAGE_SWIZZLETABLE_DEPTH.

(** Push constants (lines 949-973). *)
Definition fbBufAddress : iexp := UniformI fbDepthParams cx.
Definition fbBufWidth : iexp := UniformI fbDepthParams cy.
Definition depthBufAddress : iexp := UniformI fbDepthParams cz.
Definition depthBufWidth : iexp := UniformI fbDepthParams cw.

Definition texBufAddress : iexp := UniformI texParams0 cx.
Definition texBufWidth : iexp := UniformI texParams0 cy.
Definition texSize : Int2 :=
  NewInt2 (UniformI texParams0 cz) (UniformI texParams0 cw).

Definition texCsa : iexp := UniformI texParams1 cx.
Definition texA0 : fexp :=
  FDiv (IToFloat (UniformI texParams1 cy)) (NewFloat 255).
Definition texA1 : fexp :=
  FDiv (IToFloat (UniformI texParams1 cz)) (NewFloat 255).

Definition clampMin : Int2 :=
  NewInt2 (UniformI texParams2 cx) (UniformI texParams2 cy).
Definition clampMax : Int2 :=
  NewInt2 (UniformI texParams2 cz) (UniformI texParams2 cw).

Definition fbWriteMask : uexp := IToUint (UniformI alphaFbParams cx).
Definition alphaFix : fexp :=
  FDiv (IToFloat (UniformI alphaFbParams cy)) (NewFloat 255).
Definition alphaRef : uexp := IToUint (UniformI alphaFbParams cz).

Definition srcDepth : uexp :=
  FToUint (FMul (f4x inputDepth) (NewFloat DEPTH_MAX)).

(** Variables and temporaries. *)
Definition textureColor : Float4Sym := Var_textureColor.
Definition alphaTestResult : BoolSym := Tmp_alphaTestResult.
Definition fbAddress : IntSym := Tmp_fbAddress.
Definition depthAddress : IntSym := Tmp_depthAddress.
Definition dstPixel : UintSym := Tmp_dstPixel.
Definition dstColor : Float4Sym := Tmp_dstColor.
Definition dstDepth : UintSym := Tmp_dstDepth.
Definition depthTestResult : BoolSym := Tmp_depthTestResult.

Definition screenPos : Int2 :=
  NewInt2 (FToInt (f4x inputPosition)) (FToInt (f4y inputPosition)).

(** Texture sampling, alpha expansion and texture function
    (lines 980-1033). *)
Definition texelPos : Int2 :=
  NewInt2
    (FToInt (FMul (FDiv (f4x inputTexCoord) (f4z inputTexCoord))
                  (IToFloat (i2x texSize))))
    (FToInt (FMul (FDiv (f4y inputTexCoord) (f4z inputTexCoord))
                  (IToFloat (i2y texSize)))).

Definition TextureStage (caps : PIPELINE_CAPS) : Gen unit :=
  textureColor <~F4 NewFloat4c 1 1 1 1 ;;
  if hasTexture caps
  then
    clampPosU <- ClampTexCoord (texClampU caps) (i2x texelPos)
                   (i2x texSize) (i2x clampMin) (i2x clampMax) ;;
    clampPosV <- ClampTexCoord (texClampV caps) (i2y texelPos)
                   (i2y texSize) (i2y clampMin) (i2y clampMax) ;;
    let clampTexPos := NewInt2 clampPosU clampPosV in
    color <- GetTextureColor (textureFormat caps) (clutFormat caps)
               clampTexPos clutImage texSwizzleTable
               texBufAddress texBufWidth texCsa ;;
    textureColor <~F4 color ;;
    (if textureHasAlpha caps
     then ExpandAlpha (textureFormat caps) (clutFormat caps)
            (textureBlackIsTransparent caps) textureColor texA0 texA1
     else ret tt) ;;
    match textureFunction caps with
    | TEX0_FUNCTION_MODULATE =>
        textureColor <~F4
          map2_4 FMul (map2_4 FMul (xyzw textureColor) inputColor)
                 (NewFloat4c 2 2 2 2) ;;
        textureColor <~F4
          Clamp4 (xyzw textureColor) (NewFloat4c 0 0 0 0)
                 (NewFloat4c 1 1 1 1) ;;
        if negb (textureHasAlpha caps)
        then textureColor <~F4
               NewFloat4_3 (xyz (xyzw textureColor)) (f4w inputColor)
        else ret tt
    | TEX0_FUNCTION_DECAL => ret tt
    | TEX0_FUNCTION_HIGHLIGHT2 =>
        textureColor <~F4
          map2_4 FAdd
            (map2_4 FMul (map2_4 FMul (xyzw textureColor) inputColor)
                    (NewFloat4c 2 2 2 2))
            (wwww inputColor) ;;
        textureColor <~F4
          Clamp4 (xyzw textureColor) (NewFloat4c 0 0 0 0)
                 (NewFloat4c 1 1 1 1) ;;
        if textureHasAlpha caps
        then textureColor <~F4
               NewFloat4_3 (xyz (xyzw textureColor)) (VarF textureColor cw)
        else textureColor <~F4
               NewFloat4_3 (xyz (xyzw textureColor)) (f4w inputColor)
    | TEX0_FUNCTION_OTHER _ => assert_false
    end
  else textureColor <~F4 inputColor.

(** Alpha test (lines 1038-1053). *)
Definition alphaUint : uexp :=
  FToUint (FMul (VarF textureColor cw) (NewFloat 255)).

Definition AlphaTest (caps : PIPELINE_CAPS) : Gen unit :=
  match alphaTestFunction caps with
  | ALPHA_TEST_ALWAYS => alphaTestResult <~B NewBool true
  | ALPHA_TEST_EQUAL => alphaTestResult <~B UEq alphaUint alphaRef
  | ALPHA_TEST_GEQUAL => alphaTestResult <~B UGe alphaUint alphaRef
  | ALPHA_TEST_OTHER _ => assert_false
  end.

(** Destination addressing (lines 1055-1091). *)
Definition Addresses (caps : PIPELINE_CAPS) : Gen unit :=
  match framebufferFormat caps with
  | PSMCT32 | PSMCT24 =>
      fbAddress <~I
        GetPixelAddress STORAGEPSMCT32 fbSwizzleTable fbBufAddress
                        fbBufWidth (i2x screenPos) (i2y screenPos)
  | PSMCT16 | PSMCT16S =>
      fbAddress <~I
        GetPixelAddress STORAGEPSMCT16 fbSwizzleTable fbBufAddress
                        fbBufWidth (i2x screenPos) (i2y screenPos)
  | _ => assert_false
  end ;;
  match depthbufferFormat caps with
  | PSMZ32 | PSMZ24 =>
      depthAddress <~I
        GetPixelAddress STORAGEPSMZ32 depthSwizzleTable depthBufAddress
                        depthBufWidth (i2x screenPos) (i2y screenPos)
  | PSMZ16 | PSMZ16S =>
      depthAddress <~I
        GetPixelAddress STORAGEPSMCT16 depthSwizzleTable depthBufAddress
                        depthBufWidth (i2x screenPos) (i2y screenPos)
  | _ => assert_false
  end.

(** Conditional reads of the destination (lines 1095-1133). *)
Definition needsDstColor (caps : PIPELINE_CAPS) : bool :=
  hasAlphaBlending caps || maskColor caps.

Definition needsDstDepth (caps : PIPELINE_CAPS) : bool :=
  match depthTestFunction caps with
  | DEPTH_TEST_GEQUAL | DEPTH_TEST_GREATER => true
  | _ => false
  end.

Definition DestinationRead (caps : PIPELINE_CAPS) : Gen unit :=
  (if needsDstColor caps
   then
     match framebufferFormat caps with
     | PSMCT32 =>
         dstPixel <~U Memory_Read32 (VarI fbAddress) ;;
         dstColor <~F4 PSM32ToVec4_v (VarU dstPixel)
     | PSMCT24 =>
         dstPixel <~U Memory_Read24 (VarI fbAddress) ;;
         dstColor <~F4 PSM32ToVec4_v (VarU dstPixel)
     | PSMCT16 | PSMCT16S =>
         dstPixel <~U Memory_Read16 (VarI fbAddress) ;;
         dstColor <~F4 PSM16ToVec4_v (VarU dstPixel)
     | _ => assert_false
     end
   else ret tt) ;;
  if needsDstDepth caps
  then
    depth <- GetDepth (depthbufferFormat caps) (VarI depthAddress) ;;
    dstDepth <~U depth
  else ret tt.

(** Depth test (lines 1135-1150); the switch has no default label. *)
Definition DepthTest (caps : PIPELINE_CAPS) : Gen unit :=
  match depthTestFunction caps with
  | DEPTH_TEST_ALWAYS => depthTestResult <~B NewBool true
  | DEPTH_TEST_NEVER => depthTestResult <~B NewBool false
  | DEPTH_TEST_GEQUAL => depthTestResult <~B UGe srcDepth (VarU dstDepth)
  | DEPTH_TEST_GREATER => depthTestResult <~B UGt srcDepth (VarU dstDepth)
  | DEPTH_TEST_OTHER _ => ret tt
  end.

(** Blending (lines 1152-1167). *)
Definition blendedColor (alphaA alphaB alphaC alphaD : Float3) : Float3 :=
  map2_3 FAdd
    (map2_3 FMul (map2_3 FMul (map2_3 FSub alphaA alphaB) alphaC)
            (NewFloat3c 2 2 2))
    alphaD.

Definition Blend (caps : PIPELINE_CAPS) : Gen unit :=
  if hasAlphaBlending caps
  then
    alphaA <- GetAlphaABD (alphaA caps) (xyzw textureColor) (xyzw dstColor) ;;
    alphaB <- GetAlphaABD (alphaB caps) (xyzw textureColor) (xyzw dstColor) ;;
    alphaC <- GetAlphaC (alphaC caps) (xyzw textureColor) (xyzw dstColor)
                alphaFix ;;
    alphaD <- GetAlphaABD (alphaD caps) (xyzw textureColor) (xyzw dstColor) ;;
    let finalColor :=
      NewFloat4_3 (blendedColor alphaA alphaB alphaC alphaD)
                  (VarF textureColor cw) in
    dstColor <~F4
      Clamp4 finalColor (NewFloat4c 0 0 0 0) (NewFloat4c 1 1 1 1)
  else dstColor <~F4 xyzw textureColor.

(** Conditional commit (lines 1169-1180). *)
Definition Commit (caps : PIPELINE_CAPS) : Gen unit :=
  emit (BeginIf (VarB depthTestResult)) ;;
  WriteToFramebuffer (framebufferFormat caps) (VarI fbAddress) fbWriteMask
                     (VarU dstPixel) (xyzw dstColor) ;;
  (if writeDepth caps
   then WriteToDepthbuffer (depthbufferFormat caps) (VarI depthAddress)
                           srcDepth
   else ret tt) ;;
  emit EndIf.

End FS.

Definition CreateFragmentShader (caps : PIPELINE_CAPS) : Gen unit :=
  FS.TextureStage caps ;;
  FS.AlphaTest caps ;;
  FS.Addresses caps ;;
  emit BeginInvocationInterlock ;;
  FS.DestinationRead caps ;;
  FS.DepthTest caps ;;
  FS.Blend caps ;;
  FS.Commit caps ;;
  emit EndInvocationInterlock ;;
  FS.outputColor <~F4 xyzw FS.dstColor.

(* ================================================================== *)
(** * What a generated program computes *)

(** The arithmetic of the GPU on floats, the emulated-memory buffer and
    the functions of [CMemoryUtils] (a file of the repository that is not
    in the source tree) are parameters of the semantics: the results below
    hold for every choice of them. *)
Class Platform : Type := {
  F : Type;
  fconst : Q -> F;
  fadd : F -> F -> F;
  fsub : F -> F -> F;
  fmul : F -> F -> F;
  fdiv : F -> F -> F;
  fclamp : F -> F -> F -> F;
  fmix : F -> F -> F -> F;
  feqb : F -> F -> bool;
  itof : Z -> F;
  utof : Z -> F;
  ftoi : F -> Z;
  ftou : F -> Z;
  Memory : Type;
  read32 : Memory -> Z -> Z;
  read24 : Memory -> Z -> Z;
  read16 : Memory -> Z -> Z;
  read8 : Memory -> Z -> Z;
  read4 : Memory -> Z -> Z;
  write32 : Memory -> Z -> Z -> Memory;
  write24 : Memory -> Z -> Z -> Memory;
  write16 : Memory -> Z -> Z -> Memory;
  pixelAddress : STORAGE -> (Z -> Z -> Z) -> Z -> Z -> Z -> Z -> Z;
  pixelAddress_PSMT4 : (Z -> Z -> Z) -> Z -> Z -> Z -> Z -> Z;
  psm32ToVec4 : Z -> Component -> F;
  psm16ToVec4 : Z -> Component -> F;
  vec4ToPSM32 : F -> F -> F -> F -> Z;
  vec4ToPSM16 : F -> F -> F -> F -> Z
}.

(** 32-bit integers: [uint] wraps modulo 2^32, [int] is two's complement. *)
Definition wrapU (z : Z) : Z := z mod 4294967296.
Definition wrapS (z : Z) : Z := (z + 2147483648) mod 4294967296 - 2147483648.

Definition Component_eq_dec (a b : Component) : {a = b} + {a <> b}.
Proof. decide equality. Defined.
Definition SEMANTIC_eq_dec (a b : SEMANTIC) : {a = b} + {a <> b}.
Proof. decide equality. Defined.
Definition Uniform_eq_dec (a b : Uniform) : {a = b} + {a <> b}.
Proof. decide equality. Defined.
Definition Float4Sym_eq_dec (a b : Float4Sym) : {a = b} + {a <> b}.
Proof. decide equality; [ apply Z.eq_dec | apply SEMANTIC_eq_dec ]. Defined.
Definition IntSym_eq_dec (a b : IntSym) : {a = b} + {a <> b}.
Proof. decide equality. Defined.
Definition UintSym_eq_dec (a b : UintSym) : {a = b} + {a <> b}.
Proof. decide equality. Defined.
Definition BoolSym_eq_dec (a b : BoolSym) : {a = b} + {a <> b}.
Proof. decide equality. Defined.

Section Semantics.

Context {P : Platform}.

(** What an invocation reads and never writes: its interpolated inputs,
    the push constants and the bound images. *)
Record Ctx : Type := {
  inF : SEMANTIC -> Z -> Component -> F;
  inU : SEMANTIC -> Z -> Component -> Z;
  uniform : Uniform -> Component -> Z;
  image : Z -> Z -> Z -> Z
}.

(** What an invocation writes: its variables and temporaries (whose
    first values are whatever the GPU left there), the emulated memory,
    and how many open [BeginIf] blocks are being skipped. *)
Record State : Type := {
  vF : Float4Sym -> Component -> F;
  vI : IntSym -> Z;
  vU : UintSym -> Z;
  vB : BoolSym -> bool;
  mem : Memory;
  skip : nat
}.

Definition setF (v : Float4Sym) (x y z w : F) (st : State) : State :=
  {| vF := fun v' c =>
             if Float4Sym_eq_dec v v'
             then match c with cx => x | cy => y | cz => z | cw => w end
             else vF st v' c;
     vI := vI st; vU := vU st; vB := vB st; mem := mem st;
     skip := skip st |}.
Definition setI (v : IntSym) (x : Z) (st : State) : State :=
  {| vF := vF st;
     vI := fun v' => if IntSym_eq_dec v v' then x else vI st v';
     vU := vU st; vB := vB st; mem := mem st; skip := skip st |}.
Definition setU (v : UintSym) (x : Z) (st : State) : State :=
  {| vF := vF st; vI := vI st;
     vU := fun v' => if UintSym_eq_dec v v' then x else vU st v';
     vB := vB st; mem := mem st; skip := skip st |}.
Definition setB (v : BoolSym) (x : bool) (st : State) : State :=
  {| vF := vF st; vI := vI st; vU := vU st;
     vB := fun v' => if BoolSym_eq_dec v v' then x else vB st v';
     mem := mem st; skip := skip st |}.
Definition setMem (m : Memory) (st : State) : State :=
  {| vF := vF st; vI := vI st; vU := vU st; vB := vB st;
     mem := m; skip := skip st |}.
Definition setSkip (n : nat) (st : State) : State :=
  {| vF := vF st; vI := vI st; vU := vU st; vB := vB st;
     mem := mem st; skip := n |}.

Section Eval.

Variable ctx : Ctx.
Variable st : State.

Fixpoint evalF (e : fexp) : F :=
  match e with
  | NewFloat c => fconst c
  | InputF sem index c => inF ctx sem index c
  | VarF v c => vF st v c
  | FAdd a b => fadd (evalF a) (evalF b)
  | FSub a b => fsub (evalF a) (evalF b)
  | FMul a b => fmul (evalF a) (evalF b)
  | FDiv a b => fdiv (evalF a) (evalF b)
  | FClamp x lo hi => fclamp (evalF x) (evalF lo) (evalF hi)
  | FMix a b t => fmix (evalF a) (evalF b) (evalF t)
  | IToFloat a => itof (evalI a)
  | UToFloat a => utof (evalU a)
  | PSM32ToVec4 pixel c => psm32ToVec4 (evalU pixel) c
  | PSM16ToVec4 pixel c => psm16ToVec4 (evalU pixel) c
  end
with evalI (e : iexp) : Z :=
  match e with
  | NewInt c => wrapS c
  | UniformI u c => wrapS (uniform ctx u c)
  | VarI v => vI st v
  | IAdd a b => wrapS (evalI a + evalI b)
  | ISub a b => wrapS (evalI a - evalI b)
  | IMul a b => wrapS (evalI a * evalI b)
  | IAnd a b => Z.land (evalI a) (evalI b)
  | IOr a b => Z.lor (evalI a) (evalI b)
  | IClamp x lo hi => Z.min (Z.max (evalI x) (evalI lo)) (evalI hi)
  | FToInt a => wrapS (ftoi (evalF a))
  | UToInt a => wrapS (evalU a)
  | GetPixelAddress storage table bufAddress bufWidth px py =>
      wrapS (pixelAddress storage (image ctx table) (evalI bufAddress)
                          (evalI bufWidth) (evalI px) (evalI py))
  | GetPixelAddress_PSMT4 table bufAddress bufWidth px py =>
      wrapS (pixelAddress_PSMT4 (image ctx table) (evalI bufAddress)
                                (evalI bufWidth) (evalI px) (evalI py))
  end
with evalU (e : uexp) : Z :=
  match e with
  | NewUint c => wrapU c
  | InputU sem index c => wrapU (inU ctx sem index c)
  | VarU v => vU st v
  | UAnd a b => Z.land (evalU a) (evalU b)
  | UOr a b => Z.lor (evalU a) (evalU b)
  | UShl a b => wrapU (Z.shiftl (evalU a) (evalU b))
  | UNot a => wrapU (Z.lnot (evalU a))
  | FToUint a => wrapU (ftou (evalF a))
  | IToUint a => wrapU (evalI a)
  | LoadX img px py => wrapU (image ctx img (evalI px) (evalI py))
  | Memory_Read32 address => wrapU (read32 (mem st) (evalI address))
  | Memory_Read24 address => wrapU (read24 (mem st) (evalI address))
  | Memory_Read16 address => wrapU (read16 (mem st) (evalI address))
  | Memory_Read8 address => wrapU (read8 (mem st) (evalI address))
  | Memory_Read4 address => wrapU (read4 (mem st) (evalI address))
  | Vec4ToPSM32 r g b a =>
      wrapU (vec4ToPSM32 (evalF r) (evalF g) (evalF b) (evalF a))
  | Vec4ToPSM16 r g b a =>
      wrapU (vec4ToPSM16 (evalF r) (evalF g) (evalF b) (evalF a))
  end.

Definition evalB (e : bexp) : bool :=
  match e with
  | NewBool c => c
  | VarB v => vB st v
  | UEq a b => evalU a =? evalU b
  | UGe a b => evalU b <=? evalU a
  | UGt a b => evalU b <? evalU a
  | FEq a b => feqb (evalF a) (evalF b)
  end.

End Eval.

(** One statement.  A statement inside a block whose condition was false
    does nothing but keep count of the nesting. *)
Definition exec_stmt (ctx : Ctx) (st : State) (s : Stmt) : State :=
  match skip st with
  | S n =>
      match s with
      | BeginIf _ => setSkip (S (S n)) st
      | EndIf => setSkip n st
      | _ => st
      end
  | O =>
      match s with
      | AssignF4 v e =>
          setF v (evalF ctx st (f4x e)) (evalF ctx st (f4y e))
                 (evalF ctx st (f4z e)) (evalF ctx st (f4w e)) st
      | AssignI v e => setI v (evalI ctx st e) st
      | AssignU v e => setU v (evalU ctx st e) st
      | AssignB v e => setB v (evalB ctx st e) st
      | Memory_Write32 address value =>
          setMem (write32 (mem st) (evalI ctx st address)
                          (evalU ctx st value)) st
      | Memory_Write24 address value =>
          setMem (write24 (mem st) (evalI ctx st address)
                          (evalU ctx st value)) st
      | Memory_Write16 address value =>
          setMem (write16 (mem st) (evalI ctx st address)
                          (evalU ctx st value)) st
      | BeginIf c => if evalB ctx st c then st else setSkip 1 st
      | EndIf => st
      | BeginInvocationInterlock => st
      | EndInvocationInterlock => st
      end
  end.

Definition exec (ctx : Ctx) (prog : list Stmt) (st : State) : State :=
  fold_left (exec_stmt ctx) prog st.

(** An invocation starts outside every [BeginIf] block. *)
Definition run (ctx : Ctx) (prog : list Stmt) (st : State) : State :=
  exec ctx prog (setSkip O st).

(** The same invocation under another value of one push constant. *)
Definition set_uniform (u : Uniform) (c : Component) (value : Z)
    (ctx : Ctx) : Ctx :=
  {| inF := inF ctx; inU := inU ctx;
     uniform := fun u' c' =>
       if Uniform_eq_dec u u'
       then if Component_eq_dec c c' then value else uniform ctx u' c'
       else uniform ctx u' c';
     image := image ctx |}.

End Semantics.

(* ================================================================== *)
(** * The draw orchestrator *)

(** Modelled from the spec: [PRIM_VERTEX] ([GSH_VulkanDraw.h]): position,
    integer depth, packed colour and homogeneous texture coordinate. *)
Record PRIM_VERTEX : Type := {
  vtx_x : Q; vtx_y : Q;
  vtx_z : Z;
  vtx_color : Z;
  vtx_s : Q; vtx_t : Q; vtx_q : Q
}.

(** ** The Vulkan device, as far as the file drives it *)

Inductive VkDescriptorType : Type :=
| VK_DESCRIPTOR_TYPE_STORAGE_BUFFER
| VK_DESCRIPTOR_TYPE_STORAGE_IMAGE.

(** The resources of the context that a descriptor can point at. *)
Inductive Resource : Type :=
| memoryBuffer
| clutImageView
| GetSwizzleTable (psm : PSM).

Record VkWriteDescriptorSet : Type := {
  dstSet : Z;
  dstBinding : Z;
  descriptorType : VkDescriptorType;
  pInfo : Resource
}.

Record VkDescriptorSetLayoutBinding : Type := {
  binding : Z;
  binding_descriptorType : VkDescriptorType
}.

Inductive VkObject : Type :=
| VkShaderModule_ (code : list Stmt)
| VkDescriptorSetLayout_ (pBindings : list VkDescriptorSetLayoutBinding)
| VkPipelineLayout_ (pSetLayouts : Z)
| VkPipeline_ (vertexModule fragmentModule layout renderPass : Z)
| VkDescriptorSet_ (pSetLayouts : Z) (writes : list VkWriteDescriptorSet).

(** [m_context]: handles are handed out in order and never reused.
    [vkResult h o] tells whether the call that would create [o] under
    the handle [h] returns [VK_SUCCESS]. *)
Record Context : Type := {
  nextHandle : Z;
  objects : list (Z * VkObject);
  vkResult : Z -> VkObject -> bool
}.

(** A creation call of the device: an object under a fresh handle, or no
    object when the call does not return [VK_SUCCESS]. *)
Definition vkCreate (o : VkObject) (c : Context) : option (Z * Context) :=
  if vkResult c (nextHandle c) o
  then Some (nextHandle c,
             {| nextHandle := nextHandle c + 1;
                objects := (nextHandle c, o) :: objects c;
                vkResult := vkResult c |})
  else None.

Definition vkUpdateDescriptorSets (writes : list VkWriteDescriptorSet)
    (c : Context) : Context :=
  {| nextHandle := nextHandle c;
     objects :=
       map (fun ho : Z * VkObject =>
              match snd ho with
              | VkDescriptorSet_ layout ws =>
                  (fst ho,
                   VkDescriptorSet_ layout
                     (ws ++ filter (fun w => dstSet w =? fst ho) writes))
              | _ => ho
              end)
           (objects c);
     vkResult := vkResult c |}.

Inductive VkCmd : Type :=
| vkCmdSetViewport (width height : Z) (maxDepth : Q)
| vkCmdSetScissor (offset_x offset_y extent_width extent_height : Z)
| vkCmdBeginRenderPass (renderPass framebuffer : Z)
                       (extent_width extent_height : Z)
| vkCmdBindDescriptorSets (pipelineLayout descriptorSet : Z)
| vkCmdBindPipeline (pipeline : Z)
| vkCmdBindVertexBuffers (frame : Z) (vertexBufferOffset : Z)
| vkCmdPushConstants (pipelineLayout : Z)
                     (pushConstants : DRAW_PIPELINE_PUSHCONSTANTS)
| vkCmdDraw (vertexCount : Z)
| vkCmdEndRenderPass.

(** Modelled from the spec: the frame-lifecycle collaborator
    ([CFrameCommandBuffer], not in the source tree): the current frame
    slot, the command buffer being recorded, and the frames submitted so
    far. *)
Record CFrameCommandBuffer : Type := {
  currentFrame : Z;
  frameCount : Z;
  commandBuffer : list VkCmd;
  submitted : list (list VkCmd)
}.

Record PIPELINE : Type := {
  descriptorSetLayout : Z;
  pipelineLayout : Z;
  pipeline : Z
}.

(** Size of one vertex in bytes: two floats, a word, four bytes of colour
    and three floats. *)
Definition sizeof_PRIM_VERTEX : Z := 28.

(** ** The members of [CDraw]

    [flushCalls] is a ghost counter: [FlushVertices] adds one on entry and
    nothing reads it. *)
Record CDraw : Type := {

  m_context : Context;
  m_frameCommandBuffer : CFrameCommandBuffer;
  m_pipelineCache : list (PIPELINE_CAPS * PIPELINE);
  m_descriptorSetCache : list (DESCRIPTORSET_CAPS * Z);
  m_renderPass : Z;
  m_framebuffer : Z;
  m_frames : Z -> Z -> option PRIM_VERTEX;
  m_pipelineCaps : PIPELINE_CAPS;
  m_pushConstants : DRAW_PIPELINE_PUSHCONSTANTS;
  m_scissorX : Z;
  m_scissorY : Z;
  m_scissorWidth : Z;
  m_scissorHeight : Z;
  m_passVertexStart : Z;
  m_passVertexEnd : Z;
  flushCalls : nat

}.



Definition set_context (c : Context) (d : CDraw) : CDraw :=
  {| m_context := c; m_frameCommandBuffer := m_frameCommandBuffer d;
     m_pipelineCache := m_pipelineCache d;
     m_descriptorSetCache := m_descriptorSetCache d;
     m_renderPass := m_renderPass d; m_framebuffer := m_framebuffer d;
     m_frames := m_frames d; m_pipelineCaps := m_pipelineCaps d;
     m_pushConstants := m_pushConstants d; m_scissorX := m_scissorX d;
     m_scissorY := m_scissorY d; m_scissorWidth := m_scissorWidth d;
     m_scissorHeight := m_scissorHeight d;
     m_passVertexStart := m_passVertexStart d;
     m_passVertexEnd := m_passVertexEnd d; flushCalls := flushCalls d |}.

Definition set_frameCommandBuffer (f : CFrameCommandBuffer) (d : CDraw) : CDraw :=
  {| m_context := m_context d; m_frameCommandBuffer := f;
     m_pipelineCache := m_pipelineCache d;
     m_descriptorSetCache := m_descriptorSetCache d;
     m_renderPass := m_renderPass d; m_framebuffer := m_framebuffer d;
     m_frames := m_frames d; m_pipelineCaps := m_pipelineCaps d;
     m_pushConstants := m_pushConstants d; m_scissorX := m_scissorX d;
     m_scissorY := m_scissorY d; m_scissorWidth := m_scissorWidth d;
     m_scissorHeight := m_scissorHeight d;
     m_passVertexStart := m_passVertexStart d;
     m_passVertexEnd := m_passVertexEnd d; flushCalls := flushCalls d |}.

Definition set_pipelineCache (c : list (PIPELINE_CAPS * PIPELINE)) (d : CDraw) : CDraw :=
  {| m_context := m_context d;
     m_frameCommandBuffer := m_frameCommandBuffer d; m_pipelineCache := c;
     m_descriptorSetCache := m_descriptorSetCache d;
     m_renderPass := m_renderPass d; m_framebuffer := m_framebuffer d;
     m_frames := m_frames d; m_pipelineCaps := m_pipelineCaps d;
     m_pushConstants := m_pushConstants d; m_scissorX := m_scissorX d;
     m_scissorY := m_scissorY d; m_scissorWidth := m_scissorWidth d;
     m_scissorHeight := m_scissorHeight d;
     m_passVertexStart := m_passVertexStart d;
     m_passVertexEnd := m_passVertexEnd d; flushCalls := flushCalls d |}.

Definition set_descriptorSetCache (c : list (DESCRIPTORSET_CAPS * Z)) (d : CDraw) : CDraw :=
  {| m_context := m_context d;
     m_frameCommandBuffer := m_frameCommandBuffer d;
     m_pipelineCache := m_pipelineCache d; m_descriptorSetCache := c;
     m_renderPass := m_renderPass d; m_framebuffer := m_framebuffer d;
     m_frames := m_frames d; m_pipelineCaps := m_pipelineCaps d;
     m_pushConstants := m_pushConstants d; m_scissorX := m_scissorX d;
     m_scissorY := m_scissorY d; m_scissorWidth := m_scissorWidth d;
     m_scissorHeight := m_scissorHeight d;
     m_passVertexStart := m_passVertexStart d;
     m_passVertexEnd := m_passVertexEnd d; flushCalls := flushCalls d |}.

Definition set_frames (f : Z -> Z -> option PRIM_VERTEX) (d : CDraw) : CDraw :=
  {| m_context := m_context d;
     m_frameCommandBuffer := m_frameCommandBuffer d;
     m_pipelineCache := m_pipelineCache d;
     m_descriptorSetCache := m_descriptorSetCache d;
     m_renderPass := m_renderPass d; m_framebuffer := m_framebuffer d;
     m_frames := f; m_pipelineCaps := m_pipelineCaps d;
     m_pushConstants := m_pushConstants d; m_scissorX := m_scissorX d;
     m_scissorY := m_scissorY d; m_scissorWidth := m_scissorWidth d;
     m_scissorHeight := m_scissorHeight d;
     m_passVertexStart := m_passVertexStart d;
     m_passVertexEnd := m_passVertexEnd d; flushCalls := flushCalls d |}.

Definition set_pipelineCaps (caps : PIPELINE_CAPS) (d : CDraw) : CDraw :=
  {| m_context := m_context d;
     m_frameCommandBuffer := m_frameCommandBuffer d;
     m_pipelineCache := m_pipelineCache d;
     m_descriptorSetCache := m_descriptorSetCache d;
     m_renderPass := m_renderPass d; m_framebuffer := m_framebuffer d;
     m_frames := m_frames d; m_pipelineCaps := caps;
     m_pushConstants := m_pushConstants d; m_scissorX := m_scissorX d;
     m_scissorY := m_scissorY d; m_scissorWidth := m_scissorWidth d;
     m_scissorHeight := m_scissorHeight d;
     m_passVertexStart := m_passVertexStart d;
     m_passVertexEnd := m_passVertexEnd d; flushCalls := flushCalls d |}.

Definition set_pushConstants (pc : DRAW_PIPELINE_PUSHCONSTANTS) (d : CDraw) : CDraw :=
  {| m_context := m_context d;
     m_frameCommandBuffer := m_frameCommandBuffer d;
     m_pipelineCache := m_pipelineCache d;
     m_descriptorSetCache := m_descriptorSetCache d;
     m_renderPass := m_renderPass d; m_framebuffer := m_framebuffer d;
     m_frames := m_frames d; m_pipelineCaps := m_pipelineCaps d;
     m_pushConstants := pc; m_scissorX := m_scissorX d;
     m_scissorY := m_scissorY d; m_scissorWidth := m_scissorWidth d;
     m_scissorHeight := m_scissorHeight d;
     m_passVertexStart := m_passVertexStart d;
     m_passVertexEnd := m_passVertexEnd d; flushCalls := flushCalls d |}.

Definition set_scissor (x y w h : Z) (d : CDraw) : CDraw :=
  {| m_context := m_context d;
     m_frameCommandBuffer := m_frameCommandBuffer d;
     m_pipelineCache := m_pipelineCache d;
     m_descriptorSetCache := m_descriptorSetCache d;
     m_renderPass := m_renderPass d; m_framebuffer := m_framebuffer d;
     m_frames := m_frames d; m_pipelineCaps := m_pipelineCaps d;
     m_pushConstants := m_pushConstants d; m_scissorX := x;
     m_scissorY := y; m_scissorWidth := w; m_scissorHeight := h;
     m_passVertexStart := m_passVertexStart d;
     m_passVertexEnd := m_passVertexEnd d; flushCalls := flushCalls d |}.

Definition set_passVertexStart (v : Z) (d : CDraw) : CDraw :=
  {| m_context := m_context d;
     m_frameCommandBuffer := m_frameCommandBuffer d;
     m_pipelineCache := m_pipelineCache d;
     m_descriptorSetCache := m_descriptorSetCache d;
     m_renderPass := m_renderPass d; m_framebuffer := m_framebuffer d;
     m_frames := m_frames d; m_pipelineCaps := m_pipelineCaps d;
     m_pushConstants := m_pushConstants d; m_scissorX := m_scissorX d;
     m_scissorY := m_scissorY d; m_scissorWidth := m_scissorWidth d;
     m_scissorHeight := m_scissorHeight d; m_passVertexStart := v;
     m_passVertexEnd := m_passVertexEnd d; flushCalls := flushCalls d |}.

Definition set_passVertexEnd (v : Z) (d : CDraw) : CDraw :=
  {| m_context := m_context d;
     m_frameCommandBuffer := m_frameCommandBuffer d;
     m_pipelineCache := m_pipelineCache d;
     m_descriptorSetCache := m_descriptorSetCache d;
     m_renderPass := m_renderPass d; m_framebuffer := m_framebuffer d;
     m_frames := m_frames d; m_pipelineCaps := m_pipelineCaps d;
     m_pushConstants := m_pushConstants d; m_scissorX := m_scissorX d;
     m_scissorY := m_scissorY d; m_scissorWidth := m_scissorWidth d;
     m_scissorHeight := m_scissorHeight d;
     m_passVertexStart := m_passVertexStart d; m_passVertexEnd := v;
     flushCalls := flushCalls d |}.

Definition count_flush  (d : CDraw) : CDraw :=
  {| m_context := m_context d;
     m_frameCommandBuffer := m_frameCommandBuffer d;
     m_pipelineCache := m_pipelineCache d;
     m_descriptorSetCache := m_descriptorSetCache d;
     m_renderPass := m_renderPass d; m_framebuffer := m_framebuffer d;
     m_frames := m_frames d; m_pipelineCaps := m_pipelineCaps d;
     m_pushConstants := m_pushConstants d; m_scissorX := m_scissorX d;
     m_scissorY := m_scissorY d; m_scissorWidth := m_scissorWidth d;
     m_scissorHeight := m_scissorHeight d;
     m_passVertexStart := m_passVertexStart d;
     m_passVertexEnd := m_passVertexEnd d; flushCalls := S (flushCalls d) |}.

(** Assignments to the members of [m_pushConstants]. *)
Definition pc_setFramebuffer (addr width writeMask : Z)
    (pc : DRAW_PIPELINE_PUSHCONSTANTS) : DRAW_PIPELINE_PUSHCONSTANTS :=
  {| fbBufAddr := addr; fbBufWidth := width; fbWriteMask := writeMask;
     depthBufAddr := depthBufAddr pc; depthBufWidth := depthBufWidth pc;
     texBufAddr := texBufAddr pc; texBufWidth := texBufWidth pc;
     texWidth := texWidth pc; texHeight := texHeight pc;
     texCsa := texCsa pc; texA0 := texA0 pc; texA1 := texA1 pc;
     clampMin0 := clampMin0 pc; clampMin1 := clampMin1 pc;
     clampMax0 := clampMax0 pc; clampMax1 := clampMax1 pc;
     alphaFix := alphaFix pc; alphaRef := alphaRef pc |}.

Definition pc_setDepthbuffer (addr width : Z)
    (pc : DRAW_PIPELINE_PUSHCONSTANTS) : DRAW_PIPELINE_PUSHCONSTANTS :=
  {| fbBufAddr := fbBufAddr pc; fbBufWidth := fbBufWidth pc;
     fbWriteMask := fbWriteMask pc; depthBufAddr := addr;
     depthBufWidth := width; texBufAddr := texBufAddr pc;
     texBufWidth := texBufWidth pc; texWidth := texWidth pc;
     texHeight := texHeight pc; texCsa := texCsa pc; texA0 := texA0 pc;
     texA1 := texA1 pc; clampMin0 := clampMin0 pc;
     clampMin1 := clampMin1 pc; clampMax0 := clampMax0 pc;
     clampMax1 := clampMax1 pc; alphaFix := alphaFix pc;
     alphaRef := alphaRef pc |}.

Definition pc_setTexture (bufAddr bufWidth width height csa : Z)
    (pc : DRAW_PIPELINE_PUSHCONSTANTS) : DRAW_PIPELINE_PUSHCONSTANTS :=
  {| fbBufAddr := fbBufAddr pc; fbBufWidth := fbBufWidth pc;
     fbWriteMask := fbWriteMask pc; depthBufAddr := depthBufAddr pc;
     depthBufWidth := depthBufWidth pc; texBufAddr := bufAddr;
     texBufWidth := bufWidth; texWidth := width; texHeight := height;
     texCsa := csa; texA0 := texA0 pc; texA1 := texA1 pc;
     clampMin0 := clampMin0 pc; clampMin1 := clampMin1 pc;
     clampMax0 := clampMax0 pc; clampMax1 := clampMax1 pc;
     alphaFix := alphaFix pc; alphaRef := alphaRef pc |}.

Definition pc_setTextureAlpha (a0 a1 : Z)
    (pc : DRAW_PIPELINE_PUSHCONSTANTS) : DRAW_PIPELINE_PUSHCONSTANTS :=
  {| fbBufAddr := fbBufAddr pc; fbBufWidth := fbBufWidth pc;
     fbWriteMask := fbWriteMask pc; depthBufAddr := depthBufAddr pc;
     depthBufWidth := depthBufWidth pc; texBufAddr := texBufAddr pc;
     texBufWidth := texBufWidth pc; texWidth := texWidth pc;
     texHeight := texHeight pc; texCsa := texCsa pc; texA0 := a0;
     texA1 := a1; clampMin0 := clampMin0 pc; clampMin1 := clampMin1 pc;
     clampMax0 := clampMax0 pc; clampMax1 := clampMax1 pc;
     alphaFix := alphaFix pc; alphaRef := alphaRef pc |}.

Definition pc_setAlphaTest (ref : Z)
    (pc : DRAW_PIPELINE_PUSHCONSTANTS) : DRAW_PIPELINE_PUSHCONSTANTS :=
  {| fbBufAddr := fbBufAddr pc; fbBufWidth := fbBufWidth pc;
     fbWriteMask := fbWriteMask pc; depthBufAddr := depthBufAddr pc;
     depthBufWidth := depthBufWidth pc; texBufAddr := texBufAddr pc;
     texBufWidth := texBufWidth pc; texWidth := texWidth pc;
     texHeight := texHeight pc; texCsa := texCsa pc; texA0 := texA0 pc;
     texA1 := texA1 pc; clampMin0 := clampMin0 pc;
     clampMin1 := clampMin1 pc; clampMax0 := clampMax0 pc;
     clampMax1 := clampMax1 pc; alphaFix := alphaFix pc; alphaRef := ref |}.

Definition pc_setTextureClamp (minU minV maxU maxV : Z)
    (pc : DRAW_PIPELINE_PUSHCONSTANTS) : DRAW_PIPELINE_PUSHCONSTANTS :=
  {| fbBufAddr := fbBufAddr pc; fbBufWidth := fbBufWidth pc;
     fbWriteMask := fbWriteMask pc; depthBufAddr := depthBufAddr pc;
     depthBufWidth := depthBufWidth pc; texBufAddr := texBufAddr pc;
     texBufWidth := texBufWidth pc; texWidth := texWidth pc;
     texHeight := texHeight pc; texCsa := texCsa pc; texA0 := texA0 pc;
     texA1 := texA1 pc; clampMin0 := minU; clampMin1 := minV;
     clampMax0 := maxU; clampMax1 := maxV; alphaFix := alphaFix pc;
     alphaRef := alphaRef pc |}.

Definition pc_setAlphaBlending (fixv : Z)
    (pc : DRAW_PIPELINE_PUSHCONSTANTS) : DRAW_PIPELINE_PUSHCONSTANTS :=
  {| fbBufAddr := fbBufAddr pc; fbBufWidth := fbBufWidth pc;
     fbWriteMask := fbWriteMask pc; depthBufAddr := depthBufAddr pc;
     depthBufWidth := depthBufWidth pc; texBufAddr := texBufAddr pc;
     texBufWidth := texBufWidth pc; texWidth := texWidth pc;
     texHeight := texHeight pc; texCsa := texCsa pc; texA0 := texA0 pc;
     texA1 := texA1 pc; clampMin0 := clampMin0 pc;
     clampMin1 := clampMin1 pc; clampMax0 := clampMax0 pc;
     clampMax1 := clampMax1 pc; alphaFix := fixv; alphaRef := alphaRef pc |}.

(** ** The monad of the member functions: state, and a fatal error *)

Inductive Fatal : Type :=
| BatchCapacityAssertion   (* line 176 *)
| TriangleListAssertion    (* line 240 *)
| ShaderAssertion          (* an [assert(false)] of the synthesizer *)
| VulkanError.             (* [CHECKVULKANERROR], lines 277, 482, 498, 607 *)

Inductive Result (A : Type) : Type :=
| Ok (a : A)
| Abort (f : Fatal).
Arguments Ok {A} a.
Arguments Abort {A} f.

Definition M (A : Type) : Type := CDraw -> Result (A * CDraw).

Definition mret {A} (a : A) : M A := fun d => Ok (a, d).
Definition mbind {A B} (m : M A) (f : A -> M B) : M B :=
  fun d =>
    match m d with
    | Ok (a, d') => f a d'
    | Abort e => Abort e
    end.
Definition get : M CDraw := fun d => Ok (d, d).
Definition modify (f : CDraw -> CDraw) : M unit := fun d => Ok (tt, f d).
Definition abort {A} (e : Fatal) : M A := fun _ => Abort e.
Definition massert (c : bool) (e : Fatal) : M unit :=
  if c then mret tt else abort e.

Declare Scope draw_scope.
Delimit Scope draw_scope with draw.
Notation "x <- m ;; k" := (mbind m (fun x => k))
  (at level 61, m at next level, right associativity) : draw_scope.
Notation "m ;; k" := (mbind m (fun _ => k))
  (at level 61, right associativity) : draw_scope.

Local Close Scope gen_scope.
Local Open Scope draw_scope.

(** Calls on [m_context->device] and on the current command buffer.  A
    creation call is followed by [CHECKVULKANERROR], which is fatal. *)
Definition device_create (o : VkObject) : M Z :=
  fun d =>
    match vkCreate o (m_context d) with
    | Some (h, c) => Ok (h, set_context c d)
    | None => Abort VulkanError
    end.

Definition record (c : VkCmd) : M unit :=
  modify (fun d =>
    let f := m_frameCommandBuffer d in
    set_frameCommandBuffer
      {| currentFrame := currentFrame f; frameCount := frameCount f;
         commandBuffer := commandBuffer f ++ [c];
         submitted := submitted f |} d).

(** A shader module of a generated program.  Modelled from the spec: the
    constructor of [CShaderModule] is not in the source tree; it creates
    an object of the device, which is fatal when it fails. *)
Definition shaderModule (g : Gen unit) : M Z :=
  match program g with
  | Some code => device_create (VkShaderModule_ code)
  | None => abort ShaderAssertion
  end.

(** ** The two caches: [find] and [insert] of the standard maps *)

Definition cache_find {K V : Type}
    (eq_dec : forall a b : K, {a = b} + {a <> b})
    (k : K) (c : list (K * V)) : option V :=
  match find (fun kv => if eq_dec (fst kv) k then true else false) c with
  | Some kv => Some (snd kv)
  | None => None
  end.

Definition cache_insert {K V : Type}
    (eq_dec : forall a b : K, {a = b} + {a <> b})
    (k : K) (v : V) (c : list (K * V)) : list (K * V) :=
  match cache_find eq_dec k c with
  | Some _ => c
  | None => c ++ [(k, v)]
  end.

(** Modelled from the spec: [CPipelineCache] is not in the source tree.
    [TryGetPipeline] is a pipeline or a miss; [RegisterPipeline] inserts
    and returns; nothing removes an entry. *)
Definition TryGetPipeline (caps : PIPELINE_CAPS) : M (option PIPELINE) :=
  d <- get ;;
  mret (cache_find PIPELINE_CAPS_eq_dec caps (m_pipelineCache d)).

Definition RegisterPipeline (caps : PIPELINE_CAPS) (p : PIPELINE)
    : M PIPELINE :=
  modify (fun d =>
    set_pipelineCache
      (cache_insert PIPELINE_CAPS_eq_dec caps p (m_pipelineCache d)) d) ;;
  mret p.

(** ** [CDraw::PrepareDescriptorSet] (lines 258-364) *)
Definition PrepareDescriptorSet (descriptorSetLayout : Z)
    (caps : DESCRIPTORSET_CAPS) : M Z :=
  d <- get ;;
  match cache_find DESCRIPTORSET_CAPS_eq_dec caps (m_descriptorSetCache d) with
  | Some descriptorSet => mret descriptorSet
  | None =>
      descriptorSet <- device_create (VkDescriptorSet_ descriptorSetLayout []) ;;
      let write (dstBinding : Z) (type : VkDescriptorType) (info : Resource) :=
        {| dstSet := descriptorSet; dstBinding := dstBinding;
           descriptorType := type; pInfo := info |} in
      let writes :=
        [ write DESCRIPTOR_LOCATION_BUFFER_MEMORY
                VK_DESCRIPTOR_TYPE_STORAGE_BUFFER memoryBuffer;
          write DESCRIPTOR_LOCATION_IMAGE_SWIZZLETABLE_FB
                VK_DESCRIPTOR_TYPE_STORAGE_IMAGE
                (GetSwizzleTable (ds_framebufferFormat caps));
          write DESCRIPTOR_LOCATION_IMAGE_SWIZZLETABLE_DEPTH
                VK_DESCRIPTOR_TYPE_STORAGE_IMAGE
                (GetSwizzleTable (ds_depthbufferFormat caps)) ]
        ++ (if ds_hasTexture caps
            then
              [ write DESCRIPTOR_LOCATION_IMAGE_SWIZZLETABLE_TEX
                      VK_DESCRIPTOR_TYPE_STORAGE_IMAGE
                      (GetSwizzleTable (ds_textureFormat caps)) ]
              ++ (if IsPsmIDTEX (ds_textureFormat caps)
                  then [ write DESCRIPTOR_LOCATION_IMAGE_CLUT
                               VK_DESCRIPTOR_TYPE_STORAGE_IMAGE
                               clutImageView ]
                  else [])
            else []) in
      modify (fun d => set_context (vkUpdateDescriptorSets writes (m_context d)) d) ;;
      modify (fun d =>
        set_descriptorSetCache
          (cache_insert DESCRIPTORSET_CAPS_eq_dec caps descriptorSet
                        (m_descriptorSetCache d)) d) ;;
      mret descriptorSet
  end.

(** ** [CDraw::CreateDrawPipeline] (lines 416-610)

    Of the fixed-function state only what varies with the descriptor and
    what names another object is kept. *)
Definition CreateDrawPipeline (caps : PIPELINE_CAPS) : M PIPELINE :=
  vertexShader <- shaderModule CreateVertexShader ;;
  fragmentShader <- shaderModule (CreateFragmentShader caps) ;;
  let setLayoutBinding (b : Z) (type : VkDescriptorType) :=
    {| binding := b; binding_descriptorType := type |} in
  let setLayoutBindings :=
    [ setLayoutBinding DESCRIPTOR_LOCATION_BUFFER_MEMORY
                       VK_DESCRIPTOR_TYPE_STORAGE_BUFFER;
      setLayoutBinding DESCRIPTOR_LOCATION_IMAGE_SWIZZLETABLE_FB
                       VK_DESCRIPTOR_TYPE_STORAGE_IMAGE;
      setLayoutBinding DESCRIPTOR_LOCATION_IMAGE_SWIZZLETABLE_DEPTH
                       VK_DESCRIPTOR_TYPE_STORAGE_IMAGE ]
    ++ (if hasTexture caps
        then
          [ setLayoutBinding DESCRIPTOR_LOCATION_IMAGE_SWIZZLETABLE_TEX
                             VK_DESCRIPTOR_TYPE_STORAGE_IMAGE ]
          ++ (if IsPsmIDTEX (textureFormat caps)
              then [ setLayoutBinding DESCRIPTOR_LOCATION_IMAGE_CLUT
                                      VK_DESCRIPTOR_TYPE_STORAGE_IMAGE ]
              else [])
        else []) in
  descriptorSetLayout <-
    device_create (VkDescriptorSetLayout_ setLayoutBindings) ;;
  pipelineLayout <- device_create (VkPipelineLayout_ descriptorSetLayout) ;;
  d <- get ;;
  pipeline <-
    device_create (VkPipeline_ vertexShader fragmentShader pipelineLayout
                               (m_renderPass d)) ;;
  mret {| descriptorSetLayout := descriptorSetLayout;
          pipelineLayout := pipelineLayout;
          pipeline := pipeline |}.

(** Lines 191-196 of [FlushVertices]: find the pipeline and create it if
    it was never encountered before. *)
Definition ResolvePipeline (caps : PIPELINE_CAPS) : M PIPELINE :=
  found <- TryGetPipeline caps ;;
  match found with
  | Some p => mret p
  | None =>
      p <- CreateDrawPipeline caps ;;
      RegisterPipeline caps p
  end.

(** Lines 220-224 of [FlushVertices]: the descriptor-set key of a
    capability descriptor. *)
Definition descriptorSetCaps_of (caps : PIPELINE_CAPS) : DESCRIPTORSET_CAPS :=
  {| ds_hasTexture := hasTexture caps;
     ds_framebufferFormat := framebufferFormat caps;
     ds_depthbufferFormat := depthbufferFormat caps;
     ds_textureFormat := textureFormat caps |}.

(** ** [CDraw::FlushVertices] (lines 183-246) *)
Definition FlushVertices : M unit :=
  modify count_flush ;;
  d <- get ;;
  let vertexCount := wrapU (m_passVertexEnd d - m_passVertexStart d) in
  if vertexCount =? 0 then mret tt
  else
    let frame := currentFrame (m_frameCommandBuffer d) in
    drawPipeline <- ResolvePipeline (m_pipelineCaps d) ;;
    record (vkCmdSetViewport DRAW_AREA_SIZE DRAW_AREA_SIZE 1) ;;
    record (vkCmdSetScissor (m_scissorX d) (m_scissorY d)
                            (m_scissorWidth d) (m_scissorHeight d)) ;;
    record (vkCmdBeginRenderPass (m_renderPass d) (m_framebuffer d)
                                 DRAW_AREA_SIZE DRAW_AREA_SIZE) ;;
    let descriptorSetCaps := descriptorSetCaps_of (m_pipelineCaps d) in
    descriptorSet <-
      PrepareDescriptorSet (descriptorSetLayout drawPipeline)
                           descriptorSetCaps ;;
    record (vkCmdBindDescriptorSets (pipelineLayout drawPipeline)
                                    descriptorSet) ;;
    record (vkCmdBindPipeline (pipeline drawPipeline)) ;;
    let vertexBufferOffset := m_passVertexStart d * sizeof_PRIM_VERTEX in
    record (vkCmdBindVertexBuffers frame vertexBufferOffset) ;;
    record (vkCmdPushConstants (pipelineLayout drawPipeline)
                               (m_pushConstants d)) ;;
    massert (vertexCount mod 3 =? 0) TriangleListAssertion ;;
    record (vkCmdDraw vertexCount) ;;
    record vkCmdEndRenderPass ;;
    modify (fun d => set_passVertexStart (m_passVertexEnd d) d).

(** [CDraw::PreFlushFrameCommandBuffer] and
    [CDraw::PostFlushFrameCommandBuffer] (lines 248-256). *)
Definition PreFlushFrameCommandBuffer : M unit := FlushVertices.

Definition PostFlushFrameCommandBuffer : M unit :=
  modify (fun d => set_passVertexStart 0 (set_passVertexEnd 0 d)).

(** Modelled from the spec: [CFrameCommandBuffer::Flush] is not in the
    source tree.  Before the frame is submitted the pending batch is
    flushed ([PreFlush]); the frame is submitted and the next frame slot
    becomes current; after submission both cursors are reset
    ([PostFlush]). *)
Definition submit (f : CFrameCommandBuffer) : CFrameCommandBuffer :=
  {| currentFrame := (currentFrame f + 1) mod frameCount f;
     frameCount := frameCount f;
     commandBuffer := [];
     submitted := submitted f ++ [commandBuffer f] |}.

Definition FrameCommandBuffer_Flush : M unit :=
  PreFlushFrameCommandBuffer ;;
  modify (fun d =>
    set_frameCommandBuffer (submit (m_frameCommandBuffer d)) d) ;;
  PostFlushFrameCommandBuffer.

(** ** The state setters (lines 63-168) *)

Definition SetPipelineCaps (caps : PIPELINE_CAPS) : M unit :=
  d <- get ;;
  let changed :=
    if PIPELINE_CAPS_eq_dec caps (m_pipelineCaps d) then false else true in
  if negb changed then mret tt
  else
    FlushVertices ;;
    modify (set_pipelineCaps caps).

Definition SetFramebufferParams (addr width writeMask : Z) : M unit :=
  d <- get ;;
  let changed :=
    negb (fbBufAddr (m_pushConstants d) =? addr)
    || negb (fbBufWidth (m_pushConstants d) =? width)
    || negb (fbWriteMask (m_pushConstants d) =? writeMask) in
  if negb changed then mret tt
  else
    FlushVertices ;;
    modify (fun d =>
      set_pushConstants
        (pc_setFramebuffer addr width writeMask (m_pushConstants d)) d).

Definition SetDepthbufferParams (addr width : Z) : M unit :=
  d <- get ;;
  let changed :=
    negb (depthBufAddr (m_pushConstants d) =? addr)
    || negb (depthBufWidth (m_pushConstants d) =? width) in
  if negb changed then mret tt
  else
    FlushVertices ;;
    modify (fun d =>
      set_pushConstants (pc_setDepthbuffer addr width (m_pushConstants d)) d).

Definition SetTextureParams (bufAddr bufWidth width height csa : Z)
    : M unit :=
  d <- get ;;
  let changed :=
    negb (texBufAddr (m_pushConstants d) =? bufAddr)
    || negb (texBufWidth (m_pushConstants d) =? bufWidth)
    || negb (texWidth (m_pushConstants d) =? width)
    || negb (texHeight (m_pushConstants d) =? height)
    || negb (texCsa (m_pushConstants d) =? csa) in
  if negb changed then mret tt
  else
    FlushVertices ;;
    modify (fun d =>
      set_pushConstants
        (pc_setTexture bufAddr bufWidth width height csa
                       (m_pushConstants d)) d).

Definition SetTextureAlphaParams (texA0_ texA1_ : Z) : M unit :=
  d <- get ;;
  let changed :=
    negb (texA0 (m_pushConstants d) =? texA0_)
    || negb (texA1 (m_pushConstants d) =? texA1_) in
  if negb changed then mret tt
  else
    FlushVertices ;;
    modify (fun d =>
      set_pushConstants
        (pc_setTextureAlpha texA0_ texA1_ (m_pushConstants d)) d).

Definition SetAlphaTestParams (alphaRef_ : Z) : M unit :=
  d <- get ;;
  let changed := negb (alphaRef (m_pushConstants d) =? alphaRef_) in
  if negb changed then mret tt
  else
    FlushVertices ;;
    modify (fun d =>
      set_pushConstants (pc_setAlphaTest alphaRef_ (m_pushConstants d)) d).

Definition SetTextureClampParams (clampMinU clampMinV clampMaxU clampMaxV : Z)
    : M unit :=
  d <- get ;;
  let changed :=
    negb (clampMin0 (m_pushConstants d) =? clampMinU)
    || negb (clampMin1 (m_pushConstants d) =? clampMinV)
    || negb (clampMax0 (m_pushConstants d) =? clampMaxU)
    || negb (clampMax1 (m_pushConstants d) =? clampMaxV) in
  if negb changed then mret tt
  else
    FlushVertices ;;
    modify (fun d =>
      set_pushConstants
        (pc_setTextureClamp clampMinU clampMinV clampMaxU clampMaxV
                            (m_pushConstants d)) d).

Definition SetAlphaBlendingParams (alphaFix_ : Z) : M unit :=
  d <- get ;;
  let changed := negb (alphaFix (m_pushConstants d) =? alphaFix_) in
  if negb changed then mret tt
  else
    FlushVertices ;;
    modify (fun d =>
      set_pushConstants
        (pc_setAlphaBlending alphaFix_ (m_pushConstants d)) d).

Definition SetScissor (scissorX scissorY scissorWidth scissorHeight : Z)
    : M unit :=
  d <- get ;;
  let changed :=
    negb (m_scissorX d =? scissorX)
    || negb (m_scissorY d =? scissorY)
    || negb (m_scissorWidth d =? scissorWidth)
    || negb (m_scissorHeight d =? scissorHeight) in
  if negb changed then mret tt
  else
    FlushVertices ;;
    modify (set_scissor scissorX scissorY scissorWidth scissorHeight).

(** ** [CDraw::AddVertices] (lines 170-181)

    The two pointers are indices into the caller's vertex array [host];
    [memcpy] copies the run to the vertex buffer of the current frame at
    the end cursor. *)
Definition memcpy (dst : Z -> option PRIM_VERTEX) (dstOffset : Z)
    (src : Z -> PRIM_VERTEX) (srcOffset amount : Z) : Z -> option PRIM_VERTEX :=
  fun i =>
    if (dstOffset <=? i) && (i <? dstOffset + amount)
    then Some (src (srcOffset + (i - dstOffset)))
    else dst i.

Definition AddVertices (host : Z -> PRIM_VERTEX)
    (vertexBeginPtr vertexEndPtr : Z) : M unit :=
  let amount := vertexEndPtr - vertexBeginPtr in
  d <- get ;;
  (if m_passVertexEnd d + amount >? MAX_VERTEX_COUNT
   then
     FrameCommandBuffer_Flush ;;
     d <- get ;;
     massert (m_passVertexEnd d + amount <=? MAX_VERTEX_COUNT)
             BatchCapacityAssertion
   else mret tt) ;;
  modify (fun d =>
    let frame := currentFrame (m_frameCommandBuffer d) in
    set_frames
      (fun i =>
         if i =? frame
         then memcpy (m_frames d frame) (m_passVertexEnd d)
                     host vertexBeginPtr amount
         else m_frames d i) d) ;;
  modify (fun d => set_passVertexEnd (wrapU (m_passVertexEnd d + amount)) d).

(** ** Sequences of calls on a [CDraw] *)

Inductive Call : Type :=
| Call_SetPipelineCaps (caps : PIPELINE_CAPS)
| Call_SetFramebufferParams (addr width writeMask : Z)
| Call_SetDepthbufferParams (addr width : Z)
| Call_SetTextureParams (bufAddr bufWidth width height csa : Z)
| Call_SetTextureAlphaParams (texA0_ texA1_ : Z)
| Call_SetAlphaTestParams (alphaRef_ : Z)
| Call_SetTextureClampParams (clampMinU clampMinV clampMaxU clampMaxV : Z)
| Call_SetAlphaBlendingParams (alphaFix_ : Z)
| Call_SetScissor (scissorX scissorY scissorWidth scissorHeight : Z)
| Call_AddVertices (host : Z -> PRIM_VERTEX) (vertexBeginPtr vertexEndPtr : Z)
| Call_FlushVertices
| Call_FrameFlush.

Definition call (c : Call) : M unit :=
  match c with
  | Call_SetPipelineCaps caps => SetPipelineCaps caps
  | Call_SetFramebufferParams addr width writeMask =>
      SetFramebufferParams addr width writeMask
  | Call_SetDepthbufferParams addr width => SetDepthbufferParams addr width
  | Call_SetTextureParams bufAddr bufWidth width height csa =>
      SetTextureParams bufAddr bufWidth width height csa
  | Call_SetTextureAlphaParams a0 a1 => SetTextureAlphaParams a0 a1
  | Call_SetAlphaTestParams r => SetAlphaTestParams r
  | Call_SetTextureClampParams minU minV maxU maxV =>
      SetTextureClampParams minU minV maxU maxV
  | Call_SetAlphaBlendingParams f => SetAlphaBlendingParams f
  | Call_SetScissor x y w h => SetScissor x y w h
  | Call_AddVertices host b e => AddVertices host b e
  | Call_FlushVertices => FlushVertices
  | Call_FrameFlush => FrameCommandBuffer_Flush
  end.

Fixpoint calls (cs : list Call) : M unit :=
  match cs with
  | [] => mret tt
  | c :: cs' => call c ;; calls cs'
  end.

Definition is_setter (c : Call) : bool :=
  match c with
  | Call_AddVertices _ _ _ | Call_FlushVertices | Call_FrameFlush => false
  | _ => true
  end.

(** ** The committed draw state, in the words of the specification

    What the setters compare against and commit: the capability
    descriptor, the push constants and the scissor rectangle. *)
Record Committed : Type := {
  c_caps : PIPELINE_CAPS;
  c_pushConstants : DRAW_PIPELINE_PUSHCONSTANTS;
  c_scissor : Z * Z * Z * Z
}.

Definition committed (d : CDraw) : Committed :=
  {| c_caps := m_pipelineCaps d;
     c_pushConstants := m_pushConstants d;
     c_scissor := (m_scissorX d, m_scissorY d,
                   m_scissorWidth d, m_scissorHeight d) |}.

(** The value a setter call brings, and the committed value it is
    compared with: one tuple of words per setter. *)
Definition incoming (c : Call) : option PIPELINE_CAPS + list Z :=
  match c with
  | Call_SetPipelineCaps caps => inl (Some caps)
  | Call_SetFramebufferParams addr width writeMask =>
      inr [addr; width; writeMask]
  | Call_SetDepthbufferParams addr width => inr [addr; width]
  | Call_SetTextureParams bufAddr bufWidth width height csa =>
      inr [bufAddr; bufWidth; width; height; csa]
  | Call_SetTextureAlphaParams a0 a1 => inr [a0; a1]
  | Call_SetAlphaTestParams r => inr [r]
  | Call_SetTextureClampParams minU minV maxU maxV =>
      inr [minU; minV; maxU; maxV]
  | Call_SetAlphaBlendingParams f => inr [f]
  | Call_SetScissor x y w h => inr [x; y; w; h]
  | _ => inl None
  end.

Definition current (c : Call) (v : Committed)
    : option PIPELINE_CAPS + list Z :=
  let pc := c_pushConstants v in
  match c with
  | Call_SetPipelineCaps _ => inl (Some (c_caps v))
  | Call_SetFramebufferParams _ _ _ =>
      inr [fbBufAddr pc; fbBufWidth pc; fbWriteMask pc]
  | Call_SetDepthbufferParams _ _ => inr [depthBufAddr pc; depthBufWidth pc]
  | Call_SetTextureParams _ _ _ _ _ =>
      inr [texBufAddr pc; texBufWidth pc; texWidth pc; texHeight pc;
           texCsa pc]
  | Call_SetTextureAlphaParams _ _ => inr [texA0 pc; texA1 pc]
  | Call_SetAlphaTestParams _ => inr [alphaRef pc]
  | Call_SetTextureClampParams _ _ _ _ =>
      inr [clampMin0 pc; clampMin1 pc; clampMax0 pc; clampMax1 pc]
  | Call_SetAlphaBlendingParams _ => inr [alphaFix pc]
  | Call_SetScissor _ _ _ _ =>
      let '(x, y, w, h) := c_scissor v in inr [x; y; w; h]
  | _ => inl None
  end.

(** Committing the value of a setter call. *)
Definition commit (c : Call) (d : CDraw) : CDraw :=
  match c with
  | Call_SetPipelineCaps caps => set_pipelineCaps caps d
  | Call_SetFramebufferParams addr width writeMask =>
      set_pushConstants
        (pc_setFramebuffer addr width writeMask (m_pushConstants d)) d
  | Call_SetDepthbufferParams addr width =>
      set_pushConstants (pc_setDepthbuffer addr width (m_pushConstants d)) d
  | Call_SetTextureParams bufAddr bufWidth width height csa =>
      set_pushConstants
        (pc_setTexture bufAddr bufWidth width height csa (m_pushConstants d))
        d
  | Call_SetTextureAlphaParams a0 a1 =>
      set_pushConstants (pc_setTextureAlpha a0 a1 (m_pushConstants d)) d
  | Call_SetAlphaTestParams r =>
      set_pushConstants (pc_setAlphaTest r (m_pushConstants d)) d
  | Call_SetTextureClampParams minU minV maxU maxV =>
      set_pushConstants
        (pc_setTextureClamp minU minV maxU maxV (m_pushConstants d)) d
  | Call_SetAlphaBlendingParams f =>
      set_pushConstants (pc_setAlphaBlending f (m_pushConstants d)) d
  | Call_SetScissor x y w h => set_scissor x y w h d
  | _ => d
  end.

(** The same on the committed state alone. *)
Definition commitV (c : Call) (v : Committed) : Committed :=
  let with_pc (pc : DRAW_PIPELINE_PUSHCONSTANTS) :=
    {| c_caps := c_caps v; c_pushConstants := pc;
       c_scissor := c_scissor v |} in
  match c with
  | Call_SetPipelineCaps caps =>
      {| c_caps := caps; c_pushConstants := c_pushConstants v;
         c_scissor := c_scissor v |}
  | Call_SetFramebufferParams addr width writeMask =>
      with_pc (pc_setFramebuffer addr width writeMask (c_pushConstants v))
  | Call_SetDepthbufferParams addr width =>
      with_pc (pc_setDepthbuffer addr width (c_pushConstants v))
  | Call_SetTextureParams bufAddr bufWidth width height csa =>
      with_pc (pc_setTexture bufAddr bufWidth width height csa
                             (c_pushConstants v))
  | Call_SetTextureAlphaParams a0 a1 =>
      with_pc (pc_setTextureAlpha a0 a1 (c_pushConstants v))
  | Call_SetAlphaTestParams r =>
      with_pc (pc_setAlphaTest r (c_pushConstants v))
  | Call_SetTextureClampParams minU minV maxU maxV =>
      with_pc (pc_setTextureClamp minU minV maxU maxV (c_pushConstants v))
  | Call_SetAlphaBlendingParams f =>
      with_pc (pc_setAlphaBlending f (c_pushConstants v))
  | Call_SetScissor x y w h =>
      {| c_caps := c_caps v; c_pushConstants := c_pushConstants v;
         c_scissor := (x, y, w, h) |}
  | _ => v
  end.

Definition value_eq_dec (a b : option PIPELINE_CAPS + list Z)
    : {a = b} + {a <> b}.
Proof.
  decide equality.
  - decide equality. apply PIPELINE_CAPS_eq_dec.
  - apply (list_eq_dec Z.eq_dec).
Defined.

(** A call changes the committed state when the value it brings differs
    from the committed one. *)
Definition is_change (c : Call) (v : Committed) : bool :=
  if value_eq_dec (incoming c) (current c v) then false else true.

(** The number of calls of a sequence that are changes, each compared
    at its own turn. *)
Fixpoint changes (cs : list Call) (v : Committed) : nat :=
  match cs with
  | [] => O
  | c :: cs' =>
      ((if is_change c v then 1 else 0) + changes cs' (commitV c v))%nat
  end.

(** The frames submitted so far, and every draw recorded so far. *)
Definition submissions (d : CDraw) : nat :=
  length (submitted (m_frameCommandBuffer d)).

Definition recorded (d : CDraw) : list VkCmd :=
  concat (submitted (m_frameCommandBuffer d))
  ++ commandBuffer (m_frameCommandBuffer d).

Local Close Scope draw_scope.

(* ================================================================== *)
(** * The orchestrator: what is observed of a run *)

(** A computation is stable for a preorder on states when every run that
    returns ends in a state above the one it started from. *)
Definition stable {A : Type} (R : CDraw -> CDraw -> Prop) (m : M A) : Prop :=
  forall d a d', m d = Ok (a, d') -> R d d'.

(** The members that neither the caches nor the recorded commands are
    part of. *)
Definition batch_state (d : CDraw) :=
  (flushCalls d, committed d, m_passVertexStart d, m_passVertexEnd d,
   m_frames d, m_renderPass d, m_framebuffer d,
   currentFrame (m_frameCommandBuffer d), frameCount (m_frameCommandBuffer d),
   submitted (m_frameCommandBuffer d)).

(** A run keeps an observation [f] of the state. *)
Definition keeps {X : Type} (f : CDraw -> X) (d d' : CDraw) : Prop :=
  f d' = f d.

(** The [vertexCount] local of [FlushVertices]. *)
Definition vertexCount (d : CDraw) : Z :=
  wrapU (m_passVertexEnd d - m_passVertexStart d).

(** The commands of one draw, for the state the flush started in. *)
Definition draw_commands (d : CDraw) (p : PIPELINE) (descriptorSet : Z)
    : list VkCmd :=
  [ vkCmdSetViewport DRAW_AREA_SIZE DRAW_AREA_SIZE 1;
    vkCmdSetScissor (m_scissorX d) (m_scissorY d)
                    (m_scissorWidth d) (m_scissorHeight d);
    vkCmdBeginRenderPass (m_renderPass d) (m_framebuffer d)
                         DRAW_AREA_SIZE DRAW_AREA_SIZE;
    vkCmdBindDescriptorSets (pipelineLayout p) descriptorSet;
    vkCmdBindPipeline (pipeline p);
    vkCmdBindVertexBuffers (currentFrame (m_frameCommandBuffer d))
                           (m_passVertexStart d * sizeof_PRIM_VERTEX);
    vkCmdPushConstants (pipelineLayout p) (m_pushConstants d);
    vkCmdDraw (vertexCount d);
    vkCmdEndRenderPass ].

(** A computation fails in [E] when every fatal error it can end in
    satisfies [E]. *)
Definition fails_in {A : Type} (E : Fatal -> Prop) (m : M A) : Prop :=
  forall d e, m d = Abort e -> E e.

(** Every entry of the two caches of [d] is an entry of those of [d'],
    under the same key and with the same object. *)
Definition caches_grow (d d' : CDraw) : Prop :=
  (forall caps p,
      cache_find PIPELINE_CAPS_eq_dec caps (m_pipelineCache d) = Some p ->
      cache_find PIPELINE_CAPS_eq_dec caps (m_pipelineCache d') = Some p) /\
  (forall caps s,
      cache_find DESCRIPTORSET_CAPS_eq_dec caps (m_descriptorSetCache d)
      = Some s ->
      cache_find DESCRIPTORSET_CAPS_eq_dec caps (m_descriptorSetCache d')
      = Some s).

(** The state after the copy and the advance of the end cursor. *)
Definition appended (host : Z -> PRIM_VERTEX) (b e : Z) (d : CDraw) : CDraw :=
  let frame := currentFrame (m_frameCommandBuffer d) in
  set_passVertexEnd (wrapU (m_passVertexEnd d + (e - b)))
    (set_frames
       (fun i =>
          if i =? frame
          then memcpy (m_frames d frame) (m_passVertexEnd d) host b (e - b)
          else m_frames d i) d).

(** The open batch lies within the vertex buffer and holds whole
    triangles. *)
Definition batch_inv (d : CDraw) : Prop :=
  0 <= m_passVertexStart d <= m_passVertexEnd d /\
  m_passVertexEnd d <= MAX_VERTEX_COUNT /\
  (m_passVertexEnd d - m_passVertexStart d) mod 3 = 0.

(** A caller that hands over whole triangles. *)
Definition whole_triangles (c : Call) : Prop :=
  match c with
  | Call_AddVertices _ b e => 0 <= e - b /\ (e - b) mod 3 = 0
  | _ => True
  end.

(** The commands recorded from [d] to [d'] draw positive multiples of
    three vertices. *)
Definition draws_grow (d d' : CDraw) : Prop :=
  exists new,
    recorded d' = recorded d ++ new /\
    forall n, In (vkCmdDraw n) new -> 0 < n /\ n mod 3 = 0.

(** ** Concrete inputs *)
(** An untextured, unblended descriptor over 32-bit buffers. *)
Definition caps_ex : PIPELINE_CAPS :=
  {| hasTexture := false; textureHasAlpha := false;
     textureBlackIsTransparent := false;
     textureFunction := TEX0_FUNCTION_MODULATE;
     texClampU := CLAMP_MODE_REPEAT; texClampV := CLAMP_MODE_REPEAT;
     hasAlphaBlending := false;
     alphaA := ALPHABLEND_ABD_CS; alphaB := ALPHABLEND_ABD_CD;
     alphaC := ALPHABLEND_C_FIX; alphaD := ALPHABLEND_ABD_ZERO;
     depthTestFunction := DEPTH_TEST_ALWAYS;
     alphaTestFunction := ALPHA_TEST_ALWAYS;
     writeDepth := false; maskColor := false;
     textureFormat := PSMCT32; clutFormat := PSMCT32;
     framebufferFormat := PSMCT32; depthbufferFormat := PSMZ32 |}.

Definition pushConstants_ex : DRAW_PIPELINE_PUSHCONSTANTS :=
  {| fbBufAddr := 0; fbBufWidth := 640; fbWriteMask := 4294967295;
     depthBufAddr := 0; depthBufWidth := 640;
     texBufAddr := 0; texBufWidth := 0; texWidth := 0; texHeight := 0;
     texCsa := 0; texA0 := 0; texA1 := 0;
     clampMin0 := 0; clampMin1 := 0; clampMax0 := 0; clampMax1 := 0;
     alphaFix := 0; alphaRef := 0 |}.

(** A [CDraw] with an empty batch at the start of a frame, on a device
    whose creation calls all succeed. *)
Definition draw_ex : CDraw :=
  {| m_context := {| nextHandle := 3; objects := [];
                     vkResult := fun _ _ => true |};
     m_frameCommandBuffer :=
       {| currentFrame := 0; frameCount := 3;
          commandBuffer := []; submitted := [] |};
     m_pipelineCache := []; m_descriptorSetCache := [];
     m_renderPass := 0; m_framebuffer := 2;
     m_frames := fun _ _ => None;
     m_pipelineCaps := caps_ex;
     m_pushConstants := pushConstants_ex;
     m_scissorX := 0; m_scissorY := 0;
     m_scissorWidth := 640; m_scissorHeight := 448;
     m_passVertexStart := 0; m_passVertexEnd := 0;
     flushCalls := O |}.

(** A caller's vertex array that holds the same white vertex everywhere. *)
Definition vertex_ex : PRIM_VERTEX :=
  {| vtx_x := 0; vtx_y := 0; vtx_z := 0; vtx_color := 4294967295;
     vtx_s := 0; vtx_t := 0; vtx_q := 1 |}.

Definition host_ex : Z -> PRIM_VERTEX := fun _ => vertex_ex.

(** The state a run ends in, or the state it started in if it aborts. *)
Definition state_after {A : Type} (m : M A) (d : CDraw) : CDraw :=
  match m d with
  | Ok (_, d') => d'
  | Abort _ => d
  end.

(** Two triangles drawn under two framebuffer addresses. *)
Definition calls_ex : list Call :=
  [ Call_AddVertices host_ex 0 3; Call_FlushVertices;
    Call_SetFramebufferParams 16 640 4294967295;
    Call_AddVertices host_ex 0 3; Call_FlushVertices ].

(** Another descriptor with the descriptor-set key of [caps_ex]. *)
Definition caps_masked : PIPELINE_CAPS :=
  {| hasTexture := false; textureHasAlpha := false;
     textureBlackIsTransparent := false;
     textureFunction := TEX0_FUNCTION_MODULATE;
     texClampU := CLAMP_MODE_REPEAT; texClampV := CLAMP_MODE_REPEAT;
     hasAlphaBlending := false;
     alphaA := ALPHABLEND_ABD_CS; alphaB := ALPHABLEND_ABD_CD;
     alphaC := ALPHABLEND_C_FIX; alphaD := ALPHABLEND_ABD_ZERO;
     depthTestFunction := DEPTH_TEST_ALWAYS;
     alphaTestFunction := ALPHA_TEST_ALWAYS;
     writeDepth := false; maskColor := true;
     textureFormat := PSMCT32; clutFormat := PSMCT32;
     framebufferFormat := PSMCT32; depthbufferFormat := PSMZ32 |}.

(* ================================================================== *)
(** * The fragment program: what is observed of a run *)

(** What an expression reads. *)
Inductive Leaf : Type :=
| LInputF (sem : SEMANTIC) (index : Z) (c : Component)
| LInputU (sem : SEMANTIC) (index : Z) (c : Component)
| LVarF (v : Float4Sym) (c : Component)
| LVarI (v : IntSym)
| LVarU (v : UintSym)
| LVarB (v : BoolSym)
| LUniform (u : Uniform) (c : Component)
| LImage (binding : Z)
| LMemory (address : iexp).

Fixpoint leavesF (e : fexp) : list Leaf :=
  match e with
  | NewFloat _ => []
  | InputF sem index c => [LInputF sem index c]
  | VarF v c => [LVarF v c]
  | FAdd a b | FSub a b | FMul a b | FDiv a b => leavesF a ++ leavesF b
  | FClamp a b c | FMix a b c => leavesF a ++ leavesF b ++ leavesF c
  | IToFloat a => leavesI a
  | UToFloat a => leavesU a
  | PSM32ToVec4 p _ | PSM16ToVec4 p _ => leavesU p
  end
with leavesI (e : iexp) : list Leaf :=
  match e with
  | NewInt _ => []
  | UniformI u c => [LUniform u c]
  | VarI v => [LVarI v]
  | IAdd a b | ISub a b | IMul a b | IAnd a b | IOr a b =>
      leavesI a ++ leavesI b
  | IClamp a b c => leavesI a ++ leavesI b ++ leavesI c
  | FToInt a => leavesF a
  | UToInt a => leavesU a
  | GetPixelAddress _ table a w px py =>
      LImage table :: leavesI a ++ leavesI w ++ leavesI px ++ leavesI py
  | GetPixelAddress_PSMT4 table a w px py =>
      LImage table :: leavesI a ++ leavesI w ++ leavesI px ++ leavesI py
  end
with leavesU (e : uexp) : list Leaf :=
  match e with
  | NewUint _ => []
  | InputU sem index c => [LInputU sem index c]
  | VarU v => [LVarU v]
  | UAnd a b | UOr a b | UShl a b => leavesU a ++ leavesU b
  | UNot a => leavesU a
  | FToUint a => leavesF a
  | IToUint a => leavesI a
  | LoadX img px py => LImage img :: leavesI px ++ leavesI py
  | Memory_Read32 a | Memory_Read24 a | Memory_Read16 a
  | Memory_Read8 a | Memory_Read4 a => LMemory a :: leavesI a
  | Vec4ToPSM32 r g b a | Vec4ToPSM16 r g b a =>
      leavesF r ++ leavesF g ++ leavesF b ++ leavesF a
  end.

Definition leavesB (e : bexp) : list Leaf :=
  match e with
  | NewBool _ => []
  | VarB v => [LVarB v]
  | UEq a b | UGe a b | UGt a b => leavesU a ++ leavesU b
  | FEq a b => leavesF a ++ leavesF b
  end.

Definition leavesF4 (e : Float4) : list Leaf :=
  leavesF (f4x e) ++ leavesF (f4y e) ++ leavesF (f4z e) ++ leavesF (f4w e).

(** What a statement reads, and what it writes. *)
Definition reads (s : Stmt) : list Leaf :=
  match s with
  | AssignF4 _ e => leavesF4 e
  | AssignI _ e => leavesI e
  | AssignU _ e => leavesU e
  | AssignB _ e => leavesB e
  | Memory_Write32 a v | Memory_Write24 a v | Memory_Write16 a v =>
      leavesI a ++ leavesU v
  | BeginIf c => leavesB c
  | EndIf | BeginInvocationInterlock | EndInvocationInterlock => []
  end.

Inductive Target : Type :=
| TVarF (v : Float4Sym)
| TVarI (v : IntSym)
| TVarU (v : UintSym)
| TVarB (v : BoolSym)
| TMemory
| TNone.

Definition target (s : Stmt) : Target :=
  match s with
  | AssignF4 v _ => TVarF v
  | AssignI v _ => TVarI v
  | AssignU v _ => TVarU v
  | AssignB v _ => TVarB v
  | Memory_Write32 _ _ | Memory_Write24 _ _ | Memory_Write16 _ _ => TMemory
  | _ => TNone
  end.

(** The nesting depth of [BeginIf] after a list of statements, if no
    [EndIf] comes without its [BeginIf]. *)
Fixpoint nesting (l : list Stmt) (depth : nat) : option nat :=
  match l with
  | [] => Some depth
  | BeginIf _ :: l' => nesting l' (S depth)
  | EndIf :: l' =>
      match depth with
      | O => None
      | S n => nesting l' n
      end
  | _ :: l' => nesting l' depth
  end.

Scheme fexp_mut := Induction for fexp Sort Prop
  with iexp_mut := Induction for iexp Sort Prop
  with uexp_mut := Induction for uexp Sort Prop.
Combined Scheme exp_mutind from fexp_mut, iexp_mut, uexp_mut.

(** Two invocations agree on a leaf. *)
Definition agree {P : Platform}
    (ctx ctx' : Ctx) (st st' : State) (l : Leaf) : Prop :=
  match l with
  | LInputF sem index c => inF ctx sem index c = inF ctx' sem index c
  | LInputU sem index c => inU ctx sem index c = inU ctx' sem index c
  | LVarF v c => vF st v c = vF st' v c
  | LVarI v => vI st v = vI st' v
  | LVarU v => vU st v = vU st' v
  | LVarB v => vB st v = vB st' v
  | LUniform u c => uniform ctx u c = uniform ctx' u c
  | LImage b => image ctx b = image ctx' b
  | LMemory _ => mem st = mem st'
  end.

(** ** A reference platform *)
(** [CMemoryUtils] and the arithmetic of the GPU are parameters of the
    semantics.  The closed examples run on this instance: floats are exact
    rationals, conversions to integers truncate, the memory holds one
    32-bit word per address and addresses are linear in the position. *)
Definition upd (m : Z -> Z) (k v : Z) : Z -> Z :=
  fun k' => if k' =? k then v else m k'.

(** Truncation toward zero, the float-to-integer conversion. *)
Definition Qtrunc (q : Q) : Z := Z.quot (Qnum q) (Zpos (Qden q)).

(** min (max x lo) hi *)
Definition Qclamp (x lo hi : Q) : Q :=
  let m := if Qle_bool lo x then x else lo in
  if Qle_bool m hi then m else hi.

(** Channels of a 32-bit pixel (8 bits each, red lowest) and of a 16-bit
    pixel (5 bits each and one alpha bit). *)
Definition channel8 (pixel : Z) (c : Component) : Q :=
  let shift := match c with cx => 0 | cy => 8 | cz => 16 | cw => 24 end in
  Qred (inject_Z (Z.land (Z.shiftr pixel shift) 255) / 255).

Definition channel5 (pixel : Z) (c : Component) : Q :=
  match c with
  | cx => Qred (inject_Z (Z.land pixel 31) / 31)
  | cy => Qred (inject_Z (Z.land (Z.shiftr pixel 5) 31) / 31)
  | cz => Qred (inject_Z (Z.land (Z.shiftr pixel 10) 31) / 31)
  | cw => inject_Z (Z.land (Z.shiftr pixel 15) 1)
  end.

Definition pack8 (r g b a : Q) : Z :=
  let q x := Z.land (Qtrunc (x * 255)) 255 in
  Z.lor (Z.lor (q r) (Z.shiftl (q g) 8))
        (Z.lor (Z.shiftl (q b) 16) (Z.shiftl (q a) 24)).

Definition pack5 (r g b a : Q) : Z :=
  let q x := Z.land (Qtrunc (x * 31)) 31 in
  Z.lor (Z.lor (q r) (Z.shiftl (q g) 5))
        (Z.lor (Z.shiftl (q b) 10) (Z.shiftl (Z.land (Qtrunc a) 1) 15)).

Definition ReferencePlatform : Platform :=
  {| F := Q;
     fconst := Qred;
     fadd := fun a b => Qred (a + b);
     fsub := fun a b => Qred (a - b);
     fmul := fun a b => Qred (a * b);
     fdiv := fun a b => Qred (a / b);
     fclamp := Qclamp;
     fmix := fun a b t => Qred (a * (1 - t) + b * t);
     feqb := Qeq_bool;
     itof := inject_Z;
     utof := inject_Z;
     ftoi := Qtrunc;
     ftou := Qtrunc;
     Memory := Z -> Z;
     read32 := fun m a => m a;
     read24 := fun m a => Z.land (m a) 16777215;
     read16 := fun m a => Z.land (m a) 65535;
     read8 := fun m a => Z.land (m a) 255;
     read4 := fun m a => Z.land (m a) 15;
     write32 := fun m a v => upd m a v;
     write24 := fun m a v =>
       upd m a (Z.lor (Z.land v 16777215) (Z.land (m a) 4278190080));
     write16 := fun m a v =>
       upd m a (Z.lor (Z.land v 65535) (Z.land (m a) 4294901760));
     pixelAddress := fun _ _ base width x y => base + y * width + x;
     pixelAddress_PSMT4 := fun _ base width x y => base + y * width + x;
     psm32ToVec4 := channel8;
     psm16ToVec4 := channel5;
     vec4ToPSM32 := pack8;
     vec4ToPSM16 := pack5 |}.

(** ** Concrete invocations *)
Definition rgba (r g b a : Q) (c : Component) : Q :=
  match c with cx => r | cy => g | cz => b | cw => a end.

(** An invocation at pixel (0, 0) with source colour (1, 0, 0, 1) whose
    push constants carry the given write mask, fixed alpha and reference. *)
Definition inF_ex (sem : SEMANTIC) (index : Z) (c : Component) : Q :=
  match sem, index with
  | SEMANTIC_TEXCOORD, 2 => rgba 1 0 0 1 c
  | SEMANTIC_TEXCOORD, 3 => rgba 0 0 1 0 c
  | _, _ => 0
  end.

Definition uniform_ex (writeMask fixed reference : Z) (u : Uniform)
    (c : Component) : Z :=
  match u, c with
  | alphaFbParams, cx => writeMask
  | alphaFbParams, cy => fixed
  | alphaFbParams, cz => reference
  | fbDepthParams, cy => 640
  | fbDepthParams, cz => 1000000
  | fbDepthParams, cw => 640
  | _, _ => 0
  end.

Definition ctx_ex (writeMask fixed reference : Z) : @Ctx ReferencePlatform :=
  @Build_Ctx ReferencePlatform inF_ex (fun _ _ _ => 0)
    (uniform_ex writeMask fixed reference) (fun _ _ _ => 0).

(** Temporaries start at zero; every pixel of memory holds [pixel]. *)
Definition st_ex (pixel : Z) : @State ReferencePlatform :=
  @Build_State ReferencePlatform (fun _ _ => 0%Q) (fun _ => 0) (fun _ => 0)
    (fun _ => false) (fun _ => pixel) O.

(** Blending with A = source, B = destination, C = fixed, D = zero. *)
Definition caps_blend : PIPELINE_CAPS :=
  {| hasTexture := false; textureHasAlpha := false;
     textureBlackIsTransparent := false;
     textureFunction := TEX0_FUNCTION_MODULATE;
     texClampU := CLAMP_MODE_REPEAT; texClampV := CLAMP_MODE_REPEAT;
     hasAlphaBlending := true;
     alphaA := ALPHABLEND_ABD_CS; alphaB := ALPHABLEND_ABD_CD;
     alphaC := ALPHABLEND_C_FIX; alphaD := ALPHABLEND_ABD_ZERO;
     depthTestFunction := DEPTH_TEST_ALWAYS;
     alphaTestFunction := ALPHA_TEST_EQUAL;
     writeDepth := true; maskColor := false;
     textureFormat := PSMCT32; clutFormat := PSMCT32;
     framebufferFormat := PSMCT32; depthbufferFormat := PSMZ24 |}.

(** A textured descriptor with a region clamp on U and a region repeat
    on V, over 16-bit buffers. *)
Definition caps_tex : PIPELINE_CAPS :=
  {| hasTexture := true; textureHasAlpha := true;
     textureBlackIsTransparent := false;
     textureFunction := TEX0_FUNCTION_DECAL;
     texClampU := CLAMP_MODE_REGION_CLAMP;
     texClampV := CLAMP_MODE_REGION_REPEAT;
     hasAlphaBlending := false;
     alphaA := ALPHABLEND_ABD_CS; alphaB := ALPHABLEND_ABD_CD;
     alphaC := ALPHABLEND_C_AS; alphaD := ALPHABLEND_ABD_CD;
     depthTestFunction := DEPTH_TEST_GEQUAL;
     alphaTestFunction := ALPHA_TEST_GEQUAL;
     writeDepth := true; maskColor := true;
     textureFormat := PSMCT32; clutFormat := PSMCT32;
     framebufferFormat := PSMCT16; depthbufferFormat := PSMZ16 |}.

(** The generated program, empty where the generator asserts. *)
Definition program_of (caps : PIPELINE_CAPS) : list Stmt :=
  match program (CreateFragmentShader caps) with
  | Some prog => prog
  | None => []
  end.

(** The statements of one stage of the generator. *)
Definition stage_of (g : Gen unit) : list Stmt :=
  match g with
  | Some (_, l) => l
  | None => []
  end.

Definition alphaTest_expr (f : ALPHA_TEST) : option bexp :=
  match f with
  | ALPHA_TEST_ALWAYS => Some (NewBool true)
  | ALPHA_TEST_EQUAL => Some (UEq FS.alphaUint FS.alphaRef)
  | ALPHA_TEST_GEQUAL => Some (UGe FS.alphaUint FS.alphaRef)
  | ALPHA_TEST_OTHER _ => None
  end.

(** The format-specific load and unpacking of the destination pixel. *)
Definition fb_read (psm : PSM) : option ((iexp -> uexp) * (uexp -> Float4)) :=
  match psm with
  | PSMCT32 => Some (Memory_Read32, PSM32ToVec4_v)
  | PSMCT24 => Some (Memory_Read24, PSM32ToVec4_v)
  | PSMCT16 | PSMCT16S => Some (Memory_Read16, PSM16ToVec4_v)
  | _ => None
  end.

Definition depthTest_stmts (f : DEPTH_TEST) : list Stmt :=
  match f with
  | DEPTH_TEST_ALWAYS => [AssignB FS.depthTestResult (NewBool true)]
  | DEPTH_TEST_NEVER => [AssignB FS.depthTestResult (NewBool false)]
  | DEPTH_TEST_GEQUAL =>
      [AssignB FS.depthTestResult (UGe FS.srcDepth (VarU FS.dstDepth))]
  | DEPTH_TEST_GREATER =>
      [AssignB FS.depthTestResult (UGt FS.srcDepth (VarU FS.dstDepth))]
  | DEPTH_TEST_OTHER _ => []
  end.

(** The format-specific packing and store of the destination pixel, and
    the store of the depth with its mask. *)
Definition fb_write (psm : PSM)
    : option ((Float4 -> uexp) * (iexp -> uexp -> Stmt)) :=
  match psm with
  | PSMCT32 => Some (Vec4ToPSM32_v, Memory_Write32)
  | PSMCT24 => Some (Vec4ToPSM32_v, Memory_Write24)
  | PSMCT16 | PSMCT16S => Some (Vec4ToPSM16_v, Memory_Write16)
  | _ => None
  end.

Definition depth_write (psm : PSM) : option (uexp * (iexp -> uexp -> Stmt)) :=
  match psm with
  | PSMZ32 => Some (FS.srcDepth, Memory_Write32)
  | PSMZ24 => Some (UAnd FS.srcDepth (NewUint 16777215), Memory_Write24)
  | PSMZ16 | PSMZ16S => Some (UAnd FS.srcDepth (NewUint 65535), Memory_Write16)
  | _ => None
  end.

Definition merged (pack : Float4 -> uexp) : uexp :=
  UOr (UAnd (pack (xyzw FS.dstColor)) FS.fbWriteMask)
      (UAnd (VarU FS.dstPixel) (UNot FS.fbWriteMask)).

(** What the texture stage may read and write. *)
Definition tex_leaf (l : Leaf) : bool :=
  match l with
  | LInputF _ _ _ => true
  | LVarF Var_textureColor _ => true
  | LVarI Tmp_clutIndex => true
  | LUniform texParams0 _ | LUniform texParams1 _ | LUniform texParams2 _ =>
      true
  | LImage _ => true
  | LMemory (VarI _) => false
  | LMemory _ => true
  | _ => false
  end.

Definition tex_target (t : Target) : bool :=
  match t with
  | TVarF Var_textureColor | TVarI Tmp_clutIndex | TNone => true
  | _ => false
  end.

Definition tex_stmt (s : Stmt) : bool :=
  tex_target (target s) && forallb tex_leaf (reads s).

Definition post_leaf (l : Leaf) : bool :=
  match l with
  | LInputF _ _ _ => true
  | LVarF Var_textureColor _ | LVarF Tmp_dstColor _ => true
  | LVarI Tmp_fbAddress | LVarI Tmp_depthAddress => true
  | LVarU _ => true
  | LVarB Tmp_depthTestResult => true
  | LUniform fbDepthParams _ => true
  | LUniform alphaFbParams cx | LUniform alphaFbParams cy => true
  | LImage _ => true
  | LMemory (VarI Tmp_fbAddress) | LMemory (VarI Tmp_depthAddress) => true
  | _ => false
  end.

Definition post_target (t : Target) : bool :=
  match t with
  | TVarF Tmp_dstColor | TVarF (Output SEMANTIC_SYSTEM_COLOR _) => true
  | TVarI Tmp_fbAddress | TVarI Tmp_depthAddress => true
  | TVarU _ => true
  | TVarB Tmp_depthTestResult => true
  | TMemory | TNone => true
  | _ => false
  end.

Definition post_stmt (s : Stmt) : bool :=
  post_target (target s) && forallb post_leaf (reads s).

Definition Target_eq_dec (a b : Target) : {a = b} + {a <> b}.
Proof.
  decide equality;
    first [ apply Float4Sym_eq_dec | apply IntSym_eq_dec
          | apply UintSym_eq_dec | apply BoolSym_eq_dec ].
Defined.

(** A target that is the same in two states. *)
Definition untouched {P : Platform} (t : Target) (st st' : State) : Prop :=
  match t with
  | TVarF v => forall c, vF st' v c = vF st v c
  | TVarI v => vI st' v = vI st v
  | TVarU v => vU st' v = vU st v
  | TVarB v => vB st' v = vB st v
  | TMemory => mem st' = mem st
  | TNone => True
  end.

(** A leaf other than the alpha-test result and the alpha reference. *)
Definition ni_leaf (l : Leaf) : bool :=
  match l with
  | LVarB Tmp_alphaTestResult => false
  | LUniform alphaFbParams cz => false
  | _ => true
  end.

(** Two states that differ at most in the alpha-test result. *)
Definition ni_rel {P : Platform} (st st' : State) : Prop :=
  (forall v c, vF st v c = vF st' v c) /\
  (forall v, vI st v = vI st' v) /\
  (forall v, vU st v = vU st' v) /\
  (forall v, v <> Tmp_alphaTestResult -> vB st v = vB st' v) /\
  mem st = mem st' /\
  skip st = skip st'.

(** A statement that neither stores to memory nor opens or closes a
    block. *)
Definition plain (s : Stmt) : bool :=
  match s with
  | Memory_Write32 _ _ | Memory_Write24 _ _ | Memory_Write16 _ _
  | BeginIf _ | EndIf => false
  | _ => true
  end.

(** The words of the specification: a pixel merged with another under
    a write mask, and the format-specific loads and stores. *)
Definition merge (new old mask : Z) : Z :=
  Z.lor (Z.land new mask) (Z.land old (wrapU (Z.lnot mask))).

Definition load_fb {P : Platform}
    (psm : PSM) (m : Memory) (address : Z) : Z :=
  match psm with
  | PSMCT32 => wrapU (read32 m address)
  | PSMCT24 => wrapU (read24 m address)
  | PSMCT16 | PSMCT16S => wrapU (read16 m address)
  | _ => 0
  end.

Definition store_fb {P : Platform} (psm : PSM) (m : Memory) (address : Z)
    (color : Component -> F) (old mask : Z) : Memory :=
  let pack32 := wrapU (vec4ToPSM32 (color cx) (color cy) (color cz) (color cw)) in
  let pack16 := wrapU (vec4ToPSM16 (color cx) (color cy) (color cz) (color cw)) in
  match psm with
  | PSMCT32 => write32 m address (merge pack32 old mask)
  | PSMCT24 => write24 m address (merge pack32 old mask)
  | PSMCT16 | PSMCT16S => write16 m address (merge pack16 old mask)
  | _ => m
  end.

Definition store_depth {P : Platform}
    (psm : PSM) (m : Memory) (address depth : Z)
    : Memory :=
  match psm with
  | PSMZ32 => write32 m address depth
  | PSMZ24 => write24 m address (Z.land depth 16777215)
  | PSMZ16 | PSMZ16S => write16 m address (Z.land depth 65535)
  | _ => m
  end.

(** The source depth and the write mask of an invocation. *)
Definition srcDepth_of {P : Platform} (ctx : Ctx) : Z :=
  wrapU (ftou (fmul (inF ctx SEMANTIC_TEXCOORD 1 cx) (fconst DEPTH_MAX))).

Definition fbWriteMask_of {P : Platform} (ctx : Ctx) : Z :=
  wrapU (uniform ctx alphaFbParams cx).

(** The memory after the commit, from the state at its [BeginIf]. *)
Definition committed_memory {P : Platform}
    (caps : PIPELINE_CAPS) (ctx : Ctx) (s : State)
    (old : Z) : Memory :=
  if vB s FS.depthTestResult
  then
    let m1 := store_fb (framebufferFormat caps) (mem s) (vI s FS.fbAddress)
                       (vF s FS.dstColor) old (fbWriteMask_of ctx) in
    if writeDepth caps
    then store_depth (depthbufferFormat caps) m1 (vI s FS.depthAddress)
                     (srcDepth_of ctx)
    else m1
  else mem s.

(** The operands of the blend, [GetAlphaABD] and [GetAlphaC]
    (lines 834-865), as functions of the source and the destination
    colour. *)
Definition select_ABD {P : Platform}
    (sel : ALPHABLEND_ABD) (src dst : Component -> F)
    (c : Component) : F :=
  match sel with
  | ALPHABLEND_ABD_CS => src c
  | ALPHABLEND_ABD_CD => dst c
  | ALPHABLEND_ABD_ZERO | ALPHABLEND_ABD_OTHER _ => fconst 0
  end.

Definition select_C {P : Platform}
    (sel : ALPHABLEND_C) (src dst : Component -> F)
    (fixed : F) : F :=
  match sel with
  | ALPHABLEND_C_AS => src cw
  | ALPHABLEND_C_AD => dst cw
  | ALPHABLEND_C_FIX => fixed
  | ALPHABLEND_C_OTHER _ => fconst 0
  end.

(** ((A - B) * C * 2) + D *)
Definition blend_formula {P : Platform}
    (caps : PIPELINE_CAPS) (src dst : Component -> F)
    (fixed : F) (c : Component) : F :=
  fadd (fmul (fmul (fsub (select_ABD (alphaA caps) src dst c)
                         (select_ABD (alphaB caps) src dst c))
                   (select_C (alphaC caps) src dst fixed))
             (fconst 2))
       (select_ABD (alphaD caps) src dst c).

(** What the blend leaves in the destination colour (lines 1160-1162):
    the formula on the colour channels and the source alpha as the
    fourth, all four clamped to [0, 1]. *)
Definition blend_result {P : Platform}
    (caps : PIPELINE_CAPS) (src dst : Component -> F)
    (fixed : F) (c : Component) : F :=
  match c with
  | cw => fclamp (src cw) (fconst 0) (fconst 1)
  | _ => fclamp (blend_formula caps src dst fixed c) (fconst 0) (fconst 1)
  end.

Definition alphaFix_of {P : Platform} (ctx : Ctx) : F :=
  fdiv (itof (wrapS (uniform ctx alphaFbParams cy))) (fconst 255).

Definition unpack_fb {P : Platform}
    (psm : PSM) (pixel : Z) (c : Component) : F :=
  match psm with
  | PSMCT32 | PSMCT24 => psm32ToVec4 pixel c
  | PSMCT16 | PSMCT16S => psm16ToVec4 pixel c
  | _ => fconst 0
  end.



(** A statement that reads or writes the destination in memory: a store,
    or a load at the framebuffer or depthbuffer address. *)
Definition destination_leaf (l : Leaf) : bool :=
  match l with
  | LMemory (VarI Tmp_fbAddress) | LMemory (VarI Tmp_depthAddress) => true
  | _ => false
  end.

Definition touches_destination (s : Stmt) : bool :=
  match target s with
  | TMemory => true
  | _ => existsb destination_leaf (reads s)
  end.

(** The commit as the specification words it: the colour is merged with
    the pixel the framebuffer holds. *)
Definition commit_merges_existing_pixel {P : Platform}
    (caps : PIPELINE_CAPS) (ctx : Ctx) (st0 : State) : Prop :=
  forall prog, program (CreateFragmentShader caps) = Some prog ->
  exists pre cm,
    FS.Commit caps = Some (tt, cm) /\
    prog = pre ++ cm ++ [EndInvocationInterlock;
                         AssignF4 FS.outputColor (xyzw FS.dstColor)] /\
    let s := run ctx pre st0 in
    mem (run ctx prog st0)
    = committed_memory caps ctx s
        (load_fb (framebufferFormat caps) (mem st0) (vI s FS.fbAddress)).

(** A textured, blending descriptor whose texture format carries no
    alpha: the texture-stage alpha comes from the texture-alpha push
    constants, and DECAL keeps it as it is. *)
Definition caps_alpha : PIPELINE_CAPS :=
  {| hasTexture := true; textureHasAlpha := true;
     textureBlackIsTransparent := false;
     textureFunction := TEX0_FUNCTION_DECAL;
     texClampU := CLAMP_MODE_REPEAT; texClampV := CLAMP_MODE_REPEAT;
     hasAlphaBlending := true;
     alphaA := ALPHABLEND_ABD_CS; alphaB := ALPHABLEND_ABD_CD;
     alphaC := ALPHABLEND_C_FIX; alphaD := ALPHABLEND_ABD_ZERO;
     depthTestFunction := DEPTH_TEST_ALWAYS;
     alphaTestFunction := ALPHA_TEST_ALWAYS;
     writeDepth := false; maskColor := false;
     textureFormat := PSMCT24; clutFormat := PSMCT32;
     framebufferFormat := PSMCT32; depthbufferFormat := PSMZ32 |}.

(** The blend as the specification words it: the resulting alpha is the
    texture-stage alpha. *)
Definition output_alpha_is_source_alpha {P : Platform}
    (caps : PIPELINE_CAPS) (ctx : Ctx) (st0 : State) : Prop :=
  forall prog, program (CreateFragmentShader caps) = Some prog ->
  let st := run ctx prog st0 in
  vF st FS.outputColor cw = vF st FS.textureColor cw.

(* ================================================================== *)
(** * Batches, device objects and shader stages: what is observed *)

(** The cursors of the open batch lie in the vertex buffer of a frame,
    which the constructor sizes for [MAX_VERTEX_COUNT] vertices. *)
Definition batch_bounds (d : CDraw) : Prop :=
  0 <= m_passVertexStart d <= m_passVertexEnd d /\
  m_passVertexEnd d <= MAX_VERTEX_COUNT.

(** The vertices that a list of commands draws. *)
Fixpoint drawn (cmds : list VkCmd) : Z :=
  match cmds with
  | [] => 0
  | vkCmdDraw n :: l => n + drawn l
  | _ :: l => drawn l
  end.

(** The vertices drawn so far and those of the open batch. *)
Definition accounted (d : CDraw) : Z :=
  drawn (recorded d) + (m_passVertexEnd d - m_passVertexStart d).

(** The vertices that a call hands over, and a call whose run fits the
    vertex buffer. *)
Definition added (c : Call) : Z :=
  match c with
  | Call_AddVertices _ b e => e - b
  | _ => 0
  end.

Definition run_fits (c : Call) : Prop :=
  match c with
  | Call_AddVertices _ b e => 0 <= e - b <= MAX_VERTEX_COUNT
  | _ => True
  end.

(** The draws of [cmds] read the vertex buffer of [frame] slot after
    slot: every draw reads the buffer bound last, which is that of
    [frame], at the byte offset of the slot after the last one drawn
    ([next] at first).  The result is the slot after the last one drawn,
    or [None] when a draw reads another buffer or starts at another
    slot. *)
Fixpoint tiles (frame : Z) (bound : option (Z * Z)) (next : Z)
    (cmds : list VkCmd) : option Z :=
  match cmds with
  | [] => Some next
  | vkCmdBindVertexBuffers f offset :: l =>
      tiles frame (Some (f, offset)) next l
  | vkCmdDraw n :: l =>
      match bound with
      | Some (f, offset) =>
          if (f =? frame) && (offset =? next * sizeof_PRIM_VERTEX)
          then tiles frame bound (next + n) l
          else None
      | None => None
      end
  | _ :: l => tiles frame bound next l
  end.

(** The vertex buffer bound after [cmds]. *)
Fixpoint bound_after (bound : option (Z * Z)) (cmds : list VkCmd)
    : option (Z * Z) :=
  match cmds with
  | [] => bound
  | vkCmdBindVertexBuffers f offset :: l => bound_after (Some (f, offset)) l
  | _ :: l => bound_after bound l
  end.

(** The draws recorded for the open frame cover the slots below the start
    cursor, each once and in order, and the draws of every submitted frame
    cover the first slots of one vertex buffer in the same way. *)
Definition tiled (d : CDraw) : Prop :=
  tiles (currentFrame (m_frameCommandBuffer d)) None 0
        (commandBuffer (m_frameCommandBuffer d))
  = Some (m_passVertexStart d) /\
  Forall (fun cmds => exists frame k, tiles frame None 0 cmds = Some k)
         (submitted (m_frameCommandBuffer d)).

(** A pipeline for the descriptor can be had: it is cached, or the
    synthesizer accepts the descriptor. *)
Definition obtainable (caps : PIPELINE_CAPS) (d : CDraw) : Prop :=
  cache_find PIPELINE_CAPS_eq_dec caps (m_pipelineCache d) <> None \/
  program (CreateFragmentShader caps) <> None.

(** One of the creation calls that the device has yet to serve would
    not return [VK_SUCCESS]. *)
Definition device_fails (d : CDraw) : Prop :=
  exists h o, nextHandle (m_context d) <= h /\
              vkResult (m_context d) h o = false.

(** A flush has an object to create: the pipeline of the committed
    descriptor or the descriptor set of its key is not cached. *)
Definition creates (d : CDraw) : Prop :=
  cache_find PIPELINE_CAPS_eq_dec (m_pipelineCaps d) (m_pipelineCache d)
  = None \/
  cache_find DESCRIPTORSET_CAPS_eq_dec
             (descriptorSetCaps_of (m_pipelineCaps d))
             (m_descriptorSetCache d) = None.

(** A run hands out handles in order and leaves the results of the
    device as they are. *)
Definition device_advances (d d' : CDraw) : Prop :=
  nextHandle (m_context d) <= nextHandle (m_context d') /\
  vkResult (m_context d') = vkResult (m_context d).

(** A computation that stops at a failed creation started on a device
    that fails one. *)
Definition creation_fails {A : Type} (m : M A) : Prop :=
  forall d, m d = Abort VulkanError -> device_fails d.

(** A generator that reaches its end without an [assert(false)]. *)
Definition ok {A : Type} (g : Gen A) : bool :=
  match g with
  | Some _ => true
  | None => false
  end.

(** The cases that the switches of the synthesizer have. *)
Definition clampMode_known (m : CLAMP_MODE) : bool :=
  match m with CLAMP_MODE_OTHER _ => false | _ => true end.

Definition textureFunction_known (f : TEX0_FUNCTION) : bool :=
  match f with TEX0_FUNCTION_OTHER _ => false | _ => true end.

Definition alphaTest_known (f : ALPHA_TEST) : bool :=
  match f with ALPHA_TEST_OTHER _ => false | _ => true end.

Definition alphaABD_known (s : ALPHABLEND_ABD) : bool :=
  match s with ALPHABLEND_ABD_OTHER _ => false | _ => true end.

Definition alphaC_known (s : ALPHABLEND_C) : bool :=
  match s with ALPHABLEND_C_OTHER _ => false | _ => true end.

Definition texture_readable (textureFormat clutFormat : PSM) : bool :=
  match textureFormat with
  | PSMCT32 | PSMCT24 | PSMCT16S => true
  | PSMT8 | PSMT4 | PSMT8H | PSMT4HL | PSMT4HH =>
      match clutFormat with
      | PSMCT32 | PSMCT24 => true
      | _ => false
      end
  | _ => false
  end.

Definition framebuffer_known (psm : PSM) : bool :=
  match psm with
  | PSMCT32 | PSMCT24 | PSMCT16 | PSMCT16S => true
  | _ => false
  end.

Definition depthbuffer_known (psm : PSM) : bool :=
  match psm with
  | PSMZ32 | PSMZ24 | PSMZ16 | PSMZ16S => true
  | _ => false
  end.

Definition supported (caps : PIPELINE_CAPS) : bool :=
  (if hasTexture caps
   then clampMode_known (texClampU caps)
        && clampMode_known (texClampV caps)
        && texture_readable (textureFormat caps) (clutFormat caps)
        && textureFunction_known (textureFunction caps)
   else true)
  && alphaTest_known (alphaTestFunction caps)
  && framebuffer_known (framebufferFormat caps)
  && depthbuffer_known (depthbufferFormat caps)
  && (if hasAlphaBlending caps
      then alphaABD_known (alphaA caps) && alphaABD_known (alphaB caps)
           && alphaC_known (alphaC caps) && alphaABD_known (alphaD caps)
      else true).

(** The destination depth as [GetDepth] reads it. *)
Definition load_depth {P : Platform} (psm : PSM) (m : Memory) (address : Z)
    : Z :=
  match psm with
  | PSMZ32 => wrapU (read32 m address)
  | PSMZ24 => wrapU (read24 m address)
  | PSMZ16 | PSMZ16S => wrapU (read16 m address)
  | _ => 0
  end.

(** The states between the stages of the generated program. *)
Record Stages {P : Platform} : Type := {
  s_tex : State;   (* after the texture stage *)
  s_ad : State;    (* after the alpha test and the addresses *)
  s_rd : State;    (* after the destination reads *)
  s_dt : State;    (* after the depth test *)
  s_bl : State;    (* after the blend *)
  s_cm : State     (* after the commit *)
}.

(** [requiresExpansion] of [ExpandAlpha] (lines 798-812). *)
Definition requiresExpansion (textureFormat clutFormat : PSM) : bool :=
  if IsPsmIDTEX textureFormat
  then PSM_eqb clutFormat PSMCT16 || PSM_eqb clutFormat PSMCT16S
  else PSM_eqb textureFormat PSMCT24 || PSM_eqb textureFormat PSMCT16
       || PSM_eqb textureFormat PSMCT16S.

(** The two alpha values of the texture-alpha push constants. *)
Definition texA0_of {P : Platform} (ctx : Ctx) : F :=
  fdiv (itof (wrapS (uniform ctx texParams1 cy))) (fconst 255).

Definition texA1_of {P : Platform} (ctx : Ctx) : F :=
  fdiv (itof (wrapS (uniform ctx texParams1 cz))) (fconst 255).

(** The alpha that [ExpandAlpha] leaves for a colour. *)
Definition expanded_alpha {P : Platform} (textureFormat clutFormat : PSM)
    (texBlackIsTransparent : bool) (ctx : Ctx) (color : Component -> F) : F :=
  if requiresExpansion textureFormat clutFormat
  then
    if texBlackIsTransparent
       && feqb (fadd (fadd (color cx) (color cy)) (color cz)) (fconst 0)
    then fconst 0
    else fmix (texA0_of ctx) (texA1_of ctx) (color cw)
  else color cw.

(** The switch on the texture function in [CreateFragmentShader]
    (lines 1000-1028). *)
Definition TextureFunction (caps : PIPELINE_CAPS) : Gen unit :=
  (match textureFunction caps with
  | TEX0_FUNCTION_MODULATE =>
      FS.textureColor <~F4
        map2_4 FMul (map2_4 FMul (xyzw FS.textureColor) FS.inputColor)
               (NewFloat4c 2 2 2 2) ;;
      FS.textureColor <~F4
        Clamp4 (xyzw FS.textureColor) (NewFloat4c 0 0 0 0)
               (NewFloat4c 1 1 1 1) ;;
      if negb (textureHasAlpha caps)
      then FS.textureColor <~F4
             NewFloat4_3 (xyz (xyzw FS.textureColor)) (f4w FS.inputColor)
      else ret tt
  | TEX0_FUNCTION_DECAL => ret tt
  | TEX0_FUNCTION_HIGHLIGHT2 =>
      FS.textureColor <~F4
        map2_4 FAdd
          (map2_4 FMul (map2_4 FMul (xyzw FS.textureColor) FS.inputColor)
                  (NewFloat4c 2 2 2 2))
          (wwww FS.inputColor) ;;
      FS.textureColor <~F4
        Clamp4 (xyzw FS.textureColor) (NewFloat4c 0 0 0 0)
               (NewFloat4c 1 1 1 1) ;;
      if textureHasAlpha caps
      then FS.textureColor <~F4
             NewFloat4_3 (xyz (xyzw FS.textureColor))
                         (VarF FS.textureColor cw)
      else FS.textureColor <~F4
             NewFloat4_3 (xyz (xyzw FS.textureColor)) (f4w FS.inputColor)
  | TEX0_FUNCTION_OTHER _ => assert_false
   end)%gen.

(** The colour that the texture function makes of a sampled colour and
    the vertex colour. *)
Definition texture_function {P : Platform} (caps : PIPELINE_CAPS)
    (tex input : Component -> F) (c : Component) : F :=
  let modulated c := fmul (fmul (tex c) (input c)) (fconst 2) in
  let unit x := fclamp x (fconst 0) (fconst 1) in
  match textureFunction caps with
  | TEX0_FUNCTION_MODULATE =>
      match c with
      | cw => if textureHasAlpha caps then unit (modulated cw) else input cw
      | _ => unit (modulated c)
      end
  | TEX0_FUNCTION_HIGHLIGHT2 =>
      match c with
      | cw => if textureHasAlpha caps
              then unit (fadd (modulated cw) (input cw))
              else input cw
      | _ => unit (fadd (modulated c) (input cw))
      end
  | _ => tex c
  end.

Definition interlock_marker (s : Stmt) : bool :=
  match s with
  | BeginInvocationInterlock | EndInvocationInterlock => true
  | _ => false
  end.

(** The object that a handle names: the one created last under it. *)
Definition object_at (h : Z) (c : Context) : option VkObject :=
  match find (fun ho : Z * VkObject => fst ho =? h) (objects c) with
  | Some ho => Some (snd ho)
  | None => None
  end.

(** What a layout binding and a descriptor write have in common. *)
Definition slot_of_binding (b : VkDescriptorSetLayoutBinding)
    : Z * VkDescriptorType :=
  (binding b, binding_descriptorType b).

Definition slot_of_write (w : VkWriteDescriptorSet) : Z * VkDescriptorType :=
  (dstBinding w, descriptorType w).

(** A program loads from the image bound at [b]. *)
Definition uses_image (prog : list Stmt) (b : Z) : Prop :=
  exists s, In s prog /\ In (LImage b) (reads s).

(** Every image that a leaf, a statement names is one of [allowed]. *)
Definition image_ok (allowed : Z -> bool) (l : Leaf) : bool :=
  match l with
  | LImage b => allowed b
  | _ => true
  end.

Definition images_ok (allowed : Z -> bool) (s : Stmt) : bool :=
  forallb (image_ok allowed) (reads s).

(** The images of the descriptor set layout of a descriptor. *)
Definition bound_image (caps : PIPELINE_CAPS) (b : Z) : bool :=
  (b =? DESCRIPTOR_LOCATION_IMAGE_SWIZZLETABLE_FB)
  || (b =? DESCRIPTOR_LOCATION_IMAGE_SWIZZLETABLE_DEPTH)
  || (hasTexture caps
      && ((b =? DESCRIPTOR_LOCATION_IMAGE_SWIZZLETABLE_TEX)
          || (IsPsmIDTEX (textureFormat caps)
              && (b =? DESCRIPTOR_LOCATION_IMAGE_CLUT)))).

(** The resource that a binding of a descriptor set stands for. *)
Definition resource_at (key : DESCRIPTORSET_CAPS) (b : Z) : Resource :=
  if b =? DESCRIPTOR_LOCATION_BUFFER_MEMORY then memoryBuffer
  else if b =? DESCRIPTOR_LOCATION_IMAGE_CLUT then clutImageView
  else if b =? DESCRIPTOR_LOCATION_IMAGE_SWIZZLETABLE_TEX
       then GetSwizzleTable (ds_textureFormat key)
  else if b =? DESCRIPTOR_LOCATION_IMAGE_SWIZZLETABLE_FB
       then GetSwizzleTable (ds_framebufferFormat key)
  else GetSwizzleTable (ds_depthbufferFormat key).

(** The bindings of a descriptor-set key, in the order the file lists
    them. *)
Definition slots (key : DESCRIPTORSET_CAPS) : list (Z * VkDescriptorType) :=
  [ (DESCRIPTOR_LOCATION_BUFFER_MEMORY, VK_DESCRIPTOR_TYPE_STORAGE_BUFFER);
    (DESCRIPTOR_LOCATION_IMAGE_SWIZZLETABLE_FB,
     VK_DESCRIPTOR_TYPE_STORAGE_IMAGE);
    (DESCRIPTOR_LOCATION_IMAGE_SWIZZLETABLE_DEPTH,
     VK_DESCRIPTOR_TYPE_STORAGE_IMAGE) ]
  ++ (if ds_hasTexture key
      then (DESCRIPTOR_LOCATION_IMAGE_SWIZZLETABLE_TEX,
            VK_DESCRIPTOR_TYPE_STORAGE_IMAGE)
           :: (if IsPsmIDTEX (ds_textureFormat key)
               then [ (DESCRIPTOR_LOCATION_IMAGE_CLUT,
                       VK_DESCRIPTOR_TYPE_STORAGE_IMAGE) ]
               else [])
      else []).

(** Every handle that names an object of the device was handed out. *)
Definition handles_bounded (c : Context) : Prop :=
  forall h o, object_at h c = Some o -> h < nextHandle c.

(** Every object of [c] is an object of [c'], under the same handle. *)
Definition extends (c c' : Context) : Prop :=
  forall h o, object_at h c = Some o -> object_at h c' = Some o.

(** [p] names a pipeline built for [caps]: its fragment module holds the
    program generated for [caps], and its layouts are those of the
    descriptor-set key of [caps]. *)
Definition pipeline_for (caps : PIPELINE_CAPS) (p : PIPELINE) (c : Context)
    : Prop :=
  exists vertexModule fragmentModule renderPass prog bs,
    object_at (pipeline p) c
    = Some (VkPipeline_ vertexModule fragmentModule (pipelineLayout p)
                        renderPass) /\
    object_at fragmentModule c = Some (VkShaderModule_ prog) /\
    program (CreateFragmentShader caps) = Some prog /\
    object_at (pipelineLayout p) c
    = Some (VkPipelineLayout_ (descriptorSetLayout p)) /\
    object_at (descriptorSetLayout p) c = Some (VkDescriptorSetLayout_ bs) /\
    map slot_of_binding bs = slots (descriptorSetCaps_of caps).

(** [s] names a descriptor set written for [key]: it was allocated for a
    layout with the bindings of [key], and holds one write for each of
    them, of the resource that [key] selects. *)
Definition set_for (key : DESCRIPTORSET_CAPS) (s : Z) (c : Context) : Prop :=
  exists layout bs writes,
    object_at s c = Some (VkDescriptorSet_ layout writes) /\
    object_at layout c = Some (VkDescriptorSetLayout_ bs) /\
    map slot_of_binding bs = slots key /\
    map slot_of_write writes = slots key /\
    forall w, In w writes -> pInfo w = resource_at key (dstBinding w).

(** The two caches hold objects built for their keys. *)
Definition cache_sound (d : CDraw) : Prop :=
  handles_bounded (m_context d) /\
  (forall caps p,
     cache_find PIPELINE_CAPS_eq_dec caps (m_pipelineCache d) = Some p ->
     pipeline_for caps p (m_context d)) /\
  (forall key s,
     cache_find DESCRIPTORSET_CAPS_eq_dec key (m_descriptorSetCache d)
     = Some s ->
     set_for key s (m_context d)).

(** The writes of [PrepareDescriptorSet] (lines 302-356). *)
Definition descriptor_writes (descriptorSet : Z) (caps : DESCRIPTORSET_CAPS)
    : list VkWriteDescriptorSet :=
  let write (dstBinding : Z) (type : VkDescriptorType) (info : Resource) :=
    {| dstSet := descriptorSet; dstBinding := dstBinding;
       descriptorType := type; pInfo := info |} in
  [ write DESCRIPTOR_LOCATION_BUFFER_MEMORY
          VK_DESCRIPTOR_TYPE_STORAGE_BUFFER memoryBuffer;
    write DESCRIPTOR_LOCATION_IMAGE_SWIZZLETABLE_FB
          VK_DESCRIPTOR_TYPE_STORAGE_IMAGE
          (GetSwizzleTable (ds_framebufferFormat caps));
    write DESCRIPTOR_LOCATION_IMAGE_SWIZZLETABLE_DEPTH
          VK_DESCRIPTOR_TYPE_STORAGE_IMAGE
          (GetSwizzleTable (ds_depthbufferFormat caps)) ]
  ++ (if ds_hasTexture caps
      then
        [ write DESCRIPTOR_LOCATION_IMAGE_SWIZZLETABLE_TEX
                VK_DESCRIPTOR_TYPE_STORAGE_IMAGE
                (GetSwizzleTable (ds_textureFormat caps)) ]
        ++ (if IsPsmIDTEX (ds_textureFormat caps)
            then [ write DESCRIPTOR_LOCATION_IMAGE_CLUT
                         VK_DESCRIPTOR_TYPE_STORAGE_IMAGE
                         clutImageView ]
            else [])
      else []).

(** A run keeps the caches sound. *)
Definition sound_step (d d' : CDraw) : Prop :=
  cache_sound d -> cache_sound d'.

(** The storage layouts under which [CreateFragmentShader] addresses the
    framebuffer and the depth buffer (lines 1055-1091). *)
Definition framebuffer_storage (psm : PSM) : STORAGE :=
  match psm with
  | PSMCT16 | PSMCT16S => STORAGEPSMCT16
  | _ => STORAGEPSMCT32
  end.

Definition depthbuffer_storage (psm : PSM) : STORAGE :=
  match psm with
  | PSMZ16 | PSMZ16S => STORAGEPSMCT16
  | _ => STORAGEPSMZ32
  end.

(** The pixel that an invocation is run for. *)
Definition screenPos_of {P : Platform} (ctx : Ctx) : Z * Z :=
  (wrapS (ftoi (inF ctx SEMANTIC_SYSTEM_POSITION 0 cx)),
   wrapS (ftoi (inF ctx SEMANTIC_SYSTEM_POSITION 0 cy))).

(** The address of that pixel in a buffer with the given swizzle table,
    whose base and width are two components of [fbDepthParams]. *)
Definition destination_address {P : Platform} (ctx : Ctx) (storage : STORAGE)
    (table : Z) (base width : Component) : Z :=
  wrapS (pixelAddress storage (image ctx table)
           (wrapS (uniform ctx fbDepthParams base))
           (wrapS (uniform ctx fbDepthParams width))
           (fst (screenPos_of ctx)) (snd (screenPos_of ctx))).

(* ================================================================== *)
(** * The orchestrator: results *)

(* ---------------- the monad of the member functions ---------------- *)

Lemma mbind_Ok {A B} (m : M A) (f : A -> M B) d b d'' :
  mbind m f d = Ok (b, d'') ->
  exists a d', m d = Ok (a, d') /\ f a d' = Ok (b, d'').
Proof.
  unfold mbind. destruct (m d) as [[a d']|e]; [eauto | discriminate].
Qed.

Lemma mbind_Abort {A B} (m : M A) (f : A -> M B) d e :
  mbind m f d = Abort e ->
  m d = Abort e \/ exists a d', m d = Ok (a, d') /\ f a d' = Abort e.
Proof.
  unfold mbind. destruct (m d) as [[a d']|e'];
    [eauto | intros H; left; inversion H; reflexivity].
Qed.

Section Stable.

Variable R : CDraw -> CDraw -> Prop.
Hypothesis R_refl : forall d, R d d.
Hypothesis R_trans : forall a b c, R a b -> R b c -> R a c.

Lemma stable_ret {A} (a : A) : stable R (mret a).
Proof. intros d a' d' H. inversion H. subst. apply R_refl. Qed.

Lemma stable_get : stable R get.
Proof. intros d a' d' H. inversion H. subst. apply R_refl. Qed.

Lemma stable_abort {A} e : stable R (@abort A e).
Proof. intros d a' d' H. discriminate. Qed.

Lemma stable_massert c e : stable R (massert c e).
Proof.
  intros d a' d' H. unfold massert in H.
  destruct c; inversion H. subst. apply R_refl.
Qed.

Lemma stable_modify g : (forall d, R d (g d)) -> stable R (modify g).
Proof. intros Hg d a' d' H. inversion H. apply Hg. Qed.

Lemma stable_bind {A B} (m : M A) (k : A -> M B) :
  stable R m -> (forall a, stable R (k a)) -> stable R (mbind m k).
Proof.
  intros Hm Hk d b d'' H. apply mbind_Ok in H.
  destruct H as (a & d' & H1 & H2).
  eapply R_trans; [ eapply Hm | eapply Hk ]; eauto.
Qed.

Lemma stable_device_create o :
  (forall c d, R d (set_context c d)) -> stable R (device_create o).
Proof.
  intros Hc d a d' H. unfold device_create in H.
  destruct (vkCreate o (m_context d)) as [[h c]|]; [|discriminate].
  inversion H. apply Hc.
Qed.

End Stable.

Ltac stable_step tac :=
  match goal with
  | |- stable _ (mbind _ _) => apply stable_bind; [ assumption | | intros ? ]
  | |- stable _ (mret _) => apply stable_ret; assumption
  | |- stable _ get => apply stable_get; assumption
  | |- stable _ (abort _) => apply stable_abort
  | |- stable _ (massert _ _) => apply stable_massert; assumption
  | |- stable _ (modify _) => apply stable_modify; intros; tac
  | |- stable _ (device_create _) => apply stable_device_create; intros; tac
  | |- stable _ (record _) => unfold record
  | |- stable _ (shaderModule _) => unfold shaderModule
  | |- stable _ (match ?x with _ => _ end) => destruct x
  | |- stable _ (if ?x then _ else _) => destruct x
  end.

Lemma keeps_refl {X} (f : CDraw -> X) d : keeps f d d.
Proof. reflexivity. Qed.
Lemma keeps_trans {X} (f : CDraw -> X) a b c :
  keeps f a b -> keeps f b c -> keeps f a c.
Proof. unfold keeps. congruence. Qed.

Ltac keeps_auto :=
  match goal with
  | |- stable (keeps ?f) _ =>
      pose proof (keeps_refl f); pose proof (@keeps_trans _ f);
      repeat stable_step ltac:(reflexivity)
  end.

Lemma ResolvePipeline_keeps caps :
  stable (keeps (fun d => (batch_state d, commandBuffer (m_frameCommandBuffer d),
                           m_descriptorSetCache d)))
         (ResolvePipeline caps).
Proof.
  unfold ResolvePipeline, TryGetPipeline, CreateDrawPipeline, RegisterPipeline.
  keeps_auto.
Qed.

Lemma PrepareDescriptorSet_keeps l caps :
  stable (keeps (fun d => (batch_state d, commandBuffer (m_frameCommandBuffer d),
                           m_pipelineCache d)))
         (PrepareDescriptorSet l caps).
Proof. unfold PrepareDescriptorSet. keeps_auto. Qed.

Lemma FlushVertices_empty d :
  vertexCount d = 0 -> FlushVertices d = Ok (tt, count_flush d).
Proof.
  intros H. unfold FlushVertices, mbind, modify, get. cbn [fst snd].
  change (wrapU (m_passVertexEnd (count_flush d) - m_passVertexStart (count_flush d)))
    with (vertexCount d).
  rewrite H. reflexivity.
Qed.

Lemma massert_Ok c e d a d' :
  massert c e d = Ok (a, d') -> c = true /\ d' = d.
Proof. unfold massert. destruct c; intros H; inversion H. split; reflexivity. Qed.

Lemma record_Ok c d a d' :
  record c d = Ok (a, d') ->
  batch_state d' = batch_state d /\
  commandBuffer (m_frameCommandBuffer d')
  = commandBuffer (m_frameCommandBuffer d) ++ [c] /\
  m_pipelineCache d' = m_pipelineCache d /\
  m_descriptorSetCache d' = m_descriptorSetCache d /\
  m_context d' = m_context d.
Proof. intros H. inversion H. repeat split. Qed.

Lemma FlushVertices_Ok d d' :
  FlushVertices d = Ok (tt, d') ->
  flushCalls d' = S (flushCalls d) /\
  committed d' = committed d /\
  m_passVertexEnd d' = m_passVertexEnd d /\
  m_frames d' = m_frames d /\
  currentFrame (m_frameCommandBuffer d') = currentFrame (m_frameCommandBuffer d) /\
  frameCount (m_frameCommandBuffer d') = frameCount (m_frameCommandBuffer d) /\
  submitted (m_frameCommandBuffer d') = submitted (m_frameCommandBuffer d) /\
  ( (vertexCount d = 0 /\ d' = count_flush d)
    \/ (vertexCount d <> 0 /\ vertexCount d mod 3 = 0 /\
        m_passVertexStart d' = m_passVertexEnd d /\
        exists p descriptorSet,
          commandBuffer (m_frameCommandBuffer d')
          = commandBuffer (m_frameCommandBuffer d)
            ++ draw_commands d p descriptorSet) ).
Proof.
  intros H.
  destruct (Z.eq_dec (vertexCount d) 0) as [E|E].
  - rewrite (FlushVertices_empty d E) in H. inversion H. subst.
    repeat split. left. split; [assumption | reflexivity].
  - unfold FlushVertices in H.
    apply mbind_Ok in H. destruct H as (? & d0 & H0 & H).
    inversion H0. subst d0. clear H0.
    apply mbind_Ok in H. destruct H as (? & d0 & H0 & H).
    inversion H0. subst. clear H0.
    change (wrapU (m_passVertexEnd (count_flush d) - m_passVertexStart (count_flush d)))
      with (vertexCount d) in H.
    destruct (vertexCount d =? 0) eqn:E0; [apply Z.eqb_eq in E0; contradiction|].
    apply mbind_Ok in H. destruct H as (p & d1 & H1 & H).
    apply ResolvePipeline_keeps in H1. unfold keeps in H1.
    apply mbind_Ok in H. destruct H as (? & d2 & H2 & H). apply record_Ok in H2.
    apply mbind_Ok in H. destruct H as (? & d3 & H3 & H). apply record_Ok in H3.
    apply mbind_Ok in H. destruct H as (? & d4 & H4 & H). apply record_Ok in H4.
    apply mbind_Ok in H. destruct H as (ds & d5 & H5 & H).
    apply PrepareDescriptorSet_keeps in H5. unfold keeps in H5.
    apply mbind_Ok in H. destruct H as (? & d6 & H6 & H). apply record_Ok in H6.
    apply mbind_Ok in H. destruct H as (? & d7 & H7 & H). apply record_Ok in H7.
    apply mbind_Ok in H. destruct H as (? & d8 & H8 & H). apply record_Ok in H8.
    apply mbind_Ok in H. destruct H as (? & d9 & H9 & H). apply record_Ok in H9.
    apply mbind_Ok in H. destruct H as (? & d10 & H10 & H).
    apply massert_Ok in H10. destruct H10 as (E3 & ->).
    apply mbind_Ok in H. destruct H as (? & d11 & H11 & H). apply record_Ok in H11.
    apply mbind_Ok in H. destruct H as (? & d12 & H12 & H). apply record_Ok in H12.
    inversion H. subst d'. clear H.
    destruct H2 as (B2 & C2 & _). destruct H3 as (B3 & C3 & _).
    destruct H4 as (B4 & C4 & _). destruct H6 as (B6 & C6 & _).
    destruct H7 as (B7 & C7 & _). destruct H8 as (B8 & C8 & _).
    destruct H9 as (B9 & C9 & _). destruct H11 as (B11 & C11 & _).
    destruct H12 as (B12 & C12 & _).
    assert (B : batch_state d12 = batch_state (count_flush d)).
    { rewrite B12, B11, B9, B8, B7, B6.
      transitivity (batch_state d4); [congruence|].
      rewrite B4, B3, B2. congruence. }
    assert (C : commandBuffer (m_frameCommandBuffer d12)
                = commandBuffer (m_frameCommandBuffer d)
                  ++ draw_commands d p ds).
    { rewrite C12, C11, C9, C8, C7, C6.
      replace (commandBuffer (m_frameCommandBuffer d5))
        with (commandBuffer (m_frameCommandBuffer d4)) by congruence.
      rewrite C4, C3, C2.
      replace (commandBuffer (m_frameCommandBuffer d1))
        with (commandBuffer (m_frameCommandBuffer d)) by (symmetry; injection H1; intros; assumption).
      unfold draw_commands. repeat rewrite <- app_assoc. reflexivity. }
    unfold batch_state in B. cbn [count_flush flushCalls committed m_pipelineCaps m_pushConstants m_scissorX m_scissorY m_scissorWidth m_scissorHeight m_passVertexStart m_passVertexEnd m_frames m_renderPass m_framebuffer m_frameCommandBuffer] in B.
    injection B; intros.
    repeat (split; [first [assumption | unfold committed; cbn; congruence]|]).
    right. split; [assumption|]. split; [apply Z.eqb_eq; assumption|].
    split; [assumption|].
    exists p, ds. exact C.
Qed.

Section FailsIn.

Variable E : Fatal -> Prop.

Lemma fails_ret {A} (a : A) : fails_in E (mret a).
Proof. intros d e H. discriminate. Qed.

Lemma fails_get : fails_in E get.
Proof. intros d e H. discriminate. Qed.

Lemma fails_modify g : fails_in E (modify g).
Proof. intros d e H. discriminate. Qed.

Lemma fails_device_create o :
  E VulkanError -> fails_in E (device_create o).
Proof.
  intros He d e H. unfold device_create in H.
  destruct (vkCreate o (m_context d)) as [[h c]|]; [discriminate|].
  inversion H. subst. exact He.
Qed.

Lemma fails_abort {A} e : E e -> fails_in E (@abort A e).
Proof. intros He d e' H. inversion H. subst. exact He. Qed.

Lemma fails_massert c e : E e -> fails_in E (massert c e).
Proof.
  intros He d e' H. unfold massert in H.
  destruct c; inversion H. subst. exact He.
Qed.

Lemma fails_bind {A B} (m : M A) (k : A -> M B) :
  fails_in E m -> (forall a, fails_in E (k a)) -> fails_in E (mbind m k).
Proof.
  intros Hm Hk d e H. apply mbind_Abort in H.
  destruct H as [H | (a & d' & _ & H)]; [ eapply Hm | eapply Hk ]; eauto.
Qed.

End FailsIn.

Ltac fails_step :=
  match goal with
  | |- fails_in _ (mbind _ _) => apply fails_bind; [ | intros ? ]
  | |- fails_in _ (mret _) => apply fails_ret
  | |- fails_in _ get => apply fails_get
  | |- fails_in _ (modify _) => apply fails_modify
  | |- fails_in _ (device_create _) => apply fails_device_create
  | |- fails_in _ (abort _) => apply fails_abort
  | |- fails_in _ (massert _ _) => apply fails_massert
  | |- fails_in _ (record _) => unfold record
  | |- fails_in _ (shaderModule _) => unfold shaderModule
  | |- fails_in _ (match ?x with _ => _ end) => destruct x
  | |- fails_in _ (if ?x then _ else _) => destruct x
  end.

Lemma ResolvePipeline_fails caps :
  fails_in (fun e => e = ShaderAssertion \/ e = VulkanError)
           (ResolvePipeline caps).
Proof.
  unfold ResolvePipeline, TryGetPipeline, CreateDrawPipeline, RegisterPipeline.
  repeat fails_step; auto.
Qed.

Lemma PrepareDescriptorSet_fails l caps :
  fails_in (fun e => e = VulkanError) (PrepareDescriptorSet l caps).
Proof. unfold PrepareDescriptorSet. repeat fails_step; reflexivity. Qed.

Lemma record_fails c : fails_in (fun _ => False) (record c).
Proof. repeat fails_step. Qed.

Lemma FlushVertices_Abort d e :
  FlushVertices d = Abort e ->
  vertexCount d <> 0 /\
  (e = ShaderAssertion \/ e = VulkanError \/
   e = TriangleListAssertion /\ vertexCount d mod 3 <> 0).
Proof.
  intros H.
  destruct (Z.eq_dec (vertexCount d) 0) as [E|E].
  { rewrite (FlushVertices_empty d E) in H. discriminate. }
  split; [assumption|].
  unfold FlushVertices in H.
  apply mbind_Abort in H. destruct H as [H | (? & d0 & H0 & H)]; [discriminate|].
  inversion H0. subst d0. clear H0.
  apply mbind_Abort in H. destruct H as [H | (? & d0 & H0 & H)]; [discriminate|].
  inversion H0. subst. clear H0.
  change (wrapU (m_passVertexEnd (count_flush d)
                 - m_passVertexStart (count_flush d)))
    with (vertexCount d) in H.
  destruct (vertexCount d =? 0) eqn:E0; [apply Z.eqb_eq in E0; contradiction|].
  apply mbind_Abort in H. destruct H as [H | (? & ? & _ & H)].
  { destruct (ResolvePipeline_fails _ _ _ H); auto. }
  do 3 (apply mbind_Abort in H; destruct H as [H | (? & ? & _ & H)];
        [ destruct (record_fails _ _ _ H) | ]).
  apply mbind_Abort in H. destruct H as [H | (? & ? & _ & H)].
  { right. left. exact (PrepareDescriptorSet_fails _ _ _ _ H). }
  do 4 (apply mbind_Abort in H; destruct H as [H | (? & ? & _ & H)];
        [ destruct (record_fails _ _ _ H) | ]).
  apply mbind_Abort in H. destruct H as [H | (? & ? & _ & H)].
  { right. right. unfold massert in H.
    destruct (vertexCount d mod 3 =? 0) eqn:E3; [discriminate|].
    inversion H. split; [reflexivity|]. apply Z.eqb_neq. assumption. }
  do 2 (apply mbind_Abort in H; destruct H as [H | (? & ? & _ & H)];
        [ destruct (record_fails _ _ _ H) | ]).
  discriminate.
Qed.

Lemma commit_committed c d :
  committed (commit c d) = commitV c (committed d).
Proof. destruct c; reflexivity. Qed.

Lemma commitV_same c v : is_change c v = false -> commitV c v = v.
Proof.
  unfold is_change. destruct (value_eq_dec _ _) as [E|E]; [|discriminate].
  intros _. destruct v as [caps pc sc]. destruct pc. destruct sc as [[[x y] w] h].
  destruct c; cbn in E |- *; try reflexivity;
    injection E; intros; subst; reflexivity.
Qed.

Lemma setter_spec c d :
  is_setter c = true ->
  call c d =
  if is_change c (committed d)
  then mbind FlushVertices (fun _ => modify (commit c)) d
  else Ok (tt, d).
Proof.
  destruct c; try discriminate; intros _;
    unfold call, SetPipelineCaps, SetFramebufferParams, SetDepthbufferParams,
      SetTextureParams, SetTextureAlphaParams, SetAlphaTestParams,
      SetTextureClampParams, SetAlphaBlendingParams, SetScissor;
    unfold mbind at 1; unfold get; unfold is_change;
    destruct (value_eq_dec _ _) as [E|E]; cbn in E.
  all: try (injection E; intros; subst;
            repeat rewrite Z.eqb_refl; cbn;
            try (destruct (PIPELINE_CAPS_eq_dec _ _); [|contradiction]);
            reflexivity).
  all: try (repeat match goal with
                   | |- context [?a =? ?b] => destruct (Z.eqb_spec a b)
                   end; cbn; try reflexivity; exfalso; apply E; congruence).
  destruct (PIPELINE_CAPS_eq_dec _ _); [exfalso; apply E; congruence|].
  reflexivity.
Qed.

Lemma commit_keeps_batch c d :
  flushCalls (commit c d) = flushCalls d /\
  m_passVertexStart (commit c d) = m_passVertexStart d /\
  m_passVertexEnd (commit c d) = m_passVertexEnd d /\
  m_frameCommandBuffer (commit c d) = m_frameCommandBuffer d.
Proof. destruct c; repeat split. Qed.

Lemma setters_count cs : forall d d',
  forallb is_setter cs = true ->
  calls cs d = Ok (tt, d') ->
  flushCalls d' = (flushCalls d + changes cs (committed d))%nat /\
  committed d' = fold_left (fun v c => commitV c v) cs (committed d).
Proof.
  induction cs as [|c cs IH]; intros d d' Hs H.
  - inversion H. subst. cbn. split; [lia | reflexivity].
  - cbn in Hs. apply andb_true_iff in Hs. destruct Hs as [Hc Hs].
    cbn [calls] in H. apply mbind_Ok in H. destruct H as ([] & d1 & H1 & H).
    rewrite (setter_spec c d Hc) in H1.
    cbn [changes fold_left].
    destruct (is_change c (committed d)) eqn:Ech.
    + apply mbind_Ok in H1. destruct H1 as ([] & d0 & H0 & H1).
      inversion H1. subst d1. clear H1.
      apply FlushVertices_Ok in H0.
      destruct H0 as (F1 & F2 & _).
      destruct (IH _ _ Hs H) as (I1 & I2).
      rewrite commit_committed, F2 in I1, I2.
      destruct (commit_keeps_batch c d0) as (K1 & _).
      split; [lia | assumption].
    + inversion H1. subst d1.
      destruct (IH _ _ Hs H) as (I1 & I2).
      rewrite (commitV_same _ _ Ech). split; [lia | assumption].
Qed.

Lemma setters_run cs : forall d,
  forallb is_setter cs = true ->
  vertexCount d = 0 ->
  exists d', calls cs d = Ok (tt, d').
Proof.
  induction cs as [|c cs IH]; intros d Hs Hv.
  - eexists. reflexivity.
  - cbn in Hs. apply andb_true_iff in Hs. destruct Hs as [Hc Hs].
    cbn [calls]. unfold mbind at 1. rewrite (setter_spec c d Hc).
    destruct (is_change c (committed d)).
    + unfold mbind. rewrite (FlushVertices_empty d Hv). cbn.
      apply IH; [assumption|].
      destruct (commit_keeps_batch c (count_flush d)) as (_ & K2 & K3 & _).
      unfold vertexCount. rewrite K2, K3. exact Hv.
    + apply IH; assumption.
Qed.

(* ---------------- caches ---------------- *)

Lemma caches_grow_refl d : caches_grow d d.
Proof. split; intros; assumption. Qed.

Lemma caches_grow_trans a b c :
  caches_grow a b -> caches_grow b c -> caches_grow a c.
Proof. intros [H1 H2] [H3 H4]. split; intros; auto. Qed.

Section Cache.

Context {K V : Type}.
Variable eq_dec : forall a b : K, {a = b} + {a <> b}.

Lemma cache_find_app k (c1 c2 : list (K * V)) :
  cache_find eq_dec k (c1 ++ c2) =
  match cache_find eq_dec k c1 with
  | Some v => Some v
  | None => cache_find eq_dec k c2
  end.
Proof.
  unfold cache_find. induction c1 as [|[k' v'] c1 IH]; cbn; [reflexivity|].
  destruct (eq_dec k' k); [reflexivity | exact IH].
Qed.

Lemma cache_insert_keeps k v k' v' (c : list (K * V)) :
  cache_find eq_dec k' c = Some v' ->
  cache_find eq_dec k' (cache_insert eq_dec k v c) = Some v'.
Proof.
  intros H. unfold cache_insert.
  destruct (cache_find eq_dec k c); [assumption|].
  rewrite cache_find_app, H. reflexivity.
Qed.

Lemma cache_insert_found k v (c : list (K * V)) :
  cache_find eq_dec k c = None ->
  cache_find eq_dec k (cache_insert eq_dec k v c) = Some v.
Proof.
  intros H. unfold cache_insert. rewrite H, cache_find_app, H.
  unfold cache_find. cbn. destruct (eq_dec k k); [reflexivity|contradiction].
Qed.

End Cache.

Ltac caches_tac :=
  first
    [ solve [ split; intros; assumption ]
    | solve [ split; intros; cbn;
              first [ assumption | apply cache_insert_keeps; assumption ] ] ].

Ltac caches_auto :=
  pose proof caches_grow_refl; pose proof caches_grow_trans;
  repeat stable_step caches_tac.

Lemma FlushVertices_caches : stable caches_grow FlushVertices.
Proof.
  unfold FlushVertices, ResolvePipeline, TryGetPipeline, CreateDrawPipeline,
    RegisterPipeline, PrepareDescriptorSet.
  caches_auto.
Qed.

Lemma Flush_caches : stable caches_grow FrameCommandBuffer_Flush.
Proof.
  unfold FrameCommandBuffer_Flush, PreFlushFrameCommandBuffer,
    PostFlushFrameCommandBuffer.
  pose proof caches_grow_refl; pose proof caches_grow_trans.
  pose proof FlushVertices_caches.
  apply stable_bind; [assumption | assumption |]. intros ?.
  repeat stable_step caches_tac.
Qed.

Lemma call_caches c : stable caches_grow (call c).
Proof.
  pose proof caches_grow_refl as Hr; pose proof caches_grow_trans as Ht.
  pose proof FlushVertices_caches as HF. pose proof Flush_caches as HFF.
  destruct c;
    unfold call, SetPipelineCaps, SetFramebufferParams, SetDepthbufferParams,
      SetTextureParams, SetTextureAlphaParams, SetAlphaTestParams,
      SetTextureClampParams, SetAlphaBlendingParams, SetScissor, AddVertices;
    try assumption;
    repeat first [ assumption | stable_step caches_tac ].
Qed.

Lemma calls_stable (R : CDraw -> CDraw -> Prop) :
  (forall d, R d d) -> (forall a b c, R a b -> R b c -> R a c) ->
  (forall c, stable R (call c)) ->
  forall cs, stable R (calls cs).
Proof.
  intros Hr Ht Hc cs. induction cs as [|c cs IH]; cbn [calls].
  - apply stable_ret; assumption.
  - apply stable_bind; [assumption | apply Hc | intros; exact IH].
Qed.

Lemma ResolvePipeline_Ok caps d p d' :
  ResolvePipeline caps d = Ok (p, d') ->
  cache_find PIPELINE_CAPS_eq_dec caps (m_pipelineCache d') = Some p.
Proof.
  unfold ResolvePipeline, TryGetPipeline. intros H.
  apply mbind_Ok in H. destruct H as (found & d0 & H0 & H).
  apply mbind_Ok in H0. destruct H0 as (x & d00 & H00 & H0).
  inversion H00. subst. inversion H0. subst. clear H00 H0.
  destruct (cache_find PIPELINE_CAPS_eq_dec caps (m_pipelineCache d0)) eqn:E.
  - inversion H. subst. assumption.
  - apply mbind_Ok in H. destruct H as (p0 & d1 & H1 & H).
    assert (K : m_pipelineCache d1 = m_pipelineCache d0).
    { revert H1. generalize d0 p0 d1.
      change (stable (keeps m_pipelineCache) (CreateDrawPipeline caps)).
      unfold CreateDrawPipeline. keeps_auto. }
    unfold RegisterPipeline in H.
    apply mbind_Ok in H. destruct H as (? & d2 & H2 & H).
    inversion H2. subst d2. inversion H. subst. cbn.
    rewrite K. apply cache_insert_found. assumption.
Qed.

Lemma ResolvePipeline_hit caps d p :
  cache_find PIPELINE_CAPS_eq_dec caps (m_pipelineCache d) = Some p ->
  ResolvePipeline caps d = Ok (p, d).
Proof.
  intros H. unfold ResolvePipeline, TryGetPipeline, mbind, get, mret.
  rewrite H. reflexivity.
Qed.

Lemma PrepareDescriptorSet_Ok l caps d s d' :
  PrepareDescriptorSet l caps d = Ok (s, d') ->
  cache_find DESCRIPTORSET_CAPS_eq_dec caps (m_descriptorSetCache d') = Some s.
Proof.
  unfold PrepareDescriptorSet. intros H.
  apply mbind_Ok in H. destruct H as (x & d0 & H0 & H).
  inversion H0. subst. clear H0.
  destruct (cache_find DESCRIPTORSET_CAPS_eq_dec caps (m_descriptorSetCache d0))
    eqn:E.
  - inversion H. subst. assumption.
  - apply mbind_Ok in H. destruct H as (h & d1 & H1 & H).
    unfold device_create in H1.
    destruct (vkCreate _ (m_context d0)) as [[h' c']|] eqn:Ev;
      [|discriminate].
    inversion H1. subst h d1. clear H1.
    apply mbind_Ok in H. destruct H as (? & d2 & H2 & H).
    inversion H2. subst d2. clear H2.
    apply mbind_Ok in H. destruct H as (? & d3 & H3 & H).
    inversion H3. subst d3. clear H3.
    inversion H. subst. cbn.
    apply cache_insert_found. assumption.
Qed.

Lemma PrepareDescriptorSet_hit l caps d s :
  cache_find DESCRIPTORSET_CAPS_eq_dec caps (m_descriptorSetCache d) = Some s ->
  PrepareDescriptorSet l caps d = Ok (s, d).
Proof.
  intros H. unfold PrepareDescriptorSet, mbind, get, mret.
  rewrite H. reflexivity.
Qed.

(* ---------------- frames and batches ---------------- *)

Lemma recorded_submit d :
  recorded (set_frameCommandBuffer (submit (m_frameCommandBuffer d)) d)
  = recorded d.
Proof.
  unfold recorded, submit. cbn.
  rewrite concat_app. cbn. rewrite !app_nil_r. reflexivity.
Qed.

Lemma Flush_Ok d d' :
  FrameCommandBuffer_Flush d = Ok (tt, d') ->
  exists d1,
    FlushVertices d = Ok (tt, d1) /\
    d' = set_passVertexStart 0
           (set_passVertexEnd 0
              (set_frameCommandBuffer (submit (m_frameCommandBuffer d1)) d1)).
Proof.
  unfold FrameCommandBuffer_Flush, PreFlushFrameCommandBuffer,
    PostFlushFrameCommandBuffer.
  intros H.
  apply mbind_Ok in H. destruct H as ([] & d1 & H1 & H).
  apply mbind_Ok in H. destruct H as ([] & d2 & H2 & H).
  inversion H2. subst d2. inversion H. subst d'.
  exists d1. split; [assumption | reflexivity].
Qed.

Lemma Flush_Abort d e :
  FrameCommandBuffer_Flush d = Abort e -> FlushVertices d = Abort e.
Proof.
  unfold FrameCommandBuffer_Flush, PreFlushFrameCommandBuffer,
    PostFlushFrameCommandBuffer.
  intros H.
  apply mbind_Abort in H. destruct H as [H | (? & ? & _ & H)]; [assumption|].
  apply mbind_Abort in H. destruct H as [H | (? & ? & _ & H)]; discriminate.
Qed.

Lemma Flush_run d d1 :
  FlushVertices d = Ok (tt, d1) ->
  FrameCommandBuffer_Flush d
  = Ok (tt, set_passVertexStart 0
              (set_passVertexEnd 0
                 (set_frameCommandBuffer (submit (m_frameCommandBuffer d1)) d1))).
Proof.
  intros H.
  unfold FrameCommandBuffer_Flush, PreFlushFrameCommandBuffer,
    PostFlushFrameCommandBuffer, mbind.
  rewrite H. reflexivity.
Qed.

Lemma AddVertices_fits host b e d :
  m_passVertexEnd d + (e - b) <= MAX_VERTEX_COUNT ->
  AddVertices host b e d = Ok (tt, appended host b e d).
Proof.
  intros H. unfold AddVertices, mbind, get, mret, modify.
  destruct (m_passVertexEnd d + (e - b) >? MAX_VERTEX_COUNT) eqn:E.
  - apply Z.gtb_lt in E. lia.
  - reflexivity.
Qed.

Lemma AddVertices_full host b e d :
  m_passVertexEnd d + (e - b) > MAX_VERTEX_COUNT ->
  AddVertices host b e d =
  match FrameCommandBuffer_Flush d with
  | Ok (_, d1) =>
      if m_passVertexEnd d1 + (e - b) <=? MAX_VERTEX_COUNT
      then Ok (tt, appended host b e d1)
      else Abort BatchCapacityAssertion
  | Abort f => Abort f
  end.
Proof.
  intros H. unfold AddVertices, get. unfold mbind at 1 2.
  destruct (m_passVertexEnd d + (e - b) >? MAX_VERTEX_COUNT) eqn:E.
  2:{ rewrite Z.gtb_ltb in E. apply Z.ltb_ge in E. lia. }
  unfold mbind at 1 2.
  destruct (FrameCommandBuffer_Flush d) as [[[] d1]|f]; [|reflexivity].
  unfold mbind, massert.
  destruct (m_passVertexEnd d1 + (e - b) <=? MAX_VERTEX_COUNT); reflexivity.
Qed.

Lemma wrapU_small z : 0 <= z < 4294967296 -> wrapU z = z.
Proof. intros H. unfold wrapU. apply Z.mod_small. assumption. Qed.

Lemma MAX_VERTEX_COUNT_val : MAX_VERTEX_COUNT = 131072.
Proof. reflexivity. Qed.

Lemma Flush_facts d d' :
  FrameCommandBuffer_Flush d = Ok (tt, d') ->
  submissions d' = S (submissions d) /\
  m_passVertexStart d' = 0 /\ m_passVertexEnd d' = 0.
Proof.
  intros H. apply Flush_Ok in H. destruct H as (d1 & H1 & ->).
  apply FlushVertices_Ok in H1.
  destruct H1 as (_ & _ & _ & _ & _ & _ & Hs & _).
  repeat split. unfold submissions. cbn. rewrite Hs.
  rewrite length_app. cbn. lia.
Qed.

(** C7, as amended.  [AddVertices] for a run of at most
    [MAX_VERTEX_COUNT] vertices never fails its capacity assertion.  When
    the run fits behind the end cursor it is appended and no frame is
    submitted.  When it would take the end cursor past
    [MAX_VERTEX_COUNT] the pending batch is flushed for a frame
    submission: if that flush returns, exactly one frame is submitted
    before the append, the post-submission hook resets both cursors to
    zero and the run is appended from slot zero; if the flush stops at a
    fatal error, [AddVertices] stops at that error, with no submission
    and no append.  Of two calls that append [MAX_VERTEX_COUNT + 1]
    vertices to an empty batch the first returns without a submission,
    and the second submits exactly once before its append if the flush of
    the first run returns, and stops at the error of that flush
    otherwise. *)
Theorem AddVertices_capacity
    (host : Z -> PRIM_VERTEX) (b e : Z) (d : CDraw)
    (Hrun : 0 <= e - b <= MAX_VERTEX_COUNT)
    (Hend : 0 <= m_passVertexEnd d) :
  AddVertices host b e d <> Abort BatchCapacityAssertion
  /\ (if m_passVertexEnd d + (e - b) >? MAX_VERTEX_COUNT
      then match FlushVertices d with
           | Ok _ =>
               exists d1,
                 FrameCommandBuffer_Flush d = Ok (tt, d1) /\
                 AddVertices host b e d = Ok (tt, appended host b e d1) /\
                 submissions (appended host b e d1) = S (submissions d) /\
                 m_passVertexStart (appended host b e d1) = 0 /\
                 m_passVertexEnd (appended host b e d1) = e - b
           | Abort f => AddVertices host b e d = Abort f
           end
      else AddVertices host b e d = Ok (tt, appended host b e d) /\
           submissions (appended host b e d) = submissions d /\
           m_passVertexStart (appended host b e d) = m_passVertexStart d /\
           m_passVertexEnd (appended host b e d)
           = m_passVertexEnd d + (e - b))
  /\ (forall host2 b2 e2,
      m_passVertexEnd d = 0 ->
      0 <= e2 - b2 <= MAX_VERTEX_COUNT ->
      (e - b) + (e2 - b2) = MAX_VERTEX_COUNT + 1 ->
      let d1 := appended host b e d in
      AddVertices host b e d = Ok (tt, d1) /\
      submissions d1 = submissions d /\
      m_passVertexEnd d1 = e - b /\
      match FlushVertices d1 with
      | Ok _ =>
          exists d1',
            FrameCommandBuffer_Flush d1 = Ok (tt, d1') /\
            AddVertices host2 b2 e2 d1 = Ok (tt, appended host2 b2 e2 d1') /\
            submissions (appended host2 b2 e2 d1') = S (submissions d) /\
            m_passVertexEnd (appended host2 b2 e2 d1') = e2 - b2
      | Abort f => AddVertices host2 b2 e2 d1 = Abort f
      end).
Proof.
  pose proof MAX_VERTEX_COUNT_val as HM.
  assert (Hspec : forall host b e d,
    0 <= e - b <= MAX_VERTEX_COUNT -> 0 <= m_passVertexEnd d ->
    if m_passVertexEnd d + (e - b) >? MAX_VERTEX_COUNT
    then match FlushVertices d with
         | Ok _ =>
             exists d1,
               FrameCommandBuffer_Flush d = Ok (tt, d1) /\
               AddVertices host b e d = Ok (tt, appended host b e d1) /\
               submissions (appended host b e d1) = S (submissions d) /\
               m_passVertexStart (appended host b e d1) = 0 /\
               m_passVertexEnd (appended host b e d1) = e - b
         | Abort f => AddVertices host b e d = Abort f
         end
    else AddVertices host b e d = Ok (tt, appended host b e d) /\
         submissions (appended host b e d) = submissions d /\
         m_passVertexStart (appended host b e d) = m_passVertexStart d /\
         m_passVertexEnd (appended host b e d)
         = m_passVertexEnd d + (e - b)).
  { clear. pose proof MAX_VERTEX_COUNT_val as HM.
    intros host b e d Hrun Hend.
    destruct (m_passVertexEnd d + (e - b) >? MAX_VERTEX_COUNT) eqn:E.
    - apply Z.gtb_lt in E.
      rewrite AddVertices_full by lia.
      destruct (FlushVertices d) as [[[] d0]|f] eqn:EF.
      + pose proof (Flush_run _ _ EF) as ER.
        destruct (Flush_facts _ _ ER) as (S1 & S2 & S3).
        rewrite ER. eexists. split; [reflexivity|].
        rewrite S3.
        destruct (0 + (e - b) <=? MAX_VERTEX_COUNT) eqn:EL;
          [|apply Z.leb_gt in EL; lia].
        split; [reflexivity|]. split; [exact S1|]. split; [exact S2|].
        cbn. apply wrapU_small. lia.
      + unfold FrameCommandBuffer_Flush, PreFlushFrameCommandBuffer, mbind.
        rewrite EF. reflexivity.
    - rewrite Z.gtb_ltb in E. apply Z.ltb_ge in E.
      split; [apply AddVertices_fits; assumption|].
      split; [reflexivity|]. split; [reflexivity|].
      cbn. apply wrapU_small. lia. }
  split; [|split].
  - pose proof (Hspec host b e d Hrun Hend) as Hs.
    destruct (m_passVertexEnd d + (e - b) >? MAX_VERTEX_COUNT).
    + destruct (FlushVertices d) as [[[] d0]|f] eqn:EF.
      * destruct Hs as (d1 & _ & -> & _). discriminate.
      * rewrite Hs. apply FlushVertices_Abort in EF.
        destruct EF as (_ & [-> | [-> | [-> _]]]); discriminate.
    + destruct Hs as (-> & _). discriminate.
  - apply Hspec; assumption.
  - intros host2 b2 e2 H0 Hrun2 Hsum. cbv zeta.
    pose proof (Hspec host b e d Hrun Hend) as H1. rewrite H0 in H1.
    destruct (0 + (e - b) >? MAX_VERTEX_COUNT) eqn:E1.
    { apply Z.gtb_lt in E1. lia. }
    destruct H1 as (A1 & S1 & _ & E1').
    assert (Ee : m_passVertexEnd (appended host b e d) = e - b)
      by (rewrite E1'; lia).
    split; [exact A1|]. split; [exact S1|]. split; [exact Ee|].
    pose proof (Hspec host2 b2 e2 (appended host b e d) Hrun2) as H2.
    rewrite Ee in H2. specialize (H2 ltac:(lia)).
    destruct (e - b + (e2 - b2) >? MAX_VERTEX_COUNT) eqn:E2.
    2:{ rewrite Z.gtb_ltb in E2. apply Z.ltb_ge in E2. lia. }
    destruct (FlushVertices (appended host b e d)) as [[[] d0]|f];
      [|exact H2].
    destruct H2 as (d1' & F1 & A2 & S2 & _ & E2').
    exists d1'. split; [exact F1|]. split; [exact A2|].
    split; [rewrite S2, S1; reflexivity | exact E2'].
Qed.

(* ---------------- whole triangles ---------------- *)

Lemma draws_grow_refl d : draws_grow d d.
Proof. exists []. split; [rewrite app_nil_r; reflexivity | intros n []]. Qed.

Lemma draws_grow_trans a b c :
  draws_grow a b -> draws_grow b c -> draws_grow a c.
Proof.
  intros (n1 & E1 & H1) (n2 & E2 & H2). exists (n1 ++ n2). split.
  - rewrite E2, E1, app_assoc. reflexivity.
  - intros n Hin. apply in_app_or in Hin. destruct Hin; auto.
Qed.

Lemma draws_grow_same d d' : recorded d' = recorded d -> draws_grow d d'.
Proof. intros H. exists []. split; [rewrite app_nil_r; exact H | intros n []]. Qed.

Lemma vertexCount_nonneg d : 0 <= vertexCount d.
Proof. unfold vertexCount, wrapU. apply Z.mod_pos_bound. lia. Qed.

Lemma FlushVertices_draws : stable draws_grow FlushVertices.
Proof.
  intros d [] d' H. apply FlushVertices_Ok in H.
  destruct H as (_ & _ & _ & _ & _ & _ & Hs & [[_ ->] | (Hn & H3 & _ & p & ds & Hc)]).
  - apply draws_grow_same. reflexivity.
  - exists (draw_commands d p ds). split.
    + unfold recorded. rewrite Hs, Hc, app_assoc. reflexivity.
    + intros n Hin. unfold draw_commands in Hin. cbn in Hin.
      repeat (destruct Hin as [Hin | Hin]; [try discriminate|]);
        [|destruct Hin].
      inversion Hin. subst n. pose proof (vertexCount_nonneg d). lia.
Qed.

Lemma Flush_draws : stable draws_grow FrameCommandBuffer_Flush.
Proof.
  intros d [] d' H. apply Flush_Ok in H. destruct H as (d1 & H1 & ->).
  apply FlushVertices_draws in H1.
  eapply draws_grow_trans; [exact H1|].
  apply draws_grow_same.
  change (recorded (set_frameCommandBuffer (submit (m_frameCommandBuffer d1)) d1)
          = recorded d1).
  apply recorded_submit.
Qed.

Ltac draws_tac := solve [ apply draws_grow_same; reflexivity ].

Lemma call_draws c : stable draws_grow (call c).
Proof.
  pose proof draws_grow_refl as Hr; pose proof draws_grow_trans as Ht.
  pose proof FlushVertices_draws as HF. pose proof Flush_draws as HFF.
  destruct c;
    unfold call, SetPipelineCaps, SetFramebufferParams, SetDepthbufferParams,
      SetTextureParams, SetTextureAlphaParams, SetAlphaTestParams,
      SetTextureClampParams, SetAlphaBlendingParams, SetScissor, AddVertices;
    try assumption;
    repeat first [ assumption | stable_step draws_tac ].
Qed.

Lemma batch_inv_vertexCount d :
  batch_inv d -> vertexCount d = m_passVertexEnd d - m_passVertexStart d.
Proof.
  intros (H1 & H2 & _). pose proof MAX_VERTEX_COUNT_val.
  unfold vertexCount. apply wrapU_small. lia.
Qed.

Lemma FlushVertices_batch d :
  batch_inv d ->
  match FlushVertices d with
  | Ok (_, d') => batch_inv d'
  | Abort e => e <> TriangleListAssertion
  end.
Proof.
  intros Hinv. pose proof (batch_inv_vertexCount d Hinv) as Hv.
  destruct (FlushVertices d) as [[[] d']|e] eqn:E.
  - apply FlushVertices_Ok in E.
    destruct E as (_ & _ & He & _ & _ & _ & _ & [[_ ->] | (_ & _ & Hs & _)]).
    + exact Hinv.
    + destruct Hinv as (H1 & H2 & H3). unfold batch_inv.
      rewrite He, Hs, Z.sub_diag. repeat split; try lia.
  - apply FlushVertices_Abort in E.
    destruct E as (_ & [-> | [-> | [-> Hm]]]); [discriminate ..|].
    destruct Hinv as (_ & _ & H3). rewrite Hv in Hm. contradiction.
Qed.

Lemma batch_inv_reset d :
  batch_inv (set_passVertexStart 0 (set_passVertexEnd 0 d)).
Proof. unfold batch_inv. cbn. pose proof MAX_VERTEX_COUNT_val. repeat split; lia. Qed.

Lemma Flush_batch d :
  batch_inv d ->
  match FrameCommandBuffer_Flush d with
  | Ok (_, d') => batch_inv d' /\ m_passVertexEnd d' = 0
  | Abort e => e <> TriangleListAssertion
  end.
Proof.
  intros Hinv. pose proof (FlushVertices_batch d Hinv) as HF.
  destruct (FrameCommandBuffer_Flush d) as [[[] d']|e] eqn:E.
  - apply Flush_Ok in E. destruct E as (d1 & _ & ->).
    split; [apply batch_inv_reset | reflexivity].
  - apply Flush_Abort in E. rewrite E in HF. exact HF.
Qed.

Lemma call_batch c d :
  batch_inv d -> whole_triangles c ->
  match call c d with
  | Ok (_, d') => batch_inv d'
  | Abort e => e <> TriangleListAssertion
  end.
Proof.
  intros Hinv Hc. pose proof MAX_VERTEX_COUNT_val as HM.
  destruct (is_setter c) eqn:Es.
  - rewrite (setter_spec c d Es).
    destruct (is_change c (committed d)); [|exact Hinv].
    pose proof (FlushVertices_batch d Hinv) as HF. unfold mbind.
    destruct (FlushVertices d) as [[[] d1]|e]; [|exact HF].
    cbn. destruct (commit_keeps_batch c d1) as (_ & K2 & K3 & _).
    unfold batch_inv. rewrite K2, K3. exact HF.
  - destruct c; try discriminate; cbn [call].
    + (* AddVertices *)
      cbn in Hc. destruct Hc as (Hc1 & Hc3).
      destruct (Z_gt_le_dec (m_passVertexEnd d + (vertexEndPtr - vertexBeginPtr))
                            MAX_VERTEX_COUNT) as [G|G].
      * rewrite AddVertices_full by assumption.
        pose proof (Flush_batch d Hinv) as HF.
        destruct (FrameCommandBuffer_Flush d) as [[[] d1]|e]; [|exact HF].
        destruct HF as (Hinv1 & He1). rewrite He1.
        destruct (0 + (vertexEndPtr - vertexBeginPtr) <=? MAX_VERTEX_COUNT)
          eqn:EL; [|discriminate].
        apply Z.leb_le in EL.
        destruct Hinv1 as (I1 & I2 & I3).
        unfold batch_inv. cbn. rewrite He1 in *.
        rewrite wrapU_small by lia.
        assert (m_passVertexStart d1 = 0) as -> by lia.
        repeat split; try lia.
        rewrite Z.add_0_l, Z.sub_0_r. exact Hc3.
      * rewrite AddVertices_fits by assumption.
        destruct Hinv as (I1 & I2 & I3).
        unfold batch_inv. cbn.
        rewrite wrapU_small by lia.
        repeat split; try lia.
        replace (m_passVertexEnd d + (vertexEndPtr - vertexBeginPtr)
                 - m_passVertexStart d)
          with ((m_passVertexEnd d - m_passVertexStart d)
                + (vertexEndPtr - vertexBeginPtr)) by lia.
        rewrite Z.add_mod, I3, Hc3 by lia. reflexivity.
    + exact (FlushVertices_batch d Hinv).
    + pose proof (Flush_batch d Hinv) as HF.
      destruct (FrameCommandBuffer_Flush d) as [[[] d1]|e]; [|exact HF].
      apply HF.
Qed.

Lemma calls_batch cs : forall d,
  batch_inv d -> Forall whole_triangles cs ->
  calls cs d <> Abort TriangleListAssertion.
Proof.
  induction cs as [|c cs IH]; intros d Hinv Hcs; cbn [calls].
  - discriminate.
  - inversion Hcs as [|? ? Hc Hcs']. subst.
    pose proof (call_batch c d Hinv Hc) as H.
    unfold mbind. destruct (call c d) as [[[] d1]|e].
    + apply IH; assumption.
    + intros E. inversion E. contradiction.
Qed.

(** C8, as amended.  [FlushVertices] on an empty batch only returns.
    Every draw recorded by a sequence of calls has a vertex count that is
    a positive multiple of three, and the multiple-of-three assertion
    does not fail as long as every run given to [AddVertices] is a
    multiple of three vertices long. *)
Theorem drawn_batches_are_triangles (cs : list Call) (d : CDraw)
    (Hinv : batch_inv d) :
  (forall d0, vertexCount d0 = 0 -> FlushVertices d0 = Ok (tt, count_flush d0))
  /\ (forall d', calls cs d = Ok (tt, d') ->
      exists new,
        recorded d' = recorded d ++ new /\
        forall n, In (vkCmdDraw n) new -> 0 < n /\ n mod 3 = 0)
  /\ (Forall whole_triangles cs ->
      calls cs d <> Abort TriangleListAssertion).
Proof.
  split; [exact FlushVertices_empty|]. split.
  - intros d' H.
    exact (calls_stable draws_grow draws_grow_refl draws_grow_trans call_draws cs d tt d' H).
  - intros Hcs. apply calls_batch; assumption.
Qed.

(* ---------------- the setters ---------------- *)

(** C1.  Each of the nine setters does nothing when the value it brings
    equals the committed one, and otherwise runs [FlushVertices] under the
    old state and then commits the new value.  Over a sequence of setter
    calls the number of flushes is the number of calls that are changes,
    the committed state at the end is the one the calls leave, and the
    sequence succeeds when the batch is empty.  Setting the framebuffer
    address to A, to A again and then to B: the second call changes
    nothing, the third flushes exactly once, while A is still committed,
    and then commits B. *)
Theorem setters_flush_once_per_change (cs : list Call) (d : CDraw)
    (Hs : forallb is_setter cs = true) :
  (forall c d0, is_setter c = true ->
     call c d0
     = if is_change c (committed d0)
       then mbind FlushVertices (fun _ => modify (commit c)) d0
       else Ok (tt, d0))
  /\ (forall d', calls cs d = Ok (tt, d') ->
      flushCalls d' = (flushCalls d + changes cs (committed d))%nat /\
      committed d' = fold_left (fun v c => commitV c v) cs (committed d))
  /\ (vertexCount d = 0 -> exists d', calls cs d = Ok (tt, d'))
  /\ (forall addrA addrB width writeMask d1,
      SetFramebufferParams addrA width writeMask d = Ok (tt, d1) ->
      addrA <> addrB ->
      SetFramebufferParams addrA width writeMask d1 = Ok (tt, d1) /\
      forall d2,
        SetFramebufferParams addrB width writeMask d1 = Ok (tt, d2) ->
        flushCalls d2 = S (flushCalls d1) /\
        fbBufAddr (m_pushConstants d2) = addrB /\
        exists dF,
          FlushVertices d1 = Ok (tt, dF) /\
          fbBufAddr (m_pushConstants dF) = addrA /\
          d2 = commit (Call_SetFramebufferParams addrB width writeMask) dF).
Proof.
  split; [intros c d0 Hc; apply setter_spec; assumption|].
  split; [intros d' H; apply setters_count; assumption|].
  split; [intros Hv; apply setters_run; assumption|].
  intros addrA addrB width writeMask d1 H1 Hab.
  assert (HA : fbBufAddr (m_pushConstants d1) = addrA /\
               fbBufWidth (m_pushConstants d1) = width /\
               fbWriteMask (m_pushConstants d1) = writeMask).
  { pose proof (setter_spec (Call_SetFramebufferParams addrA width writeMask)
                            d eq_refl) as E.
    cbn [call] in E. rewrite E in H1. clear E.
    destruct (is_change _ _) eqn:Ech.
    - apply mbind_Ok in H1. destruct H1 as ([] & dF & _ & H1).
      inversion H1. subst d1. repeat split.
    - inversion H1. subst d1. unfold is_change in Ech.
      destruct (value_eq_dec _ _) as [E|E]; [|discriminate].
      cbn in E. injection E. intros. repeat split; congruence. }
  destruct HA as (A1 & A2 & A3).
  split.
  - pose proof (setter_spec (Call_SetFramebufferParams addrA width writeMask)
                            d1 eq_refl) as E.
    cbn [call] in E. rewrite E. unfold is_change.
    destruct (value_eq_dec _ _) as [_|N]; [reflexivity|].
    exfalso. apply N. cbn. congruence.
  - intros d2 H2.
    pose proof (setter_spec (Call_SetFramebufferParams addrB width writeMask)
                            d1 eq_refl) as E.
    cbn [call] in E. rewrite E in H2. clear E. unfold is_change in H2.
    destruct (value_eq_dec _ _) as [E|_].
    { cbn in E. injection E. intros. congruence. }
    apply mbind_Ok in H2. destruct H2 as ([] & dF & HF & H2).
    inversion H2. subst d2. clear H2.
    pose proof (FlushVertices_Ok _ _ HF) as (F1 & F2 & _).
    split; [exact F1|]. split; [reflexivity|].
    exists dF. split; [exact HF|]. split; [|reflexivity].
    unfold committed in F2. injection F2. intros _ _ _ _ Hpc _.
    rewrite Hpc. exact A1.
Qed.

Lemma setters_flush_once_per_change_witness :
  let cs := [ Call_SetFramebufferParams 16 640 4294967295;
              Call_SetFramebufferParams 16 640 4294967295;
              Call_SetFramebufferParams 32 640 4294967295 ] in
  forallb is_setter cs = true /\
  flushCalls (state_after (calls cs) draw_ex) = 2%nat.
Proof.
  intros cs. split; [reflexivity|].
  destruct (setters_flush_once_per_change cs draw_ex eq_refl)
    as (_ & Hcount & _).
  destruct (Hcount (state_after (calls cs) draw_ex) eq_refl) as (Hn & _).
  rewrite Hn. reflexivity.
Defined.

(* ---------------- the caches as functions of their keys ---------------- *)

(** C9.  A pipeline obtained for a capability descriptor is the pipeline
    obtained for an equal descriptor after any sequence of calls, and a
    descriptor set obtained for a subset key is the one obtained for an
    equal key later, whatever full descriptors the keys come from and
    whatever layouts are passed; a later lookup creates nothing, and no
    entry of either cache is ever dropped or replaced. *)
Theorem caches_are_functions_of_their_key (cs : list Call) (d1 d2 : CDraw)
    (Hrun : calls cs d1 = Ok (tt, d2)) :
  (forall c1 c2 d p,
      c1 = c2 ->
      ResolvePipeline c1 d = Ok (p, d1) ->
      ResolvePipeline c2 d2 = Ok (p, d2))
  /\ (forall c1 c2 l1 l2 d s,
      descriptorSetCaps_of c1 = descriptorSetCaps_of c2 ->
      PrepareDescriptorSet l1 (descriptorSetCaps_of c1) d = Ok (s, d1) ->
      PrepareDescriptorSet l2 (descriptorSetCaps_of c2) d2 = Ok (s, d2))
  /\ caches_grow d1 d2.
Proof.
  assert (G : caches_grow d1 d2).
  { apply (calls_stable caches_grow caches_grow_refl caches_grow_trans
             call_caches cs d1 tt d2 Hrun). }
  destruct G as (Gp & Gs).
  split; [|split; [|split; assumption]].
  - intros c1 c2 d p E H. subst c2.
    apply ResolvePipeline_hit, Gp.
    apply (ResolvePipeline_Ok _ _ _ _ H).
  - intros c1 c2 l1 l2 d s E H. rewrite <- E.
    apply PrepareDescriptorSet_hit, Gs.
    apply (PrepareDescriptorSet_Ok _ _ _ _ _ H).
Qed.

(** A pipeline created for [caps_ex] is the one found for it after the
    draws of [calls_ex]; a descriptor set prepared for the key of
    [caps_ex] under layout 5 is the one returned, after those draws, for
    the equal key of [caps_masked] under layout 9. *)
Lemma caches_are_functions_of_their_key_witness :
  let p := {| descriptorSetLayout := 5; pipelineLayout := 6;
              pipeline := 7 |} in
  let d1 := state_after (ResolvePipeline caps_ex) draw_ex in
  let d2 := state_after (calls calls_ex) d1 in
  let key := descriptorSetCaps_of caps_ex in
  let e1 := state_after (PrepareDescriptorSet 5 key) draw_ex in
  let e2 := state_after (calls calls_ex) e1 in
  (ResolvePipeline caps_ex draw_ex = Ok (p, d1) /\
   calls calls_ex d1 = Ok (tt, d2) /\
   ResolvePipeline caps_ex d2 = Ok (p, d2)) /\
  (caps_masked <> caps_ex /\
   descriptorSetCaps_of caps_masked = key /\
   PrepareDescriptorSet 5 key draw_ex = Ok (3, e1) /\
   calls calls_ex e1 = Ok (tt, e2) /\
   PrepareDescriptorSet 9 (descriptorSetCaps_of caps_masked) e2
   = Ok (3, e2)).
Proof.
  cbv zeta.
  set (p := {| descriptorSetLayout := 5; pipelineLayout := 6;
               pipeline := 7 |}).
  set (d1 := state_after (ResolvePipeline caps_ex) draw_ex).
  set (e1 := state_after (PrepareDescriptorSet 5
                            (descriptorSetCaps_of caps_ex)) draw_ex).
  assert (P1 : ResolvePipeline caps_ex draw_ex = Ok (p, d1))
    by (vm_compute; reflexivity).
  assert (P2 : calls calls_ex d1 = Ok (tt, state_after (calls calls_ex) d1))
    by (vm_compute; reflexivity).
  assert (S0 : descriptorSetCaps_of caps_ex = descriptorSetCaps_of caps_masked)
    by reflexivity.
  assert (S1 : PrepareDescriptorSet 5 (descriptorSetCaps_of caps_ex) draw_ex
               = Ok (3, e1))
    by (vm_compute; reflexivity).
  assert (S2 : calls calls_ex e1 = Ok (tt, state_after (calls calls_ex) e1))
    by (vm_compute; reflexivity).
  split.
  - split; [exact P1|]. split; [exact P2|].
    exact (proj1 (caches_are_functions_of_their_key _ _ _ P2)
             caps_ex caps_ex draw_ex p eq_refl P1).
  - split; [discriminate|]. split; [reflexivity|].
    split; [exact S1|]. split; [exact S2|].
    exact (proj1 (proj2 (caches_are_functions_of_their_key _ _ _ S2))
             caps_ex caps_masked 5 9 draw_ex 3 S0 S1).
Defined.

(* ---------------- closed instances ---------------- *)

(** C8: a run of one vertex followed by a flush reaches the
    multiple-of-three assertion with a vertex count of 1. *)
Lemma drawn_batch_counterexample :
  calls [Call_AddVertices host_ex 0 1; Call_FlushVertices] draw_ex
  = Abort TriangleListAssertion.
Proof. vm_compute. reflexivity. Qed.

(** C7: two runs of 131072 and 1 vertices, [MAX_VERTEX_COUNT] + 1 in all,
    on an empty frame: the second call flushes the 131072 pending
    vertices, which are not whole triangles, and stops at the
    multiple-of-three assertion; no frame is submitted and nothing is
    appended. *)
Lemma forced_submission_counterexample :
  let d1 := state_after (AddVertices host_ex 0 131072) draw_ex in
  131072 + 1 = MAX_VERTEX_COUNT + 1 /\
  AddVertices host_ex 0 131072 draw_ex = Ok (tt, d1) /\
  submissions d1 = submissions draw_ex /\
  m_passVertexEnd d1 + (1 - 0) > MAX_VERTEX_COUNT /\
  AddVertices host_ex 0 1 d1 = Abort TriangleListAssertion /\
  calls [Call_AddVertices host_ex 0 131072; Call_AddVertices host_ex 0 1]
        draw_ex
  = Abort TriangleListAssertion.
Proof. vm_compute. repeat split; reflexivity. Qed.

(** Two runs of 131070 and 3 vertices: the second call forces one frame
    submission and appends its run at slot zero of the next frame. *)
Lemma AddVertices_capacity_witness :
  let d1 := state_after (AddVertices host_ex 0 131070) draw_ex in
  let d2 := state_after (AddVertices host_ex 0 3) d1 in
  0 <= 3 - 0 <= MAX_VERTEX_COUNT /\
  0 <= m_passVertexEnd d1 /\
  m_passVertexEnd d1 + (3 - 0) > MAX_VERTEX_COUNT /\
  AddVertices host_ex 0 3 d1 = Ok (tt, d2) /\
  submissions d2 = S (submissions d1) /\
  m_passVertexStart d2 = 0 /\
  m_passVertexEnd d2 = 3 - 0.
Proof.
  cbv zeta.
  set (d1 := state_after (AddVertices host_ex 0 131070) draw_ex).
  assert (H1 : 0 <= 3 - 0 <= MAX_VERTEX_COUNT)
    by (vm_compute; split; discriminate).
  assert (H2 : 0 <= m_passVertexEnd d1) by (vm_compute; discriminate).
  assert (H3 : m_passVertexEnd d1 + (3 - 0) > MAX_VERTEX_COUNT)
    by (vm_compute; reflexivity).
  split; [exact H1|]. split; [exact H2|]. split; [exact H3|].
  pose proof (proj1 (proj2 (AddVertices_capacity host_ex 0 3 d1 H1 H2))) as H.
  destruct H as (d1' & _ & A & S1 & S2 & S3).
  assert (Es : state_after (AddVertices host_ex 0 3) d1
               = appended host_ex 0 3 d1')
    by (unfold state_after; rewrite A; reflexivity).
  rewrite Es.
  split; [exact A|]. split; [exact S1|]. split; [exact S2 | exact S3].
Defined.

Lemma drawn_batches_are_triangles_witness :
  batch_inv draw_ex /\
  calls calls_ex draw_ex <> Abort TriangleListAssertion.
Proof.
  assert (H : batch_inv draw_ex).
  { unfold batch_inv. simpl. repeat split; try lia; try reflexivity.
    vm_compute. discriminate. }
  split; [exact H|].
  apply (proj2 (proj2 (drawn_batches_are_triangles calls_ex draw_ex H))).
  unfold calls_ex. repeat constructor; simpl; try lia; reflexivity.
Defined.

(* ================================================================== *)
(** * The fragment program: results *)

Section Coincidence.

Context {P : Platform}.

Variables ctx ctx' : Ctx.
Variables st st' : State.

Lemma Forall_app_l {A} (Q : A -> Prop) l1 l2 :
  Forall Q (l1 ++ l2) -> Forall Q l1.
Proof. intros H. apply Forall_app in H. tauto. Qed.
Lemma Forall_app_r {A} (Q : A -> Prop) l1 l2 :
  Forall Q (l1 ++ l2) -> Forall Q l2.
Proof. intros H. apply Forall_app in H. tauto. Qed.

Ltac leaves_split :=
  repeat match goal with
  | H : Forall _ (_ :: _) |- _ =>
      let H1 := fresh in let H2 := fresh in
      apply Forall_cons_iff in H; destruct H as [H1 H2]
  | H : Forall _ (_ ++ _) |- _ =>
      let H1 := fresh in let H2 := fresh in
      apply Forall_app in H; destruct H as [H1 H2]
  end.

Lemma eval_coincidence :
  (forall e, Forall (agree ctx ctx' st st') (leavesF e) ->
             evalF ctx st e = evalF ctx' st' e) /\
  (forall e, Forall (agree ctx ctx' st st') (leavesI e) ->
             evalI ctx st e = evalI ctx' st' e) /\
  (forall e, Forall (agree ctx ctx' st st') (leavesU e) ->
             evalU ctx st e = evalU ctx' st' e).
Proof.
  apply exp_mutind; intros; cbn [leavesF leavesI leavesU] in *;
    leaves_split; simpl; cbn [agree] in *;
    repeat match goal with
    | IH : Forall _ ?l -> _, H : Forall _ ?l |- _ => specialize (IH H)
    end;
    try congruence.
Qed.

Lemma evalB_coincidence e :
  Forall (agree ctx ctx' st st') (leavesB e) ->
  evalB ctx st e = evalB ctx' st' e.
Proof.
  destruct eval_coincidence as (HF & HI & HU).
  destruct e; cbn [leavesB]; intros H; leaves_split;
    cbn [evalB agree] in *;
    repeat match goal with
    | H : Forall _ (leavesU ?a) |- _ => apply HU in H
    | H : Forall _ (leavesF ?a) |- _ => apply HF in H
    end; congruence.
Qed.

End Coincidence.

(* ---------- the builder ---------- *)

Lemma bind_Some {A B} (m : Gen A) (f : A -> Gen B) b l :
  Nuanceur.bind m f = Some (b, l) ->
  exists a l1 l2, m = Some (a, l1) /\ f a = Some (b, l2) /\ l = l1 ++ l2.
Proof.
  unfold Nuanceur.bind. destruct m as [[a l1]|]; [|discriminate].
  destruct (f a) as [[b' l2]|] eqn:E; [|discriminate].
  intros H. inversion H. subst. eauto 6.
Qed.

Lemma emit_Some s (u : unit) l : emit s = Some (u, l) -> l = [s].
Proof. intros H. inversion H. reflexivity. Qed.

Lemma ret_Some {A} (a b : A) l : Nuanceur.ret a = Some (b, l) -> b = a /\ l = [].
Proof. intros H. inversion H. split; reflexivity. Qed.

(** Inverts a run of the builder into the runs of its parts. *)
Ltac gen_inv H :=
  repeat match type of H with
  | Nuanceur.bind _ _ = Some _ =>
      let a := fresh "a" in let l1 := fresh "l" in let l2 := fresh "l" in
      let H1 := fresh "G" in let E := fresh "E" in
      apply bind_Some in H; destruct H as (a & l1 & l2 & H1 & H & E)
  end.

(* ---------- the statements of each part ---------- *)

Lemma AlphaTest_shape caps l :
  FS.AlphaTest caps = Some (tt, l) ->
  exists e, alphaTest_expr (alphaTestFunction caps) = Some e /\
            l = [AssignB FS.alphaTestResult e].
Proof.
  unfold FS.AlphaTest. destruct (alphaTestFunction caps); cbn; intros H;
    inversion H; eexists; split; reflexivity.
Qed.

Lemma Addresses_shape caps l :
  FS.Addresses caps = Some (tt, l) ->
  exists sf sd,
    l = [ AssignI FS.fbAddress
            (GetPixelAddress sf FS.fbSwizzleTable FS.fbBufAddress
               FS.fbBufWidth (i2x FS.screenPos) (i2y FS.screenPos));
          AssignI FS.depthAddress
            (GetPixelAddress sd FS.depthSwizzleTable FS.depthBufAddress
               FS.depthBufWidth (i2x FS.screenPos) (i2y FS.screenPos)) ].
Proof.
  unfold FS.Addresses. intros H. gen_inv H. subst.
  destruct (framebufferFormat caps); try discriminate;
    destruct (depthbufferFormat caps); try discriminate;
    inversion G; inversion H; subst; eexists; eexists; reflexivity.
Qed.

Lemma DestinationRead_shape caps l :
  FS.DestinationRead caps = Some (tt, l) ->
  exists lc ld,
    l = lc ++ ld /\
    (if FS.needsDstColor caps
     then exists rd unpack,
            fb_read (framebufferFormat caps) = Some (rd, unpack) /\
            lc = [ AssignU FS.dstPixel (rd (VarI FS.fbAddress));
                   AssignF4 FS.dstColor (unpack (VarU FS.dstPixel)) ]
     else lc = []) /\
    (if FS.needsDstDepth caps
     then exists depth,
            GetDepth (depthbufferFormat caps) (VarI FS.depthAddress)
            = Some (depth, []) /\
            ld = [ AssignU FS.dstDepth depth ]
     else ld = []).
Proof.
  unfold FS.DestinationRead. intros H. gen_inv H. subst.
  exists l0, l1. split; [reflexivity|]. split.
  - destruct (FS.needsDstColor caps).
    + destruct (framebufferFormat caps); try discriminate; cbn in G;
        inversion G; eexists; eexists; split; reflexivity.
    + inversion G. reflexivity.
  - destruct (FS.needsDstDepth caps).
    + gen_inv H. apply emit_Some in H. subst.
      exists a0. split; [|].
      * destruct (depthbufferFormat caps); try discriminate;
          inversion G0; reflexivity.
      * destruct (depthbufferFormat caps); try discriminate;
          inversion G0; reflexivity.
    + inversion H. reflexivity.
Qed.

Lemma DepthTest_shape caps l :
  FS.DepthTest caps = Some (tt, l) ->
  l = depthTest_stmts (depthTestFunction caps).
Proof.
  unfold FS.DepthTest. destruct (depthTestFunction caps); intros H;
    inversion H; reflexivity.
Qed.

Lemma Blend_shape caps l :
  FS.Blend caps = Some (tt, l) ->
  exists e, l = [AssignF4 FS.dstColor e] /\
    if hasAlphaBlending caps
    then exists A B C D,
           GetAlphaABD (alphaA caps) (xyzw FS.textureColor) (xyzw FS.dstColor)
           = Some (A, []) /\
           GetAlphaABD (alphaB caps) (xyzw FS.textureColor) (xyzw FS.dstColor)
           = Some (B, []) /\
           GetAlphaC (alphaC caps) (xyzw FS.textureColor) (xyzw FS.dstColor)
                     FS.alphaFix
           = Some (C, []) /\
           GetAlphaABD (alphaD caps) (xyzw FS.textureColor) (xyzw FS.dstColor)
           = Some (D, []) /\
           e = Clamp4 (NewFloat4_3 (FS.blendedColor A B C D)
                                   (VarF FS.textureColor cw))
                      (NewFloat4c 0 0 0 0) (NewFloat4c 1 1 1 1)
    else e = xyzw FS.textureColor.
Proof.
  unfold FS.Blend. destruct (hasAlphaBlending caps); intros H.
  - gen_inv H. apply emit_Some in H. subst.
    assert (HA : forall m s d r l, GetAlphaABD m s d = Some (r, l) -> l = []).
    { intros m s d r l. destruct m; cbn; intros X; inversion X; reflexivity. }
    assert (HC : forall m s d f r l, GetAlphaC m s d f = Some (r, l) -> l = []).
    { intros m s d f r l. destruct m; cbn; intros X; inversion X; reflexivity. }
    pose proof (HA _ _ _ _ _ G). pose proof (HA _ _ _ _ _ G0).
    pose proof (HC _ _ _ _ _ _ G1). pose proof (HA _ _ _ _ _ G2). subst.
    eexists. split; [reflexivity|].
    exists a, a0, a1, a2. repeat split; assumption.
  - apply emit_Some in H. subst. eexists. split; reflexivity.
Qed.

Lemma Commit_shape caps l :
  FS.Commit caps = Some (tt, l) ->
  exists pack store ld,
    fb_write (framebufferFormat caps) = Some (pack, store) /\
    l = [ BeginIf (VarB FS.depthTestResult);
          store (VarI FS.fbAddress) (merged pack) ] ++ ld ++ [EndIf] /\
    if writeDepth caps
    then exists value stored,
           depth_write (depthbufferFormat caps) = Some (value, stored) /\
           ld = [ stored (VarI FS.depthAddress) value ]
    else ld = [].
Proof.
  unfold FS.Commit. intros H. gen_inv H.
  apply emit_Some in G, H. subst.
  assert (exists pack store,
             fb_write (framebufferFormat caps) = Some (pack, store) /\
             l2 = [store (VarI FS.fbAddress) (merged pack)]) as (pack & store & Hp & ->).
  { unfold WriteToFramebuffer in G0.
    destruct (framebufferFormat caps); try discriminate;
      apply emit_Some in G0; subst; eexists; eexists; split; reflexivity. }
  exists pack, store, l4. split; [assumption|]. split; [reflexivity|].
  destruct (writeDepth caps).
  - unfold WriteToDepthbuffer in G1.
    destruct (depthbufferFormat caps); try discriminate;
      apply emit_Some in G1; subst; eexists; eexists; split; reflexivity.
  - inversion G1. reflexivity.
Qed.

Lemma CreateFragmentShader_stages caps prog :
  program (CreateFragmentShader caps) = Some prog ->
  exists tex at_ ad rd dt bl cm,
    FS.TextureStage caps = Some (tt, tex) /\
    FS.AlphaTest caps = Some (tt, at_) /\
    FS.Addresses caps = Some (tt, ad) /\
    FS.DestinationRead caps = Some (tt, rd) /\
    FS.DepthTest caps = Some (tt, dt) /\
    FS.Blend caps = Some (tt, bl) /\
    FS.Commit caps = Some (tt, cm) /\
    prog = tex ++ at_ ++ ad ++ [BeginInvocationInterlock] ++ rd ++ dt ++ bl
           ++ cm ++ [EndInvocationInterlock;
                     AssignF4 FS.outputColor (xyzw FS.dstColor)].
Proof.
  unfold program. destruct (CreateFragmentShader caps) as [[u l]|] eqn:H;
    [|discriminate].
  intros X. inversion X. subst l. clear X.
  unfold CreateFragmentShader in H. gen_inv H.
  apply emit_Some in H, G2, G7. subst.
  destruct a, a0, a1, a3, a4, a5, a6.
  do 7 eexists. repeat (split; [eassumption|]). reflexivity.
Qed.

(* ---------- the texture stage ---------- *)

Lemma nesting_app l1 : forall l2 d,
  nesting (l1 ++ l2) d =
  match nesting l1 d with
  | Some d' => nesting l2 d'
  | None => None
  end.
Proof.
  induction l1 as [|s l1 IH]; intros l2 d; [reflexivity|].
  destruct s; cbn; try apply IH. destruct d; [reflexivity | apply IH].
Qed.

Tactic Notation "gen_bind" hyp(H) "as" ident(a) ident(l1) ident(l2) ident(G) :=
  apply bind_Some in H; destruct H as (a & l1 & l2 & G & H & ->).

Ltac leaf_solve :=
  repeat (progress
    (simpl;
     repeat rewrite forallb_app;
     repeat match goal with
     | H : forallb tex_leaf _ = true |- _ => rewrite H
     end));
  reflexivity.

Lemma ClampTexCoord_ok m c s mn mx e l :
  ClampTexCoord m c s mn mx = Some (e, l) ->
  forallb tex_leaf (leavesI c) = true ->
  forallb tex_leaf (leavesI s) = true ->
  forallb tex_leaf (leavesI mn) = true ->
  forallb tex_leaf (leavesI mx) = true ->
  l = [] /\ forallb tex_leaf (leavesI e) = true.
Proof.
  intros H Hc Hs Hmn Hmx.
  destruct m; cbn in H; inversion H; subst; split; try reflexivity; leaf_solve.
Qed.

Lemma GetClutColor_ok fmt clut texPixel color l :
  GetClutColor fmt clut texPixel FS.clutImage FS.texCsa = Some (color, l) ->
  forallb tex_leaf (leavesU texPixel) = true ->
  forallb tex_stmt l = true /\ (forall d, nesting l d = Some d) /\
  forallb tex_leaf (leavesF4 color) = true.
Proof.
  intros H Hp. unfold GetClutColor in H.
  gen_bind H as u1 lA r1 GA. gen_bind H as u2 lB lC GB.
  assert (lA = []) as ->.
  { unfold assert_ in GA. destruct (IsPsmIDTEX fmt); inversion GA. reflexivity. }
  assert (forallb tex_stmt lB = true /\ (forall d, nesting lB d = Some d))
    as (H1 & H2).
  { destruct (IsPsmIDTEX8 fmt); apply emit_Some in GB; subst lB;
      (split; [unfold tex_stmt; leaf_solve | reflexivity]). }
  assert (lC = [] /\ forallb tex_leaf (leavesF4 color) = true) as (-> & H3).
  { destruct clut; try discriminate; inversion H; subst;
      (split; [reflexivity | leaf_solve]). }
  rewrite !app_nil_r. cbn [app]. repeat split; assumption.
Qed.

Lemma GetTextureColor_ok fmt clut u v color l :
  GetTextureColor fmt clut (NewInt2 u v) FS.clutImage FS.texSwizzleTable
                  FS.texBufAddress FS.texBufWidth FS.texCsa
  = Some (color, l) ->
  forallb tex_leaf (leavesI u) = true ->
  forallb tex_leaf (leavesI v) = true ->
  forallb tex_stmt l = true /\ (forall d, nesting l d = Some d) /\
  forallb tex_leaf (leavesF4 color) = true.
Proof.
  intros H Hu Hv. unfold GetTextureColor in H.
  destruct fmt; try discriminate;
    first [ apply GetClutColor_ok in H; [exact H | leaf_solve]
          | inversion H; subst;
            (split; [reflexivity | split; [reflexivity | leaf_solve]]) ].
Qed.

Lemma ExpandAlpha_ok fmt clut black l :
  ExpandAlpha fmt clut black FS.textureColor FS.texA0 FS.texA1
  = Some (tt, l) ->
  forallb tex_stmt l = true /\ (forall d, nesting l d = Some d).
Proof.
  unfold ExpandAlpha. intros H.
  match type of H with
  | (if negb ?c then _ else _) = _ => destruct c
  end; cbn [negb] in H.
  - destruct black; inversion H; subst; split; reflexivity.
  - inversion H. split; reflexivity.
Qed.

Lemma forallb_tex_app l1 l2 :
  forallb tex_stmt l1 = true -> forallb tex_stmt l2 = true ->
  forallb tex_stmt (l1 ++ l2) = true.
Proof. intros H1 H2. rewrite forallb_app, H1, H2. reflexivity. Qed.

Lemma nesting_id_app l1 l2 :
  (forall d, nesting l1 d = Some d) -> (forall d, nesting l2 d = Some d) ->
  forall d, nesting (l1 ++ l2) d = Some d.
Proof. intros H1 H2 d. rewrite nesting_app, H1. apply H2. Qed.

Lemma TextureStage_ok caps l :
  FS.TextureStage caps = Some (tt, l) ->
  forallb tex_stmt l = true /\ (forall d, nesting l d = Some d).
Proof.
  unfold FS.TextureStage. intros H.
  gen_bind H as u0 l0 l1 G0.
  apply emit_Some in G0. subst l0.
  assert (forallb tex_stmt l1 = true /\ (forall d, nesting l1 d = Some d))
    as (H1 & H2).
  2:{ split; [apply forallb_tex_app; [reflexivity | assumption]
            | apply nesting_id_app; [reflexivity | assumption]]. }
  destruct (hasTexture caps).
  2:{ apply emit_Some in H. subst. split; reflexivity. }
  gen_bind H as u lu r1 GU. gen_bind H as v lv r2 GV.
  gen_bind H as color lc r3 GC. gen_bind H as u1 la r4 GA.
  gen_bind H as u2 le lf GE.
  apply ClampTexCoord_ok in GU; try reflexivity. destruct GU as (-> & Hu).
  apply ClampTexCoord_ok in GV; try reflexivity. destruct GV as (-> & Hv).
  apply GetTextureColor_ok in GC; try assumption.
  destruct GC as (T1 & T2 & T3).
  apply emit_Some in GA. subst la.
  assert (forallb tex_stmt le = true /\ (forall d, nesting le d = Some d))
    as (E1 & E2).
  { destruct (textureHasAlpha caps).
    - destruct u2. apply ExpandAlpha_ok in GE. exact GE.
    - inversion GE. split; reflexivity. }
  assert (forallb tex_stmt lf = true /\ (forall d, nesting lf d = Some d))
    as (F1 & F2).
  { destruct (textureFunction caps); try discriminate.
    - gen_bind H as x1 m1 m2 K1. gen_bind H as x2 m3 m4 K2.
      apply emit_Some in K1, K2. subst.
      destruct (textureHasAlpha caps); cbn [negb] in H;
        inversion H; subst; split; reflexivity.
    - inversion H. split; reflexivity.
    - gen_bind H as x1 m1 m2 K1. gen_bind H as x2 m3 m4 K2.
      apply emit_Some in K1, K2. subst.
      destruct (textureHasAlpha caps); inversion H; subst; split; reflexivity. }
  cbn [app].
  split.
  - repeat apply forallb_tex_app; try assumption.
    change (AssignF4 FS.textureColor color :: le ++ lf)
      with ([AssignF4 FS.textureColor color] ++ le ++ lf).
    repeat apply forallb_tex_app; try assumption.
    unfold tex_stmt. simpl. rewrite andb_true_r. exact T3.
  - repeat apply nesting_id_app; try assumption; reflexivity.
Qed.

(* ---------- the statements after the texture stage ---------- *)

Lemma forallb_post_app l1 l2 :
  forallb post_stmt l1 = true -> forallb post_stmt l2 = true ->
  forallb post_stmt (l1 ++ l2) = true.
Proof. intros H1 H2. rewrite forallb_app, H1, H2. reflexivity. Qed.

Lemma Addresses_post caps l :
  FS.Addresses caps = Some (tt, l) -> forallb post_stmt l = true.
Proof.
  intros H. apply Addresses_shape in H. destruct H as (sf & sd & ->).
  reflexivity.
Qed.

Lemma DestinationRead_post caps l :
  FS.DestinationRead caps = Some (tt, l) -> forallb post_stmt l = true.
Proof.
  intros H. apply DestinationRead_shape in H.
  destruct H as (lc & ld & -> & Hc & Hd).
  apply forallb_post_app.
  - destruct (FS.needsDstColor caps); [|subst; reflexivity].
    destruct Hc as (rd & unpack & Hr & ->).
    destruct (framebufferFormat caps); try discriminate;
      inversion Hr; subst; reflexivity.
  - destruct (FS.needsDstDepth caps); [|subst; reflexivity].
    destruct Hd as (depth & Hg & ->).
    destruct (depthbufferFormat caps); try discriminate;
      inversion Hg; subst; reflexivity.
Qed.

Lemma DepthTest_post caps l :
  FS.DepthTest caps = Some (tt, l) -> forallb post_stmt l = true.
Proof.
  intros H. apply DepthTest_shape in H. subst.
  destruct (depthTestFunction caps); reflexivity.
Qed.

Lemma Blend_post caps l :
  FS.Blend caps = Some (tt, l) -> forallb post_stmt l = true.
Proof.
  intros H. apply Blend_shape in H. destruct H as (e & -> & He).
  destruct (hasAlphaBlending caps); [|subst; reflexivity].
  destruct He as (A & B & C & D & HA & HB & HC & HD & ->).
  destruct (alphaA caps); try discriminate; inversion HA; subst;
  destruct (alphaB caps); try discriminate; inversion HB; subst;
  destruct (alphaC caps); try discriminate; inversion HC; subst;
  destruct (alphaD caps); try discriminate; inversion HD; subst;
  reflexivity.
Qed.

Lemma Commit_post caps l :
  FS.Commit caps = Some (tt, l) -> forallb post_stmt l = true.
Proof.
  intros H. apply Commit_shape in H.
  destruct H as (pack & store & ld & Hp & -> & Hd).
  assert (forallb post_stmt ld = true) as Hld.
  { destruct (writeDepth caps); [|subst; reflexivity].
    destruct Hd as (value & stored & Hw & ->).
    destruct (depthbufferFormat caps); try discriminate;
      inversion Hw; subst; reflexivity. }
  destruct (framebufferFormat caps); try discriminate;
    inversion Hp; subst;
    (apply forallb_post_app; [reflexivity|]);
    (apply forallb_post_app; [assumption | reflexivity]).
Qed.

(** The three kinds of statement of a generated fragment program. *)
Lemma CreateFragmentShader_parts caps prog :
  program (CreateFragmentShader caps) = Some prog ->
  exists tex e post,
    prog = tex ++ [AssignB FS.alphaTestResult e] ++ post /\
    FS.TextureStage caps = Some (tt, tex) /\
    alphaTest_expr (alphaTestFunction caps) = Some e /\
    forallb tex_stmt tex = true /\
    (forall d, nesting tex d = Some d) /\
    forallb post_stmt post = true.
Proof.
  intros H. apply CreateFragmentShader_stages in H.
  destruct H as (tex & at_ & ad & rd & dt & bl & cm &
                 Ht & Ha & Had & Hrd & Hdt & Hbl & Hcm & ->).
  apply AlphaTest_shape in Ha. destruct Ha as (e & He & ->).
  destruct (TextureStage_ok _ _ Ht) as (T1 & T2).
  exists tex, e. eexists. split; [reflexivity|].
  repeat (split; [assumption|]).
  apply forallb_post_app; [eapply Addresses_post; eassumption|].
  apply forallb_post_app; [reflexivity|].
  apply forallb_post_app; [eapply DestinationRead_post; eassumption|].
  apply forallb_post_app; [eapply DepthTest_post; eassumption|].
  apply forallb_post_app; [eapply Blend_post; eassumption|].
  apply forallb_post_app; [eapply Commit_post; eassumption|].
  reflexivity.
Qed.

(* ---------- running a program ---------- *)

Section ExecFacts.

Context {P : Platform}.
Variable ctx : Ctx.

Lemma exec_app l1 l2 st :
  exec ctx (l1 ++ l2) st = exec ctx l2 (exec ctx l1 st).
Proof. unfold exec. apply fold_left_app. Qed.

Lemma exec_cons s l st :
  exec ctx (s :: l) st = exec ctx l (exec_stmt ctx st s).
Proof. reflexivity. Qed.

Lemma untouched_refl t st : untouched t st st.
Proof. destruct t; cbn; auto. Qed.

Lemma untouched_trans t a b c :
  untouched t a b -> untouched t b c -> untouched t a c.
Proof.
  destruct t; cbn; intros H1 H2; try congruence; auto.
Qed.

Lemma exec_stmt_untouched t s st :
  target s <> t -> untouched t st (exec_stmt ctx st s).
Proof.
  intros Ht. unfold exec_stmt.
  destruct (skip st); destruct s; try apply untouched_refl;
    destruct t; cbn in *; try reflexivity; auto;
    try (match goal with
         | |- context [if ?d then _ else _] => destruct d
         end; [subst; contradiction | reflexivity]).
  all: try (intros c0;
            match goal with
            | |- context [if ?d then _ else _] => destruct d
            end; [subst; contradiction | reflexivity]).
  all: try (destruct (evalB ctx st c); reflexivity).
  all: try (intros c0; destruct (evalB ctx st c); reflexivity).
  all: contradiction.
Qed.

Lemma exec_untouched t l : forall st,
  Forall (fun s => target s <> t) l -> untouched t st (exec ctx l st).
Proof.
  induction l as [|s l IH]; intros st H.
  - apply untouched_refl.
  - rewrite exec_cons.
    eapply untouched_trans;
      [apply exec_stmt_untouched; exact (Forall_inv H)|].
    apply IH. exact (Forall_inv_tail H).
Qed.

Lemma exec_skip l : forall d d' st,
  nesting l d = Some d' -> (skip st <= d)%nat ->
  (skip (exec ctx l st) <= d')%nat.
Proof.
  induction l as [|s l IH]; intros d d' st Hn Hs.
  - inversion Hn. subst. exact Hs.
  - rewrite exec_cons.
    destruct s; cbn [nesting] in Hn;
      try (apply (IH _ _ _ Hn); unfold exec_stmt;
           destruct (skip st) eqn:E; cbn; rewrite ?E; lia).
    + (* BeginIf *)
      apply (IH _ _ _ Hn). unfold exec_stmt.
      destruct (skip st) eqn:E; cbn; [|lia].
      destruct (evalB ctx st c); cbn; rewrite ?E; lia.
    + (* EndIf *)
      destruct d as [|d]; [discriminate|].
      apply (IH _ _ _ Hn). unfold exec_stmt.
      destruct (skip st) eqn:E; cbn; rewrite ?E; lia.
Qed.

Lemma exec_skip_0 l st :
  (forall d, nesting l d = Some d) -> skip st = O ->
  skip (exec ctx l st) = O.
Proof.
  intros Hn Hs. pose proof (exec_skip l O O st (Hn O)). lia.
Qed.

End ExecFacts.

(** Targets of the two classes. *)
Lemma tex_stmt_target s t :
  tex_stmt s = true -> tex_target t = false -> t <> TNone -> target s <> t.
Proof.
  unfold tex_stmt. intros H Ht Hn E. apply andb_true_iff in H.
  destruct H as [H _]. rewrite E in H. congruence.
Qed.

Lemma post_stmt_target s t :
  post_stmt s = true -> post_target t = false -> target s <> t.
Proof.
  unfold post_stmt. intros H Ht E. apply andb_true_iff in H.
  destruct H as [H _]. rewrite E in H. congruence.
Qed.

Lemma tex_untouched {P : Platform} ctx l t st :
  forallb tex_stmt l = true -> tex_target t = false ->
  untouched t st (exec ctx l st).
Proof.
  intros H Ht. apply exec_untouched.
  rewrite forallb_forall in H. apply Forall_forall. intros s Hs.
  intros E. specialize (H s Hs). unfold tex_stmt in H.
  apply andb_true_iff in H. destruct H as [H _]. rewrite E in H. congruence.
Qed.

Lemma post_untouched {P : Platform} ctx l t st :
  forallb post_stmt l = true -> post_target t = false ->
  untouched t st (exec ctx l st).
Proof.
  intros H Ht. apply exec_untouched.
  rewrite forallb_forall in H. apply Forall_forall. intros s Hs.
  apply post_stmt_target; auto.
Qed.

(* ---------- C4: the alpha test ---------- *)

Lemma wrapU_wrapS z : wrapU (wrapS z) = wrapU z.
Proof.
  unfold wrapU, wrapS.
  rewrite Zminus_mod, Zmod_mod, <- Zminus_mod.
  replace (z + 2147483648 - 2147483648) with z by lia. reflexivity.
Qed.

Section AlphaTest.

Context {P : Platform}.

Lemma run_parts ctx tex e post st0 :
  forallb tex_stmt tex = true ->
  (forall d, nesting tex d = Some d) ->
  forallb post_stmt post = true ->
  let s1 := run ctx tex st0 in
  let st := run ctx (tex ++ [AssignB FS.alphaTestResult e] ++ post) st0 in
  skip s1 = O /\
  mem s1 = mem st0 /\
  st = exec ctx post (setB FS.alphaTestResult (evalB ctx s1 e) s1) /\
  vB st FS.alphaTestResult = evalB ctx s1 e /\
  (forall c, vF st FS.textureColor c = vF s1 FS.textureColor c).
Proof.
  intros Ht Hn Hp s1 st.
  assert (Hs : skip s1 = O).
  { apply exec_skip_0; [assumption | reflexivity]. }
  assert (Hst : st = exec ctx post
                       (setB FS.alphaTestResult (evalB ctx s1 e) s1)).
  { unfold st, run. rewrite exec_app. fold (run ctx tex st0). fold s1.
    cbn [app]. rewrite exec_cons. unfold exec_stmt. rewrite Hs.
    reflexivity. }
  split; [exact Hs|]. split.
  { exact (tex_untouched ctx tex TMemory (setSkip O st0) Ht eq_refl). }
  split; [exact Hst|]. split.
  - rewrite Hst.
    rewrite (post_untouched ctx post (TVarB FS.alphaTestResult) _ Hp eq_refl).
    reflexivity.
  - intros c. rewrite Hst.
    rewrite (post_untouched ctx post (TVarF FS.textureColor) _ Hp eq_refl).
    reflexivity.
Qed.


End AlphaTest.

(* ---------- C5: the alpha reference does not flow ---------- *)

Lemma tex_leaf_ni l : tex_leaf l = true -> ni_leaf l = true.
Proof.
  destruct l as [| | | | | v | u c | |]; try reflexivity; cbn.
  - discriminate.
  - destruct u; try reflexivity. discriminate.
Qed.

Lemma post_leaf_ni l : post_leaf l = true -> ni_leaf l = true.
Proof.
  destruct l as [| | | | | v | u c | |]; try reflexivity; cbn.
  - destruct v; [discriminate | reflexivity].
  - destruct u; try reflexivity. destruct c; try reflexivity; discriminate.
Qed.

Section NonInterference.

Context {P : Platform}.
Variable ctx : Ctx.
Variable r : Z.
Let ctx' := set_uniform alphaFbParams cz r ctx.

Lemma ni_rel_refl st : ni_rel st st.
Proof. repeat split. Qed.

Lemma ni_agree st st' l :
  ni_rel st st' -> ni_leaf l = true -> agree ctx ctx' st st' l.
Proof.
  intros (HF & HI & HU & HB & HM & _) Hl.
  destruct l; unfold agree, ctx', set_uniform;
    cbn [uniform inF inU image]; auto.
  - apply HB. intros ->. discriminate.
  - destruct (Uniform_eq_dec alphaFbParams u) as [<-|]; [|reflexivity].
    destruct (Component_eq_dec cz c) as [<-|]; [discriminate | reflexivity].
Qed.

Lemma ni_agree_all st st' ls :
  ni_rel st st' -> forallb ni_leaf ls = true ->
  Forall (agree ctx ctx' st st') ls.
Proof.
  intros Hr H. rewrite forallb_forall in H. apply Forall_forall.
  intros l Hl. apply ni_agree; auto.
Qed.

Lemma ni_setB st st' v b b' :
  ni_rel st st' -> (v <> Tmp_alphaTestResult -> b = b') ->
  ni_rel (setB v b st) (setB v b' st').
Proof.
  intros (HF & HI & HU & HB & HM & HS) Hb.
  repeat split; cbn; auto.
  intros v0 Hv0. destruct (BoolSym_eq_dec v v0); [subst; auto | auto].
Qed.

Lemma ni_step st st' s :
  ni_rel st st' ->
  (target s = TVarB Tmp_alphaTestResult
   \/ forallb ni_leaf (reads s) = true) ->
  ni_rel (exec_stmt ctx st s) (exec_stmt ctx' st' s).
Proof.
  intros Hr Hs.
  pose proof Hr as (HF & HI & HU & HB & HM & HS).
  unfold exec_stmt. rewrite <- HS.
  destruct (skip st) eqn:Esk.
  2:{ destruct s; try exact Hr;
        repeat split; cbn; auto; try congruence. }
  destruct s; try exact Hr.
  - (* AssignF4 *)
    destruct Hs as [Hs|Hs]; [discriminate|].
    pose proof (ni_agree_all st st' _ Hr Hs) as Ha.
    cbn [reads] in Ha. unfold leavesF4 in Ha.
    apply Forall_app in Ha. destruct Ha as (A1 & Ha).
    apply Forall_app in Ha. destruct Ha as (A2 & Ha).
    apply Forall_app in Ha. destruct Ha as (A3 & A4).
    destruct (eval_coincidence ctx ctx' st st') as (EF & _ & _).
    rewrite (EF _ A1), (EF _ A2), (EF _ A3), (EF _ A4).
    repeat split; cbn; auto; try congruence.
    intros v0 c0. destruct (Float4Sym_eq_dec v v0); [reflexivity | apply HF].
  - (* AssignI *)
    destruct Hs as [Hs|Hs]; [discriminate|].
    pose proof (ni_agree_all st st' _ Hr Hs) as Ha.
    destruct (eval_coincidence ctx ctx' st st') as (_ & EI & _).
    rewrite (EI _ Ha).
    repeat split; cbn; auto; try congruence.
    intros v0. destruct (IntSym_eq_dec v v0); [reflexivity | apply HI].
  - (* AssignU *)
    destruct Hs as [Hs|Hs]; [discriminate|].
    pose proof (ni_agree_all st st' _ Hr Hs) as Ha.
    destruct (eval_coincidence ctx ctx' st st') as (_ & _ & EU).
    rewrite (EU _ Ha).
    repeat split; cbn; auto; try congruence.
    intros v0. destruct (UintSym_eq_dec v v0); [reflexivity | apply HU].
  - (* AssignB *)
    apply ni_setB; [exact Hr|]. intros Hv.
    destruct Hs as [Hs|Hs]; [cbn in Hs; congruence|].
    apply evalB_coincidence. apply ni_agree_all; assumption.
  - (* Memory_Write32 *)
    destruct Hs as [Hs|Hs]; [discriminate|].
    pose proof (ni_agree_all st st' _ Hr Hs) as Ha.
    cbn [reads] in Ha. apply Forall_app in Ha. destruct Ha as (A1 & A2).
    destruct (eval_coincidence ctx ctx' st st') as (_ & EI & EU).
    rewrite (EI _ A1), (EU _ A2), HM. repeat split; cbn; auto; try congruence.
  - destruct Hs as [Hs|Hs]; [discriminate|].
    pose proof (ni_agree_all st st' _ Hr Hs) as Ha.
    cbn [reads] in Ha. apply Forall_app in Ha. destruct Ha as (A1 & A2).
    destruct (eval_coincidence ctx ctx' st st') as (_ & EI & EU).
    rewrite (EI _ A1), (EU _ A2), HM. repeat split; cbn; auto; try congruence.
  - destruct Hs as [Hs|Hs]; [discriminate|].
    pose proof (ni_agree_all st st' _ Hr Hs) as Ha.
    cbn [reads] in Ha. apply Forall_app in Ha. destruct Ha as (A1 & A2).
    destruct (eval_coincidence ctx ctx' st st') as (_ & EI & EU).
    rewrite (EI _ A1), (EU _ A2), HM. repeat split; cbn; auto; try congruence.
  - (* BeginIf *)
    destruct Hs as [Hs|Hs]; [discriminate|].
    pose proof (ni_agree_all st st' _ Hr Hs) as Ha.
    rewrite (evalB_coincidence ctx ctx' st st' c Ha).
    destruct (evalB ctx' st' c); [exact Hr|].
    repeat split; cbn; auto; try congruence.
Qed.

Lemma ni_exec l : forall st st',
  ni_rel st st' ->
  Forall (fun s => target s = TVarB Tmp_alphaTestResult
                   \/ forallb ni_leaf (reads s) = true) l ->
  ni_rel (exec ctx l st) (exec ctx' l st').
Proof.
  induction l as [|s l IH]; intros st st' Hr Hl; [exact Hr|].
  rewrite !exec_cons. apply IH; [|exact (Forall_inv_tail Hl)].
  apply ni_step; [exact Hr | exact (Forall_inv Hl)].
Qed.

End NonInterference.

Lemma forallb_impl {A} (p q : A -> bool) l :
  (forall a, p a = true -> q a = true) ->
  forallb p l = true -> forallb q l = true.
Proof.
  intros Hpq H. rewrite forallb_forall in *. auto.
Qed.

(** C5.  No statement of the generated program reads the alpha-test
    result, so two runs that differ only in the alpha-reference push
    constant end with the same memory, the same output colour and the
    same values of every variable but the alpha-test result. *)
Theorem alpha_test_result_is_never_consumed {P : Platform}
    (caps : PIPELINE_CAPS) (prog : list Stmt) (ctx : Ctx) (st0 : State)
    (reference : Z)
    (H : program (CreateFragmentShader caps) = Some prog) :
  let ctx' := set_uniform alphaFbParams cz reference ctx in
  (forall s, In s prog -> ~ In (LVarB FS.alphaTestResult) (reads s)) /\
  mem (run ctx prog st0) = mem (run ctx' prog st0) /\
  (forall c, vF (run ctx prog st0) FS.outputColor c
             = vF (run ctx' prog st0) FS.outputColor c) /\
  ni_rel (run ctx prog st0) (run ctx' prog st0).
Proof.
  intros ctx'.
  apply CreateFragmentShader_parts in H.
  destruct H as (tex & e & post & -> & _ & He & Ht & Hn & Hp).
  assert (Hall : Forall (fun s => target s = TVarB Tmp_alphaTestResult
                                  \/ forallb ni_leaf (reads s) = true)
                        (tex ++ [AssignB FS.alphaTestResult e] ++ post)).
  { apply Forall_app. split; [|apply Forall_app; split].
    - apply Forall_forall. intros s Hs. right.
      rewrite forallb_forall in Ht. specialize (Ht s Hs).
      unfold tex_stmt in Ht. apply andb_true_iff in Ht.
      eapply forallb_impl; [apply tex_leaf_ni | apply Ht].
    - repeat constructor.
    - apply Forall_forall. intros s Hs. right.
      rewrite forallb_forall in Hp. specialize (Hp s Hs).
      unfold post_stmt in Hp. apply andb_true_iff in Hp.
      eapply forallb_impl; [apply post_leaf_ni | apply Hp]. }
  assert (Hni : ni_rel (run ctx (tex ++ [AssignB FS.alphaTestResult e] ++ post) st0)
                       (run ctx' (tex ++ [AssignB FS.alphaTestResult e] ++ post) st0)).
  { unfold run. apply ni_exec; [apply ni_rel_refl | exact Hall]. }
  split; [|split; [|split]].
  - intros s Hs Hin.
    assert (Hleaf : forall ls, forallb ni_leaf ls = true ->
                               ~ In (LVarB FS.alphaTestResult) ls).
    { intros ls Hr Hl. rewrite forallb_forall in Hr.
      specialize (Hr _ Hl). discriminate. }
    apply in_app_or in Hs. destruct Hs as [Hs|Hs].
    + rewrite forallb_forall in Ht. specialize (Ht s Hs).
      unfold tex_stmt in Ht. apply andb_true_iff in Ht.
      apply (Hleaf (reads s)); [|exact Hin].
      eapply forallb_impl; [apply tex_leaf_ni | apply Ht].
    + apply in_app_or in Hs. destruct Hs as [[<-|[]]|Hs].
      * destruct (alphaTestFunction caps); cbn in He; inversion He; subst e;
          cbn in Hin; intuition discriminate.
      * rewrite forallb_forall in Hp. specialize (Hp s Hs).
        unfold post_stmt in Hp. apply andb_true_iff in Hp.
        apply (Hleaf (reads s)); [|exact Hin].
        eapply forallb_impl; [apply post_leaf_ni | apply Hp].
  - apply Hni.
  - intros c. apply Hni.
  - exact Hni.
Qed.

(* ---------- before the commit ---------- *)

Lemma plain_nesting l :
  forallb plain l = true -> forall d, nesting l d = Some d.
Proof.
  induction l as [|s l IH]; intros H d; [reflexivity|].
  cbn in H. apply andb_true_iff in H. destruct H as [Hs Hl].
  destruct s; try discriminate; cbn; apply IH; assumption.
Qed.

Lemma plain_target s : plain s = true -> target s <> TMemory.
Proof. destruct s; cbn; intros H E; discriminate. Qed.

Lemma tex_stmt_pure s : tex_stmt s = true -> target s <> TMemory.
Proof.
  unfold tex_stmt. intros H E. apply andb_true_iff in H.
  destruct H as [H _]. rewrite E in H. discriminate.
Qed.

Lemma Addresses_plain caps l :
  FS.Addresses caps = Some (tt, l) -> forallb plain l = true.
Proof.
  intros H. apply Addresses_shape in H. destruct H as (sf & sd & ->).
  reflexivity.
Qed.

Lemma DestinationRead_plain caps l :
  FS.DestinationRead caps = Some (tt, l) -> forallb plain l = true.
Proof.
  intros H. apply DestinationRead_shape in H.
  destruct H as (lc & ld & -> & Hc & Hd).
  rewrite forallb_app. apply andb_true_iff. split.
  - destruct (FS.needsDstColor caps); [|subst; reflexivity].
    destruct Hc as (rd & unpack & Hr & ->). reflexivity.
  - destruct (FS.needsDstDepth caps); [|subst; reflexivity].
    destruct Hd as (depth & Hg & ->). reflexivity.
Qed.

Lemma DepthTest_plain caps l :
  FS.DepthTest caps = Some (tt, l) -> forallb plain l = true.
Proof.
  intros H. apply DepthTest_shape in H. subst.
  destruct (depthTestFunction caps); reflexivity.
Qed.

Lemma Blend_plain caps l :
  FS.Blend caps = Some (tt, l) -> forallb plain l = true.
Proof.
  intros H. apply Blend_shape in H. destruct H as (e & -> & He). reflexivity.
Qed.

(** The targets of the statements between the interlock and the commit. *)
Lemma tex_not_target t l :
  forallb tex_stmt l = true -> tex_target t = false ->
  Forall (fun s => target s <> t) l.
Proof.
  intros H Ht. rewrite forallb_forall in H. apply Forall_forall.
  intros s Hs E. specialize (H s Hs). unfold tex_stmt in H.
  apply andb_true_iff in H. destruct H as [H _]. rewrite E in H. congruence.
Qed.

Lemma plain_not_memory l :
  forallb plain l = true -> Forall (fun s => target s <> TMemory) l.
Proof.
  intros H. rewrite forallb_forall in H. apply Forall_forall.
  intros s Hs. apply plain_target. auto.
Qed.

Lemma DestinationRead_depth_targets caps ld :
  (if FS.needsDstDepth caps
   then exists depth,
          GetDepth (depthbufferFormat caps) (VarI FS.depthAddress)
          = Some (depth, []) /\
          ld = [ AssignU FS.dstDepth depth ]
   else ld = []) ->
  forall t, t <> TVarU FS.dstDepth -> Forall (fun s => target s <> t) ld.
Proof.
  intros H t Ht. destruct (FS.needsDstDepth caps).
  - destruct H as (depth & _ & ->).
    constructor; [cbn; congruence | constructor].
  - subst. constructor.
Qed.

Lemma DepthTest_targets caps dt :
  FS.DepthTest caps = Some (tt, dt) ->
  forall t, t <> TVarB FS.depthTestResult -> Forall (fun s => target s <> t) dt.
Proof.
  intros H t Ht. apply DepthTest_shape in H. subst.
  destruct (depthTestFunction caps); cbn;
    repeat constructor; cbn; congruence.
Qed.

Lemma Blend_targets caps bl :
  FS.Blend caps = Some (tt, bl) ->
  forall t, t <> TVarF FS.dstColor -> Forall (fun s => target s <> t) bl.
Proof.
  intros H t Ht. apply Blend_shape in H. destruct H as (e & -> & _).
  constructor; [cbn; congruence | constructor].
Qed.

(* ---------- C2: the conditional commit ---------- *)

Section Commit.

Context {P : Platform}.

Lemma Commit_exec ctx caps cm s :
  FS.Commit caps = Some (tt, cm) -> skip s = O ->
  skip (exec ctx cm s) = O /\
  mem (exec ctx cm s) = committed_memory caps ctx s (vU s FS.dstPixel).
Proof.
  intros H Hs. apply Commit_shape in H.
  destruct H as (pack & store & ld & Hp & -> & Hd).
  unfold committed_memory, fbWriteMask_of, srcDepth_of, store_fb,
    store_depth, merge.
  rewrite <- (wrapU_wrapS (uniform ctx alphaFbParams cx)).
  destruct (framebufferFormat caps); try discriminate;
    inversion Hp; subst pack store; clear Hp;
    (destruct (writeDepth caps);
     [ destruct Hd as (value & stored & Hw & ->);
       destruct (depthbufferFormat caps); try discriminate;
       inversion Hw; subst value stored; clear Hw
     | subst ld ]);
    unfold exec; cbn [app fold_left];
    unfold exec_stmt;
    repeat (cbn [skip setMem setSkip mem vI vU vB vF evalB]; rewrite ?Hs);
    destruct (vB s FS.depthTestResult);
    repeat (cbn [skip setMem setSkip mem vI vU vB vF evalB]; rewrite ?Hs);
    (split; [reflexivity|]).
  all: reflexivity.
Qed.

Lemma Forall_single {A} (Q : A -> Prop) a : Q a -> Forall Q [a].
Proof. intros H. constructor; [assumption | constructor]. Qed.

Lemma merge_full_mask new old old' :
  merge new old 4294967295 = merge new old' 4294967295.
Proof.
  unfold merge. replace (wrapU (Z.lnot 4294967295)) with 0 by reflexivity.
  rewrite !Z.land_0_r. reflexivity.
Qed.

Lemma committed_memory_full_mask caps (ctx : Ctx) s old old' :
  fbWriteMask_of ctx = 4294967295 ->
  committed_memory caps ctx s old = committed_memory caps ctx s old'.
Proof.
  intros H. unfold committed_memory, store_fb. rewrite H.
  rewrite !(merge_full_mask _ old old'). reflexivity.
Qed.

(** C2, as amended.  The generated program stores to memory only in its
    commit, which is skipped unless the depth test passed.  The commit
    writes the colour, packed for the framebuffer format, merged under the
    write mask with the destination-pixel temporary: that temporary holds
    the framebuffer pixel when alpha blending or colour masking is enabled
    and is otherwise left as the invocation found it.  The source depth is
    written only when depth writes are enabled, masked to 24 or 16 bits
    for the 24- and 16-bit depth formats.  Under a write mask of all ones
    the committed memory does not depend on the value merged in. *)
Theorem commit_only_if_depth_test_passes
    (caps : PIPELINE_CAPS) (prog : list Stmt) (ctx : Ctx) (st0 : State)
    (H : program (CreateFragmentShader caps) = Some prog) :
  (exists pre cm,
      FS.Commit caps = Some (tt, cm) /\
      prog = pre ++ cm ++ [EndInvocationInterlock;
                           AssignF4 FS.outputColor (xyzw FS.dstColor)] /\
      Forall (fun s => target s <> TMemory) pre /\
      let s := run ctx pre st0 in
      mem s = mem st0 /\
      vU s FS.dstPixel
      = (if FS.needsDstColor caps
         then load_fb (framebufferFormat caps) (mem st0) (vI s FS.fbAddress)
         else vU st0 FS.dstPixel) /\
      mem (run ctx prog st0)
      = committed_memory caps ctx s (vU s FS.dstPixel))
  /\ (forall s old old',
      fbWriteMask_of ctx = 4294967295 ->
      committed_memory caps ctx s old = committed_memory caps ctx s old').
Proof.
  split; [|intros s old old'; apply committed_memory_full_mask].
  apply CreateFragmentShader_stages in H.
  destruct H as (tex & at_ & ad & rd & dt & bl & cm &
                 Ht & Ha & Had & Hrd & Hdt & Hbl & Hcm & ->).
  destruct (TextureStage_ok _ _ Ht) as (T1 & T2).
  apply AlphaTest_shape in Ha. destruct Ha as (e & He & ->).
  pose proof (Addresses_plain _ _ Had) as Pad.
  pose proof (DestinationRead_plain _ _ Hrd) as Prd.
  pose proof (DepthTest_plain _ _ Hdt) as Pdt.
  pose proof (Blend_plain _ _ Hbl) as Pbl.
  set (head := tex ++ [AssignB FS.alphaTestResult e] ++ ad
               ++ [BeginInvocationInterlock]).
  set (tail := [EndInvocationInterlock;
                AssignF4 FS.outputColor (xyzw FS.dstColor)]).
  exists (head ++ rd ++ dt ++ bl), cm.
  split; [assumption|]. split.
  { unfold head. repeat rewrite <- app_assoc. reflexivity. }
  (* nothing before the commit stores to memory or leaves a block open *)
  assert (Mhead : Forall (fun s => target s <> TMemory) head).
  { unfold head. apply Forall_app. split; [apply tex_not_target; auto|].
    apply Forall_app. split; [apply Forall_single; cbn; congruence|].
    apply Forall_app. split; [apply plain_not_memory; assumption|].
    apply Forall_single. cbn. congruence. }
  assert (Nhead : forall d, nesting head d = Some d).
  { unfold head. apply nesting_id_app; [assumption|].
    apply nesting_id_app; [reflexivity|].
    apply nesting_id_app; [apply plain_nesting; assumption | reflexivity]. }
  assert (Mrest : Forall (fun s => target s <> TMemory) (rd ++ dt ++ bl)).
  { repeat (apply Forall_app; split); apply plain_not_memory; assumption. }
  assert (Nrest : forall d, nesting (rd ++ dt ++ bl) d = Some d).
  { repeat apply nesting_id_app; apply plain_nesting; assumption. }
  split; [apply Forall_app; split; assumption|].
  cbv zeta.
  set (s := run ctx (head ++ rd ++ dt ++ bl) st0).
  set (sa := run ctx head st0).
  assert (Es : s = exec ctx (rd ++ dt ++ bl) sa).
  { unfold s, sa, run. apply exec_app. }
  assert (Ssa : skip sa = O).
  { unfold sa, run. apply exec_skip_0; [assumption | reflexivity]. }
  assert (Msa : mem sa = mem st0).
  { exact (exec_untouched ctx TMemory head (setSkip O st0) Mhead). }
  assert (Ss : skip s = O).
  { rewrite Es. apply exec_skip_0; assumption. }
  assert (Ms : mem s = mem st0).
  { rewrite Es, <- Msa. exact (exec_untouched ctx TMemory _ sa Mrest). }
  split; [exact Ms|]. split.
  - (* the destination-pixel temporary *)
    pose proof (DestinationRead_shape _ _ Hrd) as (lc & ld & -> & Hc & Hd).
    pose proof (DestinationRead_depth_targets caps ld Hd) as Tld.
    pose proof (DepthTest_targets _ _ Hdt) as Tdt.
    pose proof (Blend_targets _ _ Hbl) as Tbl.
    destruct (FS.needsDstColor caps).
    + destruct Hc as (rdN & unpack & Hr & ->).
      set (s1 := exec_stmt ctx sa (AssignU FS.dstPixel (rdN (VarI FS.fbAddress)))).
      assert (Es1 : s = exec ctx ([AssignF4 FS.dstColor (unpack (VarU FS.dstPixel))]
                                  ++ ld ++ dt ++ bl) s1).
      { rewrite Es. repeat rewrite <- app_assoc. reflexivity. }
      assert (K : forall t, t <> TVarU FS.dstDepth ->
                  t <> TVarB FS.depthTestResult -> t <> TVarF FS.dstColor ->
                  untouched t s1 s).
      { intros t N1 N2 N3. rewrite Es1. apply exec_untouched.
        apply Forall_app. split; [apply Forall_single; cbn; congruence|].
        apply Forall_app. split; [apply Tld; assumption|].
        apply Forall_app. split; [apply Tdt | apply Tbl]; assumption. }
      pose proof (K (TVarU FS.dstPixel)) as K1. cbn in K1.
      pose proof (K (TVarI FS.fbAddress)) as K2. cbn in K2.
      rewrite K1, K2 by discriminate.
      unfold s1, exec_stmt. rewrite Ssa. cbn [setU vU vI].
      rewrite <- Msa. unfold load_fb.
      destruct (framebufferFormat caps); try discriminate;
        inversion Hr; subst rdN unpack; reflexivity.
    + subst lc. cbn [app] in Es.
      assert (K : untouched (TVarU FS.dstPixel) (setSkip O st0) s).
      { apply exec_untouched.
        apply Forall_app. split.
        - unfold head. apply Forall_app. split; [apply tex_not_target; auto|].
          apply Forall_app. split; [apply Forall_single; cbn; congruence|].
          apply Addresses_shape in Had. destruct Had as (sf & sd & ->).
          repeat constructor; cbn; congruence.
        - apply Forall_app. split; [apply Tld; discriminate|].
          apply Forall_app. split; [apply Tdt | apply Tbl]; discriminate. }
      exact K.
  - (* the commit *)
    match goal with
    | |- mem (run ctx ?p st0) = _ =>
        replace p with ((head ++ rd ++ dt ++ bl) ++ cm ++ tail)
          by (unfold head; repeat rewrite <- app_assoc; reflexivity)
    end.
    unfold run.
    rewrite (exec_app ctx (head ++ rd ++ dt ++ bl) (cm ++ tail)).
    rewrite (exec_app ctx cm tail).
    fold (run ctx (head ++ rd ++ dt ++ bl) st0). fold s.
    destruct (Commit_exec ctx caps cm s Hcm Ss) as (_ & Mc).
    rewrite <- Mc.
    apply (exec_untouched ctx TMemory tail).
    repeat constructor; cbn; congruence.
Qed.

End Commit.

(* ---------- C3: blending ---------- *)

Section Blending.

Context {P : Platform}.

Lemma GetAlphaABD_eval ctx s sel A l :
  GetAlphaABD sel (xyzw FS.textureColor) (xyzw FS.dstColor) = Some (A, l) ->
  evalF ctx s (f3x A)
  = select_ABD sel (vF s FS.textureColor) (vF s FS.dstColor) cx /\
  evalF ctx s (f3y A)
  = select_ABD sel (vF s FS.textureColor) (vF s FS.dstColor) cy /\
  evalF ctx s (f3z A)
  = select_ABD sel (vF s FS.textureColor) (vF s FS.dstColor) cz.
Proof.
  destruct sel; cbn; intros H; inversion H; subst; repeat split.
Qed.

Lemma GetAlphaC_eval ctx s sel C l :
  GetAlphaC sel (xyzw FS.textureColor) (xyzw FS.dstColor) FS.alphaFix
  = Some (C, l) ->
  let v := select_C sel (vF s FS.textureColor) (vF s FS.dstColor)
                    (alphaFix_of ctx) in
  evalF ctx s (f3x C) = v /\ evalF ctx s (f3y C) = v /\
  evalF ctx s (f3z C) = v.
Proof.
  destruct sel; cbn; intros H; inversion H; subst; repeat split.
Qed.

Lemma Blend_exec ctx caps bl s :
  FS.Blend caps = Some (tt, bl) -> hasAlphaBlending caps = true ->
  skip s = O ->
  let s' := exec ctx bl s in
  skip s' = O /\
  (forall c, vF s' FS.dstColor c
             = blend_result caps (vF s FS.textureColor) (vF s FS.dstColor)
                            (alphaFix_of ctx) c) /\
  (forall c, vF s' FS.textureColor c = vF s FS.textureColor c).
Proof.
  intros H Hb Hs. apply Blend_shape in H. destruct H as (e & -> & He).
  rewrite Hb in He. destruct He as (A & B & C & D & HA & HB & HC & HD & ->).
  destruct (GetAlphaABD_eval ctx s _ _ _ HA) as (A1 & A2 & A3).
  destruct (GetAlphaABD_eval ctx s _ _ _ HB) as (B1 & B2 & B3).
  destruct (GetAlphaC_eval ctx s _ _ _ HC) as (C1 & C2 & C3).
  destruct (GetAlphaABD_eval ctx s _ _ _ HD) as (D1 & D2 & D3).
  cbv zeta. unfold exec. cbn [fold_left]. unfold exec_stmt. rewrite Hs.
  split; [exact Hs|]. split.
  - intros c. unfold blend_result, blend_formula.
    destruct c; simpl;
      rewrite ?A1, ?A2, ?A3, ?B1, ?B2, ?B3, ?C1, ?C2, ?C3, ?D1, ?D2, ?D3;
      reflexivity.
  - intros c. reflexivity.
Qed.

Lemma DestinationRead_exec ctx caps rd sa :
  FS.DestinationRead caps = Some (tt, rd) -> FS.needsDstColor caps = true ->
  skip sa = O ->
  let s := exec ctx rd sa in
  let pixel := load_fb (framebufferFormat caps) (mem sa) (vI sa FS.fbAddress) in
  vU s FS.dstPixel = pixel /\
  (forall c, vF s FS.dstColor c
             = unpack_fb (framebufferFormat caps) pixel c).
Proof.
  intros H Hn Hs. apply DestinationRead_shape in H.
  destruct H as (lc & ld & -> & Hc & Hd). rewrite Hn in Hc.
  destruct Hc as (rdN & unpack & Hr & ->). cbv zeta.
  pose proof (DestinationRead_depth_targets caps ld Hd) as Tld.
  rewrite exec_app.
  set (s1 := exec ctx [AssignU FS.dstPixel (rdN (VarI FS.fbAddress));
                       AssignF4 FS.dstColor (unpack (VarU FS.dstPixel))] sa).
  assert (K1 : untouched (TVarU FS.dstPixel) s1 (exec ctx ld s1)).
  { apply exec_untouched, Tld. discriminate. }
  assert (K2 : untouched (TVarF FS.dstColor) s1 (exec ctx ld s1)).
  { apply exec_untouched, Tld. discriminate. }
  unfold untouched in K1, K2. rewrite K1. split; [|intros c; rewrite K2].
  - unfold s1, exec. cbn [fold_left]. unfold exec_stmt.
    repeat (cbn [skip setU setF vU vF]; rewrite ?Hs).
    unfold load_fb.
    destruct (framebufferFormat caps); try discriminate;
      inversion Hr; subst rdN unpack; reflexivity.
  - unfold s1, exec. cbn [fold_left]. unfold exec_stmt.
    repeat (cbn [skip setU setF vU vF]; rewrite ?Hs).
    unfold load_fb, unpack_fb.
    destruct (framebufferFormat caps); try discriminate;
      inversion Hr; subst rdN unpack; destruct c; reflexivity.
Qed.

Lemma Commit_targets caps cm :
  FS.Commit caps = Some (tt, cm) ->
  forall t, t <> TMemory -> t <> TNone -> Forall (fun s => target s <> t) cm.
Proof.
  intros H t N1 N2. apply Commit_shape in H.
  destruct H as (pack & store & ld & Hp & -> & Hd).
  assert (Forall (fun s => target s <> t) ld) as Hld.
  { destruct (writeDepth caps); [|subst; constructor].
    destruct Hd as (value & stored & Hw & ->).
    destruct (depthbufferFormat caps); try discriminate;
      inversion Hw; subst; apply Forall_single; cbn; congruence. }
  destruct (framebufferFormat caps); try discriminate;
    inversion Hp; subst;
    (apply Forall_app; split;
     [ repeat constructor; cbn; congruence
     | apply Forall_app; split;
       [ assumption | apply Forall_single; cbn; congruence ] ]).
Qed.

Lemma DestinationRead_targets caps rd :
  FS.DestinationRead caps = Some (tt, rd) ->
  forall t, t <> TVarU FS.dstPixel -> t <> TVarF FS.dstColor ->
            t <> TVarU FS.dstDepth ->
            Forall (fun s => target s <> t) rd.
Proof.
  intros H t N1 N2 N3. apply DestinationRead_shape in H.
  destruct H as (lc & ld & -> & Hc & Hd).
  apply Forall_app. split.
  - destruct (FS.needsDstColor caps); [|subst; constructor].
    destruct Hc as (rdN & unpack & _ & ->).
    repeat constructor; cbn; congruence.
  - apply (DestinationRead_depth_targets caps ld Hd). assumption.
Qed.

(** C3, as amended.  With alpha blending enabled the generated program
    computes ((A - B) * C * 2) + D on the three colour channels, A, B and
    D selected from source colour, destination colour and zero and C from
    source alpha, destination alpha and the fixed constant, takes the
    texture-stage alpha as the fourth channel, clamps all four to [0, 1]
    and outputs the result: the resulting alpha is the texture-stage
    alpha clamped to [0, 1], not that alpha itself.  The destination
    colour is the unpacked framebuffer pixel.  For A = source,
    B = destination, C = fixed 1.0 and D = zero on source (1, 0, 0, 1) and
    destination (0, 1, 0, 1) the formula gives (2, -2, 0) and the result
    is (1, 0, 0) with alpha 1. *)
Theorem blending_formula
    (caps : PIPELINE_CAPS) (prog : list Stmt) (ctx : Ctx) (st0 : State)
    (H : program (CreateFragmentShader caps) = Some prog)
    (Hb : hasAlphaBlending caps = true) :
  (exists pre bl post,
      FS.Blend caps = Some (tt, bl) /\
      prog = pre ++ bl ++ post /\
      let s := run ctx pre st0 in
      let src := vF s FS.textureColor in
      let dst := vF s FS.dstColor in
      let st := run ctx prog st0 in
      (forall c, dst c
                 = unpack_fb (framebufferFormat caps)
                     (load_fb (framebufferFormat caps) (mem st0)
                              (vI s FS.fbAddress)) c) /\
      (forall c, vF st FS.textureColor c = src c) /\
      (forall c, vF st FS.dstColor c
                 = blend_result caps src dst (alphaFix_of ctx) c) /\
      (forall c, vF st FS.outputColor c
                 = blend_result caps src dst (alphaFix_of ctx) c) /\
      (forall raw, alphaA caps <> ALPHABLEND_ABD_OTHER raw /\
                   alphaB caps <> ALPHABLEND_ABD_OTHER raw /\
                   alphaC caps <> ALPHABLEND_C_OTHER raw /\
                   alphaD caps <> ALPHABLEND_ABD_OTHER raw))
  /\ (let src := rgba 1 0 0 1 in
      let dst := rgba 0 1 0 1 in
      let ctx1 := ctx_ex 4294967295 255 128 in
      let fixed := alphaFix_of ctx1 in
      let st := run ctx1 (program_of caps_blend) (st_ex 4278255360) in
      fixed = 1%Q /\
      blend_formula (P := ReferencePlatform) caps_blend src dst fixed cx
      = 2%Q /\
      blend_formula (P := ReferencePlatform) caps_blend src dst fixed cy
      = (-2)%Q /\
      blend_formula (P := ReferencePlatform) caps_blend src dst fixed cz
      = 0%Q /\
      (forall c, blend_result (P := ReferencePlatform) caps_blend src dst
                   fixed c = rgba 1 0 0 1 c) /\
      (forall c, vF st FS.textureColor c = src c) /\
      (forall c, vF st FS.dstColor c = rgba 1 0 0 1 c) /\
      (forall c, vF st FS.outputColor c = rgba 1 0 0 1 c)).
Proof.
  split;
    [|cbv zeta; repeat split; try (intros []); vm_compute; reflexivity].
  apply CreateFragmentShader_stages in H.
  destruct H as (tex & at_ & ad & rd & dt & bl & cm &
                 Ht & Ha & Had & Hrd & Hdt & Hbl & Hcm & ->).
  destruct (TextureStage_ok _ _ Ht) as (T1 & T2).
  apply AlphaTest_shape in Ha. destruct Ha as (e & He & ->).
  pose proof (Addresses_plain _ _ Had) as Pad.
  pose proof (DestinationRead_plain _ _ Hrd) as Prd.
  pose proof (DepthTest_plain _ _ Hdt) as Pdt.
  set (head := tex ++ [AssignB FS.alphaTestResult e] ++ ad
               ++ [BeginInvocationInterlock]).
  set (tail := [EndInvocationInterlock;
                AssignF4 FS.outputColor (xyzw FS.dstColor)]).
  exists (head ++ rd ++ dt), bl, (cm ++ tail).
  split; [assumption|]. split.
  { unfold head. repeat rewrite <- app_assoc. reflexivity. }
  assert (Mhead : Forall (fun s => target s <> TMemory) head).
  { unfold head. apply Forall_app. split; [apply tex_not_target; auto|].
    apply Forall_app. split; [apply Forall_single; cbn; congruence|].
    apply Forall_app. split; [apply plain_not_memory; assumption|].
    apply Forall_single. cbn. congruence. }
  assert (Nhead : forall d, nesting head d = Some d).
  { unfold head. apply nesting_id_app; [assumption|].
    apply nesting_id_app; [reflexivity|].
    apply nesting_id_app; [apply plain_nesting; assumption | reflexivity]. }
  cbv zeta.
  match goal with
  | |- context [run ctx ?p st0] =>
      lazymatch p with
      | tex ++ _ =>
          replace p with ((head ++ rd ++ dt) ++ bl ++ cm ++ tail)
            by (unfold head; repeat rewrite <- app_assoc; reflexivity)
      end
  end.
  set (sa := run ctx head st0).
  set (s := run ctx (head ++ rd ++ dt) st0).
  assert (Es : s = exec ctx dt (exec ctx rd sa)).
  { unfold s, sa, run. rewrite exec_app, exec_app. reflexivity. }
  assert (Ssa : skip sa = O).
  { unfold sa, run. apply exec_skip_0; [assumption | reflexivity]. }
  assert (Msa : mem sa = mem st0).
  { exact (exec_untouched ctx TMemory head (setSkip O st0) Mhead). }
  assert (Srd : skip (exec ctx rd sa) = O).
  { apply exec_skip_0; [apply plain_nesting|]; assumption. }
  assert (Ss : skip s = O).
  { rewrite Es. apply exec_skip_0; [apply plain_nesting|]; assumption. }
  assert (Hn : FS.needsDstColor caps = true).
  { unfold FS.needsDstColor. rewrite Hb. reflexivity. }
  destruct (DestinationRead_exec ctx caps rd sa Hrd Hn Ssa) as (_ & Hdst).
  pose proof (DepthTest_targets _ _ Hdt) as Tdt.
  pose proof (DestinationRead_targets _ _ Hrd) as Trd.
  assert (Hfb : vI s FS.fbAddress = vI sa FS.fbAddress).
  { rewrite Es.
    assert (K1 : untouched (TVarI FS.fbAddress) (exec ctx rd sa)
                           (exec ctx dt (exec ctx rd sa))).
    { apply exec_untouched, Tdt. discriminate. }
    assert (K2 : untouched (TVarI FS.fbAddress) sa (exec ctx rd sa)).
    { apply exec_untouched, Trd; discriminate. }
    unfold untouched in K1, K2. congruence. }
  assert (Hd : forall c, vF s FS.dstColor c = vF (exec ctx rd sa) FS.dstColor c).
  { rewrite Es.
    assert (K1 : untouched (TVarF FS.dstColor) (exec ctx rd sa)
                           (exec ctx dt (exec ctx rd sa))).
    { apply exec_untouched, Tdt. discriminate. }
    exact K1. }
  destruct (Blend_exec ctx caps bl s Hbl Hb Ss) as (Sb & Bd & Bt).
  set (sb := exec ctx bl s) in *.
  destruct (Commit_exec ctx caps cm sb Hcm Sb) as (Sc & _).
  pose proof (Commit_targets _ _ Hcm) as Tcm.
  assert (Kd : untouched (TVarF FS.dstColor) sb (exec ctx cm sb)).
  { apply exec_untouched, Tcm; discriminate. }
  assert (Kt : untouched (TVarF FS.textureColor) sb (exec ctx cm sb)).
  { apply exec_untouched, Tcm; discriminate. }
  set (sc := exec ctx cm sb) in *.
  assert (Est : run ctx ((head ++ rd ++ dt) ++ bl ++ cm ++ tail) st0
                = exec ctx tail sc).
  { unfold run. rewrite (exec_app ctx (head ++ rd ++ dt) (bl ++ cm ++ tail)).
    rewrite (exec_app ctx bl (cm ++ tail)).
    rewrite (exec_app ctx cm tail). reflexivity. }
  rewrite Est.
  assert (Etail : exec ctx tail sc
                  = setF FS.outputColor (vF sc FS.dstColor cx)
                      (vF sc FS.dstColor cy) (vF sc FS.dstColor cz)
                      (vF sc FS.dstColor cw) sc).
  { unfold tail, exec. cbn [fold_left]. unfold exec_stmt.
    repeat (cbn [skip setF]; rewrite ?Sc). reflexivity. }
  rewrite Etail. unfold untouched in Kd, Kt.
  split; [|split; [|split; [|split]]].
  - intros c. rewrite Hd, Hdst, Hfb, Msa. reflexivity.
  - intros c. cbn [vF setF].
    destruct (Float4Sym_eq_dec FS.outputColor FS.textureColor);
      [discriminate|].
    rewrite Kt. apply Bt.
  - intros c. cbn [vF setF].
    destruct (Float4Sym_eq_dec FS.outputColor FS.dstColor);
      [discriminate|].
    rewrite Kd. apply Bd.
  - intros c. cbn [vF setF].
    destruct (Float4Sym_eq_dec FS.outputColor FS.outputColor);
      [|contradiction].
    destruct c; rewrite Kd; apply Bd.
  - intros raw. apply Blend_shape in Hbl.
    destruct Hbl as (e0 & _ & He0). rewrite Hb in He0.
    destruct He0 as (A & B & C & D & HA & HB & HC & HD & _).
    repeat split; intros E; rewrite E in *; discriminate.
Qed.

End Blending.

(* ---------- C6: the clamp policy of a texel coordinate ---------- *)


Lemma wrapS_small z : -2147483648 <= z < 2147483648 -> wrapS z = z.
Proof. intros H. unfold wrapS. rewrite Z.mod_small; lia. Qed.



(* ---------- the interlocked region ---------- *)

Lemma tex_stmt_outside s :
  tex_stmt s = true -> touches_destination s = false.
Proof.
  unfold tex_stmt, touches_destination. intros H.
  apply andb_true_iff in H. destruct H as [Ht Hl].
  destruct (target s); try discriminate;
    (apply not_true_is_false; intros E; apply existsb_exists in E;
     destruct E as (l & Hin & Hd); rewrite forallb_forall in Hl;
     specialize (Hl l Hin);
     destruct l as [| | | | | | | |a]; try discriminate;
     destruct a; try discriminate; destruct v; discriminate).
Qed.

(** X15.  In every generated program every load and store of the
    destination lies between the two interlock markers. *)
Lemma destination_accesses_are_interlocked (caps : PIPELINE_CAPS)
    (prog : list Stmt) :
  program (CreateFragmentShader caps) = Some prog ->
  exists before inside after,
    prog = before ++ [BeginInvocationInterlock] ++ inside
           ++ [EndInvocationInterlock] ++ after /\
    forallb (fun s => negb (touches_destination s)) before = true /\
    forallb (fun s => negb (touches_destination s)) after = true.
Proof.
  intros H. apply CreateFragmentShader_stages in H.
  destruct H as (tex & at_ & ad & rd & dt & bl & cm &
                 Ht & Ha & Had & Hrd & Hdt & Hbl & Hcm & ->).
  destruct (TextureStage_ok _ _ Ht) as (T1 & _).
  apply AlphaTest_shape in Ha. destruct Ha as (e & He & ->).
  pose proof (Addresses_shape _ _ Had) as (sf & sd & Ead).
  exists (tex ++ [AssignB FS.alphaTestResult e] ++ ad),
         (rd ++ dt ++ bl ++ cm),
         [AssignF4 FS.outputColor (xyzw FS.dstColor)].
  split; [repeat rewrite <- app_assoc; reflexivity|].
  split; [|reflexivity].
  rewrite !forallb_app.
  assert (forallb (fun s => negb (touches_destination s)) tex = true) as ->.
  { rewrite forallb_forall in *. intros s Hs.
    rewrite (tex_stmt_outside s (T1 s Hs)). reflexivity. }
  assert (forallb (fun s => negb (touches_destination s))
                  [AssignB FS.alphaTestResult e] = true) as ->.
  { destruct (alphaTestFunction caps); cbn in He; inversion He; reflexivity. }
  subst ad. reflexivity.
Qed.

(* ---------- closed instances ---------- *)

(** C3: with the first texture-alpha constant at 510 the texture stage
    leaves an alpha of 2, which the blend clamps: the program outputs an
    alpha of 1. *)
Lemma blend_alpha_counterexample :
  hasAlphaBlending caps_alpha = true /\
  let ctx := set_uniform texParams1 cy 510 (ctx_ex 4294967295 255 128) in
  let st := run ctx (program_of caps_alpha) (st_ex 0) in
  program (CreateFragmentShader caps_alpha) = Some (program_of caps_alpha) /\
  vF st FS.textureColor cw = 2%Q /\
  vF st FS.outputColor cw = 1%Q /\
  ~ output_alpha_is_source_alpha (P := ReferencePlatform) caps_alpha ctx
      (st_ex 0).
Proof.
  split; [reflexivity|]. cbv zeta. split; [reflexivity|].
  split; [vm_compute; reflexivity|]. split; [vm_compute; reflexivity|].
  intros Hc. specialize (Hc (program_of caps_alpha) eq_refl).
  vm_compute in Hc. discriminate Hc.
Qed.

(** C2: with neither blending nor colour masking the destination pixel is
    not loaded, and under a write mask of zero the commit stores the
    temporary's first value (0) over a framebuffer pixel of 4294967295. *)
Lemma commit_counterexample :
  ~ commit_merges_existing_pixel (P := ReferencePlatform)
      caps_ex (ctx_ex 0 0 0) (st_ex 4294967295).
Proof.
  intros Hc.
  destruct (Hc (program_of caps_ex) eq_refl) as (pre & cm & Hcm & Hp & Hm).
  assert (Ecm : cm = stage_of (FS.Commit caps_ex)).
  { vm_compute in Hcm. injection Hcm as <-. reflexivity. }
  subst cm.
  assert (Epre : pre = firstn 8 (program_of caps_ex)).
  { apply (app_inv_tail
             (stage_of (FS.Commit caps_ex)
              ++ [EndInvocationInterlock;
                  AssignF4 FS.outputColor (xyzw FS.dstColor)])).
    rewrite <- Hp. vm_compute. reflexivity. }
  subst pre.
  assert (E := f_equal (fun m : Z -> Z => m 0) Hm).
  vm_compute in E. discriminate E.
Qed.

Lemma commit_only_if_depth_test_passes_witness :
  program (CreateFragmentShader caps_blend) = Some (program_of caps_blend) /\
  let st := run (ctx_ex 4294967295 255 128) (program_of caps_blend)
                (st_ex 4278255360) in
  mem st 0 = 4278190335 /\ mem st 1000000 = 4278190080.
Proof.
  split; [reflexivity|].
  destruct (commit_only_if_depth_test_passes (P := ReferencePlatform) caps_blend
              (program_of caps_blend) (ctx_ex 4294967295 255 128)
              (st_ex 4278255360) eq_refl)
    as ((pre & cm & Hcm & Hp & _ & _ & _ & Hm) & _).
  cbv zeta. rewrite Hm.
  assert (Ecm : cm = stage_of (FS.Commit caps_blend)).
  { vm_compute in Hcm. injection Hcm as <-. reflexivity. }
  subst cm.
  assert (Epre : pre = firstn 10 (program_of caps_blend)).
  { apply (app_inv_tail
             (stage_of (FS.Commit caps_blend)
              ++ [EndInvocationInterlock;
                  AssignF4 FS.outputColor (xyzw FS.dstColor)])).
    rewrite <- Hp. vm_compute. reflexivity. }
  subst pre. vm_compute. split; reflexivity.
Defined.

Lemma blending_formula_witness :
  program (CreateFragmentShader caps_blend) = Some (program_of caps_blend) /\
  hasAlphaBlending caps_blend = true /\
  let ctx1 := ctx_ex 4294967295 255 128 in
  let st0 := st_ex 4278255360 in
  exists pre bl post,
    FS.Blend caps_blend = Some (tt, bl) /\
    program_of caps_blend = pre ++ bl ++ post /\
    forall c,
      vF (run ctx1 (program_of caps_blend) st0) FS.outputColor c
      = blend_result caps_blend
          (vF (run ctx1 pre st0) FS.textureColor)
          (vF (run ctx1 pre st0) FS.dstColor) (alphaFix_of ctx1) c.
Proof.
  split; [reflexivity|]. split; [reflexivity|].
  destruct (blending_formula (P := ReferencePlatform) caps_blend
              (program_of caps_blend) (ctx_ex 4294967295 255 128)
              (st_ex 4278255360) eq_refl eq_refl)
    as ((pre & bl & post & Hbl & Hp & _ & _ & _ & Ho & _) & _).
  exists pre, bl, post. split; [exact Hbl|]. split; [exact Hp | exact Ho].
Defined.


Lemma alpha_test_result_is_never_consumed_witness :
  program (CreateFragmentShader caps_tex) = Some (program_of caps_tex) /\
  let ctx1 := ctx_ex 4294967295 255 128 in
  let ctx2 := set_uniform alphaFbParams cz 7 ctx1 in
  mem (run ctx1 (program_of caps_tex) (st_ex 4278255360))
  = mem (run ctx2 (program_of caps_tex) (st_ex 4278255360)).
Proof.
  split; [reflexivity|].
  exact (proj1 (proj2
    (alpha_test_result_is_never_consumed (P := ReferencePlatform) caps_tex
       (program_of caps_tex) (ctx_ex 4294967295 255 128)
       (st_ex 4278255360) 7 eq_refl))).
Defined.


(* ================================================================== *)
(** * Batches, device objects and shader stages: results *)

(* ---------------- the vertex buffer ---------------- *)

(** X1.  [AddVertices] for a run of at most [MAX_VERTEX_COUNT] vertices
    that returns has copied the run, in order, into the vertex buffer of
    the current frame, into the slots just below the new end cursor, which
    stay inside the buffer; every other slot of that frame and every other
    frame are as before.  When the run fits behind the old end cursor the
    frame and the start cursor are unchanged and the copy starts at the
    old end. *)
Theorem AddVertices_copies_the_run
    (host : Z -> PRIM_VERTEX) (b e : Z) (d d' : CDraw)
    (Hrun : 0 <= e - b <= MAX_VERTEX_COUNT)
    (Hend : 0 <= m_passVertexEnd d)
    (H : AddVertices host b e d = Ok (tt, d')) :
  let frame := currentFrame (m_frameCommandBuffer d') in
  let first := m_passVertexEnd d' - (e - b) in
  0 <= first /\
  m_passVertexEnd d' <= MAX_VERTEX_COUNT /\
  (forall i, 0 <= i < e - b ->
     m_frames d' frame (first + i) = Some (host (b + i))) /\
  (forall j, ~ (first <= j < m_passVertexEnd d') ->
     m_frames d' frame j = m_frames d frame j) /\
  (forall f j, f <> frame -> m_frames d' f j = m_frames d f j) /\
  (m_passVertexEnd d + (e - b) <= MAX_VERTEX_COUNT ->
     frame = currentFrame (m_frameCommandBuffer d) /\
     first = m_passVertexEnd d /\
     m_passVertexStart d' = m_passVertexStart d).
Proof.
  pose proof MAX_VERTEX_COUNT_val as HM.
  assert (Happ : forall d0, 0 <= m_passVertexEnd d0 ->
            m_passVertexEnd d0 + (e - b) <= MAX_VERTEX_COUNT ->
            let d1 := appended host b e d0 in
            let frame := currentFrame (m_frameCommandBuffer d1) in
            let first := m_passVertexEnd d1 - (e - b) in
            frame = currentFrame (m_frameCommandBuffer d0) /\
            first = m_passVertexEnd d0 /\
            m_passVertexStart d1 = m_passVertexStart d0 /\
            m_passVertexEnd d1 <= MAX_VERTEX_COUNT /\
            (forall i, 0 <= i < e - b ->
               m_frames d1 frame (first + i) = Some (host (b + i))) /\
            (forall j, ~ (first <= j < m_passVertexEnd d1) ->
               m_frames d1 frame j = m_frames d0 frame j) /\
            (forall f j, f <> frame -> m_frames d1 f j = m_frames d0 f j)).
  { intros d0 H0 Hfit. cbv zeta.
    assert (Ee : m_passVertexEnd (appended host b e d0)
                 = m_passVertexEnd d0 + (e - b)).
    { unfold appended. cbn. apply wrapU_small. lia. }
    assert (Ef : currentFrame (m_frameCommandBuffer (appended host b e d0))
                 = currentFrame (m_frameCommandBuffer d0)) by reflexivity.
    rewrite Ee, Ef.
    replace (m_passVertexEnd d0 + (e - b) - (e - b))
      with (m_passVertexEnd d0) by lia.
    split; [reflexivity|]. split; [reflexivity|]. split; [reflexivity|].
    split; [lia|].
    unfold appended. cbn. rewrite Z.eqb_refl. unfold memcpy.
    split; [|split].
    - intros i Hi.
      replace ((m_passVertexEnd d0 <=? m_passVertexEnd d0 + i)
               && (m_passVertexEnd d0 + i <? m_passVertexEnd d0 + (e - b)))
        with true.
      + f_equal. f_equal. lia.
      + symmetry. apply andb_true_iff. split;
          [apply Z.leb_le | apply Z.ltb_lt]; lia.
    - intros j Hj.
      destruct ((m_passVertexEnd d0 <=? j)
                && (j <? m_passVertexEnd d0 + (e - b))) eqn:E;
        [|reflexivity].
      apply andb_true_iff in E. destruct E as [E1 E2].
      apply Z.leb_le in E1. apply Z.ltb_lt in E2. lia.
    - intros f j Hf.
      destruct (f =? currentFrame (m_frameCommandBuffer d0)) eqn:E;
        [apply Z.eqb_eq in E; contradiction | reflexivity]. }
  cbv zeta.
  destruct (Z_le_gt_dec (m_passVertexEnd d + (e - b)) MAX_VERTEX_COUNT)
    as [Hfit | Hfull].
  - rewrite (AddVertices_fits host b e d Hfit) in H. inversion H. subst d'.
    destruct (Happ d Hend Hfit) as (A1 & A2 & A3 & A4 & A5 & A6 & A7).
    rewrite A2. split; [assumption|]. split; [assumption|].
    rewrite <- A2. split; [assumption|]. split; [assumption|].
    split; [assumption|]. intros _. auto.
  - rewrite (AddVertices_full host b e d Hfull) in H.
    destruct (FrameCommandBuffer_Flush d) as [[[] d1]|] eqn:EF;
      [|discriminate].
    pose proof (Flush_facts _ _ EF) as (_ & S0 & E0).
    pose proof (Flush_Ok _ _ EF) as (dF & HF & Ed1).
    pose proof (FlushVertices_Ok _ _ HF) as (_ & _ & _ & Fr & _).
    destruct (m_passVertexEnd d1 + (e - b) <=? MAX_VERTEX_COUNT) eqn:El;
      [|discriminate].
    inversion H. subst d'. apply Z.leb_le in El.
    assert (H1 : 0 <= m_passVertexEnd d1) by lia.
    destruct (Happ d1 H1 El) as (A1 & A2 & A3 & A4 & A5 & A6 & A7).
    assert (Em : m_frames d1 = m_frames d).
    { rewrite Ed1. cbn. exact Fr. }
    rewrite A2. split; [lia|]. split; [assumption|].
    rewrite <- A2. split; [assumption|].
    split; [intros j Hj; rewrite (A6 j Hj), Em; reflexivity|].
    split; [intros f j Hf; rewrite (A7 f j Hf), Em; reflexivity|].
    intros Hc. lia.
Qed.

(* ---------------- what the draws cover ---------------- *)

Lemma drawn_app l1 l2 : drawn (l1 ++ l2) = drawn l1 + drawn l2.
Proof.
  induction l1 as [|c l1 IH]; [reflexivity|].
  destruct c; cbn; rewrite ?IH; lia.
Qed.

Lemma batch_bounds_vertexCount d :
  batch_bounds d -> vertexCount d = m_passVertexEnd d - m_passVertexStart d.
Proof.
  intros (H1 & H2). pose proof MAX_VERTEX_COUNT_val.
  unfold vertexCount. apply wrapU_small. lia.
Qed.

Lemma FlushVertices_accounts d d' :
  batch_bounds d -> FlushVertices d = Ok (tt, d') ->
  batch_bounds d' /\ accounted d' = accounted d /\
  m_passVertexStart d' = m_passVertexEnd d'.
Proof.
  intros Hb H.
  pose proof (batch_bounds_vertexCount d Hb) as Hv.
  apply FlushVertices_Ok in H.
  destruct H as (_ & _ & He & _ & _ & _ & Hs & [[Hz ->] | (_ & _ & Hst & p & ds & Hc)]).
  - split; [exact Hb|]. split; [reflexivity|]. cbn. lia.
  - destruct Hb as (B1 & B2).
    split; [unfold batch_bounds; rewrite He, Hst; lia|].
    split; [|congruence].
    unfold accounted, recorded. rewrite Hs, Hc, He, Hst.
    rewrite !drawn_app. unfold draw_commands. cbn [drawn]. lia.
Qed.

Lemma Flush_accounts d d' :
  batch_bounds d -> FrameCommandBuffer_Flush d = Ok (tt, d') ->
  batch_bounds d' /\ accounted d' = accounted d.
Proof.
  intros Hb H. pose proof MAX_VERTEX_COUNT_val.
  apply Flush_Ok in H. destruct H as (d1 & H1 & ->).
  destruct (FlushVertices_accounts _ _ Hb H1) as (B1 & A1 & E1).
  split; [unfold batch_bounds; cbn; lia|].
  rewrite <- A1. unfold accounted.
  change (recorded (set_passVertexStart 0 (set_passVertexEnd 0
            (set_frameCommandBuffer (submit (m_frameCommandBuffer d1)) d1))))
    with (recorded (set_frameCommandBuffer
                      (submit (m_frameCommandBuffer d1)) d1)).
  rewrite recorded_submit. cbn. lia.
Qed.

Lemma appended_accounts host b e d :
  batch_bounds d -> 0 <= e - b ->
  m_passVertexEnd d + (e - b) <= MAX_VERTEX_COUNT ->
  batch_bounds (appended host b e d) /\
  accounted (appended host b e d) = accounted d + (e - b).
Proof.
  intros (B1 & B2) Hr Hfit. pose proof MAX_VERTEX_COUNT_val.
  assert (Ee : m_passVertexEnd (appended host b e d)
               = m_passVertexEnd d + (e - b)).
  { unfold appended. cbn. apply wrapU_small. lia. }
  split.
  - unfold batch_bounds. rewrite Ee.
    change (m_passVertexStart (appended host b e d))
      with (m_passVertexStart d). lia.
  - unfold accounted. rewrite Ee.
    change (m_passVertexStart (appended host b e d))
      with (m_passVertexStart d).
    change (recorded (appended host b e d)) with (recorded d). lia.
Qed.

Lemma call_accounts c d d' :
  batch_bounds d -> run_fits c -> call c d = Ok (tt, d') ->
  batch_bounds d' /\ accounted d' = accounted d + added c.
Proof.
  intros Hb Hr H.
  destruct (is_setter c) eqn:Hs.
  - rewrite (setter_spec c d Hs) in H.
    assert (Ha : added c = 0) by (destruct c; try discriminate; reflexivity).
    rewrite Ha, Z.add_0_r.
    destruct (is_change c (committed d)).
    + apply mbind_Ok in H. destruct H as ([] & d1 & H1 & H).
      inversion H. subst d'. clear H.
      destruct (FlushVertices_accounts _ _ Hb H1) as (B1 & A1 & _).
      destruct (commit_keeps_batch c d1) as (_ & K1 & K2 & K3).
      split.
      * unfold batch_bounds. rewrite K1, K2. exact B1.
      * rewrite <- A1. unfold accounted, recorded. rewrite K1, K2, K3.
        reflexivity.
    + inversion H. subst d'. split; [assumption | reflexivity].
  - destruct c; try discriminate; cbn [call added run_fits] in *.
    + (* AddVertices *)
      destruct (Z_le_gt_dec (m_passVertexEnd d
                             + (vertexEndPtr - vertexBeginPtr))
                            MAX_VERTEX_COUNT) as [Hfit | Hfull].
      * rewrite (AddVertices_fits _ _ _ d Hfit) in H. inversion H. subst d'.
        apply appended_accounts; [assumption | lia | assumption].
      * rewrite (AddVertices_full _ _ _ d Hfull) in H.
        destruct (FrameCommandBuffer_Flush d) as [[[] d1]|] eqn:EF;
          [|discriminate].
        destruct (Flush_accounts _ _ Hb EF) as (B1 & A1).
        destruct (m_passVertexEnd d1 + (vertexEndPtr - vertexBeginPtr)
                  <=? MAX_VERTEX_COUNT) eqn:El; [|discriminate].
        inversion H. subst d'. apply Z.leb_le in El. rewrite <- A1.
        apply appended_accounts; [assumption | lia | assumption].
    + destruct (FlushVertices_accounts _ _ Hb H) as (B1 & A1 & _).
      split; [assumption | lia].
    + destruct (Flush_accounts _ _ Hb H) as (B1 & A1).
      split; [assumption | lia].
Qed.

Lemma tiles_app frame l1 : forall bound next l2,
  tiles frame bound next (l1 ++ l2)
  = match tiles frame bound next l1 with
    | Some k => tiles frame (bound_after bound l1) k l2
    | None => None
    end.
Proof.
  induction l1 as [|c l1 IH]; intros bound next l2; [reflexivity|].
  destruct c; cbn [app tiles bound_after]; try apply IH.
  destruct bound as [[f offset]|]; [|reflexivity].
  destruct ((f =? frame) && (offset =? next * sizeof_PRIM_VERTEX));
    [apply IH | reflexivity].
Qed.

Lemma tiles_draw_commands d p descriptorSet bound :
  tiles (currentFrame (m_frameCommandBuffer d)) bound (m_passVertexStart d)
        (draw_commands d p descriptorSet)
  = Some (m_passVertexStart d + vertexCount d).
Proof.
  unfold draw_commands. cbn [tiles]. rewrite !Z.eqb_refl. reflexivity.
Qed.

Lemma FlushVertices_tiles d d' :
  batch_bounds d -> tiled d -> FlushVertices d = Ok (tt, d') -> tiled d'.
Proof.
  intros Hb (T1 & T2) H.
  pose proof (batch_bounds_vertexCount d Hb) as Hv.
  apply FlushVertices_Ok in H.
  destruct H as (_ & _ & He & _ & Hf & _ & Hs
                 & [[Hz ->] | (_ & _ & Hst & p & ds & Hc)]).
  - split; assumption.
  - unfold tiled. rewrite Hf, Hs, Hc, Hst. split; [|exact T2].
    rewrite tiles_app, T1, tiles_draw_commands, Hv. f_equal. lia.
Qed.

Lemma Flush_tiles d d' :
  batch_bounds d -> tiled d -> FrameCommandBuffer_Flush d = Ok (tt, d') ->
  tiled d'.
Proof.
  intros Hb Ht H.
  apply Flush_Ok in H. destruct H as (d1 & H1 & ->).
  destruct (FlushVertices_tiles _ _ Hb Ht H1) as (T1 & T2).
  unfold tiled.
  cbn [m_frameCommandBuffer m_passVertexStart set_passVertexStart
       set_passVertexEnd set_frameCommandBuffer submit currentFrame
       commandBuffer submitted tiles].
  split; [reflexivity|].
  apply Forall_app. split; [exact T2|].
  constructor; [|constructor]. eauto.
Qed.

Lemma call_tiles c d d' :
  batch_bounds d -> tiled d -> call c d = Ok (tt, d') -> tiled d'.
Proof.
  intros Hb Ht H.
  destruct (is_setter c) eqn:Hs.
  - rewrite (setter_spec c d Hs) in H.
    destruct (is_change c (committed d)).
    + apply mbind_Ok in H. destruct H as ([] & d1 & H1 & H).
      inversion H. subst d'. clear H.
      pose proof (FlushVertices_tiles _ _ Hb Ht H1) as T1.
      destruct (commit_keeps_batch c d1) as (_ & K1 & _ & K3).
      unfold tiled. rewrite K1, K3. exact T1.
    + inversion H. subst d'. assumption.
  - destruct c; try discriminate; cbn [call] in H.
    + (* AddVertices *)
      destruct (Z_le_gt_dec (m_passVertexEnd d
                             + (vertexEndPtr - vertexBeginPtr))
                            MAX_VERTEX_COUNT) as [Hfit | Hfull].
      * rewrite (AddVertices_fits _ _ _ d Hfit) in H. inversion H. subst d'.
        exact Ht.
      * rewrite (AddVertices_full _ _ _ d Hfull) in H.
        destruct (FrameCommandBuffer_Flush d) as [[[] d1]|] eqn:EF;
          [|discriminate].
        pose proof (Flush_tiles _ _ Hb Ht EF) as T1.
        destruct (m_passVertexEnd d1 + (vertexEndPtr - vertexBeginPtr)
                  <=? MAX_VERTEX_COUNT); [|discriminate].
        inversion H. subst d'. exact T1.
    + exact (FlushVertices_tiles _ _ Hb Ht H).
    + exact (Flush_tiles _ _ Hb Ht H).
Qed.

(** X2.  Over any sequence of setter, [AddVertices], [FlushVertices] and
    frame-flush calls that returns, with every run at most
    [MAX_VERTEX_COUNT] long: the draws recorded for the open frame read
    the vertex buffer of that frame in consecutive slot ranges, the first
    from slot zero, each next one from where the last ended, the last one
    ending at the start cursor, so that no slot is read by two draws and
    none below the start cursor is left out; the draws of every submitted
    frame cover the first slots of one vertex buffer in the same way; the
    cursors stay ordered and inside the vertex buffer; and the vertex
    counts of all recorded draws plus the open batch grow by exactly the
    lengths of the runs handed to [AddVertices]. *)
Theorem draws_tile_the_vertex_buffer (cs : list Call) (d d' : CDraw)
    (Hb : batch_bounds d)
    (Ht : tiled d)
    (Hr : Forall run_fits cs)
    (H : calls cs d = Ok (tt, d')) :
  batch_bounds d' /\
  tiles (currentFrame (m_frameCommandBuffer d')) None 0
        (commandBuffer (m_frameCommandBuffer d'))
  = Some (m_passVertexStart d') /\
  Forall (fun cmds => exists frame k, tiles frame None 0 cmds = Some k)
         (submitted (m_frameCommandBuffer d')) /\
  drawn (recorded d') + (m_passVertexEnd d' - m_passVertexStart d')
  = drawn (recorded d) + (m_passVertexEnd d - m_passVertexStart d)
    + fold_right (fun c n => added c + n) 0 cs.
Proof.
  revert d Hb Ht H. induction Hr as [|c cs Hc Hcs IH]; intros d Hb Ht H.
  - inversion H. subst d'. destruct Ht as (T1 & T2). cbn.
    split; [assumption|]. split; [assumption|]. split; [assumption | lia].
  - cbn [calls] in H. apply mbind_Ok in H.
    destruct H as ([] & d1 & H1 & H).
    destruct (call_accounts c d d1 Hb Hc H1) as (B1 & A1).
    pose proof (call_tiles c d d1 Hb Ht H1) as T1.
    destruct (IH d1 B1 T1 H) as (B2 & T2 & T3 & A2).
    split; [assumption|]. split; [assumption|]. split; [assumption|].
    unfold accounted in A1. cbn [fold_right]. lia.
Qed.

(* ---------------- what a flush records ---------------- *)

(** X3.  A [FlushVertices] on a batch that is not empty, when it returns,
    has appended one draw to the command buffer: viewport, scissor, render
    pass, descriptor set, pipeline, vertex buffer at the offset of the
    start cursor, push constants, a draw of the whole batch and the end of
    the render pass.  The pipeline and the descriptor set are the ones the
    caches now hold for the committed descriptor and its descriptor-set
    key.  The committed state, the vertex buffers and the end cursor are
    unchanged, the start cursor is the end cursor, and a second flush
    right after draws nothing. *)
Theorem FlushVertices_draws_the_batch (d d' : CDraw)
    (Hn : vertexCount d <> 0)
    (H : FlushVertices d = Ok (tt, d')) :
  exists p descriptorSet,
    cache_find PIPELINE_CAPS_eq_dec (m_pipelineCaps d) (m_pipelineCache d')
    = Some p /\
    cache_find DESCRIPTORSET_CAPS_eq_dec
               (descriptorSetCaps_of (m_pipelineCaps d))
               (m_descriptorSetCache d')
    = Some descriptorSet /\
    commandBuffer (m_frameCommandBuffer d')
    = commandBuffer (m_frameCommandBuffer d)
      ++ draw_commands d p descriptorSet /\
    vertexCount d mod 3 = 0 /\
    committed d' = committed d /\
    m_frames d' = m_frames d /\
    m_passVertexEnd d' = m_passVertexEnd d /\
    m_passVertexStart d' = m_passVertexEnd d /\
    FlushVertices d' = Ok (tt, count_flush d').
Proof.
  pose proof (FlushVertices_Ok _ _ H)
    as (_ & Hc & He & Hf & _ & _ & _ & [[Hz _] | (_ & H3 & Hs & _)]);
    [contradiction|].
  unfold FlushVertices in H.
  apply mbind_Ok in H. destruct H as (? & d0 & H0 & H).
  inversion H0. subst d0. clear H0.
  apply mbind_Ok in H. destruct H as (? & d0 & H0 & H).
  inversion H0. subst. clear H0.
  change (wrapU (m_passVertexEnd (count_flush d)
                 - m_passVertexStart (count_flush d)))
    with (vertexCount d) in H.
  destruct (vertexCount d =? 0) eqn:E0;
    [apply Z.eqb_eq in E0; contradiction|].
  change (m_pipelineCaps (count_flush d)) with (m_pipelineCaps d) in H.
  apply mbind_Ok in H. destruct H as (p & d1 & H1 & H).
  pose proof (ResolvePipeline_Ok _ _ _ _ H1) as P1.
  apply ResolvePipeline_keeps in H1. unfold keeps in H1.
  apply mbind_Ok in H. destruct H as (? & d2 & H2 & H). apply record_Ok in H2.
  apply mbind_Ok in H. destruct H as (? & d3 & H3' & H). apply record_Ok in H3'.
  apply mbind_Ok in H. destruct H as (? & d4 & H4 & H). apply record_Ok in H4.
  apply mbind_Ok in H. destruct H as (ds & d5 & H5 & H).
  pose proof (PrepareDescriptorSet_Ok _ _ _ _ _ H5) as S5.
  apply PrepareDescriptorSet_keeps in H5. unfold keeps in H5.
  apply mbind_Ok in H. destruct H as (? & d6 & H6 & H). apply record_Ok in H6.
  apply mbind_Ok in H. destruct H as (? & d7 & H7 & H). apply record_Ok in H7.
  apply mbind_Ok in H. destruct H as (? & d8 & H8 & H). apply record_Ok in H8.
  apply mbind_Ok in H. destruct H as (? & d9 & H9 & H). apply record_Ok in H9.
  apply mbind_Ok in H. destruct H as (? & d10 & H10 & H).
  apply massert_Ok in H10. destruct H10 as (_ & ->).
  apply mbind_Ok in H. destruct H as (? & d11 & H11 & H). apply record_Ok in H11.
  apply mbind_Ok in H. destruct H as (? & d12 & H12 & H). apply record_Ok in H12.
  inversion H. subst d'. clear H.
  destruct H2 as (_ & C2 & P2 & S2 & _). destruct H3' as (_ & C3 & P3 & S3 & _).
  destruct H4 as (_ & C4 & P4 & S4 & _). destruct H6 as (_ & C6 & P6 & S6 & _).
  destruct H7 as (_ & C7 & P7 & S7 & _). destruct H8 as (_ & C8 & P8 & S8 & _).
  destruct H9 as (_ & C9 & P9 & S9 & _). destruct H11 as (_ & C11 & P11 & S11 & _).
  destruct H12 as (_ & C12 & P12 & S12 & _).
  exists p, ds.
  assert (EP : m_pipelineCache d12 = m_pipelineCache d1).
  { rewrite P12, P11, P9, P8, P7, P6.
    transitivity (m_pipelineCache d4); [congruence|].
    rewrite P4, P3, P2. reflexivity. }
  assert (ES : m_descriptorSetCache d12 = m_descriptorSetCache d5).
  { rewrite S12, S11, S9, S8, S7, S6. reflexivity. }
  assert (C : commandBuffer (m_frameCommandBuffer d12)
              = commandBuffer (m_frameCommandBuffer d)
                ++ draw_commands d p ds).
  { rewrite C12, C11, C9, C8, C7, C6.
    replace (commandBuffer (m_frameCommandBuffer d5))
      with (commandBuffer (m_frameCommandBuffer d4)) by congruence.
    rewrite C4, C3, C2.
    replace (commandBuffer (m_frameCommandBuffer d1))
      with (commandBuffer (m_frameCommandBuffer d))
      by (symmetry; injection H1; intros; assumption).
    unfold draw_commands. repeat rewrite <- app_assoc. reflexivity. }
  cbn [m_pipelineCache m_descriptorSetCache set_passVertexStart
       m_frameCommandBuffer].
  rewrite EP, ES.
  split; [exact P1|]. split; [exact S5|]. split; [exact C|].
  split; [exact H3|]. split; [exact Hc|]. split; [exact Hf|].
  split; [exact He|]. split; [exact Hs|].
  apply FlushVertices_empty. unfold vertexCount. rewrite Hs, He.
  rewrite Z.sub_diag. reflexivity.
Qed.

(* ---------------- how a flush ends ---------------- *)

Lemma CreateVertexShader_program : program CreateVertexShader <> None.
Proof. vm_compute. discriminate. Qed.

Lemma device_advances_refl d : device_advances d d.
Proof. split; [lia | reflexivity]. Qed.

Lemma device_advances_trans a b c :
  device_advances a b -> device_advances b c -> device_advances a c.
Proof. intros (H1 & H2) (H3 & H4). split; [lia | congruence]. Qed.

Lemma device_fails_back d d' :
  device_advances d d' -> device_fails d' -> device_fails d.
Proof.
  intros (H1 & H2) (h & o & H3 & H4). exists h, o. split; [lia|].
  rewrite <- H2. exact H4.
Qed.

Lemma device_create_advances o : stable device_advances (device_create o).
Proof.
  intros d h d' H. unfold device_create, vkCreate in H.
  destruct (vkResult (m_context d) (nextHandle (m_context d)) o);
    [|discriminate].
  inversion H. split; cbn; [lia | reflexivity].
Qed.

Lemma device_create_fails o : creation_fails (device_create o).
Proof.
  intros d H. unfold device_create, vkCreate in H.
  destruct (vkResult (m_context d) (nextHandle (m_context d)) o) eqn:E;
    [discriminate|].
  exists (nextHandle (m_context d)), o. split; [lia | exact E].
Qed.

Lemma creation_fails_bind {A B} (m : M A) (k : A -> M B) :
  creation_fails m -> stable device_advances m ->
  (forall a, creation_fails (k a)) -> creation_fails (mbind m k).
Proof.
  intros Hm Sm Hk d H. apply mbind_Abort in H.
  destruct H as [H | (a & d' & H1 & H)]; [exact (Hm d H)|].
  apply (device_fails_back d d' (Sm d a d' H1)). exact (Hk a d' H).
Qed.

Lemma creation_fails_pure {A} (m : M A) :
  (forall d, m d <> Abort VulkanError) -> creation_fails m.
Proof. intros H d E. destruct (H d E). Qed.

Ltac advances_tac := split; cbn; [lia | reflexivity].

Ltac advances_auto :=
  pose proof device_advances_refl; pose proof device_advances_trans;
  repeat first [ apply device_create_advances | stable_step advances_tac ].

Lemma CreateDrawPipeline_advances caps :
  stable device_advances (CreateDrawPipeline caps).
Proof. unfold CreateDrawPipeline. advances_auto. Qed.

Lemma ResolvePipeline_advances caps :
  stable device_advances (ResolvePipeline caps).
Proof.
  unfold ResolvePipeline, TryGetPipeline, CreateDrawPipeline, RegisterPipeline.
  advances_auto.
Qed.

Lemma PrepareDescriptorSet_advances l caps :
  stable device_advances (PrepareDescriptorSet l caps).
Proof. unfold PrepareDescriptorSet. advances_auto. Qed.

Lemma record_advances c : stable device_advances (record c).
Proof. advances_auto. Qed.

Ltac creation_step :=
  match goal with
  | |- creation_fails (mbind _ _) =>
      apply creation_fails_bind; [ | | intros ? ]
  | |- creation_fails (device_create _) => apply device_create_fails
  | |- stable device_advances (device_create _) =>
      apply device_create_advances
  | |- stable device_advances _ => solve [advances_auto]
  | |- creation_fails (shaderModule _) => unfold shaderModule
  | |- creation_fails (match ?x with _ => _ end) => destruct x
  | |- creation_fails (if ?x then _ else _) => destruct x
  | |- creation_fails _ =>
      apply creation_fails_pure; intros ?; discriminate
  end.

Lemma ResolvePipeline_creation caps : creation_fails (ResolvePipeline caps).
Proof.
  unfold ResolvePipeline, TryGetPipeline, CreateDrawPipeline, RegisterPipeline.
  repeat creation_step.
Qed.

Lemma PrepareDescriptorSet_creation l caps :
  creation_fails (PrepareDescriptorSet l caps).
Proof. unfold PrepareDescriptorSet. repeat creation_step. Qed.

Lemma FlushVertices_creation : creation_fails FlushVertices.
Proof.
  pose proof ResolvePipeline_creation as HR.
  pose proof PrepareDescriptorSet_creation as HP.
  pose proof ResolvePipeline_advances as SR.
  pose proof PrepareDescriptorSet_advances as SP.
  unfold FlushVertices.
  repeat first
    [ apply HR | apply HP | apply SR | apply SP
    | match goal with
      | |- creation_fails (massert ?c _) =>
          apply creation_fails_pure; intros ?; unfold massert;
          destruct c; discriminate
      | |- creation_fails (record _) =>
          apply creation_fails_pure; intros ?; discriminate
      end
    | creation_step ].
Qed.

Lemma CreateDrawPipeline_Abort caps d e :
  CreateDrawPipeline caps d = Abort e ->
  e = VulkanError \/
  e = ShaderAssertion /\ program (CreateFragmentShader caps) = None.
Proof.
  revert d e. unfold CreateDrawPipeline, shaderModule.
  destruct (program CreateVertexShader) eqn:EV;
    [|destruct (CreateVertexShader_program EV)].
  destruct (program (CreateFragmentShader caps)) eqn:EF.
  - refine (_ : fails_in (fun e => e = VulkanError \/ _) _).
    repeat fails_step; auto.
  - refine (_ : fails_in (fun e => e = VulkanError
                                   \/ e = ShaderAssertion /\ None = None) _).
    repeat fails_step; auto.
Qed.

Lemma CreateDrawPipeline_program caps d p d' :
  CreateDrawPipeline caps d = Ok (p, d') ->
  program (CreateFragmentShader caps) <> None.
Proof.
  intros H N. unfold CreateDrawPipeline, shaderModule, mbind in H.
  destruct (program CreateVertexShader); [|discriminate].
  destruct (device_create _ d) as [[h0 d0]|]; [|discriminate].
  rewrite N in H. discriminate.
Qed.

Lemma ResolvePipeline_outcome caps d :
  match ResolvePipeline caps d with
  | Ok _ => obtainable caps d
  | Abort e =>
      cache_find PIPELINE_CAPS_eq_dec caps (m_pipelineCache d) = None /\
      (e = VulkanError \/ e = ShaderAssertion /\ ~ obtainable caps d)
  end.
Proof.
  unfold ResolvePipeline, TryGetPipeline, obtainable, mbind, get, mret.
  destruct (cache_find PIPELINE_CAPS_eq_dec caps (m_pipelineCache d)) eqn:E.
  - left. discriminate.
  - destruct (CreateDrawPipeline caps d) as [[p d']|e] eqn:EC.
    + cbn. right. exact (CreateDrawPipeline_program _ _ _ _ EC).
    + split; [reflexivity|].
      destruct (CreateDrawPipeline_Abort _ _ _ EC) as [-> | (-> & N)];
        [left; reflexivity|].
      right. split; [reflexivity|].
      intros [M|M]; apply M; [reflexivity | exact N].
Qed.

Lemma PrepareDescriptorSet_outcome l caps d :
  match PrepareDescriptorSet l caps d with
  | Ok _ => True
  | Abort e =>
      e = VulkanError /\
      cache_find DESCRIPTORSET_CAPS_eq_dec caps (m_descriptorSetCache d)
      = None
  end.
Proof.
  destruct (PrepareDescriptorSet l caps d) as [[s d']|e] eqn:H; [exact I|].
  split; [exact (PrepareDescriptorSet_fails _ _ _ _ H)|].
  destruct (cache_find DESCRIPTORSET_CAPS_eq_dec caps
                       (m_descriptorSetCache d)) eqn:E; [|reflexivity].
  rewrite (PrepareDescriptorSet_hit l caps d z E) in H. discriminate.
Qed.

(** X4.  Every way [FlushVertices] ends has its cause.  It returns only
    when the batch is empty, or its vertex count is a multiple of three
    and a pipeline for the committed descriptor is cached or can be
    generated.  It stops at the shader assertion only when the batch is
    not empty and no pipeline can be had; at the multiple-of-three
    assertion only when a pipeline can be had and the count is not a
    multiple of three; at a failed creation call only when the batch is
    not empty, the pipeline or the descriptor set is not cached, and the
    device fails one of the creation calls it has yet to serve; and never
    at the capacity assertion.  On a device that fails no creation call
    the converse holds too: each of the first three ends occurs exactly
    under its condition. *)
Theorem FlushVertices_outcome (d : CDraw) :
  match FlushVertices d with
  | Ok _ =>
      vertexCount d = 0 \/
      (vertexCount d mod 3 = 0 /\ obtainable (m_pipelineCaps d) d)
  | Abort ShaderAssertion =>
      vertexCount d <> 0 /\ ~ obtainable (m_pipelineCaps d) d
  | Abort TriangleListAssertion =>
      vertexCount d <> 0 /\ obtainable (m_pipelineCaps d) d /\
      vertexCount d mod 3 <> 0
  | Abort VulkanError =>
      vertexCount d <> 0 /\ creates d /\ device_fails d
  | Abort BatchCapacityAssertion => False
  end /\
  (~ device_fails d ->
   (vertexCount d = 0 \/
    (vertexCount d mod 3 = 0 /\ obtainable (m_pipelineCaps d) d) ->
    exists d', FlushVertices d = Ok (tt, d')) /\
   (vertexCount d <> 0 /\ ~ obtainable (m_pipelineCaps d) d ->
    FlushVertices d = Abort ShaderAssertion) /\
   (vertexCount d <> 0 /\ obtainable (m_pipelineCaps d) d /\
    vertexCount d mod 3 <> 0 ->
    FlushVertices d = Abort TriangleListAssertion)).
Proof.
  assert (M : match FlushVertices d with
    | Ok _ =>
        vertexCount d = 0 \/
        (vertexCount d mod 3 = 0 /\ obtainable (m_pipelineCaps d) d)
    | Abort ShaderAssertion =>
        vertexCount d <> 0 /\ ~ obtainable (m_pipelineCaps d) d
    | Abort TriangleListAssertion =>
        vertexCount d <> 0 /\ obtainable (m_pipelineCaps d) d /\
        vertexCount d mod 3 <> 0
    | Abort VulkanError =>
        vertexCount d <> 0 /\ creates d /\ device_fails d
    | Abort BatchCapacityAssertion => False
    end).
  { destruct (Z.eq_dec (vertexCount d) 0) as [E|E].
    { rewrite (FlushVertices_empty d E). left. assumption. }
    pose proof (ResolvePipeline_outcome (m_pipelineCaps d) (count_flush d))
      as R.
    change (obtainable (m_pipelineCaps d) (count_flush d))
      with (obtainable (m_pipelineCaps d) d) in R.
    change (m_pipelineCache (count_flush d)) with (m_pipelineCache d) in R.
    destruct (FlushVertices d) as [[[] d']|e] eqn:H.
    - right.
      pose proof (FlushVertices_Ok _ _ H)
        as (_ & _ & _ & _ & _ & _ & _ & [[Hz _] | (_ & H3 & _)]);
        [contradiction|].
      split; [assumption|].
      unfold FlushVertices in H.
      apply mbind_Ok in H. destruct H as (? & d0 & H0 & H).
      inversion H0. subst d0. clear H0.
      apply mbind_Ok in H. destruct H as (? & d0 & H0 & H).
      inversion H0. subst. clear H0.
      change (wrapU (m_passVertexEnd (count_flush d)
                     - m_passVertexStart (count_flush d)))
        with (vertexCount d) in H.
      destruct (vertexCount d =? 0) eqn:E0;
        [apply Z.eqb_eq in E0; contradiction|].
      change (m_pipelineCaps (count_flush d)) with (m_pipelineCaps d) in H.
      apply mbind_Ok in H. destruct H as (p & d1 & H1 & _).
      rewrite H1 in R. exact R.
    - pose proof (FlushVertices_creation d) as HC. pose proof H as HF.
      unfold FlushVertices in H.
      apply mbind_Abort in H.
      destruct H as [H | (? & d0 & H0 & H)]; [discriminate|].
      inversion H0. subst d0. clear H0.
      apply mbind_Abort in H.
      destruct H as [H | (? & d0 & H0 & H)]; [discriminate|].
      inversion H0. subst. clear H0.
      change (wrapU (m_passVertexEnd (count_flush d)
                     - m_passVertexStart (count_flush d)))
        with (vertexCount d) in H.
      destruct (vertexCount d =? 0) eqn:E0;
        [apply Z.eqb_eq in E0; contradiction|].
      change (m_pipelineCaps (count_flush d)) with (m_pipelineCaps d) in H.
      apply mbind_Abort in H. destruct H as [H | (p & d1 & H1 & H)].
      { rewrite H in R. destruct R as (Miss & [-> | (-> & R)]).
        - split; [assumption|]. split; [left; exact Miss|].
          apply HC. exact HF.
        - split; assumption. }
      rewrite H1 in R.
      apply ResolvePipeline_keeps in H1. unfold keeps in H1.
      apply mbind_Abort in H; destruct H as [H | (? & d2 & H2 & H)];
        [ destruct (record_fails _ _ _ H) | ]. apply record_Ok in H2.
      apply mbind_Abort in H; destruct H as [H | (? & d3 & H3 & H)];
        [ destruct (record_fails _ _ _ H) | ]. apply record_Ok in H3.
      apply mbind_Abort in H; destruct H as [H | (? & d4 & H4 & H)];
        [ destruct (record_fails _ _ _ H) | ]. apply record_Ok in H4.
      apply mbind_Abort in H. destruct H as [H | (? & ? & _ & H)].
      { pose proof (PrepareDescriptorSet_outcome
                      (descriptorSetLayout p)
                      (descriptorSetCaps_of (m_pipelineCaps d)) d4) as Q.
        change (descriptorSetCaps_of (m_pipelineCaps (count_flush d)))
          with (descriptorSetCaps_of (m_pipelineCaps d)) in H.
        rewrite H in Q. destruct Q as (-> & Miss).
        split; [assumption|]. split; [|apply HC; exact HF].
        right. rewrite <- Miss.
        destruct H2 as (_ & _ & _ & S2 & _).
        destruct H3 as (_ & _ & _ & S3 & _).
        destruct H4 as (_ & _ & _ & S4 & _).
        rewrite S4, S3, S2.
        assert (K : m_descriptorSetCache d1 = m_descriptorSetCache d)
          by (injection H1; intros; assumption).
        rewrite K. reflexivity. }
      do 4 (apply mbind_Abort in H; destruct H as [H | (? & ? & _ & H)];
            [ destruct (record_fails _ _ _ H) | ]).
      apply mbind_Abort in H. destruct H as [H | (? & ? & _ & H)].
      { unfold massert in H.
        destruct (vertexCount d mod 3 =? 0) eqn:E3; [discriminate|].
        inversion H. split; [assumption|]. split; [assumption|].
        apply Z.eqb_neq. assumption. }
      do 2 (apply mbind_Abort in H; destruct H as [H | (? & ? & _ & H)];
            [ destruct (record_fails _ _ _ H) | ]).
      discriminate. }
  split; [exact M|].
  intros Hd.
  destruct (FlushVertices d) as [[[] d']|[]];
    (split; [|split]); intros Hy;
    try (exists d'; reflexivity); try reflexivity; exfalso;
    repeat match goal with
    | H : _ /\ _ |- _ => destruct H
    | H : _ \/ _ |- _ => destruct H
    end;
    try contradiction; try tauto.
Qed.

(* ---------------- the descriptors the synthesizer accepts ---------------- *)

Lemma ok_bind {A B} (m : Gen A) (f : A -> Gen B) (b : bool) :
  (forall a, ok (f a) = b) ->
  ok (Nuanceur.bind m f) = ok m && b.
Proof.
  intros H. unfold Nuanceur.bind. destruct m as [[a l]|]; [|reflexivity].
  specialize (H a). cbn. destruct (f a) as [[b' l']|]; cbn in *; congruence.
Qed.

Lemma ok_seq {A B} (m : Gen A) (k : Gen B) :
  ok (Nuanceur.bind m (fun _ => k)) = ok m && ok k.
Proof. apply ok_bind. reflexivity. Qed.

Lemma ok_emit s : ok (emit s) = true.
Proof. reflexivity. Qed.

Lemma ok_program {A} (g : Gen A) : program g <> None <-> ok g = true.
Proof.
  destruct g as [[a l]|]; cbn; split; congruence.
Qed.

Lemma ok_ClampTexCoord m c s mn mx :
  ok (ClampTexCoord m c s mn mx) = clampMode_known m.
Proof. destruct m; reflexivity. Qed.

Lemma ok_GetTextureColor fmt clut pos img tbl a w csa :
  ok (GetTextureColor fmt clut pos img tbl a w csa)
  = texture_readable fmt clut.
Proof. destruct fmt; try reflexivity; destruct clut; reflexivity. Qed.

Lemma ok_ExpandAlpha fmt clut black v a0 a1 :
  ok (ExpandAlpha fmt clut black v a0 a1) = true.
Proof.
  unfold ExpandAlpha.
  destruct (negb _); [reflexivity|]. destruct black; reflexivity.
Qed.

Lemma ok_TextureStage caps :
  ok (FS.TextureStage caps)
  = if hasTexture caps
    then clampMode_known (texClampU caps)
         && clampMode_known (texClampV caps)
         && texture_readable (textureFormat caps) (clutFormat caps)
         && textureFunction_known (textureFunction caps)
    else true.
Proof.
  unfold FS.TextureStage. rewrite ok_seq, ok_emit. cbn [andb].
  destruct (hasTexture caps); [|reflexivity].
  rewrite (ok_bind _ _
             (clampMode_known (texClampV caps)
              && texture_readable (textureFormat caps) (clutFormat caps)
              && textureFunction_known (textureFunction caps))).
  - rewrite ok_ClampTexCoord, !andb_assoc. reflexivity.
  - intros u.
    rewrite (ok_bind _ _
               (texture_readable (textureFormat caps) (clutFormat caps)
                && textureFunction_known (textureFunction caps))).
    + rewrite ok_ClampTexCoord, !andb_assoc. reflexivity.
    + intros v.
      rewrite (ok_bind _ _ (textureFunction_known (textureFunction caps))).
      * rewrite ok_GetTextureColor. reflexivity.
      * intros color. rewrite ok_seq, ok_emit, ok_seq. cbn [andb].
        replace (ok (if textureHasAlpha caps
                     then ExpandAlpha (textureFormat caps) (clutFormat caps)
                            (textureBlackIsTransparent caps)
                            FS.textureColor FS.texA0 FS.texA1
                     else Nuanceur.ret tt)) with true
          by (destruct (textureHasAlpha caps);
              [rewrite ok_ExpandAlpha|]; reflexivity).
        cbn [andb].
        destruct (textureFunction caps); try reflexivity;
          destruct (textureHasAlpha caps); reflexivity.
Qed.

Lemma ok_AlphaTest caps :
  ok (FS.AlphaTest caps) = alphaTest_known (alphaTestFunction caps).
Proof. unfold FS.AlphaTest. destruct (alphaTestFunction caps); reflexivity. Qed.

Lemma ok_Addresses caps :
  ok (FS.Addresses caps)
  = framebuffer_known (framebufferFormat caps)
    && depthbuffer_known (depthbufferFormat caps).
Proof.
  unfold FS.Addresses. rewrite ok_seq.
  destruct (framebufferFormat caps); destruct (depthbufferFormat caps);
    reflexivity.
Qed.

Lemma ok_DestinationRead caps :
  ok (FS.DestinationRead caps)
  = (if FS.needsDstColor caps
     then framebuffer_known (framebufferFormat caps) else true)
    && (if FS.needsDstDepth caps
        then depthbuffer_known (depthbufferFormat caps) else true).
Proof.
  unfold FS.DestinationRead. rewrite ok_seq. f_equal.
  - destruct (FS.needsDstColor caps); [|reflexivity].
    destruct (framebufferFormat caps); reflexivity.
  - destruct (FS.needsDstDepth caps); [|reflexivity].
    destruct (depthbufferFormat caps); reflexivity.
Qed.

Lemma ok_DepthTest caps : ok (FS.DepthTest caps) = true.
Proof. unfold FS.DepthTest. destruct (depthTestFunction caps); reflexivity. Qed.

Lemma ok_Blend caps :
  ok (FS.Blend caps)
  = if hasAlphaBlending caps
    then alphaABD_known (alphaA caps) && alphaABD_known (alphaB caps)
         && alphaC_known (alphaC caps) && alphaABD_known (alphaD caps)
    else true.
Proof.
  unfold FS.Blend. destruct (hasAlphaBlending caps); [|reflexivity].
  destruct (alphaA caps), (alphaB caps), (alphaC caps), (alphaD caps);
    reflexivity.
Qed.

Lemma ok_Commit caps :
  ok (FS.Commit caps)
  = framebuffer_known (framebufferFormat caps)
    && (if writeDepth caps
        then depthbuffer_known (depthbufferFormat caps) else true).
Proof.
  unfold FS.Commit. rewrite ok_seq, ok_emit, ok_seq, ok_seq, ok_emit.
  cbn [andb]. rewrite andb_true_r. f_equal.
  - destruct (framebufferFormat caps); reflexivity.
  - destruct (writeDepth caps); [|reflexivity].
    destruct (depthbufferFormat caps); reflexivity.
Qed.

(** X5.  [CreateFragmentShader] reaches its end without an
    [assert(false)] exactly for the descriptors whose selectors are cases
    of its switches: with a texture, known clamp modes and texture
    function and a texture format that [GetTextureColor] reads (an indexed
    one with a 32- or 24-bit CLUT); a known alpha test; a framebuffer and
    a depth-buffer format the addressing knows; and, with blending, known
    blend selectors.  A textured descriptor with the [PSMCT16] texture
    format is refused; [CreateVertexShader] never asserts. *)
Theorem synthesizer_accepts_supported_descriptors (caps : PIPELINE_CAPS) :
  (program (CreateFragmentShader caps) <> None <-> supported caps = true) /\
  (hasTexture caps = true -> textureFormat caps = PSMCT16 ->
   program (CreateFragmentShader caps) = None) /\
  program CreateVertexShader <> None.
Proof.
  assert (E : ok (CreateFragmentShader caps) = supported caps).
  { unfold CreateFragmentShader, supported.
    rewrite !ok_seq, !ok_emit, ok_TextureStage, ok_AlphaTest, ok_Addresses,
      ok_DestinationRead, ok_DepthTest, ok_Blend, ok_Commit.
    destruct (if hasTexture caps then _ else true);
      destruct (alphaTest_known _);
      destruct (framebuffer_known _);
      destruct (depthbuffer_known _);
      destruct (FS.needsDstColor caps);
      destruct (FS.needsDstDepth caps);
      destruct (writeDepth caps);
      destruct (if hasAlphaBlending caps then _ else true);
      reflexivity. }
  split; [rewrite ok_program, E; reflexivity|].
  split; [|vm_compute; discriminate].
  intros Ht Hf.
  destruct (program (CreateFragmentShader caps)) eqn:Ep; [|reflexivity].
  assert (N : program (CreateFragmentShader caps) <> None) by congruence.
  apply ok_program in N. rewrite E in N.
  unfold supported in N. rewrite Ht, Hf in N.
  rewrite !andb_false_r in N. cbn in N.
  destruct (clampMode_known (texClampU caps) && clampMode_known (texClampV caps));
    discriminate.
Qed.

(* ---------------- the stages of a run ---------------- *)

Section StageStates.

Context {P : Platform}.
Variable ctx : Ctx.

Lemma exec_interlock st l :
  exec ctx (BeginInvocationInterlock :: l) st = exec ctx l st /\
  exec ctx (EndInvocationInterlock :: l) st = exec ctx l st.
Proof.
  unfold exec. cbn [fold_left]. unfold exec_stmt.
  destruct (skip st); split; reflexivity.
Qed.

Lemma run_stages caps prog st0 :
  program (CreateFragmentShader caps) = Some prog ->
  exists tex e ad rd dt bl cm (S : Stages),
    FS.TextureStage caps = Some (tt, tex) /\
    alphaTest_expr (alphaTestFunction caps) = Some e /\
    FS.Addresses caps = Some (tt, ad) /\
    FS.DestinationRead caps = Some (tt, rd) /\
    FS.DepthTest caps = Some (tt, dt) /\
    FS.Blend caps = Some (tt, bl) /\
    FS.Commit caps = Some (tt, cm) /\
    s_tex S = run ctx tex st0 /\
    s_ad S = exec ctx ad (setB FS.alphaTestResult
                            (evalB ctx (s_tex S) e) (s_tex S)) /\
    s_rd S = exec ctx rd (s_ad S) /\
    s_dt S = exec ctx dt (s_rd S) /\
    s_bl S = exec ctx bl (s_dt S) /\
    s_cm S = exec ctx cm (s_bl S) /\
    run ctx prog st0
    = exec ctx [AssignF4 FS.outputColor (xyzw FS.dstColor)] (s_cm S) /\
    skip (s_tex S) = O /\ skip (s_ad S) = O /\ skip (s_rd S) = O /\
    skip (s_dt S) = O /\ skip (s_bl S) = O /\ skip (s_cm S) = O /\
    mem (s_tex S) = mem st0 /\ mem (s_ad S) = mem st0 /\
    mem (s_rd S) = mem st0 /\ mem (s_dt S) = mem st0 /\
    mem (s_bl S) = mem st0.
Proof.
  intros H. apply CreateFragmentShader_stages in H.
  destruct H as (tex & at_ & ad & rd & dt & bl & cm &
                 Ht & Ha & Had & Hrd & Hdt & Hbl & Hcm & ->).
  destruct (TextureStage_ok _ _ Ht) as (T1 & T2).
  apply AlphaTest_shape in Ha. destruct Ha as (e & He & ->).
  pose proof (Addresses_plain _ _ Had) as Pad.
  pose proof (DestinationRead_plain _ _ Hrd) as Prd.
  pose proof (DepthTest_plain _ _ Hdt) as Pdt.
  pose proof (Blend_plain _ _ Hbl) as Pbl.
  set (a_tex := run ctx tex st0).
  set (a_ad := exec ctx ad (setB FS.alphaTestResult
                              (evalB ctx a_tex e) a_tex)).
  set (a_rd := exec ctx rd a_ad).
  set (a_dt := exec ctx dt a_rd).
  set (a_bl := exec ctx bl a_dt).
  set (a_cm := exec ctx cm a_bl).
  exists tex, e, ad, rd, dt, bl, cm,
    {| s_tex := a_tex; s_ad := a_ad; s_rd := a_rd; s_dt := a_dt;
       s_bl := a_bl; s_cm := a_cm |}.
  cbn [s_tex s_ad s_rd s_dt s_bl s_cm].
  assert (K0 : skip a_tex = O).
  { unfold a_tex, run. apply exec_skip_0; [assumption | reflexivity]. }
  assert (K1 : skip a_ad = O).
  { unfold a_ad. apply exec_skip_0;
      [apply plain_nesting; assumption | exact K0]. }
  assert (K2 : skip a_rd = O).
  { unfold a_rd. apply exec_skip_0;
      [apply plain_nesting; assumption | exact K1]. }
  assert (K3 : skip a_dt = O).
  { unfold a_dt. apply exec_skip_0;
      [apply plain_nesting; assumption | exact K2]. }
  assert (K4 : skip a_bl = O).
  { unfold a_bl. apply exec_skip_0;
      [apply plain_nesting; assumption | exact K3]. }
  destruct (Commit_exec ctx caps cm a_bl Hcm K4) as (K5 & _).
  fold a_cm in K5.
  repeat (split; [first [assumption | reflexivity]|]).
  split.
  { unfold run. repeat rewrite exec_app.
    fold (run ctx tex st0). fold a_tex.
    assert (E1 : exec ctx [AssignB FS.alphaTestResult e] a_tex
                 = setB FS.alphaTestResult (evalB ctx a_tex e) a_tex).
    { unfold exec. cbn [fold_left]. unfold exec_stmt. rewrite K0.
      reflexivity. }
    rewrite E1. fold a_ad.
    rewrite (proj1 (exec_interlock _ [])).
    change (exec ctx [] a_ad) with a_ad.
    fold a_rd. fold a_dt. fold a_bl. fold a_cm.
    apply (proj2 (exec_interlock _ _)). }
  repeat (split; [assumption|]).
  assert (M0 : mem a_tex = mem st0).
  { exact (exec_untouched ctx TMemory tex (setSkip O st0)
             (tex_not_target TMemory tex T1 eq_refl)). }
  assert (M1 : mem a_ad = mem st0).
  { rewrite <- M0.
    exact (exec_untouched ctx TMemory ad
             (setB FS.alphaTestResult (evalB ctx a_tex e) a_tex)
             (plain_not_memory _ Pad)). }
  assert (M2 : mem a_rd = mem st0).
  { rewrite <- M1.
    exact (exec_untouched ctx TMemory rd a_ad (plain_not_memory _ Prd)). }
  assert (M3 : mem a_dt = mem st0).
  { rewrite <- M2.
    exact (exec_untouched ctx TMemory dt a_rd (plain_not_memory _ Pdt)). }
  assert (M4 : mem a_bl = mem st0).
  { rewrite <- M3.
    exact (exec_untouched ctx TMemory bl a_dt (plain_not_memory _ Pbl)). }
  repeat (split; [assumption|]). assumption.
Qed.

End StageStates.

(* ---------------- the depth test ---------------- *)

Section DepthComparison.

Context {P : Platform}.
Variable ctx : Ctx.

Lemma exec_single_AssignB v e st :
  skip st = O ->
  exec ctx [AssignB v e] st = setB v (evalB ctx st e) st.
Proof.
  intros H. unfold exec. cbn [fold_left]. unfold exec_stmt. rewrite H.
  reflexivity.
Qed.

Lemma exec_single_AssignU v e st :
  skip st = O ->
  exec ctx [AssignU v e] st = setU v (evalU ctx st e) st.
Proof.
  intros H. unfold exec. cbn [fold_left]. unfold exec_stmt. rewrite H.
  reflexivity.
Qed.

Lemma exec_single_AssignF4 v e st :
  skip st = O ->
  exec ctx [AssignF4 v e] st
  = setF v (evalF ctx st (f4x e)) (evalF ctx st (f4y e))
           (evalF ctx st (f4z e)) (evalF ctx st (f4w e)) st.
Proof.
  intros H. unfold exec. cbn [fold_left]. unfold exec_stmt. rewrite H.
  reflexivity.
Qed.

(** The destination depth after the destination reads. *)
Lemma DestinationRead_depth caps rd sa :
  FS.DestinationRead caps = Some (tt, rd) ->
  FS.needsDstDepth caps = true -> skip sa = O ->
  vU (exec ctx rd sa) FS.dstDepth
  = load_depth (depthbufferFormat caps) (mem sa) (vI sa FS.depthAddress).
Proof.
  intros H Hn Hs.
  pose proof (DestinationRead_plain _ _ H) as Pl.
  apply DestinationRead_shape in H.
  destruct H as (lc & ld & -> & Hc & Hd). rewrite Hn in Hd.
  destruct Hd as (depth & Hg & ->).
  rewrite forallb_app in Pl. apply andb_true_iff in Pl.
  destruct Pl as [Plc _].
  rewrite exec_app.
  set (s1 := exec ctx lc sa).
  assert (S1 : skip s1 = O)
    by (apply exec_skip_0; [apply plain_nesting; assumption | exact Hs]).
  assert (M1 : mem s1 = mem sa)
    by (exact (exec_untouched ctx TMemory lc sa (plain_not_memory _ Plc))).
  assert (A1 : vI s1 FS.depthAddress = vI sa FS.depthAddress).
  { apply (exec_untouched ctx (TVarI FS.depthAddress) lc sa).
    destruct (FS.needsDstColor caps).
    - destruct Hc as (r & u & _ & ->).
      repeat constructor; cbn; congruence.
    - subst lc. constructor. }
  rewrite (exec_single_AssignU _ _ _ S1). cbn [vU setU].
  destruct (UintSym_eq_dec FS.dstDepth FS.dstDepth) as [_|N];
    [|contradiction].
  unfold load_depth. rewrite <- M1, <- A1.
  destruct (depthbufferFormat caps); try discriminate;
    inversion Hg; reflexivity.
Qed.

End DepthComparison.

(** X6.  The depth-test result of the generated program is true for
    ALWAYS, false for NEVER, source depth >= destination depth for GEQUAL
    and source depth > destination depth for GREATER, the destination
    depth being read from memory at the depth address with the width of
    the depth format and the source depth being the interpolated depth
    scaled by [DEPTH_MAX].  When the test fails the invocation leaves
    memory as it found it. *)
Theorem depth_test_compares_source_and_destination_depth {P : Platform}
    (caps : PIPELINE_CAPS) (prog : list Stmt) (ctx : Ctx) (st0 : State)
    (H : program (CreateFragmentShader caps) = Some prog) :
  let st := run ctx prog st0 in
  let passed := vB st FS.depthTestResult in
  let dstDepth :=
    load_depth (depthbufferFormat caps) (mem st0) (vI st FS.depthAddress) in
  match depthTestFunction caps with
  | DEPTH_TEST_ALWAYS => passed = true
  | DEPTH_TEST_NEVER => passed = false
  | DEPTH_TEST_GEQUAL => passed = (dstDepth <=? srcDepth_of ctx)
  | DEPTH_TEST_GREATER => passed = (dstDepth <? srcDepth_of ctx)
  | DEPTH_TEST_OTHER _ => True
  end /\
  (passed = false -> mem st = mem st0).
Proof.
  destruct (run_stages ctx caps prog st0 H)
    as (tex & e & ad & rd & dt & bl & cm & S &
        Ht & He & Had & Hrd & Hdt & Hbl & Hcm &
        E0 & E1 & E2 & E3 & E4 & E5 & Er &
        K0 & K1 & K2 & K3 & K4 & K5 & M0 & M1 & M2 & M3 & M4).
  cbv zeta. rewrite Er.
  (* what the last stages leave alone *)
  assert (Tail : forall t, t <> TVarF FS.outputColor ->
            untouched t (s_cm S)
              (exec ctx [AssignF4 FS.outputColor (xyzw FS.dstColor)]
                    (s_cm S))).
  { intros t Nt. apply exec_untouched. repeat constructor. cbn. congruence. }
  assert (Cm : forall t, t <> TMemory -> t <> TNone ->
            untouched t (s_bl S) (s_cm S)).
  { intros t N1 N2. rewrite E5. apply exec_untouched.
    apply (Commit_targets caps cm Hcm); assumption. }
  assert (Bl : forall t, t <> TVarF FS.dstColor ->
            untouched t (s_dt S) (s_bl S)).
  { intros t N1. rewrite E4. apply exec_untouched.
    apply (Blend_targets caps bl Hbl); assumption. }
  assert (Dt : forall t, t <> TVarB FS.depthTestResult ->
            untouched t (s_rd S) (s_dt S)).
  { intros t N1. rewrite E3. apply exec_untouched.
    apply (DepthTest_targets caps dt Hdt); assumption. }
  assert (Rd : forall t, t <> TVarU FS.dstPixel -> t <> TVarF FS.dstColor ->
            t <> TVarU FS.dstDepth -> untouched t (s_ad S) (s_rd S)).
  { intros t N1 N2 N3. rewrite E2. apply exec_untouched.
    apply (DestinationRead_targets caps rd Hrd); assumption. }
  assert (EB : vB (exec ctx [AssignF4 FS.outputColor (xyzw FS.dstColor)]
                        (s_cm S)) FS.depthTestResult
               = vB (s_dt S) FS.depthTestResult).
  { pose proof (Tail (TVarB FS.depthTestResult)) as U1.
    pose proof (Cm (TVarB FS.depthTestResult)) as U2.
    pose proof (Bl (TVarB FS.depthTestResult)) as U3.
    unfold untouched in U1, U2, U3.
    rewrite U1, U2, U3 by discriminate. reflexivity. }
  assert (EA : vI (exec ctx [AssignF4 FS.outputColor (xyzw FS.dstColor)]
                        (s_cm S)) FS.depthAddress
               = vI (s_ad S) FS.depthAddress).
  { pose proof (Tail (TVarI FS.depthAddress)) as U1.
    pose proof (Cm (TVarI FS.depthAddress)) as U2.
    pose proof (Bl (TVarI FS.depthAddress)) as U3.
    pose proof (Dt (TVarI FS.depthAddress)) as U4.
    pose proof (Rd (TVarI FS.depthAddress)) as U5.
    unfold untouched in U1, U2, U3, U4, U5.
    rewrite U1, U2, U3, U4, U5 by discriminate. reflexivity. }
  rewrite EB, EA. split.
  - pose proof (DepthTest_shape _ _ Hdt) as Edt.
    assert (Ed : forall x,
              depthTest_stmts (depthTestFunction caps)
              = [AssignB FS.depthTestResult x] ->
              vB (s_dt S) FS.depthTestResult = evalB ctx (s_rd S) x).
    { intros x Ex. rewrite E3, Edt, Ex.
      rewrite (exec_single_AssignB ctx _ _ _ K2). cbn [vB setB].
      destruct (BoolSym_eq_dec FS.depthTestResult FS.depthTestResult)
        as [_|N]; [reflexivity | contradiction]. }
    assert (Dd : FS.needsDstDepth caps = true ->
              vU (s_rd S) FS.dstDepth
              = load_depth (depthbufferFormat caps) (mem st0)
                           (vI (s_ad S) FS.depthAddress)).
    { intros Hn. rewrite E2, <- M1.
      apply (DestinationRead_depth ctx caps rd (s_ad S) Hrd Hn K1). }
    destruct (depthTestFunction caps) eqn:Ef.
    + rewrite (Ed _ eq_refl). reflexivity.
    + rewrite (Ed _ eq_refl). reflexivity.
    + rewrite (Ed _ eq_refl). cbn [evalB evalU].
      rewrite Dd by (unfold FS.needsDstDepth; rewrite Ef; reflexivity).
      reflexivity.
    + rewrite (Ed _ eq_refl). cbn [evalB evalU].
      rewrite Dd by (unfold FS.needsDstDepth; rewrite Ef; reflexivity).
      reflexivity.
    + exact I.
  - intros Hp.
    pose proof (Tail TMemory) as U1. unfold untouched in U1.
    rewrite U1 by discriminate.
    destruct (Commit_exec ctx caps cm (s_bl S) Hcm K4) as (_ & Mc).
    rewrite E5, Mc. unfold committed_memory.
    pose proof (Bl (TVarB FS.depthTestResult)) as U3. unfold untouched in U3.
    rewrite U3, Hp by discriminate. exact M4.
Qed.

(* ---------------- the colour that leaves the program ---------------- *)

(** X7.  The colour that the generated program outputs is the destination
    colour it has computed.  Without alpha blending that is the
    texture-stage colour, and without a texture the texture-stage colour
    is the interpolated vertex colour. *)
Theorem output_colour_without_blending {P : Platform}
    (caps : PIPELINE_CAPS) (prog : list Stmt) (ctx : Ctx) (st0 : State)
    (H : program (CreateFragmentShader caps) = Some prog) :
  let st := run ctx prog st0 in
  (forall c, vF st FS.outputColor c = vF st FS.dstColor c) /\
  (hasAlphaBlending caps = false ->
   forall c, vF st FS.outputColor c = vF st FS.textureColor c) /\
  (hasTexture caps = false ->
   forall c, vF st FS.textureColor c = inF ctx SEMANTIC_TEXCOORD 2 c).
Proof.
  pose proof (CreateFragmentShader_parts caps prog H)
    as (tex' & e' & post & Ep & Ht' & _ & T1 & T2 & T3).
  pose proof (run_parts ctx tex' e' post st0 T1 T2 T3) as RP.
  cbv zeta in RP. rewrite <- Ep in RP.
  destruct RP as (_ & _ & _ & _ & Rtc).
  destruct (run_stages ctx caps prog st0 H)
    as (tex & e & ad & rd & dt & bl & cm & S &
        Ht & He & Had & Hrd & Hdt & Hbl & Hcm &
        E0 & E1 & E2 & E3 & E4 & E5 & Er &
        K0 & K1 & K2 & K3 & K4 & K5 & _).
  cbv zeta.
  assert (Eo : forall c, vF (run ctx prog st0) FS.outputColor c
                         = vF (s_cm S) FS.dstColor c).
  { intros c. rewrite Er, (exec_single_AssignF4 ctx _ _ _ K5).
    cbn [vF setF].
    destruct (Float4Sym_eq_dec FS.outputColor FS.outputColor) as [_|N];
      [|contradiction].
    destruct c; reflexivity. }
  assert (Eother : forall v c, v <> FS.outputColor ->
            vF (run ctx prog st0) v c = vF (s_cm S) v c).
  { intros v c Nv. rewrite Er, (exec_single_AssignF4 ctx _ _ _ K5).
    cbn [vF setF].
    destruct (Float4Sym_eq_dec FS.outputColor v) as [E|_];
      [symmetry in E; contradiction | reflexivity]. }
  split; [|split].
  - intros c. rewrite Eo, Eother by discriminate. reflexivity.
  - intros Hb c. rewrite Eo, Eother by discriminate.
    assert (Cm : forall t, t <> TMemory -> t <> TNone ->
              untouched t (s_bl S) (s_cm S)).
    { intros t N1 N2. rewrite E5. apply exec_untouched.
      apply (Commit_targets caps cm Hcm); assumption. }
    pose proof (Cm (TVarF FS.dstColor)) as U1.
    pose proof (Cm (TVarF FS.textureColor)) as U2.
    unfold untouched in U1, U2. rewrite U1, U2 by discriminate.
    pose proof (Blend_shape _ _ Hbl) as (x & Ebl & Hx).
    rewrite Hb in Hx. subst x bl.
    rewrite E4, (exec_single_AssignF4 ctx _ _ _ K3). cbn [vF setF].
    destruct (Float4Sym_eq_dec FS.dstColor FS.dstColor) as [_|N];
      [|contradiction].
    destruct (Float4Sym_eq_dec FS.dstColor FS.textureColor) as [N|_];
      [discriminate|].
    destruct c; reflexivity.
  - intros Hn c. rewrite (Rtc c).
    rewrite Ht in Ht'. inversion Ht'. subst tex'. clear Ht'.
    unfold FS.TextureStage in Ht. rewrite Hn in Ht.
    inversion Ht. subst tex. clear Ht.
    unfold run, exec. cbn [fold_left]. unfold exec_stmt.
    cbn [skip setSkip vF setF].
    destruct (Float4Sym_eq_dec FS.textureColor FS.textureColor) as [_|N];
      [|contradiction].
    destruct c; reflexivity.
Qed.

(* ---------------- alpha expansion ---------------- *)

Lemma vF_setF_same {P : Platform} v x y z w st c :
  vF (setF v x y z w st) v c
  = match c with cx => x | cy => y | cz => z | cw => w end.
Proof.
  cbn [vF setF]. destruct (Float4Sym_eq_dec v v) as [_|N];
    [reflexivity | contradiction].
Qed.

Lemma vF_setF_other {P : Platform} v v' x y z w st c :
  v' <> v -> vF (setF v x y z w st) v' c = vF st v' c.
Proof.
  intros Nv. cbn [vF setF]. destruct (Float4Sym_eq_dec v v') as [E|_];
    [symmetry in E; contradiction | reflexivity].
Qed.

(** X8.  [ExpandAlpha] leaves red, green and blue alone.  For the formats
    that need expansion (24- and 16-bit direct colour, or an indexed
    texture with a 16-bit CLUT) the alpha becomes the mix of the two
    texture-alpha push constants by the sampled alpha, or zero when black
    is transparent and red + green + blue is zero; for any other format
    it emits nothing.  Nothing else of the state changes. *)
Theorem ExpandAlpha_semantics {P : Platform}
    (fmt clut : PSM) (black : bool) (l : list Stmt) (ctx : Ctx) (s : State)
    (H : ExpandAlpha fmt clut black FS.textureColor FS.texA0 FS.texA1
         = Some (tt, l))
    (Hs : skip s = O) :
  let s' := exec ctx l s in
  skip s' = O /\
  vF s' FS.textureColor cx = vF s FS.textureColor cx /\
  vF s' FS.textureColor cy = vF s FS.textureColor cy /\
  vF s' FS.textureColor cz = vF s FS.textureColor cz /\
  vF s' FS.textureColor cw
  = expanded_alpha fmt clut black ctx (vF s FS.textureColor) /\
  (forall v c, v <> FS.textureColor -> vF s' v c = vF s v c) /\
  vI s' = vI s /\ vU s' = vU s /\ vB s' = vB s /\ mem s' = mem s /\
  (requiresExpansion fmt clut = false -> l = []).
Proof.
  unfold ExpandAlpha in H. fold (requiresExpansion fmt clut) in H.
  unfold expanded_alpha. cbv zeta.
  destruct (requiresExpansion fmt clut); cbn [negb] in H.
  2:{ inversion H. subst l. cbn. repeat split; auto. }
  set (alpha := fmix (texA0_of ctx) (texA1_of ctx) (vF s FS.textureColor cw)).
  set (s1 := setF FS.textureColor (vF s FS.textureColor cx)
               (vF s FS.textureColor cy) (vF s FS.textureColor cz) alpha s).
  assert (E1 : forall l', exec ctx
                 (AssignF4 FS.textureColor
                    (NewFloat4_3 (xyz (xyzw FS.textureColor))
                       (FMix FS.texA0 FS.texA1 (VarF FS.textureColor cw)))
                  :: l') s
               = exec ctx l' s1).
  { intros l'. unfold exec. cbn [fold_left]. unfold exec_stmt at 2.
    rewrite Hs. reflexivity. }
  assert (S1 : skip s1 = O) by exact Hs.
  assert (X1 : vF s1 FS.textureColor cx = vF s FS.textureColor cx
               /\ vF s1 FS.textureColor cy = vF s FS.textureColor cy
               /\ vF s1 FS.textureColor cz = vF s FS.textureColor cz
               /\ vF s1 FS.textureColor cw = alpha).
  { unfold s1. rewrite !vF_setF_same. repeat split. }
  destruct X1 as (Xx & Xy & Xz & Xw).
  assert (O1 : forall v c, v <> FS.textureColor -> vF s1 v c = vF s v c).
  { intros v c Nv. unfold s1. apply vF_setF_other. assumption. }
  destruct black; inversion H; subst l; clear H; rewrite E1.
  - cbn [andb]. rewrite exec_cons.
    assert (EB : exec_stmt ctx s1
                   (BeginIf (FEq (FAdd (FAdd (VarF FS.textureColor cx)
                                             (VarF FS.textureColor cy))
                                       (VarF FS.textureColor cz))
                                 (NewFloat 0)))
                 = if feqb (fadd (fadd (vF s FS.textureColor cx)
                                       (vF s FS.textureColor cy))
                                 (vF s FS.textureColor cz)) (fconst 0)
                   then s1 else setSkip 1 s1).
    { unfold exec_stmt. rewrite S1. cbn [evalB evalF].
      rewrite Xx, Xy, Xz. reflexivity. }
    rewrite EB. clear EB.
    destruct (feqb _ (fconst 0)).
    + rewrite exec_cons.
      assert (EA : exec_stmt ctx s1
                     (AssignF4 FS.textureColor
                        (NewFloat4_3 (xyz (xyzw FS.textureColor))
                                     (NewFloat 0)))
                   = setF FS.textureColor (vF s FS.textureColor cx)
                       (vF s FS.textureColor cy) (vF s FS.textureColor cz)
                       (fconst 0) s1).
      { unfold exec_stmt. rewrite S1.
        cbn [f4x f4y f4z f4w NewFloat4_3 xyz xyzw f3x f3y f3z evalF].
        rewrite Xx, Xy, Xz. reflexivity. }
      rewrite EA. clear EA.
      set (s2 := setF FS.textureColor _ _ _ _ s1).
      assert (S2 : skip s2 = O) by exact S1.
      assert (EE : exec ctx [EndIf] s2 = s2).
      { unfold exec. cbn [fold_left]. unfold exec_stmt. rewrite S2.
        reflexivity. }
      rewrite EE. unfold s2.
      rewrite !vF_setF_same.
      repeat split; try reflexivity; try (intros E; discriminate E);
        try exact S1.
      intros v c Nv. rewrite vF_setF_other by assumption. apply O1.
      assumption.
    + assert (EE : exec ctx
                     [AssignF4 FS.textureColor
                        (NewFloat4_3 (xyz (xyzw FS.textureColor))
                                     (NewFloat 0)); EndIf] (setSkip 1 s1)
                   = setSkip O (setSkip 1 s1)).
      { reflexivity. }
      rewrite EE. cbn [skip setSkip vF vI vU vB mem].
      repeat split; try assumption; try reflexivity;
        try (intros E; discriminate E).
  - cbn [andb]. change (exec ctx [] s1) with s1.
    repeat split; try assumption; try reflexivity;
      try (intros E; discriminate E).
Qed.

(* ---------------- the texture function ---------------- *)

Lemma TextureStage_shape caps l :
  FS.TextureStage caps = Some (tt, l) -> hasTexture caps = true ->
  exists u v color lc le lf,
    ClampTexCoord (texClampU caps) (i2x FS.texelPos) (i2x FS.texSize)
                  (i2x FS.clampMin) (i2x FS.clampMax) = Some (u, []) /\
    ClampTexCoord (texClampV caps) (i2y FS.texelPos) (i2y FS.texSize)
                  (i2y FS.clampMin) (i2y FS.clampMax) = Some (v, []) /\
    GetTextureColor (textureFormat caps) (clutFormat caps) (NewInt2 u v)
                    FS.clutImage FS.texSwizzleTable FS.texBufAddress
                    FS.texBufWidth FS.texCsa = Some (color, lc) /\
    (if textureHasAlpha caps
     then ExpandAlpha (textureFormat caps) (clutFormat caps)
            (textureBlackIsTransparent caps) FS.textureColor
            FS.texA0 FS.texA1 = Some (tt, le)
     else le = []) /\
    TextureFunction caps = Some (tt, lf) /\
    l = [AssignF4 FS.textureColor (NewFloat4c 1 1 1 1)] ++ lc
        ++ [AssignF4 FS.textureColor color] ++ le ++ lf.
Proof.
  unfold FS.TextureStage. intros H Ht. rewrite Ht in H.
  gen_bind H as u0 l0 l1 G0. apply emit_Some in G0. subst l0.
  gen_bind H as u lu r1 GU. gen_bind H as v lv r2 GV.
  gen_bind H as color lc r3 GC. gen_bind H as u1 la r4 GA.
  gen_bind H as u2 le lf GE.
  pose proof GU as GU'. pose proof GV as GV'.
  apply ClampTexCoord_ok in GU'; try reflexivity. destruct GU' as (-> & _).
  apply ClampTexCoord_ok in GV'; try reflexivity. destruct GV' as (-> & _).
  apply emit_Some in GA. subst la. destruct u2.
  exists u, v, color, lc, le, lf.
  split; [exact GU|]. split; [exact GV|]. split; [exact GC|].
  split.
  { destruct (textureHasAlpha caps); [exact GE|].
    inversion GE. reflexivity. }
  split; [exact H | reflexivity].
Qed.

Lemma exec_stmt_AssignF4 {P : Platform} ctx v e st :
  skip st = O ->
  exec_stmt ctx st (AssignF4 v e)
  = setF v (evalF ctx st (f4x e)) (evalF ctx st (f4y e))
           (evalF ctx st (f4z e)) (evalF ctx st (f4w e)) st.
Proof. intros H. unfold exec_stmt. rewrite H. reflexivity. Qed.

Lemma TextureFunction_exec {P : Platform} ctx caps fn s :
  TextureFunction caps = Some (tt, fn) -> skip s = O ->
  forall c, vF (exec ctx fn s) FS.textureColor c
            = texture_function caps (vF s FS.textureColor)
                               (inF ctx SEMANTIC_TEXCOORD 2) c.
Proof.
  unfold TextureFunction, texture_function. intros H Hs c.
  destruct (textureFunction caps); try discriminate.
  - destruct (textureHasAlpha caps); cbn [negb] in H; inversion H; subst fn;
      clear H;
      repeat (rewrite exec_cons;
              rewrite exec_stmt_AssignF4 by (cbn [skip setF]; exact Hs));
      change (exec ctx [] ?x) with x;
      cbn [f4x f4y f4z f4w map2_4 Clamp4 NewFloat4c NewFloat4_3 xyz xyzw
           f3x f3y f3z evalF FS.inputColor input4];
      rewrite !vF_setF_same; destruct c; reflexivity.
  - inversion H. reflexivity.
  - destruct (textureHasAlpha caps); inversion H; subst fn; clear H;
      repeat (rewrite exec_cons;
              rewrite exec_stmt_AssignF4 by (cbn [skip setF]; exact Hs));
      change (exec ctx [] ?x) with x;
      cbn [f4x f4y f4z f4w map2_4 Clamp4 NewFloat4c NewFloat4_3 xyz xyzw
           wwww f3x f3y f3z evalF FS.inputColor input4];
      rewrite !vF_setF_same; destruct c; reflexivity.
Qed.

(** X9.  With a texture, the texture stage is the sampling followed by the
    texture function, and the texture colour of a run is that function
    of the sampled colour and the vertex colour: MODULATE clamps
    texture * vertex * 2 to [0, 1] and takes the vertex alpha when the
    texture has none; DECAL keeps the sampled colour; HIGHLIGHT2 clamps
    texture * vertex * 2 + vertex alpha and takes that clamped alpha when
    the texture has alpha, the vertex alpha otherwise. *)
Theorem texture_function_semantics {P : Platform}
    (caps : PIPELINE_CAPS) (prog : list Stmt) (ctx : Ctx) (st0 : State)
    (H : program (CreateFragmentShader caps) = Some prog)
    (Ht : hasTexture caps = true) :
  exists u v color lc le fn,
    GetTextureColor (textureFormat caps) (clutFormat caps) (NewInt2 u v)
                    FS.clutImage FS.texSwizzleTable FS.texBufAddress
                    FS.texBufWidth FS.texCsa = Some (color, lc) /\
    (if textureHasAlpha caps
     then ExpandAlpha (textureFormat caps) (clutFormat caps)
            (textureBlackIsTransparent caps) FS.textureColor
            FS.texA0 FS.texA1 = Some (tt, le)
     else le = []) /\
    TextureFunction caps = Some (tt, fn) /\
    let sampling := [AssignF4 FS.textureColor (NewFloat4c 1 1 1 1)] ++ lc
                    ++ [AssignF4 FS.textureColor color] ++ le in
    FS.TextureStage caps = Some (tt, sampling ++ fn) /\
    forall c,
      vF (run ctx prog st0) FS.textureColor c
      = texture_function caps (vF (run ctx sampling st0) FS.textureColor)
                         (inF ctx SEMANTIC_TEXCOORD 2) c.
Proof.
  pose proof (CreateFragmentShader_parts caps prog H)
    as (tex & e & post & Ep & Hst & _ & T1 & T2 & T3).
  pose proof (run_parts ctx tex e post st0 T1 T2 T3) as RP.
  cbv zeta in RP. rewrite <- Ep in RP.
  destruct RP as (_ & _ & _ & _ & Rtc).
  destruct (TextureStage_shape caps tex Hst Ht)
    as (u & v & color & lc & le & fn & _ & _ & GC & GE & GF & El).
  exists u, v, color, lc, le, fn.
  split; [exact GC|]. split; [exact GE|]. split; [exact GF|].
  cbv zeta.
  assert (Etex : tex = ([AssignF4 FS.textureColor (NewFloat4c 1 1 1 1)] ++ lc
                        ++ [AssignF4 FS.textureColor color] ++ le) ++ fn).
  { rewrite El. repeat rewrite <- app_assoc. reflexivity. }
  set (sampling := [AssignF4 FS.textureColor (NewFloat4c 1 1 1 1)] ++ lc
                   ++ [AssignF4 FS.textureColor color] ++ le) in *.
  split; [rewrite <- Etex; exact Hst|].
  intros c. rewrite (Rtc c), Etex.
  unfold run. rewrite exec_app.
  apply (TextureFunction_exec ctx caps fn _ GF).
  (* the sampling leaves no block open *)
  assert (Pf : forall d, nesting fn d = Some d).
  { apply plain_nesting. clear - GF. unfold TextureFunction in GF.
    destruct (textureFunction caps); try discriminate;
      destruct (textureHasAlpha caps); inversion GF; reflexivity. }
  apply exec_skip_0; [|reflexivity].
  intros d. specialize (T2 d). rewrite Etex, nesting_app in T2.
  destruct (nesting sampling d) as [d'|]; [|discriminate].
  rewrite Pf in T2. exact T2.
Qed.

(* ---------------- the shape of a generated program ---------------- *)

Lemma GetTextureColor_unmarked fmt clut pos img tbl a w csa color l :
  GetTextureColor fmt clut pos img tbl a w csa = Some (color, l) ->
  filter interlock_marker l = [].
Proof.
  intros H.
  destruct fmt; try discriminate; try (inversion H; reflexivity);
    destruct clut; try discriminate; inversion H; reflexivity.
Qed.

Lemma ExpandAlpha_unmarked fmt clut black v a0 a1 l :
  ExpandAlpha fmt clut black v a0 a1 = Some (tt, l) ->
  filter interlock_marker l = [].
Proof.
  unfold ExpandAlpha. intros H.
  destruct (negb _); [inversion H; reflexivity|].
  destruct black; inversion H; reflexivity.
Qed.

Lemma TextureFunction_unmarked caps l :
  TextureFunction caps = Some (tt, l) -> filter interlock_marker l = [].
Proof.
  unfold TextureFunction. intros H.
  destruct (textureFunction caps); try discriminate;
    destruct (textureHasAlpha caps); inversion H; reflexivity.
Qed.

Lemma TextureStage_unmarked caps l :
  FS.TextureStage caps = Some (tt, l) -> filter interlock_marker l = [].
Proof.
  intros H. destruct (hasTexture caps) eqn:Ht.
  - destruct (TextureStage_shape caps l H Ht)
      as (u & v & color & lc & le & lf & _ & _ & GC & GE & GF & ->).
    rewrite !filter_app.
    rewrite (GetTextureColor_unmarked _ _ _ _ _ _ _ _ _ _ GC).
    rewrite (TextureFunction_unmarked _ _ GF).
    replace (filter interlock_marker le) with (@nil Stmt); [reflexivity|].
    destruct (textureHasAlpha caps);
      [symmetry; exact (ExpandAlpha_unmarked _ _ _ _ _ _ _ GE)
      | subst le; reflexivity].
  - unfold FS.TextureStage in H. rewrite Ht in H. inversion H. reflexivity.
Qed.

(** X10.  In every generated program each [BeginIf] has its [EndIf], so a
    run ends outside every conditional; the program enters the invocation
    interlock once and leaves it once, in that order; and its last
    statement assigns the destination colour to the output colour. *)
Theorem generated_program_is_well_formed {P : Platform}
    (caps : PIPELINE_CAPS) (prog : list Stmt)
    (H : program (CreateFragmentShader caps) = Some prog) :
  nesting prog O = Some O /\
  (forall ctx st0, skip (run ctx prog st0) = O) /\
  filter interlock_marker prog
  = [BeginInvocationInterlock; EndInvocationInterlock] /\
  last prog EndIf = AssignF4 FS.outputColor (xyzw FS.dstColor).
Proof.
  pose proof H as H'.
  apply CreateFragmentShader_stages in H.
  destruct H as (tex & at_ & ad & rd & dt & bl & cm &
                 Ht & Ha & Had & Hrd & Hdt & Hbl & Hcm & ->).
  destruct (TextureStage_ok _ _ Ht) as (T1 & T2).
  pose proof (TextureStage_unmarked _ _ Ht) as Utex.
  apply AlphaTest_shape in Ha. destruct Ha as (e & He & ->).
  pose proof (Addresses_plain _ _ Had) as Pad.
  pose proof (DestinationRead_plain _ _ Hrd) as Prd.
  pose proof (DepthTest_plain _ _ Hdt) as Pdt.
  pose proof (Blend_plain _ _ Hbl) as Pbl.
  assert (Ncm : forall d, nesting cm d = Some d).
  { apply Commit_shape in Hcm.
    destruct Hcm as (pack & store & ld & Hp & -> & Hd).
    assert (Nld : forall d, nesting ld d = Some d).
    { destruct (writeDepth caps).
      - destruct Hd as (value & stored & Hw & ->).
        destruct (depthbufferFormat caps); try discriminate;
          inversion Hw; reflexivity.
      - subst ld. reflexivity. }
    intros d.
    change ([BeginIf (VarB FS.depthTestResult);
             store (VarI FS.fbAddress) (merged pack)] ++ ld ++ [EndIf])
      with ([BeginIf (VarB FS.depthTestResult)]
            ++ [store (VarI FS.fbAddress) (merged pack)] ++ ld ++ [EndIf]).
    rewrite nesting_app. cbn [nesting]. rewrite nesting_app.
    replace (nesting [store (VarI FS.fbAddress) (merged pack)] (S d))
      with (Some (S d))
      by (destruct (framebufferFormat caps); try discriminate;
          inversion Hp; reflexivity).
    rewrite nesting_app, Nld. reflexivity. }
  assert (Nall : forall d,
            nesting (tex ++ [AssignB FS.alphaTestResult e] ++ ad
                     ++ [BeginInvocationInterlock] ++ rd ++ dt ++ bl ++ cm
                     ++ [EndInvocationInterlock;
                         AssignF4 FS.outputColor (xyzw FS.dstColor)]) d
            = Some d).
  { repeat (apply nesting_id_app;
            [first [ assumption | reflexivity
                   | apply plain_nesting; assumption ]|]).
    reflexivity. }
  split; [apply Nall|]. split; [|split].
  - intros ctx st0. unfold run. apply exec_skip_0; [exact Nall | reflexivity].
  - rewrite !filter_app, Utex.
    assert (Uad : filter interlock_marker ad = []).
    { apply Addresses_shape in Had. destruct Had as (sf & sd & ->).
      reflexivity. }
    assert (Urd : filter interlock_marker rd = []).
    { apply DestinationRead_shape in Hrd.
      destruct Hrd as (lc & ld & -> & Hc & Hd). rewrite filter_app.
      replace (filter interlock_marker lc) with (@nil Stmt).
      - destruct (FS.needsDstDepth caps).
        + destruct Hd as (depth & _ & ->). reflexivity.
        + subst ld. reflexivity.
      - destruct (FS.needsDstColor caps).
        + destruct Hc as (r & u & _ & ->). reflexivity.
        + subst lc. reflexivity. }
    assert (Udt : filter interlock_marker dt = []).
    { apply DepthTest_shape in Hdt. subst dt.
      destruct (depthTestFunction caps); reflexivity. }
    assert (Ubl : filter interlock_marker bl = []).
    { apply Blend_shape in Hbl. destruct Hbl as (x & -> & _). reflexivity. }
    assert (Ucm : filter interlock_marker cm = []).
    { apply Commit_shape in Hcm.
      destruct Hcm as (pack & store & ld & Hp & -> & Hd).
      cbn [app filter interlock_marker].
      replace (interlock_marker (store (VarI FS.fbAddress) (merged pack)))
        with false
        by (destruct (framebufferFormat caps); try discriminate;
            inversion Hp; reflexivity).
      rewrite filter_app. cbn.
      destruct (writeDepth caps).
      - destruct Hd as (value & stored & Hw & ->).
        destruct (depthbufferFormat caps); try discriminate;
          inversion Hw; reflexivity.
      - subst ld. reflexivity. }
    rewrite Uad, Urd, Udt, Ubl, Ucm. reflexivity.
  - repeat rewrite app_assoc.
    match goal with
    | |- last (?l ++ [_; ?x]) _ = _ =>
        change (l ++ [EndInvocationInterlock; x])
          with (l ++ [EndInvocationInterlock] ++ [x])
    end.
    rewrite app_assoc. apply last_last.
Qed.

(* ---------------- the objects of a pipeline ---------------- *)

Lemma CreateDrawPipeline_Ok caps d p d' :
  CreateDrawPipeline caps d = Ok (p, d') ->
  exists vprog prog bs,
    let n := nextHandle (m_context d) in
    program CreateVertexShader = Some vprog /\
    program (CreateFragmentShader caps) = Some prog /\
    p = {| descriptorSetLayout := n + 1 + 1;
           pipelineLayout := n + 1 + 1 + 1;
           pipeline := n + 1 + 1 + 1 + 1 |} /\
    d' = set_context
           {| nextHandle := n + 1 + 1 + 1 + 1 + 1;
              objects :=
                (n + 1 + 1 + 1 + 1,
                 VkPipeline_ n (n + 1) (n + 1 + 1 + 1) (m_renderPass d))
                :: (n + 1 + 1 + 1, VkPipelineLayout_ (n + 1 + 1))
                :: (n + 1 + 1, VkDescriptorSetLayout_ bs)
                :: (n + 1, VkShaderModule_ prog)
                :: (n, VkShaderModule_ vprog)
                :: objects (m_context d);
              vkResult := vkResult (m_context d) |} d /\
    map slot_of_binding bs
    = [ (DESCRIPTOR_LOCATION_BUFFER_MEMORY, VK_DESCRIPTOR_TYPE_STORAGE_BUFFER);
        (DESCRIPTOR_LOCATION_IMAGE_SWIZZLETABLE_FB,
         VK_DESCRIPTOR_TYPE_STORAGE_IMAGE);
        (DESCRIPTOR_LOCATION_IMAGE_SWIZZLETABLE_DEPTH,
         VK_DESCRIPTOR_TYPE_STORAGE_IMAGE) ]
      ++ (if hasTexture caps
          then (DESCRIPTOR_LOCATION_IMAGE_SWIZZLETABLE_TEX,
                VK_DESCRIPTOR_TYPE_STORAGE_IMAGE)
               :: (if IsPsmIDTEX (textureFormat caps)
                   then [ (DESCRIPTOR_LOCATION_IMAGE_CLUT,
                           VK_DESCRIPTOR_TYPE_STORAGE_IMAGE) ]
                   else [])
          else []).
Proof.
  unfold CreateDrawPipeline, shaderModule, mbind. intros H.
  destruct (program CreateVertexShader) as [vprog|] eqn:EV; [|discriminate].
  unfold device_create at 1, vkCreate at 1 in H.
  destruct (vkResult (m_context d) (nextHandle (m_context d)) _);
    [|discriminate].
  destruct (program (CreateFragmentShader caps)) as [prog|] eqn:EF;
    [|discriminate].
  unfold device_create, vkCreate, get in H.
  cbn [m_context set_context nextHandle objects vkResult] in H.
  repeat match type of H with
  | context [if ?c then _ else _] => destruct c; [|discriminate]
  end.
  cbn in H. inversion H. clear H.
  eexists vprog, prog, _. cbv zeta.
  split; [reflexivity|]. split; [reflexivity|].
  split; [reflexivity|]. split; [reflexivity|].
  destruct (hasTexture caps); [|reflexivity].
  destruct (IsPsmIDTEX (textureFormat caps)); reflexivity.
Qed.

(* ---------------- the images a program loads from ---------------- *)

Section Images.

Variable allowed : Z -> bool.

Ltac images_solve :=
  repeat (progress
    (simpl;
     repeat rewrite forallb_app;
     repeat match goal with
     | H : forallb (image_ok allowed) _ = true |- _ => rewrite H
     | H : allowed _ = true |- _ => rewrite H
     end));
  reflexivity.

Lemma ClampTexCoord_images m c s mn mx e l :
  ClampTexCoord m c s mn mx = Some (e, l) ->
  forallb (image_ok allowed) (leavesI c) = true ->
  forallb (image_ok allowed) (leavesI s) = true ->
  forallb (image_ok allowed) (leavesI mn) = true ->
  forallb (image_ok allowed) (leavesI mx) = true ->
  forallb (image_ok allowed) (leavesI e) = true.
Proof.
  intros H Hc Hs Hmn Hmx.
  destruct m; inversion H; subst e; images_solve.
Qed.

Lemma GetTextureColor_images fmt clut u v color l :
  GetTextureColor fmt clut (NewInt2 u v) FS.clutImage FS.texSwizzleTable
                  FS.texBufAddress FS.texBufWidth FS.texCsa
  = Some (color, l) ->
  forallb (image_ok allowed) (leavesI u) = true ->
  forallb (image_ok allowed) (leavesI v) = true ->
  allowed 2 = true ->
  (IsPsmIDTEX fmt = true -> allowed 1 = true) ->
  forallb (images_ok allowed) (l ++ [AssignF4 FS.textureColor color])
  = true.
Proof.
  intros H Hu Hv Htex Hclut.
  unfold FS.clutImage, FS.texSwizzleTable, DESCRIPTOR_LOCATION_IMAGE_CLUT,
    DESCRIPTOR_LOCATION_IMAGE_SWIZZLETABLE_TEX in H.
  destruct fmt; try discriminate;
    try (inversion H; subst color l; clear H;
         unfold images_ok; images_solve);
    (specialize (Hclut eq_refl);
     destruct clut; try discriminate;
     inversion H; subst color l; clear H;
     unfold images_ok; images_solve).
Qed.

End Images.

Lemma ExpandAlpha_images allowed fmt clut black l :
  ExpandAlpha fmt clut black FS.textureColor FS.texA0 FS.texA1
  = Some (tt, l) ->
  forallb (images_ok allowed) l = true.
Proof.
  unfold ExpandAlpha. intros H.
  destruct (negb _); [inversion H; reflexivity|].
  destruct black; inversion H; reflexivity.
Qed.

Lemma TextureFunction_images allowed caps l :
  TextureFunction caps = Some (tt, l) ->
  forallb (images_ok allowed) l = true.
Proof.
  unfold TextureFunction. intros H.
  destruct (textureFunction caps); try discriminate;
    destruct (textureHasAlpha caps); inversion H; reflexivity.
Qed.

Lemma bound_image_table caps :
  bound_image caps DESCRIPTOR_LOCATION_IMAGE_SWIZZLETABLE_FB = true /\
  bound_image caps DESCRIPTOR_LOCATION_IMAGE_SWIZZLETABLE_DEPTH = true /\
  (hasTexture caps = true ->
   bound_image caps DESCRIPTOR_LOCATION_IMAGE_SWIZZLETABLE_TEX = true /\
   (IsPsmIDTEX (textureFormat caps) = true ->
    bound_image caps DESCRIPTOR_LOCATION_IMAGE_CLUT = true)).
Proof.
  unfold bound_image. split; [reflexivity|]. split; [reflexivity|].
  intros ->. split; [reflexivity|]. intros ->. reflexivity.
Qed.

Lemma TextureStage_images caps l :
  FS.TextureStage caps = Some (tt, l) ->
  forallb (images_ok (bound_image caps)) l = true.
Proof.
  intros H. destruct (hasTexture caps) eqn:Ht.
  - destruct (bound_image_table caps) as (_ & _ & B).
    destruct (B Ht) as (Btex & Bclut).
    destruct (TextureStage_shape caps l H Ht)
      as (u & v & color & lc & le & lf & GU & GV & GC & GE & GF & ->).
    assert (Hu : forallb (image_ok (bound_image caps)) (leavesI u) = true).
    { apply (ClampTexCoord_images _ _ _ _ _ _ _ _ GU); reflexivity. }
    assert (Hv : forallb (image_ok (bound_image caps)) (leavesI v) = true).
    { apply (ClampTexCoord_images _ _ _ _ _ _ _ _ GV); reflexivity. }
    pose proof (GetTextureColor_images (bound_image caps) _ _ _ _ _ _
                  GC Hu Hv Btex Bclut) as Hc.
    rewrite forallb_app in Hc. apply andb_true_iff in Hc.
    destruct Hc as (Hc1 & Hc2).
    rewrite !forallb_app, Hc1, Hc2.
    rewrite (TextureFunction_images _ _ _ GF).
    replace (forallb (images_ok (bound_image caps)) le) with true;
      [reflexivity|].
    destruct (textureHasAlpha caps);
      [symmetry; exact (ExpandAlpha_images _ _ _ _ _ GE)
      | subst le; reflexivity].
  - unfold FS.TextureStage in H. rewrite Ht in H. inversion H. reflexivity.
Qed.

Lemma program_images caps prog :
  program (CreateFragmentShader caps) = Some prog ->
  forallb (images_ok (bound_image caps)) prog = true.
Proof.
  intros H. apply CreateFragmentShader_stages in H.
  destruct H as (tex & at_ & ad & rd & dt & bl & cm &
                 Ht & Ha & Had & Hrd & Hdt & Hbl & Hcm & ->).
  destruct (bound_image_table caps) as (Bfb & Bdepth & _).
  rewrite !forallb_app, (TextureStage_images _ _ Ht).
  assert (Uat : forallb (images_ok (bound_image caps)) at_ = true).
  { apply AlphaTest_shape in Ha. destruct Ha as (e & He & ->).
    destruct (alphaTestFunction caps); inversion He; reflexivity. }
  assert (Uad : forallb (images_ok (bound_image caps)) ad = true).
  { apply Addresses_shape in Had. destruct Had as (sf & sd & ->).
    change (bound_image caps 3 = true) in Bfb.
    change (bound_image caps 4 = true) in Bdepth.
    generalize dependent (bound_image caps). intros allowed Bfb Bdepth.
    unfold images_ok, FS.fbSwizzleTable, FS.depthSwizzleTable,
      DESCRIPTOR_LOCATION_IMAGE_SWIZZLETABLE_FB,
      DESCRIPTOR_LOCATION_IMAGE_SWIZZLETABLE_DEPTH.
    simpl. rewrite Bfb, Bdepth. reflexivity. }
  assert (Urd : forallb (images_ok (bound_image caps)) rd = true).
  { apply DestinationRead_shape in Hrd.
    destruct Hrd as (lc & ld & -> & Hc & Hd). rewrite forallb_app.
    replace (forallb (images_ok (bound_image caps)) lc) with true.
    - destruct (FS.needsDstDepth caps).
      + destruct Hd as (depth & Hg & ->).
        destruct (depthbufferFormat caps); try discriminate;
          inversion Hg; reflexivity.
      + subst ld. reflexivity.
    - destruct (FS.needsDstColor caps).
      + destruct Hc as (r & u & Hr & ->).
        destruct (framebufferFormat caps); try discriminate;
          inversion Hr; reflexivity.
      + subst lc. reflexivity. }
  assert (Udt : forallb (images_ok (bound_image caps)) dt = true).
  { apply DepthTest_shape in Hdt. subst dt.
    destruct (depthTestFunction caps); reflexivity. }
  assert (Ubl : forallb (images_ok (bound_image caps)) bl = true).
  { apply Blend_shape in Hbl. destruct Hbl as (x & -> & Hx).
    destruct (hasAlphaBlending caps).
    - destruct Hx as (A & B & C & D & HA & HB & HC & HD & ->).
      destruct (alphaA caps); try discriminate; inversion HA; subst A;
        destruct (alphaB caps); try discriminate; inversion HB; subst B;
        destruct (alphaC caps); try discriminate; inversion HC; subst C;
        destruct (alphaD caps); try discriminate; inversion HD; subst D;
        reflexivity.
    - subst x. reflexivity. }
  assert (Ucm : forallb (images_ok (bound_image caps)) cm = true).
  { apply Commit_shape in Hcm.
    destruct Hcm as (pack & store & ld & Hp & -> & Hd).
    rewrite !forallb_app.
    replace (forallb (images_ok (bound_image caps)) ld) with true.
    - destruct (framebufferFormat caps); try discriminate;
        inversion Hp; reflexivity.
    - destruct (writeDepth caps).
      + destruct Hd as (value & stored & Hw & ->).
        destruct (depthbufferFormat caps); try discriminate;
          inversion Hw; reflexivity.
      + subst ld. reflexivity. }
  rewrite Uat, Uad, Urd, Udt, Ubl, Ucm. reflexivity.
Qed.

(* ---------------- layouts, descriptor sets and shaders ---------------- *)

Lemma object_at_cons h h' o l n r :
  object_at h {| nextHandle := n; objects := (h', o) :: l; vkResult := r |}
  = if h' =? h then Some o
    else object_at h {| nextHandle := n; objects := l; vkResult := r |}.
Proof.
  unfold object_at. cbn [objects find fst snd].
  destruct (h' =? h); reflexivity.
Qed.

Lemma object_at_objects h c1 c2 :
  objects c1 = objects c2 -> object_at h c1 = object_at h c2.
Proof. unfold object_at. intros ->. reflexivity. Qed.

Lemma uses_image_ok allowed prog b :
  forallb (images_ok allowed) prog = true -> uses_image prog b ->
  allowed b = true.
Proof.
  intros H (s & Hs & Hl). rewrite forallb_forall in H.
  specialize (H s Hs). unfold images_ok in H. rewrite forallb_forall in H.
  exact (H _ Hl).
Qed.

Lemma CreateDrawPipeline_layout caps d p d' :
  CreateDrawPipeline caps d = Ok (p, d') ->
  exists bs,
    object_at (descriptorSetLayout p) (m_context d')
    = Some (VkDescriptorSetLayout_ bs) /\
    map slot_of_binding bs = slots (descriptorSetCaps_of caps).
Proof.
  intros H.
  destruct (CreateDrawPipeline_Ok caps d p d' H)
    as (vprog & prog & bs & Hv & Hf & -> & -> & Hbs).
  exists bs. split; [|exact Hbs].
  cbn [m_context set_context descriptorSetLayout].
  assert (Ne : forall a b : Z, a <> b -> (a =? b) = false)
    by (intros a b; apply Z.eqb_neq).
  repeat (rewrite object_at_cons, Ne by lia).
  rewrite object_at_cons, Z.eqb_refl. reflexivity.
Qed.

(** X11.  [CreateDrawPipeline] creates five objects on the device and
    touches no older one: the two shader modules, holding the generated
    vertex program and the fragment program of the descriptor, a
    descriptor-set layout, a pipeline layout over it, and a pipeline over
    the two modules and that layout for the render pass.  The layout has
    the bindings of the descriptor-set key of the descriptor, each once,
    and binds as a storage image every image that the fragment program
    loads from. *)
Theorem pipeline_layout_binds_what_the_shader_uses
    (caps : PIPELINE_CAPS) (d d' : CDraw) (p : PIPELINE)
    (H : CreateDrawPipeline caps d = Ok (p, d')) :
  exists vertexModule fragmentModule vprog prog bs,
    let c' := m_context d' in
    program CreateVertexShader = Some vprog /\
    program (CreateFragmentShader caps) = Some prog /\
    object_at (pipeline p) c'
    = Some (VkPipeline_ vertexModule fragmentModule (pipelineLayout p)
                        (m_renderPass d)) /\
    object_at vertexModule c' = Some (VkShaderModule_ vprog) /\
    object_at fragmentModule c' = Some (VkShaderModule_ prog) /\
    object_at (pipelineLayout p) c'
    = Some (VkPipelineLayout_ (descriptorSetLayout p)) /\
    object_at (descriptorSetLayout p) c'
    = Some (VkDescriptorSetLayout_ bs) /\
    map slot_of_binding bs = slots (descriptorSetCaps_of caps) /\
    NoDup (map binding bs) /\
    (forall b, uses_image prog b ->
       In (b, VK_DESCRIPTOR_TYPE_STORAGE_IMAGE) (map slot_of_binding bs)) /\
    (forall h, h < nextHandle (m_context d) ->
       object_at h c' = object_at h (m_context d)) /\
    nextHandle c' = nextHandle (m_context d) + 5.
Proof.
  destruct (CreateDrawPipeline_Ok caps d p d' H)
    as (vprog & prog & bs & Hv & Hf & -> & -> & Hbs).
  set (n := nextHandle (m_context d)) in *.
  exists n, (n + 1), vprog, prog, bs.
  cbn [m_context set_context pipeline pipelineLayout descriptorSetLayout].
  assert (Ne : forall a b : Z, a <> b -> (a =? b) = false)
    by (intros a b; apply Z.eqb_neq).
  split; [exact Hv|]. split; [exact Hf|].
  split. { rewrite object_at_cons, Z.eqb_refl. reflexivity. }
  split.
  { repeat (rewrite object_at_cons, Ne by lia).
    rewrite object_at_cons, Z.eqb_refl. reflexivity. }
  split.
  { repeat (rewrite object_at_cons, Ne by lia).
    rewrite object_at_cons, Z.eqb_refl. reflexivity. }
  split.
  { repeat (rewrite object_at_cons, Ne by lia).
    rewrite object_at_cons, Z.eqb_refl. reflexivity. }
  split.
  { repeat (rewrite object_at_cons, Ne by lia).
    rewrite object_at_cons, Z.eqb_refl. reflexivity. }
  split; [exact Hbs|].
  split.
  { replace (map binding bs) with (map fst (map slot_of_binding bs))
      by (rewrite map_map; reflexivity).
    rewrite Hbs.
    destruct (hasTexture caps); [destruct (IsPsmIDTEX (textureFormat caps))|];
      cbn; repeat constructor; cbn; intuition discriminate. }
  split.
  { intros b Hb.
    pose proof (uses_image_ok _ _ _ (program_images caps prog Hf) Hb) as Hok.
    rewrite Hbs. unfold bound_image in Hok.
    apply orb_true_iff in Hok. destruct Hok as [Hok | Hok].
    - apply orb_true_iff in Hok.
      destruct Hok as [E | E]; apply Z.eqb_eq in E; subst b; cbn; auto.
    - apply andb_true_iff in Hok. destruct Hok as [Ht Hok]. rewrite Ht.
      apply orb_true_iff in Hok. destruct Hok as [E | E].
      + apply Z.eqb_eq in E. subst b. cbn. auto.
      + apply andb_true_iff in E. destruct E as [Hi E]. rewrite Hi.
        apply Z.eqb_eq in E. subst b. cbn. auto 6. }
  split.
  { intros h Hh.
    repeat (rewrite object_at_cons, Ne by lia).
    apply object_at_objects. reflexivity. }
  cbn. lia.
Qed.

(** X12.  On a cache miss [PrepareDescriptorSet] allocates one descriptor
    set for the layout it is given and writes it once for each binding of
    its key, in the order of the layout, each write naming that set and
    the resource of its binding: the memory buffer, the swizzle table of
    the framebuffer, depth-buffer or texture format, the CLUT image.  The
    bindings written are those of the layout that [CreateDrawPipeline]
    makes for any descriptor with this key. *)
Theorem descriptor_set_is_written_for_its_key
    (layout : Z) (key : DESCRIPTORSET_CAPS) (d d' : CDraw)
    (descriptorSet : Z)
    (Hmiss : cache_find DESCRIPTORSET_CAPS_eq_dec key (m_descriptorSetCache d)
             = None)
    (H : PrepareDescriptorSet layout key d = Ok (descriptorSet, d')) :
  descriptorSet = nextHandle (m_context d) /\
  nextHandle (m_context d') = nextHandle (m_context d) + 1 /\
  (exists writes,
     object_at descriptorSet (m_context d')
     = Some (VkDescriptorSet_ layout writes) /\
     map slot_of_write writes = slots key /\
     (forall w, In w writes ->
        dstSet w = descriptorSet /\
        pInfo w = resource_at key (dstBinding w))) /\
  (forall caps d1 p d1' bs,
     descriptorSetCaps_of caps = key ->
     CreateDrawPipeline caps d1 = Ok (p, d1') ->
     object_at (descriptorSetLayout p) (m_context d1')
     = Some (VkDescriptorSetLayout_ bs) ->
     map slot_of_binding bs = slots key).
Proof.
  unfold PrepareDescriptorSet, mbind, get in H. rewrite Hmiss in H.
  unfold device_create, vkCreate, modify, mret in H.
  destruct (vkResult (m_context d) (nextHandle (m_context d)) _);
    [|discriminate].
  inversion H. subst descriptorSet d'. clear H.
  set (n := nextHandle (m_context d)).
  split; [reflexivity|]. split; [reflexivity|]. split.
  - unfold object_at.
    cbn [m_context set_context set_descriptorSetCache vkUpdateDescriptorSets
         objects nextHandle map fst snd find].
    rewrite Z.eqb_refl. cbn [snd app].
    eexists. split; [reflexivity|].
    unfold slots.
    destruct (ds_hasTexture key);
      [destruct (IsPsmIDTEX (ds_textureFormat key))|];
      cbn [app filter dstSet]; rewrite !Z.eqb_refl; cbn [app filter];
      (split; [reflexivity|]);
      intros w Hw; cbn [In] in Hw;
      repeat (destruct Hw as [<- | Hw]; [split; reflexivity|]);
      destruct Hw.
  - intros caps d1 p d1' bs <- Hp Hbs.
    destruct (CreateDrawPipeline_layout caps d1 p d1' Hp) as (bs' & Hl & Hs).
    rewrite Hl in Hbs. inversion Hbs. subst bs'. exact Hs.
Qed.

(* ---------------- what the caches hold ---------------- *)

Lemma extends_refl c : extends c c.
Proof. intros h o H. exact H. Qed.

Lemma extends_trans a b c : extends a b -> extends b c -> extends a c.
Proof. intros H1 H2 h o H. apply H2, H1, H. Qed.

Lemma pipeline_for_extends caps p c c' :
  extends c c' -> pipeline_for caps p c -> pipeline_for caps p c'.
Proof.
  intros E (vm & fm & rp & prog & bs & H1 & H2 & H3 & H4 & H5 & H6).
  exists vm, fm, rp, prog, bs. repeat split; auto.
Qed.

Lemma set_for_extends key s c c' :
  extends c c' -> set_for key s c -> set_for key s c'.
Proof.
  intros E (l & bs & ws & H1 & H2 & H3 & H4 & H5).
  exists l, bs, ws. repeat split; auto.
Qed.

Lemma cache_insert_inv {K V : Type}
    (eq_dec : forall a b : K, {a = b} + {a <> b}) k v k' v'
    (c : list (K * V)) :
  cache_find eq_dec k' (cache_insert eq_dec k v c) = Some v' ->
  cache_find eq_dec k' c = Some v' \/ (k' = k /\ v' = v).
Proof.
  unfold cache_insert. destruct (cache_find eq_dec k c); [auto|].
  rewrite cache_find_app.
  destruct (cache_find eq_dec k' c); [auto|].
  unfold cache_find. cbn. destruct (eq_dec k k') as [E|N]; [|discriminate].
  intros H. inversion H. auto.
Qed.

Lemma object_at_update ws c h :
  object_at h (vkUpdateDescriptorSets ws c)
  = match object_at h c with
    | Some (VkDescriptorSet_ l ws0) =>
        Some (VkDescriptorSet_ l
                (ws0 ++ filter (fun w => dstSet w =? h) ws))
    | x => x
    end.
Proof.
  unfold object_at, vkUpdateDescriptorSets. cbn [objects].
  induction (objects c) as [|[h0 o] l IH]; [reflexivity|].
  cbn [map find fst snd].
  destruct o; cbn [fst snd]; destruct (h0 =? h) eqn:E;
    try reflexivity; try exact IH.
  apply Z.eqb_eq in E. subst h0. reflexivity.
Qed.

Lemma descriptor_writes_slots s key :
  map slot_of_write (descriptor_writes s key) = slots key /\
  (forall w, In w (descriptor_writes s key) ->
     dstSet w = s /\ pInfo w = resource_at key (dstBinding w)).
Proof.
  unfold descriptor_writes, slots.
  destruct (ds_hasTexture key);
    [destruct (IsPsmIDTEX (ds_textureFormat key))|];
    (split; [reflexivity|]);
    intros w Hw; cbn [In app] in Hw;
    repeat (destruct Hw as [<- | Hw]; [split; reflexivity|]);
    destruct Hw.
Qed.

Lemma descriptor_writes_filter s key h :
  filter (fun w => dstSet w =? h) (descriptor_writes s key)
  = if s =? h then descriptor_writes s key else [].
Proof.
  unfold descriptor_writes.
  destruct (ds_hasTexture key);
    [destruct (IsPsmIDTEX (ds_textureFormat key))|];
    cbn [app filter dstSet]; destruct (s =? h); reflexivity.
Qed.

Lemma PrepareDescriptorSet_miss layout key d :
  cache_find DESCRIPTORSET_CAPS_eq_dec key (m_descriptorSetCache d) = None ->
  let n := nextHandle (m_context d) in
  PrepareDescriptorSet layout key d
  = if vkResult (m_context d) n (VkDescriptorSet_ layout [])
    then Ok (n,
             set_descriptorSetCache
               (cache_insert DESCRIPTORSET_CAPS_eq_dec key n
                             (m_descriptorSetCache d))
               (set_context
                  (vkUpdateDescriptorSets (descriptor_writes n key)
                     {| nextHandle := n + 1;
                        objects := (n, VkDescriptorSet_ layout [])
                                   :: objects (m_context d);
                        vkResult := vkResult (m_context d) |})
                  d))
    else Abort VulkanError.
Proof.
  intros Hmiss. cbv zeta.
  unfold PrepareDescriptorSet, mbind, get. rewrite Hmiss.
  unfold device_create, vkCreate, modify, mret.
  destruct (vkResult (m_context d) (nextHandle (m_context d)) _);
    reflexivity.
Qed.

Lemma CreateDrawPipeline_sound caps d p d' :
  handles_bounded (m_context d) ->
  CreateDrawPipeline caps d = Ok (p, d') ->
  handles_bounded (m_context d') /\
  extends (m_context d) (m_context d') /\
  pipeline_for caps p (m_context d') /\
  m_pipelineCache d' = m_pipelineCache d /\
  m_descriptorSetCache d' = m_descriptorSetCache d.
Proof.
  intros Hb H.
  destruct (CreateDrawPipeline_Ok caps d p d' H)
    as (vprog & prog & bs & Hv & Hf & -> & -> & Hbs).
  set (n := nextHandle (m_context d)) in *.
  cbn [m_context set_context m_pipelineCache m_descriptorSetCache].
  assert (Ne : forall a b : Z, a <> b -> (a =? b) = false)
    by (intros a b; apply Z.eqb_neq).
  assert (Old : forall h, h < n ->
            object_at h
              {| nextHandle := n + 1 + 1 + 1 + 1 + 1;
                 objects :=
                   (n + 1 + 1 + 1 + 1,
                    VkPipeline_ n (n + 1) (n + 1 + 1 + 1) (m_renderPass d))
                   :: (n + 1 + 1 + 1, VkPipelineLayout_ (n + 1 + 1))
                   :: (n + 1 + 1, VkDescriptorSetLayout_ bs)
                   :: (n + 1, VkShaderModule_ prog)
                   :: (n, VkShaderModule_ vprog)
                   :: objects (m_context d);
                 vkResult := vkResult (m_context d) |}
            = object_at h (m_context d)).
  { intros h Hh. repeat (rewrite object_at_cons, Ne by lia).
    apply object_at_objects. reflexivity. }
  split.
  { intros h o Ho. cbn [nextHandle].
    destruct (Z_lt_dec h n) as [L|L].
    - rewrite Old in Ho by exact L. lia.
    - revert Ho. rewrite !object_at_cons.
      repeat match goal with
      | |- context [?a =? h] =>
          destruct (Z.eqb_spec a h); [intros _; lia|]
      end.
      intros Ho.
      assert (Ho' : object_at h (m_context d) = Some o).
      { rewrite <- Ho. apply object_at_objects. reflexivity. }
      apply Hb in Ho'. fold n in Ho'. lia. }
  split.
  { intros h o Ho. rewrite Old; [exact Ho|]. apply (Hb _ _ Ho). }
  split; [|split; reflexivity].
  exists n, (n + 1), (m_renderPass d), prog, bs.
  cbn [pipeline pipelineLayout descriptorSetLayout].
  split. { rewrite object_at_cons, Z.eqb_refl. reflexivity. }
  split.
  { repeat (rewrite object_at_cons, Ne by lia).
    rewrite object_at_cons, Z.eqb_refl. reflexivity. }
  split; [exact Hf|].
  split.
  { repeat (rewrite object_at_cons, Ne by lia).
    rewrite object_at_cons, Z.eqb_refl. reflexivity. }
  split; [|exact Hbs].
  repeat (rewrite object_at_cons, Ne by lia).
  rewrite object_at_cons, Z.eqb_refl. reflexivity.
Qed.

Lemma ResolvePipeline_sound caps d p d' :
  cache_sound d ->
  ResolvePipeline caps d = Ok (p, d') ->
  cache_sound d' /\ extends (m_context d) (m_context d') /\
  pipeline_for caps p (m_context d').
Proof.
  intros (Hb & Hp & Hs) H.
  unfold ResolvePipeline, TryGetPipeline, mbind, get, mret in H.
  destruct (cache_find PIPELINE_CAPS_eq_dec caps (m_pipelineCache d))
    as [p0|] eqn:E.
  - inversion H. subst p0 d'.
    split; [repeat split; assumption|].
    split; [apply extends_refl | apply Hp, E].
  - destruct (CreateDrawPipeline caps d) as [[p0 d1]|e] eqn:EC;
      [|discriminate].
    destruct (CreateDrawPipeline_sound caps d p0 d1 Hb EC)
      as (Hb1 & Ex & Pf & Kp & Ks).
    unfold RegisterPipeline, mbind, modify, mret in H.
    inversion H. subst p d'. clear H. unfold cache_sound.
    cbn [m_context m_pipelineCache m_descriptorSetCache set_pipelineCache].
    split; [|split; assumption].
    split; [exact Hb1|]. split.
    + intros caps' p' Hf. rewrite Kp in Hf.
      apply cache_insert_inv in Hf. destruct Hf as [Hf | (-> & ->)].
      * eapply pipeline_for_extends; [exact Ex | apply Hp, Hf].
      * exact Pf.
    + intros key s Hf. rewrite Ks in Hf.
      eapply set_for_extends; [exact Ex | apply Hs, Hf].
Qed.

Lemma PrepareDescriptorSet_sound layout key d s d' bs :
  cache_sound d ->
  object_at layout (m_context d) = Some (VkDescriptorSetLayout_ bs) ->
  map slot_of_binding bs = slots key ->
  PrepareDescriptorSet layout key d = Ok (s, d') ->
  cache_sound d' /\ extends (m_context d) (m_context d') /\
  set_for key s (m_context d').
Proof.
  intros (Hb & Hp & Hs) Hl Hbs H.
  destruct (cache_find DESCRIPTORSET_CAPS_eq_dec key (m_descriptorSetCache d))
    as [s0|] eqn:E.
  - rewrite (PrepareDescriptorSet_hit layout key d s0 E) in H.
    inversion H. subst s0 d'.
    split; [repeat split; assumption|].
    split; [apply extends_refl | apply Hs, E].
  - rewrite (PrepareDescriptorSet_miss layout key d E) in H.
    cbv zeta in H.
    destruct (vkResult (m_context d) (nextHandle (m_context d)) _);
      [|discriminate].
    inversion H. clear H.
    set (n := nextHandle (m_context d)) in *. unfold cache_sound.
    cbn [m_context m_pipelineCache m_descriptorSetCache
         set_descriptorSetCache set_context].
    set (c1 := {| nextHandle := n + 1;
                  objects := (n, VkDescriptorSet_ layout [])
                             :: objects (m_context d);
                  vkResult := vkResult (m_context d) |}).
    assert (Old : forall h, h <> n ->
              object_at h c1 = object_at h (m_context d)).
    { intros h Hh. unfold c1. rewrite object_at_cons.
      destruct (Z.eqb_spec n h); [congruence|].
      apply object_at_objects. reflexivity. }
    assert (Ex : extends (m_context d)
                   (vkUpdateDescriptorSets (descriptor_writes n key) c1)).
    { intros h o Ho. pose proof (Hb _ _ Ho) as Lt. fold n in Lt.
      rewrite object_at_update, Old, Ho by lia.
      destruct o; try reflexivity.
      rewrite descriptor_writes_filter.
      destruct (Z.eqb_spec n h); [lia|]. rewrite app_nil_r. reflexivity. }
    assert (New : set_for key n
                    (vkUpdateDescriptorSets (descriptor_writes n key) c1)).
    { exists layout, bs, (descriptor_writes n key).
      split.
      { rewrite object_at_update. unfold c1.
        rewrite object_at_cons, Z.eqb_refl, descriptor_writes_filter,
          Z.eqb_refl. reflexivity. }
      split; [apply Ex, Hl|]. split; [exact Hbs|].
      destruct (descriptor_writes_slots n key) as (W1 & W2).
      split; [exact W1|]. intros w Hw. apply (W2 w Hw). }
    split; [|split; assumption].
    split.
    { intros h o Ho. unfold c1. cbn [nextHandle vkUpdateDescriptorSets].
      rewrite object_at_update in Ho.
      destruct (Z.eq_dec h n) as [->|N]; [lia|].
      rewrite Old in Ho by exact N.
      destruct (object_at h (m_context d)) as [o'|] eqn:Eo;
        [|discriminate].
      apply Hb in Eo. fold n in Eo. lia. }
    split.
    + intros caps' p' Hf.
      eapply pipeline_for_extends; [exact Ex | apply Hp, Hf].
    + intros key' s' Hf.
      apply cache_insert_inv in Hf. destruct Hf as [Hf | (-> & ->)].
      * eapply set_for_extends; [exact Ex | apply Hs, Hf].
      * exact New.
Qed.

Lemma sound_step_refl d : sound_step d d.
Proof. intros H. exact H. Qed.

Lemma sound_step_trans a b c :
  sound_step a b -> sound_step b c -> sound_step a c.
Proof. unfold sound_step. auto. Qed.

Lemma cache_sound_view d d' :
  m_context d' = m_context d ->
  m_pipelineCache d' = m_pipelineCache d ->
  m_descriptorSetCache d' = m_descriptorSetCache d ->
  cache_sound d -> cache_sound d'.
Proof. unfold cache_sound. intros -> -> ->. auto. Qed.

Lemma FlushVertices_sound d d' :
  cache_sound d ->
  FlushVertices d = Ok (tt, d') ->
  cache_sound d' /\
  (vertexCount d <> 0 ->
   exists p descriptorSet,
     commandBuffer (m_frameCommandBuffer d')
     = commandBuffer (m_frameCommandBuffer d)
       ++ draw_commands d p descriptorSet /\
     pipeline_for (m_pipelineCaps d) p (m_context d') /\
     set_for (descriptorSetCaps_of (m_pipelineCaps d)) descriptorSet
             (m_context d')).
Proof.
  intros Hs H.
  destruct (Z.eq_dec (vertexCount d) 0) as [E|E].
  { rewrite (FlushVertices_empty d E) in H. inversion H. subst d'.
    split; [exact Hs | contradiction]. }
  unfold FlushVertices in H.
  apply mbind_Ok in H. destruct H as (? & d0 & H0 & H).
  inversion H0. subst d0. clear H0.
  apply mbind_Ok in H. destruct H as (? & d0 & H0 & H).
  inversion H0. subst. clear H0.
  change (wrapU (m_passVertexEnd (count_flush d)
                 - m_passVertexStart (count_flush d)))
    with (vertexCount d) in H.
  destruct (vertexCount d =? 0) eqn:E0;
    [apply Z.eqb_eq in E0; contradiction|].
  change (m_pipelineCaps (count_flush d)) with (m_pipelineCaps d) in H.
  apply mbind_Ok in H. destruct H as (p & d1 & H1 & H).
  assert (Hs0 : cache_sound (count_flush d)) by exact Hs.
  destruct (ResolvePipeline_sound _ _ _ _ Hs0 H1) as (Hs1 & _ & Pf1).
  apply ResolvePipeline_keeps in H1. unfold keeps in H1.
  apply mbind_Ok in H. destruct H as (? & d2 & H2 & H). apply record_Ok in H2.
  apply mbind_Ok in H. destruct H as (? & d3 & H3 & H). apply record_Ok in H3.
  apply mbind_Ok in H. destruct H as (? & d4 & H4 & H). apply record_Ok in H4.
  apply mbind_Ok in H. destruct H as (ds & d5 & H5 & H).
  destruct H2 as (_ & C2 & P2 & S2 & X2). destruct H3 as (_ & C3 & P3 & S3 & X3).
  destruct H4 as (_ & C4 & P4 & S4 & X4).
  assert (Hs4 : cache_sound d4).
  { apply (cache_sound_view d1); [congruence .. | exact Hs1]. }
  assert (Pf4 : pipeline_for (m_pipelineCaps d) p (m_context d4)).
  { replace (m_context d4) with (m_context d1) by congruence. exact Pf1. }
  destruct Pf4 as (vm & fm & rp & prog & bs & Q1 & Q2 & Q3 & Q4 & Q5 & Q6).
  destruct (PrepareDescriptorSet_sound _ _ _ _ _ bs Hs4 Q5 Q6 H5)
    as (Hs5 & Ex5 & Sf5).
  assert (Pf5 : pipeline_for (m_pipelineCaps d) p (m_context d5)).
  { apply (pipeline_for_extends _ _ _ _ Ex5).
    exists vm, fm, rp, prog, bs. repeat split; assumption. }
  apply PrepareDescriptorSet_keeps in H5. unfold keeps in H5.
  apply mbind_Ok in H. destruct H as (? & d6 & H6 & H). apply record_Ok in H6.
  apply mbind_Ok in H. destruct H as (? & d7 & H7 & H). apply record_Ok in H7.
  apply mbind_Ok in H. destruct H as (? & d8 & H8 & H). apply record_Ok in H8.
  apply mbind_Ok in H. destruct H as (? & d9 & H9 & H). apply record_Ok in H9.
  apply mbind_Ok in H. destruct H as (? & d10 & H10 & H).
  apply massert_Ok in H10. destruct H10 as (_ & ->).
  apply mbind_Ok in H. destruct H as (? & d11 & H11 & H). apply record_Ok in H11.
  apply mbind_Ok in H. destruct H as (? & d12 & H12 & H). apply record_Ok in H12.
  inversion H. subst d'. clear H.
  destruct H6 as (_ & C6 & P6 & S6 & X6). destruct H7 as (_ & C7 & P7 & S7 & X7).
  destruct H8 as (_ & C8 & P8 & S8 & X8). destruct H9 as (_ & C9 & P9 & S9 & X9).
  destruct H11 as (_ & C11 & P11 & S11 & X11).
  destruct H12 as (_ & C12 & P12 & S12 & X12).
  assert (EX : m_context d12 = m_context d5) by congruence.
  assert (Hs12 : cache_sound d12).
  { apply (cache_sound_view d5); [congruence .. | exact Hs5]. }
  split.
  { apply (cache_sound_view d12); [reflexivity .. | exact Hs12]. }
  intros _. exists p, ds.
  cbn [m_context m_frameCommandBuffer set_passVertexStart].
  rewrite EX. split; [|split; assumption].
  rewrite C12, C11, C9, C8, C7, C6.
  replace (commandBuffer (m_frameCommandBuffer d5))
    with (commandBuffer (m_frameCommandBuffer d4)) by congruence.
  rewrite C4, C3, C2.
  replace (commandBuffer (m_frameCommandBuffer d1))
    with (commandBuffer (m_frameCommandBuffer d))
    by (symmetry; injection H1; intros; assumption).
  unfold draw_commands. repeat rewrite <- app_assoc. reflexivity.
Qed.

Lemma FlushVertices_sound_step : stable sound_step FlushVertices.
Proof.
  intros d [] d' H Hs. exact (proj1 (FlushVertices_sound d d' Hs H)).
Qed.

Ltac sound_tac := unfold sound_step; intros Hs; exact Hs.

Lemma Flush_sound_step : stable sound_step FrameCommandBuffer_Flush.
Proof.
  unfold FrameCommandBuffer_Flush, PreFlushFrameCommandBuffer,
    PostFlushFrameCommandBuffer.
  pose proof sound_step_refl; pose proof sound_step_trans.
  pose proof FlushVertices_sound_step.
  apply stable_bind; [assumption | assumption |]. intros ?.
  repeat stable_step sound_tac.
Qed.

Lemma call_sound_step c : stable sound_step (call c).
Proof.
  pose proof sound_step_refl as Hr; pose proof sound_step_trans as Ht.
  pose proof FlushVertices_sound_step as HF.
  pose proof Flush_sound_step as HFF.
  destruct c;
    unfold call, SetPipelineCaps, SetFramebufferParams, SetDepthbufferParams,
      SetTextureParams, SetTextureAlphaParams, SetAlphaTestParams,
      SetTextureClampParams, SetAlphaBlendingParams, SetScissor, AddVertices;
    try assumption;
    repeat first [ assumption | stable_step sound_tac ].
Qed.

(** X13.  Starting from caches that hold objects built for their keys,
    after any sequence of calls every cached pipeline still has the
    fragment program generated for its descriptor and a layout with the
    bindings of the descriptor's key, and every cached descriptor set was
    allocated for a layout with the bindings of its key and written with
    the resources of that key.  So the next draw binds a pipeline built
    for the committed descriptor and a descriptor set written for its
    key. *)
Theorem cached_objects_fit_their_keys (cs : list Call) (d d' : CDraw)
    (Hs : cache_sound d)
    (H : calls cs d = Ok (tt, d')) :
  (forall caps p,
     cache_find PIPELINE_CAPS_eq_dec caps (m_pipelineCache d') = Some p ->
     pipeline_for caps p (m_context d')) /\
  (forall key s,
     cache_find DESCRIPTORSET_CAPS_eq_dec key (m_descriptorSetCache d')
     = Some s ->
     set_for key s (m_context d')) /\
  (forall d'',
     vertexCount d' <> 0 ->
     FlushVertices d' = Ok (tt, d'') ->
     exists p descriptorSet,
       commandBuffer (m_frameCommandBuffer d'')
       = commandBuffer (m_frameCommandBuffer d')
         ++ draw_commands d' p descriptorSet /\
       pipeline_for (m_pipelineCaps d') p (m_context d'') /\
       set_for (descriptorSetCaps_of (m_pipelineCaps d')) descriptorSet
               (m_context d'')).
Proof.
  assert (Hs' : cache_sound d').
  { revert Hs.
    apply (calls_stable sound_step sound_step_refl sound_step_trans
             call_sound_step cs d tt d' H). }
  destruct Hs' as (Hb & Hp & Hd).
  split; [exact Hp|]. split; [exact Hd|].
  intros d'' Hn HF.
  apply (proj2 (FlushVertices_sound d' d'' (conj Hb (conj Hp Hd)) HF) Hn).
Qed.

(* ---------------- the destination addresses ---------------- *)

Lemma exec_two_AssignI {P : Platform} (ctx : Ctx) v1 e1 v2 e2 s :
  skip s = O ->
  exec ctx [AssignI v1 e1; AssignI v2 e2] s
  = setI v2 (evalI ctx (setI v1 (evalI ctx s e1) s) e2)
         (setI v1 (evalI ctx s e1) s).
Proof.
  intros Hs. unfold exec. cbn [fold_left].
  assert (E1 : exec_stmt ctx s (AssignI v1 e1)
               = setI v1 (evalI ctx s e1) s)
    by (unfold exec_stmt; rewrite Hs; reflexivity).
  rewrite E1. unfold exec_stmt.
  change (skip (setI v1 (evalI ctx s e1) s)) with (skip s). rewrite Hs.
  reflexivity.
Qed.

Lemma Addresses_exec {P : Platform} (ctx : Ctx) caps ad s :
  FS.Addresses caps = Some (tt, ad) -> skip s = O ->
  vI (exec ctx ad s) FS.fbAddress
  = destination_address ctx (framebuffer_storage (framebufferFormat caps))
      DESCRIPTOR_LOCATION_IMAGE_SWIZZLETABLE_FB cx cy /\
  vI (exec ctx ad s) FS.depthAddress
  = destination_address ctx (depthbuffer_storage (depthbufferFormat caps))
      DESCRIPTOR_LOCATION_IMAGE_SWIZZLETABLE_DEPTH cz cw.
Proof.
  intros H Hs. unfold FS.Addresses in H.
  destruct (framebufferFormat caps); try discriminate;
    destruct (depthbufferFormat caps); try discriminate;
    inversion H; subst ad; clear H;
    rewrite (exec_two_AssignI ctx _ _ _ _ s Hs); cbn [vI setI];
    (destruct (IntSym_eq_dec FS.depthAddress FS.fbAddress) as [E|_];
       [discriminate E|]);
    (destruct (IntSym_eq_dec FS.fbAddress FS.fbAddress) as [_|N];
       [|contradiction]);
    (destruct (IntSym_eq_dec FS.depthAddress FS.depthAddress) as [_|N];
       [|contradiction]);
    split; reflexivity.
Qed.

(** X14.  The framebuffer and depth addresses of a run are the swizzled
    addresses of the invocation's pixel in the buffers whose base and
    width the push constants give, under the 32-bit colour layout for the
    32- and 24-bit framebuffer formats, the 32-bit depth layout for the
    32- and 24-bit depth formats and the 16-bit colour layout for the
    16-bit formats of either buffer.  They do not depend on the state the
    invocation starts in. *)
Theorem destination_addresses {P : Platform}
    (caps : PIPELINE_CAPS) (prog : list Stmt) (ctx : Ctx) (st0 : State)
    (H : program (CreateFragmentShader caps) = Some prog) :
  let st := run ctx prog st0 in
  vI st FS.fbAddress
  = destination_address ctx (framebuffer_storage (framebufferFormat caps))
      DESCRIPTOR_LOCATION_IMAGE_SWIZZLETABLE_FB cx cy /\
  vI st FS.depthAddress
  = destination_address ctx (depthbuffer_storage (depthbufferFormat caps))
      DESCRIPTOR_LOCATION_IMAGE_SWIZZLETABLE_DEPTH cz cw.
Proof.
  destruct (run_stages ctx caps prog st0 H)
    as (tex & e & ad & rd & dt & bl & cm & S &
        Ht & He & Had & Hrd & Hdt & Hbl & Hcm &
        E0 & E1 & E2 & E3 & E4 & E5 & Er &
        K0 & K1 & K2 & K3 & K4 & K5 & M0 & M1 & M2 & M3 & M4).
  cbv zeta. rewrite Er.
  assert (Keep : forall v,
            vI (exec ctx [AssignF4 FS.outputColor (xyzw FS.dstColor)]
                     (s_cm S)) v
            = vI (s_ad S) v).
  { intros v.
    assert (U1 : untouched (TVarI v) (s_cm S)
               (exec ctx [AssignF4 FS.outputColor (xyzw FS.dstColor)]
                     (s_cm S))).
    { apply exec_untouched. repeat constructor. cbn. congruence. }
    assert (U2 : untouched (TVarI v) (s_bl S) (s_cm S)).
    { rewrite E5. apply exec_untouched.
      apply (Commit_targets caps cm Hcm); discriminate. }
    assert (U3 : untouched (TVarI v) (s_dt S) (s_bl S)).
    { rewrite E4. apply exec_untouched.
      apply (Blend_targets caps bl Hbl); discriminate. }
    assert (U4 : untouched (TVarI v) (s_rd S) (s_dt S)).
    { rewrite E3. apply exec_untouched.
      apply (DepthTest_targets caps dt Hdt); discriminate. }
    assert (U5 : untouched (TVarI v) (s_ad S) (s_rd S)).
    { rewrite E2. apply exec_untouched.
      apply (DestinationRead_targets caps rd Hrd); discriminate. }
    unfold untouched in U1, U2, U3, U4, U5.
    rewrite U1, U2, U3, U4, U5. reflexivity. }
  rewrite !Keep, E1.
  apply (Addresses_exec ctx caps ad _ Had). exact K0.
Qed.

(* ---------------- closed instances ---------------- *)

Lemma AddVertices_copies_the_run_witness :
  0 <= 3 - 0 <= MAX_VERTEX_COUNT /\
  0 <= m_passVertexEnd draw_ex /\
  let d' := state_after (AddVertices host_ex 0 3) draw_ex in
  AddVertices host_ex 0 3 draw_ex = Ok (tt, d') /\
  forall i, 0 <= i < 3 - 0 ->
    m_frames d' (currentFrame (m_frameCommandBuffer d'))
             (m_passVertexEnd d' - (3 - 0) + i)
    = Some (host_ex (0 + i)).
Proof.
  assert (H1 : 0 <= 3 - 0 <= MAX_VERTEX_COUNT)
    by (vm_compute; split; discriminate).
  assert (H2 : 0 <= m_passVertexEnd draw_ex) by (simpl; lia).
  assert (H3 : AddVertices host_ex 0 3 draw_ex
               = Ok (tt, state_after (AddVertices host_ex 0 3) draw_ex))
    by (vm_compute; reflexivity).
  split; [exact H1|]. split; [exact H2|]. cbv zeta. split; [exact H3|].
  exact (proj1 (proj2 (proj2
    (AddVertices_copies_the_run host_ex 0 3 draw_ex _ H1 H2 H3)))).
Defined.

Lemma draws_tile_the_vertex_buffer_witness :
  batch_bounds draw_ex /\
  tiled draw_ex /\
  Forall run_fits calls_ex /\
  let d' := state_after (calls calls_ex) draw_ex in
  calls calls_ex draw_ex = Ok (tt, d') /\
  tiles (currentFrame (m_frameCommandBuffer d')) None 0
        (commandBuffer (m_frameCommandBuffer d'))
  = Some (m_passVertexStart d') /\
  m_passVertexStart d' = 6 /\
  drawn (recorded d') + (m_passVertexEnd d' - m_passVertexStart d')
  = drawn (recorded draw_ex)
    + (m_passVertexEnd draw_ex - m_passVertexStart draw_ex)
    + fold_right (fun c n => added c + n) 0 calls_ex.
Proof.
  assert (H1 : batch_bounds draw_ex)
    by (vm_compute; repeat split; discriminate).
  assert (H0 : tiled draw_ex) by (split; [reflexivity | constructor]).
  assert (H2 : Forall run_fits calls_ex)
    by (repeat constructor; vm_compute; discriminate).
  assert (H3 : calls calls_ex draw_ex
               = Ok (tt, state_after (calls calls_ex) draw_ex))
    by (vm_compute; reflexivity).
  split; [exact H1|]. split; [exact H0|]. split; [exact H2|].
  cbv zeta. split; [exact H3|].
  destruct (draws_tile_the_vertex_buffer calls_ex draw_ex _ H1 H0 H2 H3)
    as (_ & T & _ & A).
  split; [exact T|]. split; [vm_compute; reflexivity | exact A].
Defined.

Lemma FlushVertices_draws_the_batch_witness :
  let d := state_after (AddVertices host_ex 0 3) draw_ex in
  let d' := state_after FlushVertices d in
  vertexCount d <> 0 /\
  FlushVertices d = Ok (tt, d') /\
  exists p descriptorSet,
    commandBuffer (m_frameCommandBuffer d')
    = commandBuffer (m_frameCommandBuffer d)
      ++ draw_commands d p descriptorSet.
Proof.
  cbv zeta.
  assert (H1 : vertexCount (state_after (AddVertices host_ex 0 3) draw_ex)
               <> 0)
    by (vm_compute; discriminate).
  assert (H2 : FlushVertices (state_after (AddVertices host_ex 0 3) draw_ex)
               = Ok (tt, state_after FlushVertices
                           (state_after (AddVertices host_ex 0 3) draw_ex)))
    by (vm_compute; reflexivity).
  split; [exact H1|]. split; [exact H2|].
  destruct (FlushVertices_draws_the_batch _ _ H1 H2)
    as (p & descriptorSet & _ & _ & Hc & _).
  exists p, descriptorSet. exact Hc.
Defined.

Lemma depth_test_compares_source_and_destination_depth_witness :
  program (CreateFragmentShader caps_tex) = Some (program_of caps_tex) /\
  let ctx := ctx_ex 4294967295 255 128 in
  let st := run ctx (program_of caps_tex) (st_ex 4278255360) in
  vB st FS.depthTestResult
  = (load_depth (depthbufferFormat caps_tex) (mem (st_ex 4278255360))
                (vI st FS.depthAddress)
     <=? srcDepth_of ctx).
Proof.
  split; [reflexivity|].
  exact (proj1
    (depth_test_compares_source_and_destination_depth
       (P := ReferencePlatform) caps_tex (program_of caps_tex)
       (ctx_ex 4294967295 255 128) (st_ex 4278255360) eq_refl)).
Defined.

Lemma output_colour_without_blending_witness :
  program (CreateFragmentShader caps_ex) = Some (program_of caps_ex) /\
  let ctx := ctx_ex 4294967295 255 128 in
  let st := run ctx (program_of caps_ex) (st_ex 4278255360) in
  forall c, vF st FS.outputColor c = vF st FS.textureColor c.
Proof.
  split; [reflexivity|].
  exact (proj1 (proj2
    (output_colour_without_blending (P := ReferencePlatform) caps_ex
       (program_of caps_ex) (ctx_ex 4294967295 255 128) (st_ex 4278255360)
       eq_refl)) eq_refl).
Defined.

Lemma ExpandAlpha_semantics_witness :
  let l := stage_of (ExpandAlpha PSMCT24 PSMCT32 true FS.textureColor
                                 FS.texA0 FS.texA1) in
  ExpandAlpha PSMCT24 PSMCT32 true FS.textureColor FS.texA0 FS.texA1
  = Some (tt, l) /\
  skip (st_ex 0) = O /\
  vF (exec (ctx_ex 0 0 0) l (st_ex 0)) FS.textureColor cw
  = expanded_alpha PSMCT24 PSMCT32 true (ctx_ex 0 0 0)
      (vF (st_ex 0) FS.textureColor).
Proof.
  cbv zeta. split; [reflexivity|]. split; [reflexivity|].
  exact (proj1 (proj2 (proj2 (proj2 (proj2
    (ExpandAlpha_semantics (P := ReferencePlatform) PSMCT24 PSMCT32 true
       (stage_of (ExpandAlpha PSMCT24 PSMCT32 true FS.textureColor
                              FS.texA0 FS.texA1))
       (ctx_ex 0 0 0) (st_ex 0) eq_refl eq_refl)))))).
Defined.

Lemma texture_function_semantics_witness :
  program (CreateFragmentShader caps_tex) = Some (program_of caps_tex) /\
  hasTexture caps_tex = true /\
  exists sampling fn,
    TextureFunction caps_tex = Some (tt, fn) /\
    FS.TextureStage caps_tex = Some (tt, sampling ++ fn) /\
    forall c,
      vF (run (ctx_ex 0 0 0) (program_of caps_tex) (st_ex 0))
         FS.textureColor c
      = texture_function caps_tex
          (vF (run (ctx_ex 0 0 0) sampling (st_ex 0)) FS.textureColor)
          (inF (ctx_ex 0 0 0) SEMANTIC_TEXCOORD 2) c.
Proof.
  split; [reflexivity|]. split; [reflexivity|].
  destruct (texture_function_semantics (P := ReferencePlatform) caps_tex
              (program_of caps_tex) (ctx_ex 0 0 0) (st_ex 0)
              eq_refl eq_refl)
    as (u & v & color & lc & le & fn & _ & _ & Hfn & Hst & Hc).
  eexists _, fn. split; [exact Hfn|]. split; [exact Hst | exact Hc].
Defined.

Lemma generated_program_is_well_formed_witness :
  program (CreateFragmentShader caps_blend) = Some (program_of caps_blend) /\
  nesting (program_of caps_blend) O = Some O /\
  filter interlock_marker (program_of caps_blend)
  = [BeginInvocationInterlock; EndInvocationInterlock].
Proof.
  split; [reflexivity|].
  destruct (generated_program_is_well_formed (P := ReferencePlatform)
              caps_blend (program_of caps_blend) eq_refl)
    as (Hn & _ & Hm & _).
  split; [exact Hn | exact Hm].
Defined.

Lemma pipeline_layout_binds_what_the_shader_uses_witness :
  let p := {| descriptorSetLayout := 5; pipelineLayout := 6;
              pipeline := 7 |} in
  let d' := state_after (CreateDrawPipeline caps_tex) draw_ex in
  CreateDrawPipeline caps_tex draw_ex = Ok (p, d') /\
  exists bs,
    object_at (descriptorSetLayout p) (m_context d')
    = Some (VkDescriptorSetLayout_ bs) /\
    map slot_of_binding bs = slots (descriptorSetCaps_of caps_tex).
Proof.
  cbv zeta.
  assert (H : CreateDrawPipeline caps_tex draw_ex
              = Ok ({| descriptorSetLayout := 5; pipelineLayout := 6;
                       pipeline := 7 |},
                    state_after (CreateDrawPipeline caps_tex) draw_ex))
    by (vm_compute; reflexivity).
  split; [exact H|].
  destruct (pipeline_layout_binds_what_the_shader_uses _ _ _ _ H)
    as (vm & fm & vprog & prog & bs & _ & _ & _ & _ & _ & _ & Hl & Hs & _).
  exists bs. split; [exact Hl | exact Hs].
Defined.

Lemma descriptor_set_is_written_for_its_key_witness :
  let key := descriptorSetCaps_of caps_tex in
  let d' := state_after (PrepareDescriptorSet 5 key) draw_ex in
  cache_find DESCRIPTORSET_CAPS_eq_dec key (m_descriptorSetCache draw_ex)
  = None /\
  PrepareDescriptorSet 5 key draw_ex = Ok (3, d') /\
  exists writes,
    object_at 3 (m_context d') = Some (VkDescriptorSet_ 5 writes) /\
    map slot_of_write writes = slots key /\
    forall w, In w writes ->
      dstSet w = 3 /\ pInfo w = resource_at key (dstBinding w).
Proof.
  cbv zeta.
  assert (H1 : cache_find DESCRIPTORSET_CAPS_eq_dec
                 (descriptorSetCaps_of caps_tex)
                 (m_descriptorSetCache draw_ex) = None)
    by reflexivity.
  assert (H2 : PrepareDescriptorSet 5 (descriptorSetCaps_of caps_tex) draw_ex
               = Ok (3, state_after
                          (PrepareDescriptorSet 5
                             (descriptorSetCaps_of caps_tex)) draw_ex))
    by (vm_compute; reflexivity).
  split; [exact H1|]. split; [exact H2|].
  exact (proj1 (proj2 (proj2
    (descriptor_set_is_written_for_its_key 5 _ draw_ex _ 3 H1 H2)))).
Defined.

Lemma cached_objects_fit_their_keys_witness :
  let d' := state_after (calls calls_ex) draw_ex in
  cache_sound draw_ex /\
  calls calls_ex draw_ex = Ok (tt, d') /\
  forall caps p,
    cache_find PIPELINE_CAPS_eq_dec caps (m_pipelineCache d') = Some p ->
    pipeline_for caps p (m_context d').
Proof.
  cbv zeta.
  assert (H1 : cache_sound draw_ex).
  { unfold cache_sound. simpl.
    split; [intros h o Ho; discriminate Ho|].
    split; intros k v Hf; discriminate Hf. }
  assert (H2 : calls calls_ex draw_ex
               = Ok (tt, state_after (calls calls_ex) draw_ex))
    by (vm_compute; reflexivity).
  split; [exact H1|]. split; [exact H2|].
  exact (proj1 (cached_objects_fit_their_keys calls_ex draw_ex _ H1 H2)).
Defined.

Lemma destination_addresses_witness :
  program (CreateFragmentShader caps_tex) = Some (program_of caps_tex) /\
  let ctx := ctx_ex 4294967295 255 128 in
  let st := run ctx (program_of caps_tex) (st_ex 4278255360) in
  vI st FS.fbAddress
  = destination_address ctx STORAGEPSMCT16
      DESCRIPTOR_LOCATION_IMAGE_SWIZZLETABLE_FB cx cy /\
  vI st FS.depthAddress
  = destination_address ctx STORAGEPSMCT16
      DESCRIPTOR_LOCATION_IMAGE_SWIZZLETABLE_DEPTH cz cw.
Proof.
  split; [reflexivity|].
  exact (destination_addresses (P := ReferencePlatform) caps_tex
           (program_of caps_tex) (ctx_ex 4294967295 255 128)
           (st_ex 4278255360) eq_refl).
Defined.

Lemma destination_accesses_are_interlocked_witness :
  program (CreateFragmentShader caps_blend) = Some (program_of caps_blend) /\
  exists before inside after,
    program_of caps_blend
    = before ++ [BeginInvocationInterlock] ++ inside
      ++ [EndInvocationInterlock] ++ after /\
    forallb (fun s => negb (touches_destination s)) before = true /\
    forallb (fun s => negb (touches_destination s)) after = true.
Proof.
  split; [reflexivity|].
  exact (destination_accesses_are_interlocked caps_blend
           (program_of caps_blend) eq_refl).
Defined.
